(** * adp-kpi-monitoring: a shallow embedding of the check engine

    The development follows the three source files:
    - [main.py]: the monitor classes ([ServerPingMonitor], [TelnetMonitor],
      [ServiceMonitor], [CPUMonitor], [RAMMonitor], [DiskMonitor]) and
      [CheckManager];
    - [handlers.py]: [StrategyFactory] and the three strategies;
    - [api.py]: [read_results].

    Python code that performs I/O is written in a state-and-exception monad.
    The answers of the outside world (ping, sockets, SSH, psutil, HTTP, the
    clock) are read from a [world] record of oracles, indexed by the number
    of external calls made so far.  The [config] module is not part of the
    sources and is a parameter.

    Conventions of the model:
    - a Python [float] is a rational number; [repr] and [float()] of floats
      and the rounding of binary64 division and multiplication are
      parameters of the world;
    - a [str] is its UTF-8 byte string, and [bytes] are a byte string; where
      the code counts characters, a [str] is the list of its code points;
    - a dict is an association list in insertion order;
    - opening a log file may fail; once a handler exists, writing a record
      does not raise (the [logging] module reports the errors of its
      handlers on the standard error stream and goes on); the time stamp
      that the formatter puts before a message is not kept;
    - the clock advances only while a host is looked up, while a connection
      is attempted and while the loop sleeps;
    - the state carries a trace of the calls of [handle_failure],
      [handle_warning], the [handle] methods, the thread operations, the flush
      and the sleep. *)

From Stdlib Require Import String Ascii List ZArith NArith QArith Qround Bool Lia.
From Stdlib Require Import DecimalString Permutation.
Import ListNotations.

Set Warnings "-register-all".
Local Open Scope list_scope.
Local Open Scope string_scope.

(** ** UTF-8 *)

Module Utf8.

Definition byte (c : ascii) : N := N_of_ascii c.
Definition chr (n : N) : ascii := ascii_of_N n.

Definition is_cont (c : ascii) : bool := (N.shiftr (byte c) 6 =? 2)%N.
Definition low6 (c : ascii) : N := N.land (byte c) 63.

(** Code points of a UTF-8 byte string; a byte that does not start a
    well-formed sequence stands for itself. *)
Fixpoint decode (s : string) : list N :=
  match s with
  | EmptyString => []
  | String a r =>
      let b := byte a in
      if (b <? 128)%N then b :: decode r
      else
        match r with
        | String c1 r1 =>
            if (N.shiftr b 5 =? 6)%N && is_cont c1
            then (N.land b 31 * 64 + low6 c1)%N :: decode r1
            else
              match r1 with
              | String c2 r2 =>
                  if (N.shiftr b 4 =? 14)%N && is_cont c1 && is_cont c2
                  then (N.land b 15 * 4096 + low6 c1 * 64 + low6 c2)%N :: decode r2
                  else
                    match r2 with
                    | String c3 r3 =>
                        if (N.shiftr b 3 =? 30)%N && is_cont c1 && is_cont c2 && is_cont c3
                        then (N.land b 7 * 262144 + low6 c1 * 4096
                              + low6 c2 * 64 + low6 c3)%N :: decode r3
                        else b :: decode r
                    | EmptyString => b :: decode r
                    end
              | EmptyString => b :: decode r
              end
        | EmptyString => [b]
        end
  end.

Definition cont (n : N) : ascii := chr (128 + N.land n 63).

(** Bytes of one code point (surrogates are encoded like any other
    three-byte code point). *)
Definition encode1 (cp : N) : string :=
  if (cp <? 128)%N then String (chr cp) EmptyString
  else if (cp <? 2048)%N then
    String (chr (192 + N.shiftr cp 6)) (String (cont cp) EmptyString)
  else if (cp <? 65536)%N then
    String (chr (224 + N.shiftr cp 12))
      (String (cont (N.shiftr cp 6)) (String (cont cp) EmptyString))
  else
    String (chr (240 + N.shiftr cp 18))
      (String (cont (N.shiftr cp 12))
         (String (cont (N.shiftr cp 6)) (String (cont cp) EmptyString))).

(** The bytes of a sequence of code points. *)
Definition encode (l : list N) : string :=
  String.concat EmptyString (map encode1 l).

End Utf8.

(** ** Python strings *)

Module PyStr.

Definition nl : string := String (ascii_of_nat 10) EmptyString.

Fixpoint is_prefix (p s : string) : bool :=
  match p, s with
  | EmptyString, _ => true
  | String a p', String b s' => Ascii.eqb a b && is_prefix p' s'
  | String _ _, EmptyString => false
  end.

(** [sub in s] on two [str] values: substring test. *)
Fixpoint py_in (sub s : string) : bool :=
  is_prefix sub s ||
  match s with
  | EmptyString => false
  | String _ s' => py_in sub s'
  end.

Fixpoint drop (n : nat) (s : string) : string :=
  match n, s with
  | O, _ => s
  | S n', String _ s' => drop n' s'
  | S _, EmptyString => EmptyString
  end.

Fixpoint take (n : nat) (s : string) : string :=
  match n, s with
  | O, _ => EmptyString
  | S n', String a s' => String a (take n' s')
  | S _, EmptyString => EmptyString
  end.

(** Offset of the first occurrence of [sub] in [s] ([None] when absent). *)
Fixpoint find_from (sub s : string) (pos : nat) : option nat :=
  if is_prefix sub s then Some pos
  else match s with
       | EmptyString => None
       | String _ s' => find_from sub s' (S pos)
       end.

(** [s.find(sub, start)]; [None] stands for Python's [-1]. *)
Definition find (s sub : string) (start : nat) : option nat :=
  if (String.length s <? start)%nat then None
  else find_from sub (drop start s) start.

(** White space in the sense of [str.isspace]. *)
Definition is_space (cp : N) : bool :=
  ((9 <=? cp) && (cp <=? 13) || (28 <=? cp) && (cp <=? 32) || (cp =? 133) || (cp =? 160)
   || (cp =? 5760) || (8192 <=? cp) && (cp <=? 8202) || (cp =? 8232) || (cp =? 8233)
   || (cp =? 8239) || (cp =? 8287) || (cp =? 12288))%N.

Fixpoint lstrip (l : list N) : list N :=
  match l with
  | cp :: l' => if is_space cp then lstrip l' else l
  | [] => []
  end.

Fixpoint rev_string (s acc : string) : string :=
  match s with
  | EmptyString => acc
  | String c s' => rev_string s' (String c acc)
  end.

(** [s.strip()]: the white space characters at both ends are removed. *)
Definition strip (s : string) : string :=
  Utf8.encode (rev (lstrip (rev (lstrip (Utf8.decode s))))).

Definition of_Z (z : Z) : string := NilZero.string_of_int (Z.to_int z).

End PyStr.

(** ** A [str] as the sequence of its code points

    Used where the code counts characters: the offsets that [find] returns
    and the bounds of a slice. *)

Module Text.

Definition of_string (s : string) : list N := Utf8.decode s.
Definition to_string (l : list N) : string := Utf8.encode l.

Fixpoint is_prefix (p s : list N) : bool :=
  match p, s with
  | [], _ => true
  | a :: p', b :: s' => (a =? b)%N && is_prefix p' s'
  | _ :: _, [] => false
  end.

(** [sub in s]. *)
Fixpoint py_in (sub s : list N) : bool :=
  is_prefix sub s ||
  match s with
  | [] => false
  | _ :: s' => py_in sub s'
  end.

Fixpoint find_from (sub s : list N) (pos : nat) : option nat :=
  if is_prefix sub s then Some pos
  else match s with
       | [] => None
       | _ :: s' => find_from sub s' (S pos)
       end.

(** [s.find(sub, start)]; [None] stands for Python's [-1]. *)
Definition find (s sub : list N) (start : nat) : option nat :=
  if (List.length s <? start)%nat then None
  else find_from sub (skipn start s) start.

(** [s[start:stop]] for [start >= 0]; a negative [stop] counts from the
    end, as Python slices do. *)
Definition slice (s : list N) (start : nat) (stop : Z) : list N :=
  let len := Z.of_nat (List.length s) in
  let stop' := if (stop <? 0)%Z then Z.max 0 (len + stop) else Z.min stop len in
  firstn (Z.to_nat stop' - start) (skipn start s).

End Text.

(** ** Python numbers

    [int] values are [Z]; [float] values are idealised as rationals. *)

Inductive pynum : Type :=
| PInt (z : Z)
| PFloat (q : Q).

Definition pynum_Q (n : pynum) : Q :=
  match n with
  | PInt z => inject_Z z
  | PFloat q => q
  end.

(** [a >= b] on numbers. *)
Definition py_ge (a b : pynum) : bool := Qle_bool (pynum_Q b) (pynum_Q a).

(** Nearest integer to [q], ties to even. *)
Definition round_half_even (q : Q) : Z :=
  let f := Qfloor q in
  let r := (q - inject_Z f)%Q in
  match Qcompare r (1 # 2) with
  | Lt => f
  | Gt => (f + 1)%Z
  | Eq => if Z.even f then f else (f + 1)%Z
  end.

(** [round(x, 3)]: an [int] is returned unchanged, a [float] is rounded to
    three decimals. *)
Definition py_round3 (n : pynum) : pynum :=
  match n with
  | PInt z => PInt z
  | PFloat q => PFloat (Qred (inject_Z (round_half_even (q * 1000)) / 1000))
  end.

(** ** JSON documents and the [json] module *)

Inductive json : Type :=
| JNull
| JBool (b : bool)
| JNum (lexeme : string)
| JStr (s : string)
| JArr (items : list json)
| JObj (members : list (string * json)).

(** [d[k] = v] on an insertion-ordered dict. *)
Fixpoint dict_set {V : Type} (k : string) (v : V) (d : list (string * V))
  : list (string * V) :=
  match d with
  | [] => [(k, v)]
  | (k', v') :: d' =>
      if String.eqb k k' then (k, v) :: d' else (k', v') :: dict_set k v d'
  end.

Fixpoint dict_get {V : Type} (k : string) (d : list (string * V)) : option V :=
  match d with
  | [] => None
  | (k', v') :: d' => if String.eqb k k' then Some v' else dict_get k d'
  end.

(** [v == s] for a loaded document [v] and a [str] literal [s]: only a
    string can be equal to a string. *)
Definition py_eq_str (v : json) (s : string) : bool :=
  match v with
  | JStr s' => String.eqb s' s
  | _ => false
  end.

Module Json.

Definition dq : string := String (ascii_of_nat 34) EmptyString.
Definition backslash : string := String (ascii_of_nat 92) EmptyString.

Definition hex_digit (n : N) : ascii :=
  if (n <? 10)%N then ascii_of_N (48 + n) else ascii_of_N (87 + n).

Definition hex4 (n : N) : string :=
  String (hex_digit (N.land (N.shiftr n 12) 15))
    (String (hex_digit (N.land (N.shiftr n 8) 15))
       (String (hex_digit (N.land (N.shiftr n 4) 15))
          (String (hex_digit (N.land n 15)) EmptyString))).

(** One code point of a string literal, as [json.dumps] writes it with
    its default [ensure_ascii=True]. *)
Definition escape_cp (cp : N) : string :=
  if (cp =? 34)%N then backslash ++ dq
  else if (cp =? 92)%N then backslash ++ backslash
  else if (cp =? 10)%N then "\n"
  else if (cp =? 13)%N then "\r"
  else if (cp =? 9)%N then "\t"
  else if (cp =? 8)%N then "\b"
  else if (cp =? 12)%N then "\f"
  else if (32 <=? cp)%N && (cp <=? 126)%N then String (ascii_of_N cp) EmptyString
  else if (cp <? 65536)%N then "\u" ++ hex4 cp
  else
    let v := (cp - 65536)%N in
    "\u" ++ hex4 (55296 + N.shiftr v 10) ++ "\u" ++ hex4 (56320 + N.land v 1023).

Definition encode_string (s : string) : string :=
  dq ++ String.concat EmptyString (map escape_cp (Utf8.decode s)) ++ dq.

Fixpoint spaces (n : nat) : string :=
  match n with
  | O => EmptyString
  | S n' => String " " (spaces n')
  end.

Definition newline_indent (level : nat) : string :=
  PyStr.nl ++ spaces (4 * level).

(** [json.dumps(v, indent=4)] at nesting depth [level]. *)
Fixpoint encode (level : nat) (v : json) {struct v} : string :=
  match v with
  | JNull => "null"
  | JBool true => "true"
  | JBool false => "false"
  | JNum lexeme => lexeme
  | JStr s => encode_string s
  | JArr [] => "[]"
  | JArr (x :: xs) =>
      "[" ++ newline_indent (S level) ++ encode (S level) x
      ++ (fix rest (l : list json) : string :=
            match l with
            | [] => EmptyString
            | y :: l' => "," ++ newline_indent (S level) ++ encode (S level) y ++ rest l'
            end) xs
      ++ newline_indent level ++ "]"
  | JObj [] => "{}"
  | JObj ((k, x) :: xs) =>
      "{" ++ newline_indent (S level) ++ encode_string k ++ ": " ++ encode (S level) x
      ++ (fix rest (l : list (string * json)) : string :=
            match l with
            | [] => EmptyString
            | (k', y) :: l' =>
                "," ++ newline_indent (S level) ++ encode_string k' ++ ": "
                ++ encode (S level) y ++ rest l'
            end) xs
      ++ newline_indent level ++ "}"
  end.

Definition dumps (v : json) : string := encode 0 v.

(** *** Decoding *)

Definition is_ws (c : ascii) : bool :=
  let n := nat_of_ascii c in
  ((n =? 32) || (n =? 9) || (n =? 10) || (n =? 13))%nat.

Fixpoint skip_ws (s : string) : string :=
  match s with
  | String c r => if is_ws c then skip_ws r else s
  | EmptyString => EmptyString
  end.

Definition is_digit (c : ascii) : bool :=
  let n := nat_of_ascii c in ((48 <=? n) && (n <=? 57))%nat.

Definition hex_value (c : ascii) : option N :=
  let n := N_of_ascii c in
  if (48 <=? n)%N && (n <=? 57)%N then Some (n - 48)%N
  else if (97 <=? n)%N && (n <=? 102)%N then Some (n - 87)%N
  else if (65 <=? n)%N && (n <=? 70)%N then Some (n - 55)%N
  else None.

(** Four hexadecimal digits at the head of [s]. *)
Definition read_hex4 (s : string) : option (N * string) :=
  match s with
  | String a (String b (String c (String d r))) =>
      match hex_value a, hex_value b, hex_value c, hex_value d with
      | Some x, Some y, Some z, Some w => Some (x * 4096 + y * 256 + z * 16 + w, r)%N
      | _, _, _, _ => None
      end
  | _ => None
  end.

Definition is_high_surrogate (n : N) : bool := (55296 <=? n)%N && (n <=? 56319)%N.
Definition is_low_surrogate (n : N) : bool := (56320 <=? n)%N && (n <=? 57343)%N.

(** The characters of a string literal after its opening quote, up to
    and including the closing quote. *)
Fixpoint parse_string (fuel : nat) (s : string) : option (string * string) :=
  match fuel with
  | O => None
  | S fuel' =>
      match s with
      | EmptyString => None
      | String c r =>
          let n := N_of_ascii c in
          if (n =? 34)%N then Some (EmptyString, r)
          else if (n <? 32)%N then None
          else if (n =? 92)%N then
            match r with
            | EmptyString => None
            | String e r' =>
                let continue (piece rest : string) :=
                  match parse_string fuel' rest with
                  | Some (t, rest') => Some (piece ++ t, rest')
                  | None => None
                  end in
                let one (k : N) := continue (String (ascii_of_N k) EmptyString) r' in
                let m := N_of_ascii e in
                if (m =? 34)%N then one 34%N
                else if (m =? 92)%N then one 92%N
                else if (m =? 47)%N then one 47%N
                else if (m =? 98)%N then one 8%N
                else if (m =? 102)%N then one 12%N
                else if (m =? 110)%N then one 10%N
                else if (m =? 114)%N then one 13%N
                else if (m =? 116)%N then one 9%N
                else if (m =? 117)%N then
                  match read_hex4 r' with
                  | None => None
                  | Some (u, r2) =>
                      match r2 with
                      | String b1 (String b2 r3) =>
                          if is_high_surrogate u && (N_of_ascii b1 =? 92)%N
                             && (N_of_ascii b2 =? 117)%N
                          then
                            match read_hex4 r3 with
                            | Some (u2, r4) =>
                                if is_low_surrogate u2
                                then continue
                                       (Utf8.encode1
                                          (65536 + (u - 55296) * 1024 + (u2 - 56320))%N) r4
                                else continue (Utf8.encode1 u) r2
                            | None => continue (Utf8.encode1 u) r2
                            end
                          else continue (Utf8.encode1 u) r2
                      | _ => continue (Utf8.encode1 u) r2
                      end
                  end
                else None
            end
          else
            match parse_string fuel' r with
            | Some (t, rest') => Some (String c t, rest')
            | None => None
            end
      end
  end.

Fixpoint span_digits (s : string) : string * string :=
  match s with
  | String c r =>
      if is_digit c then let (d, rest) := span_digits r in (String c d, rest)
      else (EmptyString, s)
  | EmptyString => (EmptyString, EmptyString)
  end.

(** The longest prefix that is a JSON number: an optional minus sign, an
    integer part (a single zero, or a non-zero digit followed by digits),
    an optional fraction (a dot and at least one digit) and an optional
    exponent (e or E, an optional sign, at least one digit). *)
Definition parse_number (s : string) : option (string * string) :=
  let (sign, s1) :=
    match s with
    | String "-" r => ("-", r)
    | _ => (EmptyString, s)
    end in
  match s1 with
  | String c r =>
      if is_digit c then
        let (int_part, s2) :=
          if Ascii.eqb c "0" then ("0", r) else span_digits s1 in
        let (frac, s3) :=
          match s2 with
          | String "." r2 =>
              let (d, rest) := span_digits r2 in
              match d with
              | EmptyString => (EmptyString, s2)
              | _ => ("." ++ d, rest)
              end
          | _ => (EmptyString, s2)
          end in
        let (expo, s4) :=
          match s3 with
          | String e r3 =>
              if Ascii.eqb e "e" || Ascii.eqb e "E" then
                let (sg, r4) :=
                  match r3 with
                  | String "+" r' => ("+", r')
                  | String "-" r' => ("-", r')
                  | _ => (EmptyString, r3)
                  end in
                let (d, rest) := span_digits r4 in
                match d with
                | EmptyString => (EmptyString, s3)
                | _ => (String e (sg ++ d), rest)
                end
              else (EmptyString, s3)
          | EmptyString => (EmptyString, s3)
          end in
        Some (sign ++ int_part ++ frac ++ expo, s4)
      else None
  | EmptyString => None
  end.

Definition literal (word : string) (v : json) (s : string) : option (json * string) :=
  if PyStr.is_prefix word s then Some (v, PyStr.drop (String.length word) s) else None.

(** The scanner of [json.loads]: one value at the head of [s]. *)
Fixpoint parse_value (fuel : nat) (s : string) {struct fuel} : option (json * string) :=
  match fuel with
  | O => None
  | S fuel' =>
      match s with
      | EmptyString => None
      | String c r =>
          let n := N_of_ascii c in
          if (n =? 34)%N then
            match parse_string (S (String.length r)) r with
            | Some (t, rest) => Some (JStr t, rest)
            | None => None
            end
          else if (n =? 123)%N then
            match parse_members fuel' (skip_ws r) true [] with
            | Some (kvs, rest) => Some (JObj kvs, rest)
            | None => None
            end
          else if (n =? 91)%N then
            match parse_items fuel' (skip_ws r) true with
            | Some (vs, rest) => Some (JArr vs, rest)
            | None => None
            end
          else if (n =? 110)%N then literal "null" JNull s
          else if (n =? 116)%N then literal "true" (JBool true) s
          else if (n =? 102)%N then literal "false" (JBool false) s
          else
            match parse_number s with
            | Some (lexeme, rest) => Some (JNum lexeme, rest)
            | None =>
                if (n =? 78)%N then literal "NaN" (JNum "NaN") s
                else if (n =? 73)%N then literal "Infinity" (JNum "Infinity") s
                else if (n =? 45)%N then literal "-Infinity" (JNum "-Infinity") s
                else None
            end
      end
  end

(** The members of an object after its opening brace; [first] tells that
    no member was read yet, so that the closing brace may follow. *)
with parse_members (fuel : nat) (s : string) (first : bool)
       (acc : list (string * json)) {struct fuel} : option (list (string * json) * string) :=
  match fuel with
  | O => None
  | S fuel' =>
      match s with
      | String c r =>
          let n := N_of_ascii c in
          if first && (n =? 125)%N then Some (acc, r)
          else if (n =? 34)%N then
            match parse_string (S (String.length r)) r with
            | None => None
            | Some (k, r1) =>
                match skip_ws r1 with
                | String ":" r2 =>
                    match parse_value fuel' (skip_ws r2) with
                    | None => None
                    | Some (v, r3) =>
                        let acc' := dict_set k v acc in
                        match skip_ws r3 with
                        | String "}" r4 => Some (acc', r4)
                        | String "," r4 => parse_members fuel' (skip_ws r4) false acc'
                        | _ => None
                        end
                    end
                | _ => None
                end
            end
          else None
      | EmptyString => None
      end
  end

(** The items of an array after its opening bracket. *)
with parse_items (fuel : nat) (s : string) (first : bool) {struct fuel}
     : option (list json * string) :=
  match fuel with
  | O => None
  | S fuel' =>
      match s with
      | String "]" r => if first then Some ([], r) else None
      | _ =>
          match parse_value fuel' s with
          | None => None
          | Some (v, r1) =>
              match skip_ws r1 with
              | String "]" r2 => Some ([v], r2)
              | String "," r2 =>
                  match parse_items fuel' (skip_ws r2) false with
                  | Some (vs, r3) => Some (v :: vs, r3)
                  | None => None
                  end
              | _ => None
              end
          end
      end
  end.

(** [json.loads(s)]; [None] stands for [JSONDecodeError]. *)
Definition loads (s : string) : option json :=
  let s1 := skip_ws s in
  match parse_value (S (String.length s1)) s1 with
  | Some (v, rest) =>
      match skip_ws rest with
      | EmptyString => Some v
      | String _ _ => None
      end
  | None => None
  end.

End Json.

(** ** Exceptions and results *)

Inductive exn_kind : Type :=
| KeyError | TypeError | AttributeError | NameError | ValueError
| ZeroDivisionError | FileNotFoundError | JSONDecodeError | OSError
| UnicodeDecodeError.

(** An exception object: its class and the text of [str(e)].  Every class
    above derives from [Exception]. *)
Record exn : Type := Exn { exn_kind_of : exn_kind; exn_str : string }.

Inductive result (A : Type) : Type :=
| Ok (a : A)
| Raise (e : exn).
Arguments Ok {A} a.
Arguments Raise {A} e.

Definition is_ok {A : Type} (r : result A) : bool :=
  match r with Ok _ => true | Raise _ => false end.

(** ** The code page 1251 *)

Module Cp1251.

(** The characters of the bytes [0x80] to [0xBF]; the byte [0x98] has
    none. *)
Definition high_table : list (option N) :=
  [Some 1026; Some 1027; Some 8218; Some 1107; Some 8222; Some 8230; Some 8224; Some 8225;
   Some 8364; Some 8240; Some 1033; Some 8249; Some 1034; Some 1036; Some 1035; Some 1039;
   Some 1106; Some 8216; Some 8217; Some 8220; Some 8221; Some 8226; Some 8211; Some 8212;
   None; Some 8482; Some 1113; Some 8250; Some 1114; Some 1116; Some 1115; Some 1119;
   Some 160; Some 1038; Some 1118; Some 1032; Some 164; Some 1168; Some 166; Some 167;
   Some 1025; Some 169; Some 1028; Some 171; Some 172; Some 173; Some 174; Some 1031;
   Some 176; Some 177; Some 1030; Some 1110; Some 1169; Some 181; Some 182; Some 183;
   Some 1105; Some 8470; Some 1108; Some 187; Some 1112; Some 1029; Some 1109; Some 1111]%N.

(** The character of one byte: an ASCII byte stands for itself, and the
    bytes [0xC0] to [0xFF] are the letters from U+0410 to U+044F. *)
Definition decode_byte (b : N) : option N :=
  if (b <? 128)%N then Some b
  else if (b <? 192)%N then nth (N.to_nat (b - 128)) high_table None
  else Some (b + 848)%N.

Definition undefined (pos : nat) : exn :=
  Exn UnicodeDecodeError
    ("'charmap' codec can't decode byte 0x98 in position " ++ PyStr.of_Z (Z.of_nat pos)
     ++ ": character maps to <undefined>").

Fixpoint decode_at (pos : nat) (data : string) : result (list N) :=
  match data with
  | EmptyString => Ok []
  | String c r =>
      match decode_byte (N_of_ascii c) with
      | None => Raise (undefined pos)
      | Some cp =>
          match decode_at (S pos) r with
          | Ok l => Ok (cp :: l)
          | Raise e => Raise e
          end
      end
  end.

(** [data.decode('cp1251')]: one character per byte; the first byte that
    has no character raises [UnicodeDecodeError]. *)
Definition decode (data : string) : result (list N) := decode_at 0 data.

End Cp1251.

(** ** Configuration *)

(** Modelled from the spec: the [config] module ([servers],
    [resourse_limits], [response_time_limit], [chats]) is imported by
    [main.py] and [handlers.py] but is not among the sources.  A check has a
    name, a type and type-specific parameters.  The type-specific keys may
    be absent from the dict, in which case subscripting raises
    [KeyError]. *)
Record CheckConfig : Type := {
  c_name : string;
  c_type : string;
  c_port : option Z;
  c_service : option string
}.

(** Modelled from the spec: a server of the [config] module has a name, a
    host, credentials and an ordered sequence of checks.  The credentials
    may be absent from the dict. *)
Record ServerConfig : Type := {
  s_name : string;
  s_host : string;
  s_user : option string;
  s_password : option string;
  s_checks : list CheckConfig
}.

(** Modelled from the spec: the four names that the sources import from
    the [config] module. *)
Record config : Type := {
  servers : list ServerConfig;
  resourse_limits : list (string * pynum);
  response_time_limit : pynum;
  chats : list Z
}.

(** ** The outside world *)

(** What the peer does with a TCP connection attempt. *)
Inductive conn_behaviour : Type :=
| Accepts (after : Q)
| Refuses (after : Q) (e : exn)
| Silent.

(** What the lookup of a host and a port answers: the addresses of the
    host, each with the behaviour of the peer at that address, or an error;
    [after] is the time that the lookup takes. *)
Inductive resolution : Type :=
| Resolves (after : Q) (addresses : list conn_behaviour)
| Unresolved (after : Q) (e : exn).

(** An established SSH session. *)
Record session : Type := { ss_id : nat; ss_host : string }.

(** Answers of the environment.  The first argument of an oracle is the
    number of external calls made before this one, so that two calls with
    the same arguments may be answered differently.  [w_float_repr] and
    [w_float_parse] are the pure conversions [repr(x)] and [float(s)] of
    Python floats ([None] is [ValueError]); [w_float_div] and [w_float_mul]
    are the quotient and the product of binary64 arithmetic; [w_str_repr]
    is [repr(s)] of a [str].  [w_subprocess_run] answers the return code and
    the bytes captured from the standard output; [w_open_log] is the attempt
    of [logging.FileHandler] to open a log file for appending.
    [w_ssh_exec] answers the texts read and decoded from the standard
    output and the error stream of the command, or the exception of
    [exec_command], of [read] or of [decode]. *)
Record world : Type := {
  w_float_repr : Q -> string;
  w_float_parse : string -> option Q;
  w_float_div : Q -> Q -> Q;
  w_float_mul : Q -> Q -> Q;
  w_str_repr : string -> string;
  w_subprocess_run : nat -> list string -> result (Z * string);
  w_connect : nat -> string -> Z -> resolution;
  w_open_log : nat -> string -> result unit;
  w_ssh_connect : nat -> string -> Z -> string -> string -> result unit;
  w_ssh_exec : nat -> session -> string -> result (string * string);
  w_peername : nat -> session -> result string;
  w_loadavg : nat -> result Q;
  w_cpu_count : nat -> result (option Z);
  w_virtual_memory_percent : nat -> result Q;
  w_disk_usage_percent : nat -> string -> result Q;
  w_post : nat -> string -> Z -> string -> result unit;
  w_now : nat -> string -> string
}.

(** ** Program state *)

(** An entry that [log_result] appends: the dict with the keys
    [check_name], [result] and [response_time]. *)
Record CheckOutcome : Type := {
  o_check_name : string;
  o_result : string;
  o_response_time : option pynum
}.

(** A value of the [aggregate_results] dict: the list of outcomes of a
    server, or the time stamp stored under ['last-check-time']. *)
Inductive aggval : Type :=
| AList (outcomes : list CheckOutcome)
| AStr (s : string).

Inductive strategy : Type :=
| NotifyFailureStrategy
| NotifyWarningStrategy
| MoveServicesStrategy.

Inductive log_level : Type := INFO | ERROR.

Inductive ssh_event : Type :=
| SshOpen (s : session)
| SshExec (s : session) (command : string)
| SshClose (s : session).

(** The trace: calls of [CheckManager] and of the strategies, in the order
    they happen. *)
Inductive event : Type :=
| EvHandleFailure (server check type : string)
| EvHandleWarning (server check : string) (value : pynum)
| EvStrategy (s : strategy) (server check : string)
| EvThreadStart (server check : string)
| EvThreadJoin (server check : string)
| EvFlush
| EvSleep (seconds : Z).

Record state : Type := mkState {
  st_tick : nat;
  st_clock : Q;
  st_aggregate : list (string * aggval);
  st_threads : list (ServerConfig * CheckConfig);
  st_loggers : list string;
  st_server_logs : list (string * list string);
  st_console : list (log_level * string);
  st_files : list (string * string);
  st_posts : list (Z * string);
  st_ssh : list ssh_event;
  st_trace : list event
}.

Definition set_tick (f : nat -> nat) (s : state) : state :=
  mkState (f (st_tick s)) (st_clock s) (st_aggregate s) (st_threads s)
    (st_loggers s) (st_server_logs s) (st_console s) (st_files s)
    (st_posts s) (st_ssh s) (st_trace s).
Definition set_clock (f : Q -> Q) (s : state) : state :=
  mkState (st_tick s) (f (st_clock s)) (st_aggregate s) (st_threads s)
    (st_loggers s) (st_server_logs s) (st_console s) (st_files s)
    (st_posts s) (st_ssh s) (st_trace s).
Definition set_aggregate (f : list (string * aggval) -> list (string * aggval))
  (s : state) : state :=
  mkState (st_tick s) (st_clock s) (f (st_aggregate s)) (st_threads s)
    (st_loggers s) (st_server_logs s) (st_console s) (st_files s)
    (st_posts s) (st_ssh s) (st_trace s).
Definition set_threads
  (f : list (ServerConfig * CheckConfig) -> list (ServerConfig * CheckConfig))
  (s : state) : state :=
  mkState (st_tick s) (st_clock s) (st_aggregate s) (f (st_threads s))
    (st_loggers s) (st_server_logs s) (st_console s) (st_files s)
    (st_posts s) (st_ssh s) (st_trace s).
Definition set_loggers (f : list string -> list string) (s : state) : state :=
  mkState (st_tick s) (st_clock s) (st_aggregate s) (st_threads s)
    (f (st_loggers s)) (st_server_logs s) (st_console s) (st_files s)
    (st_posts s) (st_ssh s) (st_trace s).
Definition set_server_logs (f : list (string * list string) -> list (string * list string))
  (s : state) : state :=
  mkState (st_tick s) (st_clock s) (st_aggregate s) (st_threads s)
    (st_loggers s) (f (st_server_logs s)) (st_console s) (st_files s)
    (st_posts s) (st_ssh s) (st_trace s).
Definition set_console (f : list (log_level * string) -> list (log_level * string))
  (s : state) : state :=
  mkState (st_tick s) (st_clock s) (st_aggregate s) (st_threads s)
    (st_loggers s) (st_server_logs s) (f (st_console s)) (st_files s)
    (st_posts s) (st_ssh s) (st_trace s).
Definition set_files (f : list (string * string) -> list (string * string))
  (s : state) : state :=
  mkState (st_tick s) (st_clock s) (st_aggregate s) (st_threads s)
    (st_loggers s) (st_server_logs s) (st_console s) (f (st_files s))
    (st_posts s) (st_ssh s) (st_trace s).
Definition set_posts (f : list (Z * string) -> list (Z * string)) (s : state) : state :=
  mkState (st_tick s) (st_clock s) (st_aggregate s) (st_threads s)
    (st_loggers s) (st_server_logs s) (st_console s) (st_files s)
    (f (st_posts s)) (st_ssh s) (st_trace s).
Definition set_ssh (f : list ssh_event -> list ssh_event) (s : state) : state :=
  mkState (st_tick s) (st_clock s) (st_aggregate s) (st_threads s)
    (st_loggers s) (st_server_logs s) (st_console s) (st_files s)
    (st_posts s) (f (st_ssh s)) (st_trace s).
Definition set_trace (f : list event -> list event) (s : state) : state :=
  mkState (st_tick s) (st_clock s) (st_aggregate s) (st_threads s)
    (st_loggers s) (st_server_logs s) (st_console s) (st_files s)
    (st_posts s) (st_ssh s) (f (st_trace s)).

(** The state of a freshly constructed [CheckManager] in a process that
    finds the files [files] (a dict from paths to contents). *)
Definition initial_state (files : list (string * string)) : state :=
  mkState 0 0 [] [] [] [] [] files [] [] [].

(** ** The monad of Python statements

    A statement reads the environment (the world and the configuration),
    transforms the state and either returns a value or raises.  Effects made
    before an exception is raised stay in the state. *)

Record env : Type := { e_world : world; e_config : config }.

Definition M (A : Type) : Type := env -> state -> result A * state.

Definition ret {A : Type} (a : A) : M A := fun _ s => (Ok a, s).

Definition bind {A B : Type} (m : M A) (k : A -> M B) : M B :=
  fun E s =>
    match m E s with
    | (Ok a, s') => k a E s'
    | (Raise e, s') => (Raise e, s')
    end.

Definition raise {A : Type} (e : exn) : M A := fun _ s => (Raise e, s).

(** [try: body / except Exception as e: handler e]. *)
Definition try_except {A : Type} (body : M A) (handler : exn -> M A) : M A :=
  fun E s =>
    match body E s with
    | (Ok a, s') => (Ok a, s')
    | (Raise e, s') => handler e E s'
    end.

Definition gets {A : Type} (f : state -> A) : M A := fun _ s => (Ok (f s), s).
Definition modify (f : state -> state) : M unit := fun _ s => (Ok tt, f s).
Definition lift {A : Type} (r : result A) : M A := fun _ s => (r, s).

(** A module-level name imported from [config]. *)
Definition global {A : Type} (f : config -> A) : M A :=
  fun E s => (Ok (f (e_config E)), s).

(** A pure library function. *)
Definition library {A : Type} (f : world -> A) : M A :=
  fun E s => (Ok (f (e_world E)), s).

(** An external call: the oracle is asked at the current call count, which
    is then incremented; the answer is returned or raised. *)
Definition external {A : Type} (f : world -> nat -> result A) : M A :=
  fun E s => (f (e_world E) (st_tick s), set_tick S s).

Declare Scope py_scope.
Delimit Scope py_scope with py.
Notation "x <- m ;; k" := (bind m (fun x => k))
  (at level 61, m at next level, right associativity) : py_scope.
Notation "m ;; k" := (bind m (fun _ => k))
  (at level 61, right associativity) : py_scope.
Local Open Scope py_scope.

(** [for x in l: body x]. *)
Fixpoint for_each {A : Type} (l : list A) (body : A -> M unit) : M unit :=
  match l with
  | [] => ret tt
  | x :: l' => body x ;; for_each l' body
  end.

(** [d[key]] on a dict whose key may be missing. *)
Definition subscript {A : Type} (key : string) (v : option A) : M A :=
  match v with
  | Some a => ret a
  | None => raise (Exn KeyError ("'" ++ key ++ "'"))
  end.

(** [d[key]] for a key computed by the program: the text of the
    [KeyError] is [repr(key)]. *)
Definition subscript_value {A : Type} (key : string) (v : option A) : M A :=
  match v with
  | Some a => ret a
  | None =>
      shown <- library (fun W => w_str_repr W key) ;;
      raise (Exn KeyError shown)
  end.

(** [obj[key]] on a value that may be [None]. *)
Definition subscript_opt {A B : Type} (o : option A) (f : A -> M B) : M B :=
  match o with
  | Some a => f a
  | None => raise (Exn TypeError "'NoneType' object is not subscriptable")
  end.

Definition emit (e : event) : M unit := modify (set_trace (fun t => t ++ [e])%list).

(** ** The [logging] module

    The root logger is configured by [CheckManager.__init__] with a console
    handler at level INFO.  The other loggers form a hierarchy by their
    dotted names: the parent of [a.b] is [a] when a logger of that name
    exists and the root logger otherwise.  A record shown on a logger is
    handled by the handlers of the logger and of all its ancestors.  Only
    the message of a record is kept, not its time stamp. *)

Definition console (level : log_level) (msg : string) : M unit :=
  modify (set_console (fun c => c ++ [(level, msg)])%list).

Definition logging_error (msg : string) : M unit := console ERROR msg.
Definition logging_info (msg : string) : M unit := console INFO msg.

(** An entry of [Manager.loggerDict]: a logger with the name of its parent
    ([None] is the root logger), or a place holder with the names of the
    loggers below it. *)
Inductive logger_node : Type :=
| LoggerNode (parent : option string)
| PlaceHolder (children : list string).

Module Manager.

Definition dict : Type := list (string * logger_node).

(** [name.rfind(".", 0, stop)]; [None] stands for [-1]. *)
Fixpoint rfind_dot_from (name : string) (pos stop : nat) (last : option nat) : option nat :=
  match name with
  | EmptyString => last
  | String c r =>
      if (stop <=? pos)%nat then last
      else rfind_dot_from r (S pos) stop (if Ascii.eqb c "." then Some pos else last)
  end.

Definition rfind_dot (name : string) (stop : nat) : option nat :=
  rfind_dot_from name 0 stop None.

(** [logger.parent.name]. *)
Definition parent_name (parent : option string) : string :=
  match parent with
  | Some p => p
  | None => "root"
  end.

(** [PlaceHolder.append]. *)
Definition placeholder_append (name : string) (children : list string) : list string :=
  if existsb (String.eqb name) children then children else (children ++ [name])%list.

(** The loop of [_fixupParents] with its index at [i]: the dotted prefixes
    of [name] are visited from the longest one; a prefix that is not in the
    dict receives a place holder, a place holder receives [name], and the
    first logger met ends the loop as the parent. *)
Fixpoint fixup_loop (fuel : nat) (name : string) (i : option nat) (d : dict)
  : dict * option string :=
  match fuel, i with
  | S fuel', Some (S j) =>
      let substr := PyStr.take (S j) name in
      match dict_get substr d with
      | None =>
          fixup_loop fuel' name (rfind_dot name j) (dict_set substr (PlaceHolder [name]) d)
      | Some (LoggerNode _) => (d, Some substr)
      | Some (PlaceHolder children) =>
          fixup_loop fuel' name (rfind_dot name j)
            (dict_set substr (PlaceHolder (placeholder_append name children)) d)
      end
  | _, _ => (d, None)
  end.

(** [_fixupParents]: the index decreases at every turn of the loop, so
    the length of the name bounds the number of turns. *)
Definition fixup_parents (name : string) (d : dict) : dict :=
  let (d', rv) :=
    fixup_loop (String.length name) name (rfind_dot name (String.length name)) d in
  dict_set name (LoggerNode rv) d'.

(** [_fixupChildren]: a logger below the place holder is attached to the
    new logger unless the name of its parent begins with the name of the new
    logger. *)
Definition fixup_children (name : string) (children : list string) (d : dict) : dict :=
  fold_left
    (fun d c =>
       match dict_get c d with
       | Some (LoggerNode parent) =>
           if String.eqb (PyStr.take (String.length name) (parent_name parent)) name then d
           else dict_set c (LoggerNode (Some name)) (dict_set name (LoggerNode parent) d)
       | _ => d
       end)
    children d.

(** [Manager.getLogger(name)]. *)
Definition getLogger (name : string) (d : dict) : dict :=
  match dict_get name d with
  | Some (LoggerNode _) => d
  | Some (PlaceHolder children) =>
      fixup_parents name (fixup_children name children (dict_set name (LoggerNode None) d))
  | None => fixup_parents name (dict_set name (LoggerNode None) d)
  end.

(** The loggers that [callHandlers] visits for a record of the logger
    [name]: the logger and its ancestors, the root logger excepted. *)
Fixpoint lineage (fuel : nat) (d : dict) (name : string) : list string :=
  match fuel with
  | O => []
  | S fuel' =>
      name :: match dict_get name d with
              | Some (LoggerNode (Some parent)) => lineage fuel' d parent
              | _ => []
              end
  end.

End Manager.

(** The logger dict after [Manager.getLogger] was called with the names
    [history], in that order, in a fresh process. *)
Definition logger_dict (history : list string) : Manager.dict :=
  fold_left (fun d name => Manager.getLogger name d) history [].

(** A logger object. *)
Inductive logger : Type :=
| RootLogger
| NamedLogger (name : string).

(** The names for which [logging.getLogger] answers the root logger
    (Python 3.9 and later). *)
Definition is_root_name (name : string) : bool :=
  String.eqb name EmptyString || String.eqb name "root".

(** [logging.getLogger(name)]. *)
Definition getLogger (name : string) : M logger :=
  if is_root_name name then ret RootLogger
  else
    modify (set_loggers (fun history => history ++ [name])%list) ;;
    ret (NamedLogger name).

(** A file handler was added to the logger called [name]. *)
Definition has_handler (name : string) (s : state) : bool :=
  match dict_get name (st_server_logs s) with
  | Some _ => true
  | None => false
  end.

(** [len(logger.handlers) > 0]: the root logger has its console
    handler. *)
Definition has_handlers (l : logger) : M bool :=
  match l with
  | RootLogger => ret true
  | NamedLogger name => gets (has_handler name)
  end.

(** [logging.FileHandler(path)]: the file is opened for appending when
    the handler is built, which raises when the file cannot be opened. *)
Definition open_log_file (path : string) : M unit :=
  external (fun W n => w_open_log W n path).

(** [logger.addHandler(handler)] for the file handler of the logger called
    [name]; the lines that the handler writes are kept under that name. *)
Definition add_file_handler (name : string) : M unit :=
  modify (set_server_logs (dict_set name [])).

(** The file handler of the logger [name], if it has one, writes [msg]. *)
Definition write_line (name msg : string) (logs : list (string * list string))
  : list (string * list string) :=
  match dict_get name logs with
  | Some lines => dict_set name (lines ++ [msg])%list logs
  | None => logs
  end.

(** [logger.info(msg)]: the record goes to the handlers of the logger, then
    to those of its ancestors, and last to the console handler of the root
    logger. *)
Definition logger_info (l : logger) (msg : string) : M unit :=
  match l with
  | RootLogger => console INFO msg
  | NamedLogger name =>
      history <- gets st_loggers ;;
      for_each (Manager.lineage (S (String.length name)) (logger_dict history) name)
        (fun k => modify (set_server_logs (write_line k msg))) ;;
      console INFO msg
  end.

(** [str(x)] of a number. *)
Definition py_str_num (n : pynum) : M string :=
  match n with
  | PInt z => ret (PyStr.of_Z z)
  | PFloat q => library (fun W => w_float_repr W q)
  end.

(** ** External libraries *)

(** [subprocess.run(args, stdout=subprocess.PIPE)]: the return code and the
    captured output (as bytes). *)
Definition subprocess_run (args : list string) : M (Z * string) :=
  external (fun W n => w_subprocess_run W n args).

(** [time.time()]. *)
Definition time_time : M Q := gets st_clock.

(** The clock advances by [d] seconds; also [time.sleep(d)]. *)
Definition sleep (d : Q) : M unit := modify (set_clock (fun t => t + d)%Q).

Definition socket_timeout : exn := Exn OSError "timed out".

Definition no_address : exn := Exn OSError "getaddrinfo returns an empty list".

(** The loop of [socket.create_connection]: the addresses are tried in
    turn, each attempt with the whole [timeout]; the first connection that
    is established ends the loop, and when none is, the error of the last
    attempt is raised.  The clock advances by the time each attempt took. *)
Fixpoint connect_each (addresses : list conn_behaviour) (timeout : Q) (last : option exn)
  : M unit :=
  match addresses with
  | [] =>
      match last with
      | Some e => raise e
      | None => raise no_address
      end
  | b :: rest =>
      match b with
      | Accepts d =>
          if Qle_bool d timeout then sleep d
          else (sleep timeout ;; connect_each rest timeout (Some socket_timeout))
      | Refuses d e =>
          if Qle_bool d timeout then (sleep d ;; connect_each rest timeout (Some e))
          else (sleep timeout ;; connect_each rest timeout (Some socket_timeout))
      | Silent => sleep timeout ;; connect_each rest timeout (Some socket_timeout)
      end
  end.

(** [telnetlib.Telnet(host, port, timeout=timeout)]: the host is looked
    up, then [socket.create_connection] tries its addresses. *)
Definition telnet_open (host : string) (port : Z) (timeout : Q) : M unit :=
  r <- external (fun W n => Ok (w_connect W n host port)) ;;
  match r with
  | Resolves d addresses => sleep d ;; connect_each addresses timeout None
  | Unresolved d e => sleep d ;; raise e
  end.

(** [ssh = paramiko.SSHClient(); ssh.connect(hostname, port=..., username=...,
    password=...)]. *)
Definition ssh_connect (hostname : string) (port : Z) (username password : string)
  : M session :=
  n <- gets st_tick ;;
  external (fun W n => w_ssh_connect W n hostname port username password) ;;
  let ssh := {| ss_id := n; ss_host := hostname |} in
  modify (set_ssh (fun l => l ++ [SshOpen ssh])%list) ;;
  ret ssh.

(** [ssh.exec_command(command)] followed by [read().decode()] on the
    streams that the caller reads; all of it is inside the [try] block of
    the caller. *)
Definition ssh_exec (ssh : session) (command : string) : M (string * string) :=
  modify (set_ssh (fun l => l ++ [SshExec ssh command])%list) ;;
  external (fun W n => w_ssh_exec W n ssh command).

Definition ssh_close (ssh : session) : M unit :=
  modify (set_ssh (fun l => l ++ [SshClose ssh])%list).

(** [ssh.get_transport().getpeername()[0]]. *)
Definition ssh_peername (ssh : session) : M string :=
  external (fun W n => w_peername W n ssh).

(** [requests.post(url, json={'chat_id': chat_id, 'message': message})]. *)
Definition requests_post (url : string) (chat_id : Z) (message : string) : M unit :=
  external (fun W n => w_post W n url chat_id message) ;;
  modify (set_posts (fun l => l ++ [(chat_id, message)])%list).

(** ** main.py: the monitor classes *)

Module ServerPingMonitor.

Definition check (host : string) : M bool :=
  response <- subprocess_run ["ping"; "-c"; "1"; host] ;;
  ret (fst response =? 0)%Z.

Definition response_time (host : string) : M pynum :=
  response <- subprocess_run ["ping"; "-c"; "1"; host] ;;
  output <- lift (Cp1251.decode (snd response)) ;;
  match Text.find output (Text.of_string "time=") 0 with
  | Some time_pos =>
      let start := (time_pos + 5)%nat in
      let end_ :=
        match Text.find output (Text.of_string " ") start with
        | Some e => Z.of_nat e
        | None => (-1)%Z
        end in
      let text := Text.to_string (Text.slice output start end_) in
      parsed <- library (fun W => w_float_parse W text) ;;
      match parsed with
      | Some q => ret (PFloat q)
      | None =>
          shown <- library (fun W => w_str_repr W text) ;;
          raise (Exn ValueError ("could not convert string to float: " ++ shown))
      end
  | None => ret (PFloat (-1))
  end.

End ServerPingMonitor.

Module TelnetMonitor.

Definition check (host : string) (port : Z) : M bool :=
  try_except
    (telnet_open host port 10 ;; ret true)
    (fun e =>
       logging_error ("Error connecting to " ++ host ++ ":" ++ PyStr.of_Z port
                      ++ ": " ++ exn_str e) ;;
       ret false).

(** [start_time] is bound before the connection is attempted, so both
    branches can use it. *)
Definition response_time (host : string) (port : Z) : M pynum :=
  start_time <- time_time ;;
  try_except
    (telnet_open host port 10 ;;
     end_time <- time_time ;;
     ret (PFloat (end_time - start_time)))
    (fun e =>
       end_time <- time_time ;;
       logging_error ("Failed to connect to " ++ host ++ ":" ++ PyStr.of_Z port
                      ++ ": " ++ exn_str e) ;;
       ret (PFloat (end_time - start_time))).

End TelnetMonitor.

Module ServiceMonitor.

Definition check (hostname : string) (port : Z) (username password service_name : string)
  : M bool :=
  let command := "systemctl is-active " ++ service_name in
  try_except
    (ssh <- ssh_connect hostname port username password ;;
     streams <- ssh_exec ssh command ;;
     let output := PyStr.strip (fst streams) in
     ssh_close ssh ;;
     ret (String.eqb output "active"))
    (fun e =>
       logging_error
         ("Ошибка при подключении или выполнении команды на сервере: " ++ exn_str e) ;;
       ret false).

Definition response_time : M pynum := ret (PInt 0).

End ServiceMonitor.

Module CPUMonitor.

Definition check : M bool := ret true.

Definition response_time : M pynum :=
  load1 <- external w_loadavg ;;
  count <- external w_cpu_count ;;
  match count with
  | None =>
      raise (Exn TypeError "unsupported operand type(s) for /: 'float' and 'NoneType'")
  | Some c =>
      if (c =? 0)%Z then raise (Exn ZeroDivisionError "float division by zero")
      else
        cpu_usage <- library (fun W => w_float_mul W (w_float_div W load1 (inject_Z c)) 100) ;;
        ret (PFloat cpu_usage)
  end.

End CPUMonitor.

Module RAMMonitor.

Definition check : M bool := ret true.

Definition response_time : M pynum :=
  percent <- external w_virtual_memory_percent ;;
  ret (PFloat percent).

End RAMMonitor.

Module DiskMonitor.

Definition check : M bool := ret true.

Definition response_time (disk : string) : M pynum :=
  percent <- external (fun W n => w_disk_usage_percent W n disk) ;;
  ret (PFloat percent).

End DiskMonitor.

(** An instance of one of the six classes that implement
    [IMonitorStrategy]. *)
Inductive monitor : Type :=
| PingObj (host : string)
| TelnetObj (host : string) (port : Z)
| ServiceObj (hostname : string) (port : Z) (username password service_name : string)
| CPUObj
| RAMObj
| DiskObj (disk : string).

(** [monitor.check()]. *)
Definition monitor_check (m : monitor) : M bool :=
  match m with
  | PingObj host => ServerPingMonitor.check host
  | TelnetObj host port => TelnetMonitor.check host port
  | ServiceObj h p u pw svc => ServiceMonitor.check h p u pw svc
  | CPUObj => CPUMonitor.check
  | RAMObj => RAMMonitor.check
  | DiskObj _ => DiskMonitor.check
  end.

(** [monitor.response_time()]. *)
Definition monitor_response_time (m : monitor) : M pynum :=
  match m with
  | PingObj host => ServerPingMonitor.response_time host
  | TelnetObj host port => TelnetMonitor.response_time host port
  | ServiceObj _ _ _ _ _ => ServiceMonitor.response_time
  | CPUObj => CPUMonitor.response_time
  | RAMObj => RAMMonitor.response_time
  | DiskObj disk => DiskMonitor.response_time disk
  end.

(** ** handlers.py *)

Definition alert_url : string := "http://127.0.0.1:5001/alert".

Module StrategyFactory.

Definition get_strategy (server_name check_type : string) (other_checks : json)
  : strategy :=
  if py_eq_str other_checks "warning" then NotifyWarningStrategy
  else if String.eqb server_name "TG1" then MoveServicesStrategy
  else NotifyFailureStrategy.

End StrategyFactory.

Module NotifyFailure.

Definition handle (server_name check_name : string) : M unit :=
  ids <- global chats ;;
  for_each ids
    (fun id =>
       requests_post alert_url id
         ("❗❗❗ТРИВОГА" ++ PyStr.nl ++ PyStr.nl ++ server_name ++ ": " ++ check_name
          ++ " НЕ ВІДПОВІДАЄ")).

End NotifyFailure.

Module NotifyWarning.

Definition handle (server_name check_name : string) (value : pynum) : M unit :=
  ids <- global chats ;;
  for_each ids
    (fun id =>
       shown <- py_str_num value ;;
       requests_post alert_url id
         ("⚠️УВАГА" ++ PyStr.nl ++ PyStr.nl ++ server_name ++ ": " ++ check_name
          ++ " = " ++ shown)).

End NotifyWarning.

Module MoveServices.

(** [next((server for server in servers if server['name'] == name), None)]. *)
Definition find_server (name : string) : M (option ServerConfig) :=
  all <- global servers ;;
  ret (List.find (fun server => String.eqb (s_name server) name) all).

Definition connect_ssh (server_info : option ServerConfig) : M (option session) :=
  try_except
    (host <- subscript_opt server_info (fun i => ret (s_host i)) ;;
     user <- subscript_opt server_info (fun i => subscript "user" (s_user i)) ;;
     password <- subscript_opt server_info (fun i => subscript "password" (s_password i)) ;;
     ssh <- ssh_connect host 22 user password ;;
     ret (Some ssh))
    (fun e =>
       name <- subscript_opt server_info (fun i => ret (s_name i)) ;;
       logging_error ("Failed to connect to " ++ name ++ " via SSH: " ++ exn_str e) ;;
       ret None).

Definition manage_service (ssh : session) (service_name action : string) : M unit :=
  try_except
    (streams <- ssh_exec ssh ("systemctl " ++ action ++ " " ++ service_name) ;;
     let stdout_text := fst streams in
     let stderr_text := snd streams in
     (if String.eqb stdout_text EmptyString then ret tt
      else
        peer <- ssh_peername ssh ;;
        logging_info ("Output of " ++ action ++ " " ++ service_name ++ " on " ++ peer
                      ++ ": " ++ stdout_text)) ;;
     (if String.eqb stderr_text EmptyString then ret tt
      else
        peer <- ssh_peername ssh ;;
        logging_error ("Error in " ++ action ++ " " ++ service_name ++ " on " ++ peer
                       ++ ": " ++ stderr_text)))
    (fun e =>
       peer <- ssh_peername ssh ;;
       logging_error ("Failed to " ++ action ++ " " ++ service_name ++ " on " ++ peer
                      ++ ": " ++ exn_str e)).

Definition disable_services (ssh : session) (server_info : option ServerConfig) : M unit :=
  match server_info with
  | None => raise (Exn AttributeError "'NoneType' object has no attribute 'get'")
  | Some info =>
      for_each (s_checks info)
        (fun check =>
           if String.eqb (c_type check) "service" then
             service <- subscript "service" (c_service check) ;;
             manage_service ssh service "stop"
           else ret tt)
  end.

Definition enable_services (ssh : session) (services : list string) : M unit :=
  for_each services (fun service => manage_service ssh service "start").

Definition connect_and_disable_services (server_info : option ServerConfig) : M bool :=
  try_except
    (ssh <- connect_ssh server_info ;;
     match ssh with
     | Some ssh =>
         disable_services ssh server_info ;;
         ssh_close ssh ;;
         ret true
     | None => ret false
     end)
    (fun e =>
       name <- subscript_opt server_info (fun i => ret (s_name i)) ;;
       logging_error ("Error disabling services on " ++ name ++ ": " ++ exn_str e) ;;
       ret false).

(** Returns [True], [False] or, when the connection could not be opened,
    falls off the end of the function and returns [None]. *)
Definition connect_and_enable_services (server_info : option ServerConfig)
  (services : list string) : M (option bool) :=
  try_except
    (ssh <- connect_ssh server_info ;;
     match ssh with
     | Some ssh =>
         enable_services ssh services ;;
         ssh_close ssh ;;
         ret (Some true)
     | None => ret None
     end)
    (fun e =>
       name <- subscript_opt server_info (fun i => ret (s_name i)) ;;
       logging_error ("Error enabling services on " ++ name ++ ": " ++ exn_str e) ;;
       ret (Some false)).

(** Truth value of [True], [False] or [None]. *)
Definition truthy (v : option bool) : bool :=
  match v with
  | Some b => b
  | None => false
  end.

Definition send_message (message : string) : M unit :=
  ids <- global chats ;;
  for_each ids (fun id => requests_post alert_url id message).

Definition header (server_name check_name : string) : string :=
  "❗❗❗ТРИВОГА" ++ PyStr.nl ++ PyStr.nl ++ server_name ++ " --- " ++ check_name
  ++ " НЕ ВІДПОВІДАЄ" ++ PyStr.nl ++ PyStr.nl.

Definition primary_note (stopped : bool) : string :=
  if stopped then "Служби відключені на TG1" ++ PyStr.nl
  else "Не вдалося під'єднатися до TG1" ++ PyStr.nl.

Definition secondary_note (started : bool) : string :=
  if started then "Служби включені на TG2" ++ PyStr.nl
  else "Не вдалося під'єднатися до TG2" ++ PyStr.nl.

Definition failover_services : list string :=
  ["adp-client-bot.service"; "adp-shop-bot.service"].

Definition handle (server_name check_name : string) : M unit :=
  tg1_server_info <- find_server "TG1" ;;
  tg2_server_info <- find_server "TG2" ;;
  let message := header server_name check_name in
  stopped <- connect_and_disable_services tg1_server_info ;;
  let message := message ++ primary_note stopped in
  started <- connect_and_enable_services tg2_server_info failover_services ;;
  let message := message ++ secondary_note (truthy started) in
  send_message message.

End MoveServices.

(** [handler.handle(server_name, check_name)] and
    [handler.handle(server_name, check_name, value)]: the call is bound to
    the method of the object's class, which takes two arguments for the
    failure strategies and three for the warning strategy. *)
Definition strategy_handle (handler : strategy) (server_name check_name : string)
  (value : option pynum) : M unit :=
  match handler, value with
  | NotifyFailureStrategy, None =>
      emit (EvStrategy handler server_name check_name) ;;
      NotifyFailure.handle server_name check_name
  | MoveServicesStrategy, None =>
      emit (EvStrategy handler server_name check_name) ;;
      MoveServices.handle server_name check_name
  | NotifyWarningStrategy, Some v =>
      emit (EvStrategy handler server_name check_name) ;;
      NotifyWarning.handle server_name check_name v
  | NotifyWarningStrategy, None =>
      raise (Exn TypeError "handle() missing 1 required positional argument: 'value'")
  | _, Some _ =>
      raise (Exn TypeError "handle() takes 3 positional arguments but 4 were given")
  end.

(** ** api.py and the snapshot file *)

Definition snapshot_path : string := "./aggregate_results.json".

(** [with open(snapshot_path, 'r') as file: data = json.load(file)].  The
    position that a decode error reports is not kept in its message. *)
Definition load_snapshot : M json :=
  file <- gets (fun s => dict_get snapshot_path (st_files s)) ;;
  match file with
  | None =>
      raise (Exn FileNotFoundError
               ("[Errno 2] No such file or directory: '" ++ snapshot_path ++ "'"))
  | Some text =>
      match Json.loads text with
      | Some data => ret data
      | None => raise (Exn JSONDecodeError "Expecting value")
      end
  end.

Module Api.

Definition read_results : M json := load_snapshot.

End Api.

(** ** main.py: CheckManager *)

Module CheckManager.

Definition status_text (result : bool) : string :=
  if result then "Success" else "Failure".

Definition log_line (server_name check_name : string) (result : bool)
  (response_time : option pynum) : M string :=
  let head := server_name ++ " --- " ++ check_name ++ " --- " ++ status_text result ++ " | " in
  match response_time with
  | None => ret head
  | Some t =>
      shown <- py_str_num (py_round3 t) ;;
      if existsb (String.eqb check_name) ["CPU"; "RAM"; "DISK SPACE"]
      then ret (head ++ "Usage: " ++ shown ++ "%")
      else ret (head ++ " Response Time: " ++ shown ++ " seconds")
  end.

(** [self.aggregate_results[server_name].append(entry)]. *)
Definition append_outcome (server_name : string) (entry : CheckOutcome) : M unit :=
  agg <- gets st_aggregate ;;
  match dict_get server_name agg with
  | Some (AList outcomes) =>
      modify (set_aggregate (dict_set server_name (AList (outcomes ++ [entry])%list)))
  | Some (AStr _) => raise (Exn AttributeError "'str' object has no attribute 'append'")
  | None => raise (Exn KeyError ("'" ++ server_name ++ "'"))
  end.

Definition log_path (server_name : string) : string :=
  "logs/" ++ server_name ++ "_checks.log".

(** The first half of [log_result]: the line shown on the logger of the
    server, which receives its file handler on first use. *)
Definition write_log (server_name check_name : string) (result : bool)
  (response_time : option pynum) : M unit :=
  logger <- getLogger server_name ;;
  configured <- has_handlers logger ;;
  (if configured then ret tt
   else
     open_log_file (log_path server_name) ;;
     add_file_handler server_name) ;;
  line <- log_line server_name check_name result response_time ;;
  logger_info logger line.

Definition outcome_of (check_name : string) (result : bool)
  (response_time : option pynum) : CheckOutcome :=
  {| o_check_name := check_name;
     o_result := status_text result;
     o_response_time := option_map py_round3 response_time |}.

(** The second half of [log_result]: the entry appended to the
    aggregate. *)
Definition record_outcome (server_name : string) (entry : CheckOutcome) : M unit :=
  agg <- gets st_aggregate ;;
  (match dict_get server_name agg with
   | Some _ => ret tt
   | None => modify (set_aggregate (dict_set server_name (AList [])))
   end) ;;
  append_outcome server_name entry.

Definition log_result (server_name check_name : string) (result : bool)
  (response_time : option pynum) : M unit :=
  write_log server_name check_name result response_time ;;
  record_outcome server_name (outcome_of check_name result response_time).

Definition handle_failure (server_name check_name check_type : string) : M unit :=
  emit (EvHandleFailure server_name check_name check_type) ;;
  data <- load_snapshot ;;
  let handler := StrategyFactory.get_strategy server_name check_type data in
  strategy_handle handler server_name check_name None.

Definition handle_warning (server_name check_name : string) (value : pynum) : M unit :=
  emit (EvHandleWarning server_name check_name value) ;;
  let handler := StrategyFactory.get_strategy server_name check_name (JStr "warning") in
  strategy_handle handler server_name check_name (Some value).

(** The branch of [run_check] that builds the monitor; [None] is the
    final [else: return]. *)
Definition select_monitor (server : ServerConfig) (check : CheckConfig)
  : M (option monitor) :=
  let host := s_host server in
  let type := c_type check in
  if String.eqb type "ping" then ret (Some (PingObj host))
  else if String.eqb type "telnet" then
    port <- subscript "port" (c_port check) ;;
    ret (Some (TelnetObj host port))
  else if String.eqb type "service" then
    user <- subscript "user" (s_user server) ;;
    password <- subscript "password" (s_password server) ;;
    service <- subscript "service" (c_service check) ;;
    ret (Some (ServiceObj host 22 user password service))
  else if String.eqb type "cpu" then ret (Some CPUObj)
  else if String.eqb type "ram" then ret (Some RAMObj)
  else if String.eqb type "disk_space" then ret (Some (DiskObj "/"))
  else ret None.

Definition resource_types : string := "cpu ram disk_space".

(** The last statement of [run_check]: the decision to escalate. *)
Definition escalate (server : ServerConfig) (check : CheckConfig) (result : bool)
  (response_time : pynum) : M unit :=
  let check_name := c_name check in
  if negb (PyStr.py_in (c_type check) resource_types) then
    if negb result then
      handle_failure (s_name server) (c_name check) (c_type check)
    else
      limit <- global response_time_limit ;;
      if py_ge response_time limit
      then handle_warning (s_name server) (c_name check) response_time
      else ret tt
  else
    if PyStr.py_in (c_type check) resource_types then
      limits <- global resourse_limits ;;
      limit <- subscript_value check_name (dict_get check_name limits) ;;
      if py_ge response_time limit
      then handle_warning (s_name server) (c_name check) response_time
      else ret tt
    else ret tt.

(** The statements of [run_check] after the monitor was built. *)
Definition classify (server : ServerConfig) (check : CheckConfig) (monitor : monitor)
  : M unit :=
  result <- monitor_check monitor ;;
  response_time <- monitor_response_time monitor ;;
  log_result (s_name server) (c_name check) result (Some response_time) ;;
  escalate server check result response_time.

Definition run_check (server : ServerConfig) (check : CheckConfig) : M unit :=
  try_except
    (selected <- select_monitor server check ;;
     match selected with
     | None => ret tt
     | Some monitor => classify server check monitor
     end)
    (fun e => logging_error (exn_str e)).

Definition outcome_json (W : world) (o : CheckOutcome) : json :=
  JObj [("check_name", JStr (o_check_name o));
        ("result", JStr (o_result o));
        ("response_time",
          match o_response_time o with
          | None => JNull
          | Some (PInt z) => JNum (PyStr.of_Z z)
          | Some (PFloat q) => JNum (w_float_repr W q)
          end)].

(** The aggregate dict as the document that [json.dumps] serialises. *)
Definition snapshot_json (W : world) (agg : list (string * aggval)) : json :=
  JObj (map (fun kv : string * aggval =>
               (fst kv,
                match snd kv with
                | AList outcomes => JArr (map (outcome_json W) outcomes)
                | AStr s => JStr s
                end)) agg).

Definition last_check_time_format : string := "%Y-%м-%д %H:%M:%S".

(** [open(snapshot_path, 'w')]: the file is created or truncated. *)
Definition open_truncate : M unit :=
  modify (set_files (dict_set snapshot_path EmptyString)).

(** [json_file.write(json_str)] and the close at the end of the [with]
    block. *)
Definition write_and_close (text : string) : M unit :=
  modify (set_files (dict_set snapshot_path text)).

(** [save_aggregate_results] up to and including the [open] of the
    [with] statement. *)
Definition begin_flush : M unit :=
  emit EvFlush ;;
  now <- external (fun W n => Ok (w_now W n last_check_time_format)) ;;
  modify (set_aggregate (dict_set "last-check-time" (AStr now))) ;;
  open_truncate.

(** The body of the [with] statement and its exit. *)
Definition finish_flush : M unit :=
  agg <- gets st_aggregate ;;
  json_str <- library (fun W => Json.dumps (snapshot_json W agg)) ;;
  write_and_close json_str.

Definition save_aggregate_results : M unit :=
  begin_flush ;;
  finish_flush.

(** Names bound in the global namespace of [main.py] by its imports and
    definitions. *)
Definition main_globals : list string :=
  ["ABC"; "abstractmethod"; "subprocess"; "psutil"; "telnetlib"; "time"; "paramiko";
   "servers"; "resourse_limits"; "response_time_limit"; "Thread"; "logging"; "json";
   "datetime"; "StrategyFactory"; "IMonitorStrategy"; "ServerPingMonitor";
   "TelnetMonitor"; "ServiceMonitor"; "CPUMonitor"; "RAMMonitor"; "DiskMonitor";
   "CheckManager"; "start_monitoring"].

(** Evaluation of a global name. *)
Definition load_global (name : string) : M unit :=
  if existsb (String.eqb name) main_globals then ret tt
  else raise (Exn NameError ("name '" ++ name ++ "' is not defined")).

(** The identifier called at line 377 of [main.py] to build the thread
    object: a [T], the Cyrillic letter U+0444 and [hread]. *)
Definition thread_constructor : string := "Tфhread".

(** [thread.start()]: the worker runs [run_check].  The worker is run to
    completion at once, which is one of the schedules the threads may
    follow. *)
Definition thread_start (server : ServerConfig) (check : CheckConfig) : M unit :=
  emit (EvThreadStart (s_name server) (c_name check)) ;;
  run_check server check.

Definition thread_join (t : ServerConfig * CheckConfig) : M unit :=
  emit (EvThreadJoin (s_name (fst t)) (c_name (snd t))).

(** The two nested [for] loops of [start], with the name used to build a
    thread as a parameter. *)
Definition fan_out (constructor : string) : M unit :=
  all <- global servers ;;
  for_each all
    (fun server =>
       for_each (s_checks server)
         (fun check =>
            load_global constructor ;;
            modify (set_threads (fun l => l ++ [(server, check)])%list) ;;
            thread_start server check)).

Definition fan_in : M unit :=
  threads <- gets st_threads ;;
  for_each threads thread_join.

(** One iteration of the [while True] loop, for a given constructor
    name. *)
Definition round_with (constructor : string) : M unit :=
  fan_out constructor ;;
  fan_in ;;
  save_aggregate_results ;;
  modify (set_threads (fun _ => [])) ;;
  emit (EvSleep 60) ;;
  sleep 60.

(** One iteration of the loop of [start] as it is written. *)
Definition start_round : M unit := round_with thread_constructor.

(** The first [rounds] iterations of [start]. *)
Fixpoint start (rounds : nat) : M unit :=
  match rounds with
  | O => ret tt
  | S n => start_round ;; start n
  end.

End CheckManager.

(** ** A concrete environment

    A small fleet and a world in which every probe answers, used to run the
    definitions on examples. *)

Module Fleet.

Definition pad3 (s : string) : string :=
  match String.length s with
  | 0%nat => "000"
  | 1%nat => "00" ++ s
  | 2%nat => "0" ++ s
  | _ => s
  end.

Fixpoint trim_zeros (rev_digits : string) : string :=
  match rev_digits with
  | String "0" r => trim_zeros r
  | _ => rev_digits
  end.

(** Decimal text of a rational with at most three decimals, written the
    way Python shows such a float ([92.0], [0.042]). *)
Definition float_repr (q : Q) : string :=
  let m := round_half_even (q * 1000) in
  let a := Z.abs m in
  let frac := PyStr.rev_string
                (trim_zeros (PyStr.rev_string (pad3 (PyStr.of_Z (a mod 1000))) EmptyString)) EmptyString in
  (if (m <? 0)%Z then "-" else EmptyString) ++ PyStr.of_Z (a / 1000) ++ "."
  ++ (if String.eqb frac EmptyString then "0" else frac).

Fixpoint digits_value (s : string) (acc : Z) : option Z :=
  match s with
  | EmptyString => Some acc
  | String c r =>
      if Json.is_digit c
      then digits_value r (acc * 10 + Z.of_nat (nat_of_ascii c) - 48)
      else None
  end.

(** [float(s)] for plain decimal numerals; other texts are rejected. *)
Definition float_parse (s : string) : option Q :=
  match PyStr.find s "." 0 with
  | None =>
      match s with
      | EmptyString => None
      | _ => option_map inject_Z (digits_value s 0)
      end
  | Some dot =>
      let int_part := PyStr.take dot s in
      let frac := PyStr.drop (S dot) s in
      match digits_value int_part 0, digits_value frac 0 with
      | Some i, Some f =>
          if (String.length int_part + String.length frac =? 0)%nat then None
          else Some (inject_Z i + inject_Z f / inject_Z (10 ^ Z.of_nat (String.length frac)))
      | _, _ => None
      end
  end.

Definition ping_reply : string :=
  "64 bytes from 10.0.0.1: icmp_seq=1 ttl=64 time=0.042 ms".

(** [repr(s)] for a text without quotes, backslashes and characters that
    are not printable. *)
Definition str_repr (s : string) : string := "'" ++ s ++ "'".

(** Every host answers the ping, has one address, accepts connections
    after 20 ms and runs active services; the monitoring host is loaded at 92
    percent of its four cores; the log files can be opened; the alert relay
    accepts every post.  The float arithmetic of this world is exact. *)
Definition healthy : world :=
  {| w_float_repr := float_repr;
     w_float_parse := float_parse;
     w_float_div := Qdiv;
     w_float_mul := Qmult;
     w_str_repr := str_repr;
     w_subprocess_run := fun _ _ => Ok (0%Z, ping_reply);
     w_connect := fun _ _ _ => Resolves 0 [Accepts (1 # 50)];
     w_open_log := fun _ _ => Ok tt;
     w_ssh_connect := fun _ _ _ _ _ => Ok tt;
     w_ssh_exec := fun _ _ _ => Ok ("active" ++ PyStr.nl, EmptyString);
     w_peername := fun _ ssh => Ok (ss_host ssh);
     w_loadavg := fun _ => Ok (368 # 100);
     w_cpu_count := fun _ => Ok (Some 4%Z);
     w_virtual_memory_percent := fun _ => Ok (415 # 10);
     w_disk_usage_percent := fun _ _ => Ok (63 # 1);
     w_post := fun _ _ _ _ => Ok tt;
     w_now := fun _ _ => "2024-05-01 12:00:00" |}.

Definition ping_check : CheckConfig :=
  {| c_name := "PING"; c_type := "ping"; c_port := None; c_service := None |}.
Definition port_check : CheckConfig :=
  {| c_name := "TELNET"; c_type := "telnet"; c_port := Some 23%Z; c_service := None |}.
Definition service_check : CheckConfig :=
  {| c_name := "BOT"; c_type := "service"; c_port := None;
     c_service := Some "adp-client-bot.service" |}.
Definition cpu_check : CheckConfig :=
  {| c_name := "CPU"; c_type := "cpu"; c_port := None; c_service := None |}.
Definition odd_check : CheckConfig :=
  {| c_name := "HTTP"; c_type := "http"; c_port := None; c_service := None |}.
(** A port check whose dict has no ['port'] key. *)
Definition portless_check : CheckConfig :=
  {| c_name := "TELNET"; c_type := "telnet"; c_port := None; c_service := None |}.

Definition tg1 : ServerConfig :=
  {| s_name := "TG1"; s_host := "10.0.0.1"; s_user := Some "root";
     s_password := Some "secret"; s_checks := [ping_check; service_check] |}.
Definition tg2 : ServerConfig :=
  {| s_name := "TG2"; s_host := "10.0.0.2"; s_user := Some "root";
     s_password := Some "secret"; s_checks := [ping_check] |}.
Definition web1 : ServerConfig :=
  {| s_name := "WEB1"; s_host := "10.0.0.5"; s_user := None;
     s_password := None; s_checks := [port_check; cpu_check] |}.

Definition limits : list (string * pynum) :=
  [("CPU", PInt 80); ("RAM", PInt 90); ("DISK SPACE", PInt 90)].

Definition fleet : config :=
  {| servers := [tg1; tg2; web1];
     resourse_limits := limits;
     response_time_limit := PInt 5;
     chats := [1001%Z; 1002%Z] |}.

Definition healthy_env : env := {| e_world := healthy; e_config := fleet |}.

(** The same world, except that [f] replaces the answer of the peers to
    connection attempts. *)
Definition with_connect (f : nat -> string -> Z -> resolution) (W : world) : world :=
  {| w_float_repr := w_float_repr W;
     w_float_parse := w_float_parse W;
     w_float_div := w_float_div W;
     w_float_mul := w_float_mul W;
     w_str_repr := w_str_repr W;
     w_subprocess_run := w_subprocess_run W;
     w_connect := f;
     w_open_log := w_open_log W;
     w_ssh_connect := w_ssh_connect W;
     w_ssh_exec := w_ssh_exec W;
     w_peername := w_peername W;
     w_loadavg := w_loadavg W;
     w_cpu_count := w_cpu_count W;
     w_virtual_memory_percent := w_virtual_memory_percent W;
     w_disk_usage_percent := w_disk_usage_percent W;
     w_post := w_post W;
     w_now := w_now W |}.

Definition with_ping (f : nat -> list string -> result (Z * string)) (W : world) : world :=
  {| w_float_repr := w_float_repr W;
     w_float_parse := w_float_parse W;
     w_float_div := w_float_div W;
     w_float_mul := w_float_mul W;
     w_str_repr := w_str_repr W;
     w_subprocess_run := f;
     w_connect := w_connect W;
     w_open_log := w_open_log W;
     w_ssh_connect := w_ssh_connect W;
     w_ssh_exec := w_ssh_exec W;
     w_peername := w_peername W;
     w_loadavg := w_loadavg W;
     w_cpu_count := w_cpu_count W;
     w_virtual_memory_percent := w_virtual_memory_percent W;
     w_disk_usage_percent := w_disk_usage_percent W;
     w_post := w_post W;
     w_now := w_now W |}.

Definition with_ssh_connect (f : nat -> string -> Z -> string -> string -> result unit)
  (W : world) : world :=
  {| w_float_repr := w_float_repr W;
     w_float_parse := w_float_parse W;
     w_float_div := w_float_div W;
     w_float_mul := w_float_mul W;
     w_str_repr := w_str_repr W;
     w_subprocess_run := w_subprocess_run W;
     w_connect := w_connect W;
     w_open_log := w_open_log W;
     w_ssh_connect := f;
     w_ssh_exec := w_ssh_exec W;
     w_peername := w_peername W;
     w_loadavg := w_loadavg W;
     w_cpu_count := w_cpu_count W;
     w_virtual_memory_percent := w_virtual_memory_percent W;
     w_disk_usage_percent := w_disk_usage_percent W;
     w_post := w_post W;
     w_now := w_now W |}.

Definition with_post (f : nat -> string -> Z -> string -> result unit) (W : world) : world :=
  {| w_float_repr := w_float_repr W;
     w_float_parse := w_float_parse W;
     w_float_div := w_float_div W;
     w_float_mul := w_float_mul W;
     w_str_repr := w_str_repr W;
     w_subprocess_run := w_subprocess_run W;
     w_connect := w_connect W;
     w_open_log := w_open_log W;
     w_ssh_connect := w_ssh_connect W;
     w_ssh_exec := w_ssh_exec W;
     w_peername := w_peername W;
     w_loadavg := w_loadavg W;
     w_cpu_count := w_cpu_count W;
     w_virtual_memory_percent := w_virtual_memory_percent W;
     w_disk_usage_percent := w_disk_usage_percent W;
     w_post := f;
     w_now := w_now W |}.

Definition unreachable : exn := Exn OSError "[Errno 113] No route to host".

(** No ping is answered. *)
Definition ping_lost : world :=
  with_ping (fun _ _ => Ok (1%Z, "1 packets transmitted, 0 received")) healthy.

(** The alert relay refuses connections. *)
Definition relay_down : world :=
  with_post (fun _ _ _ _ => Raise (Exn OSError "Connection refused")) healthy.

(** Two aggregates of different rounds. *)
Definition quiet_round : list (string * aggval) :=
  [("TG1", AList [{| o_check_name := "PING"; o_result := "Success";
                     o_response_time := Some (PFloat (21 # 500)) |}]);
   ("last-check-time", AStr "2024-05-01 12:00:00")].
Definition bad_round : list (string * aggval) :=
  [("TG1", AList [{| o_check_name := "PING"; o_result := "Failure";
                     o_response_time := Some (PFloat (-1)) |}]);
   ("WEB1", AList [{| o_check_name := "warning"; o_result := "Success";
                      o_response_time := Some (PInt 0) |}]);
   ("last-check-time", AStr "warning")].

(** A host with one address, where the peer never answers. *)
Definition silent_port : world := with_connect (fun _ _ _ => Resolves 0 [Silent]) healthy.

(** A host with two addresses, where the peer answers at neither. *)
Definition two_silent_addresses : world :=
  with_connect (fun _ _ _ => Resolves 0 [Silent; Silent]) healthy.

Definition with_open_log (f : nat -> string -> result unit) (W : world) : world :=
  {| w_float_repr := w_float_repr W;
     w_float_parse := w_float_parse W;
     w_float_div := w_float_div W;
     w_float_mul := w_float_mul W;
     w_str_repr := w_str_repr W;
     w_subprocess_run := w_subprocess_run W;
     w_connect := w_connect W;
     w_open_log := f;
     w_ssh_connect := w_ssh_connect W;
     w_ssh_exec := w_ssh_exec W;
     w_peername := w_peername W;
     w_loadavg := w_loadavg W;
     w_cpu_count := w_cpu_count W;
     w_virtual_memory_percent := w_virtual_memory_percent W;
     w_disk_usage_percent := w_disk_usage_percent W;
     w_post := w_post W;
     w_now := w_now W |}.

Definition no_such_directory (path : string) : exn :=
  Exn FileNotFoundError
    ("[Errno 2] No such file or directory: '/opt/monitoring/" ++ path ++ "'").

(** The working directory has no [logs] directory. *)
Definition without_logs (W : world) : world :=
  with_open_log (fun _ path => Raise (no_such_directory path)) W.

(** No ping is answered, and [ping] reports it with a text that holds the
    byte [0x98]. *)
Definition ping_lost_undecodable : world :=
  with_ping
    (fun _ _ => Ok (1%Z, "ping: " ++ String (ascii_of_nat 152) EmptyString))
    healthy.

(** The fleet without its standby server. *)
Definition fleet_without_tg2 : config :=
  {| servers := [tg1; web1];
     resourse_limits := limits;
     response_time_limit := PInt 5;
     chats := [1001%Z; 1002%Z] |}.

(** SSH connections to the hosts in [down] fail. *)
Definition ssh_down (down : list string) : world :=
  with_ssh_connect
    (fun _ host _ _ _ =>
       if existsb (String.eqb host) down then Raise unreachable else Ok tt)
    healthy.

Definition ping_lost_env : env := {| e_world := ping_lost; e_config := fleet |}.

(** The [ping] program cannot be run. *)
Definition no_ping_program : exn :=
  Exn FileNotFoundError "[Errno 2] No such file or directory: 'ping'".
Definition ping_broken : world := with_ping (fun _ _ => Raise no_ping_program) healthy.

(** A fleet whose servers have no checks. *)
Definition idle_fleet : config :=
  {| servers := [{| s_name := "TG1"; s_host := "10.0.0.1"; s_user := None;
                    s_password := None; s_checks := [] |}];
     resourse_limits := limits;
     response_time_limit := PInt 5;
     chats := [1001%Z] |}.

Definition silent_port_env : env := {| e_world := silent_port; e_config := fleet |}.

(** A document as a completed flush leaves it. *)
Definition old_snapshot : string :=
  Json.dumps (JObj [("TG1", JArr []); ("last-check-time", JStr "2024-05-01 11:59:00")]).

End Fleet.


(** ** Workers appending concurrently

    The three statements at the end of [log_result],

      [if server_name not in self.aggregate_results:]
      [    self.aggregate_results[server_name] = []]
      [self.aggregate_results[server_name].append({...})]

    run in every worker thread on the one dict of the [CheckManager].  The
    interpreter may switch threads between the membership test, the store of
    the fresh list, the load of the list object and the call of its
    [append]; each of these four operations is atomic.  The lists are
    objects on a heap and the dict holds their addresses, so that two
    workers may hold different list objects for one server. *)

Module Interleaving.

Inductive pc : Type :=
| AtTest
| AtInit
| AtLoad
| AtAppend (addr : nat)
| Done
| Failed.

Record worker : Type := {
  wk_server : string;
  wk_entry : CheckOutcome;
  wk_pc : pc
}.

Record shared : Type := {
  sh_dict : list (string * nat);
  sh_heap : nat -> list CheckOutcome;
  sh_next : nat
}.

Definition at_pc (w : worker) (p : pc) : worker :=
  {| wk_server := wk_server w; wk_entry := wk_entry w; wk_pc := p |}.

Definition store (h : nat -> list CheckOutcome) (a : nat) (l : list CheckOutcome)
  : nat -> list CheckOutcome :=
  fun x => if Nat.eqb x a then l else h x.

(** One atomic operation of a worker. *)
Definition step_worker (w : worker) (m : shared) : worker * shared :=
  match wk_pc w with
  | AtTest =>
      match dict_get (wk_server w) (sh_dict m) with
      | Some _ => (at_pc w AtLoad, m)
      | None => (at_pc w AtInit, m)
      end
  | AtInit =>
      let a := sh_next m in
      (at_pc w AtLoad,
       {| sh_dict := dict_set (wk_server w) a (sh_dict m);
          sh_heap := store (sh_heap m) a [];
          sh_next := S a |})
  | AtLoad =>
      match dict_get (wk_server w) (sh_dict m) with
      | Some a => (at_pc w (AtAppend a), m)
      | None => (at_pc w Failed, m)
      end
  | AtAppend a =>
      (at_pc w Done,
       {| sh_dict := sh_dict m;
          sh_heap := store (sh_heap m) a (sh_heap m a ++ [wk_entry w])%list;
          sh_next := sh_next m |})
  | Done => (w, m)
  | Failed => (w, m)
  end.

Fixpoint set_nth {A : Type} (i : nat) (x : A) (l : list A) : list A :=
  match l, i with
  | [], _ => []
  | _ :: l', O => x :: l'
  | y :: l', S i' => y :: set_nth i' x l'
  end.

Definition system : Type := (list worker * shared)%type.

(** The scheduler lets worker [i] perform its next operation. *)
Definition step (i : nat) (c : system) : system :=
  match nth_error (fst c) i with
  | Some w =>
      let (w', m') := step_worker w (snd c) in
      (set_nth i w' (fst c), m')
  | None => c
  end.

Definition run (schedule : list nat) (c : system) : system :=
  fold_left (fun c i => step i c) schedule c.

(** The list that the dict holds for [server]. *)
Definition visible (m : shared) (server : string) : list CheckOutcome :=
  match dict_get server (sh_dict m) with
  | Some a => sh_heap m a
  | None => []
  end.

Definition finished (w : worker) : bool :=
  match wk_pc w with
  | Done => true
  | _ => false
  end.

Definition spawn (server : string) (entry : CheckOutcome) : worker :=
  {| wk_server := server; wk_entry := entry; wk_pc := AtTest |}.

Definition empty : shared :=
  {| sh_dict := []; sh_heap := fun _ => []; sh_next := 0 |}.

Definition outcome (name : string) : CheckOutcome :=
  {| o_check_name := name; o_result := "Success"; o_response_time := Some (PInt 0) |}.

(** Two workers of one server in the first round, and a schedule in which
    both test for the key before either stores its list. *)
Definition two_workers : system :=
  ([spawn "TG1" (outcome "PING"); spawn "TG1" (outcome "BOT")], empty).

Definition racy_schedule : list nat := [0; 1; 0; 0; 0; 1; 1; 1]%nat.

(** The first worker runs to its end before the second starts. *)
Definition serial_schedule : list nat := [0; 0; 0; 0; 1; 1; 1; 1]%nat.

(** The same two workers in a later round, when the dict already holds a
    list for the server. *)
Definition later_round : system :=
  (fst two_workers,
   {| sh_dict := [("TG1", 0%nat)];
      sh_heap := store (fun _ => []) 0 [outcome "PING"];
      sh_next := 1 |}).

(** The dict holds the list at address [a] for the server of [w]. *)
Definition appends_to (dict : list (string * nat)) (a : nat) (w : worker) : bool :=
  match dict_get (wk_server w) dict with
  | Some a' => Nat.eqb a' a
  | None => false
  end.

(** The outcomes of the finished workers whose server has its list at
    address [a], one for each such worker. *)
Definition finished_at (dict : list (string * nat)) (a : nat) (ws : list worker)
  : list CheckOutcome :=
  map wk_entry (filter (fun w => finished w && appends_to dict a w) ws).

(** The position of a worker whose server has its list at address
    [dict[server]]: it never stores a fresh list, and it appends to the list
    that the dict holds. *)
Definition settled (dict : list (string * nat)) (w : worker) : Prop :=
  exists a,
    dict_get (wk_server w) dict = Some a
    /\ match wk_pc w with
       | AtTest | AtLoad | Done => True
       | AtAppend a' => a' = a
       | AtInit | Failed => False
       end.

Definition identity (w : worker) : string * CheckOutcome := (wk_server w, wk_entry w).

(** The dict and the workers are those of the start; every list holds what
    it held at the start, followed by the outcomes of the workers that have
    finished on it, each once. *)
Definition invariant (start : system) (c : system) : Prop :=
  sh_dict (snd c) = sh_dict (snd start)
  /\ map identity (fst c) = map identity (fst start)
  /\ (forall w, In w (fst c) -> settled (sh_dict (snd start)) w)
  /\ forall a,
      exists appended,
        sh_heap (snd c) a = (sh_heap (snd start) a ++ appended)%list
        /\ Permutation appended (finished_at (sh_dict (snd start)) a (fst c)).

End Interleaving.


(** ** Reading a trace *)

(** Phases of a round: starts and escalations, then joins, then the flush,
    then the sleep. *)
Definition round_phase (e : event) : nat :=
  match e with
  | EvThreadStart _ _ | EvHandleFailure _ _ _ | EvHandleWarning _ _ _ | EvStrategy _ _ _ => 0
  | EvThreadJoin _ _ => 1
  | EvFlush => 2
  | EvSleep _ => 3
  end.

Fixpoint phases_ordered (l : list event) : bool :=
  match l with
  | [] => true
  | e :: l' =>
      forallb (fun e' => (round_phase e <=? round_phase e')%nat) l' && phases_ordered l'
  end.


Definition is_strategy_event (e : event) : Prop :=
  match e with
  | EvStrategy _ _ _ => True
  | _ => False
  end.

(** Events added to the trace between two states. *)
Definition new_events (before after : state) : list event :=
  skipn (List.length (st_trace before)) (st_trace after).

(** [run_check] called [handle_failure]. *)
Definition failure_dispatched (l : list event) : Prop :=
  exists server check type, In (EvHandleFailure server check type) l.

(** [run_check] called [handle_warning]. *)
Definition warning_dispatched (l : list event) : Prop :=
  exists server check value, In (EvHandleWarning server check value) l.

(** The [handle] method of a strategy was entered. *)
Definition handler_invoked (l : list event) : Prop :=
  exists handler server check, In (EvStrategy handler server check) l.

(** The strategy whose [handle] the failure path enters, given the files
    that the process finds: none when the snapshot file is missing, when it
    is not a JSON document and when it holds the string [warning];
    otherwise the Migrate-Services strategy for [TG1] and the
    Notify-Failure strategy for any other server. *)
Definition failure_handler (files : list (string * string)) (server_name : string)
  : option strategy :=
  match dict_get "./aggregate_results.json" files with
  | None => None
  | Some text =>
      match Json.loads text with
      | None => None
      | Some data =>
          if py_eq_str data "warning" then None
          else Some (if String.eqb server_name "TG1" then MoveServicesStrategy
                     else NotifyFailureStrategy)
      end
  end.

(** The trace of a failure escalation and of a warning escalation: the
    call of [CheckManager] followed by the strategy that is entered. *)
Definition failure_events (files : list (string * string))
  (server_name check_name check_type : string) : list event :=
  EvHandleFailure server_name check_name check_type
  :: match failure_handler files server_name with
     | Some handler => [EvStrategy handler server_name check_name]
     | None => []
     end.

Definition warning_events (server_name check_name : string) (value : pynum) : list event :=
  [EvHandleWarning server_name check_name value;
   EvStrategy NotifyWarningStrategy server_name check_name].

(** ** Frames

    [frame view m]: running [m] leaves the part of the state selected by
    [view] as it was. *)

Definition frame {A T : Type} (view : state -> T) (m : M A) : Prop :=
  forall E s, view (snd (m E s)) = view s.

(** What a probe leaves alone: everything but the call count, the clock,
    the console and the SSH log. *)
Definition probe_view (s : state) :=
  (st_aggregate s, st_threads s, st_server_logs s, st_files s, st_posts s, st_trace s).

(** What a strategy handler leaves alone, besides the trace, to which it
    adds its own entry. *)
Definition handler_view (s : state) :=
  (st_aggregate s, st_threads s, st_server_logs s, st_files s).

Definition handler_body_view (s : state) :=
  (st_aggregate s, st_threads s, st_server_logs s, st_files s, st_trace s).

(** What logging an outcome leaves alone. *)
Definition log_view (s : state) :=
  (st_threads s, st_files s, st_posts s, st_ssh s, st_trace s).

Definition non_resource_types : list string := ["ping"; "telnet"; "service"].
Definition resource_type_names : list string := ["cpu"; "ram"; "disk_space"].

(** The outcomes that the aggregate holds for a server, and the lines of
    the log file of a server. *)
Definition outcomes_of (server_name : string) (agg : list (string * aggval))
  : list CheckOutcome :=
  match dict_get server_name agg with
  | Some (AList outcomes) => outcomes
  | _ => []
  end.

Definition log_lines_of (server_name : string) (logs : list (string * list string))
  : list string :=
  match dict_get server_name logs with
  | Some lines => lines
  | None => []
  end.

Definition snapshot_missing : exn :=
  Exn FileNotFoundError "[Errno 2] No such file or directory: './aggregate_results.json'".

(** ** The logger hierarchy *)

(** [p] is a proper prefix of [n]. *)
Definition proper_prefix (p n : string) : Prop :=
  PyStr.is_prefix p n = true /\ (String.length p < String.length n)%nat.

(** The entry of [n] respects the hierarchy: the parent of a logger is a
    proper prefix of its name, and a place holder is a proper prefix of the
    loggers below it. *)
Definition node_ok (d : Manager.dict) (n : string) : Prop :=
  match dict_get n d with
  | Some (LoggerNode (Some p)) => proper_prefix p n
  | Some (PlaceHolder children) => forall c, In c children -> proper_prefix n c
  | _ => True
  end.

Definition well_formed (d : Manager.dict) : Prop := forall n, node_ok d n.

Definition well_formed_but (x : string) (d : Manager.dict) : Prop :=
  forall n, n <> x -> node_ok d n.

(** What the file handlers hold after a record has passed the loggers of
    [chain]. *)
Definition record_lines (chain : list string) (msg : string)
  (logs : list (string * list string)) : list (string * list string) :=
  fold_left (fun logs k => write_line k msg logs) chain logs.

(** ** Counting outcomes *)

(** The check types that [run_check] knows. *)
Definition recognized (type : string) : bool :=
  existsb (String.eqb type) (non_resource_types ++ resource_type_names)%list.

(** The keys that [run_check] subscripts to build the monitor are
    present. *)
Definition buildable (server : ServerConfig) (check : CheckConfig) : bool :=
  if String.eqb (c_type check) "telnet" then
    match c_port check with Some _ => true | None => false end
  else if String.eqb (c_type check) "service" then
    match s_user server, s_password server, c_service check with
    | Some _, Some _, Some _ => true
    | _, _, _ => false
    end
  else true.

(** Number of outcomes held by the aggregate, over all servers. *)
Fixpoint outcome_count (agg : list (string * aggval)) : nat :=
  match agg with
  | [] => 0
  | (_, AList outcomes) :: agg' => List.length outcomes + outcome_count agg'
  | (_, AStr _) :: agg' => outcome_count agg'
  end.

(** The value stored for [key], if any, is a list of outcomes. *)
Definition holds_no_string (key : string) (agg : list (string * aggval)) : Prop :=
  forall text, dict_get key agg <> Some (AStr text).

(** The logger of the server can take the record: it is the root logger,
    or it has its file handler already, or the log file can be opened at the
    next external call. *)
Definition log_ready (E : env) (server_name : string) (s : state) : bool :=
  is_root_name server_name
  || has_handler server_name s
  || is_ok (w_open_log (e_world E) (st_tick s) (CheckManager.log_path server_name)).

(** In state [s], the worker of the pair gets as far as the append: the
    monitor is built, both probes return, the logger of the server can take
    the record, and the key of the server does not hold a string. *)
Definition pair_answers (E : env) (server : ServerConfig) (check : CheckConfig) (s : state)
  : Prop :=
  exists monitor result s1 response_time s2,
    CheckManager.select_monitor server check E s = (Ok (Some monitor), s)
    /\ monitor_check monitor E s = (Ok result, s1)
    /\ monitor_response_time monitor E s1 = (Ok response_time, s2)
    /\ log_ready E (s_name server) s2 = true
    /\ holds_no_string (s_name server) (st_aggregate s2).

(** The worker bodies of a round, one after the other. *)
Definition run_pairs (pairs : list (ServerConfig * CheckConfig)) : M unit :=
  for_each pairs (fun p => CheckManager.run_check (fst p) (snd p)).

(** Every pair of the round that has a recognized type answers in the
    state in which its worker runs, when the workers run one after the
    other from state [s]. *)
Fixpoint round_answers (E : env) (pairs : list (ServerConfig * CheckConfig)) (s : state)
  : Prop :=
  match pairs with
  | [] => True
  | p :: rest =>
      (recognized (c_type (snd p)) = true -> pair_answers E (fst p) (snd p) s)
      /\ round_answers E rest (snd (CheckManager.run_check (fst p) (snd p) E s))
  end.

(** The peer does not answer the connection attempt within the
    timeout. *)
Definition unanswered (timeout : Q) (b : conn_behaviour) : bool :=
  match b with
  | Accepts d | Refuses d _ => negb (Qle_bool d timeout)
  | Silent => true
  end.

Definition count_recognized (pairs : list (ServerConfig * CheckConfig)) : nat :=
  List.length (filter (fun p => recognized (c_type (snd p))) pairs).

(** The (server, check) pairs of a configuration, in the order of the two
    loops of [start]. *)
Definition pairs_of (cfg : config) : list (ServerConfig * CheckConfig) :=
  flat_map (fun server => map (pair server) (s_checks server)) (servers cfg).

Definition is_start (e : event) : bool :=
  match e with
  | EvThreadStart _ _ => true
  | _ => false
  end.

Definition start_event (p : ServerConfig * CheckConfig) : event :=
  EvThreadStart (s_name (fst p)) (c_name (snd p)).

Definition join_event (p : ServerConfig * CheckConfig) : event :=
  EvThreadJoin (s_name (fst p)) (c_name (snd p)).

(** An event that a worker adds to the trace. *)
Definition worker_event (e : event) : Prop :=
  round_phase e = 0%nat /\ is_start e = false.

(** ** Documents that survive [json.dumps] and [json.loads] *)

Module JsonText.

(** A Unicode scalar value: a code point that is not a surrogate. *)
Definition scalar (cp : N) : bool :=
  (cp <? 55296)%N || ((57344 <=? cp)%N && (cp <? 1114112)%N).

(** [s] is the UTF-8 encoding of a sequence of scalar values: the bytes
    of a Python [str] that holds no lone surrogate. *)
Definition well_encoded (s : string) : bool :=
  forallb scalar (Utf8.decode s)
  && String.eqb (String.concat EmptyString (map Utf8.encode1 (Utf8.decode s))) s.

(** [lexeme] is a JSON number from its first to its last character. *)
Definition is_number (lexeme : string) : bool :=
  match Json.parse_number lexeme with
  | Some (l, EmptyString) => String.eqb l lexeme
  | _ => false
  end.

Fixpoint distinct (keys : list string) : bool :=
  match keys with
  | [] => true
  | k :: ks => negb (existsb (String.eqb k) ks) && distinct ks
  end.

(** The documents that Python builds from [str], [int], finite [float],
    [bool], [None], lists and dicts with [str] keys: every string is well
    encoded, every number lexeme is a JSON number and the keys of an object
    are distinct. *)
Fixpoint exchangeable (v : json) : bool :=
  match v with
  | JNull => true
  | JBool _ => true
  | JNum lexeme => is_number lexeme
  | JStr s => well_encoded s
  | JArr items => forallb exchangeable items
  | JObj members =>
      distinct (map fst members)
      && forallb (fun kv : string * json =>
                    let (k, x) := kv in well_encoded k && exchangeable x) members
  end.

(** What follows a value in a text written by [json.dumps(..., indent=4)]:
    the end of the text, a comma or a line break. *)
Definition ends_value (rest : string) : bool :=
  match rest with
  | EmptyString => true
  | String c _ => Ascii.eqb c "," || Ascii.eqb c (ascii_of_nat 10)
  end.

(** The text of the items of an array after the first one, and of the
    members of an object after the first one. *)
Definition items_tail (level : nat) : list json -> string :=
  fix rest (l : list json) : string :=
    match l with
    | [] => EmptyString
    | y :: l' =>
        "," ++ Json.newline_indent (S level) ++ Json.encode (S level) y ++ rest l'
    end.

Definition members_tail (level : nat) : list (string * json) -> string :=
  fix rest (l : list (string * json)) : string :=
    match l with
    | [] => EmptyString
    | (k', y) :: l' =>
        "," ++ Json.newline_indent (S level) ++ Json.encode_string k' ++ ": "
        ++ Json.encode (S level) y ++ rest l'
    end.

(** The stages of [Json.parse_number]: the sign, the fraction and the
    exponent. *)
Definition number_sign (s : string) : string * string :=
  match s with
  | String "-" r => ("-", r)
  | _ => (EmptyString, s)
  end.

Definition number_fraction (s2 : string) : string * string :=
  match s2 with
  | String "." r2 =>
      let (d, rest) := Json.span_digits r2 in
      match d with
      | EmptyString => (EmptyString, s2)
      | _ => ("." ++ d, rest)
      end
  | _ => (EmptyString, s2)
  end.

Definition exponent_sign (r3 : string) : string * string :=
  match r3 with
  | String "+" r' => ("+", r')
  | String "-" r' => ("-", r')
  | _ => (EmptyString, r3)
  end.

Definition number_exponent (s3 : string) : string * string :=
  match s3 with
  | String e r3 =>
      if Ascii.eqb e "e" || Ascii.eqb e "E" then
        let (sg, r4) := exponent_sign r3 in
        let (d, rest) := Json.span_digits r4 in
        match d with
        | EmptyString => (EmptyString, s3)
        | _ => (String e (sg ++ d), rest)
        end
      else (EmptyString, s3)
  | EmptyString => (EmptyString, s3)
  end.

(** The scanner reads [v] back from its text, at any depth of
    indentation, whatever follows the text, when it has at least as much
    fuel as the text has characters. *)
Definition reads_back (v : json) : Prop :=
  forall (level : nat) (rest : string) (fuel : nat),
    ends_value rest = true ->
    (String.length (Json.encode level v) <= fuel)%nat ->
    Json.parse_value fuel (Json.encode level v ++ rest) = Some (v, rest).

(** The first character of a value: not white space and not a closing
    bracket. *)
Definition head_ok (s : string) : bool :=
  match s with
  | String c _ => negb (Json.is_ws c) && negb (Ascii.eqb c "]")
  | EmptyString => false
  end.

End JsonText.

(** ** api.py: the routes

    The two view functions of the Flask application.  A view reads the
    snapshot file through [read_results]; an exception that leaves the view
    is the error that Flask answers with status 500. *)

(** What a view function hands to Flask: the value given to [jsonify] and
    the status code ([200] when the view returns the body alone). *)
Record response : Type := { r_body : json; r_status : Z }.

Fixpoint all_chars (f : ascii -> bool) (s : string) : bool :=
  match s with
  | EmptyString => true
  | String c r => f c && all_chars f r
  end.

(** The digits of a number lexeme that [json.load] turns into an [int]:
    the lexeme has neither a fraction nor an exponent. *)
Definition int_digits (lexeme : string) : option string :=
  let digits := snd (JsonText.number_sign lexeme) in
  match digits with
  | EmptyString => None
  | _ => if all_chars Json.is_digit digits then Some digits else None
  end.

(** [bool(v)] for a value loaded by [json.load]: [None], [False], zero,
    the empty string, the empty list and the empty dict are false.  A
    lexeme that is not an [int] is a [float], read by [float()]; the
    lexemes that [float()] reads as no rational number ([NaN],
    [Infinity]) are true. *)
Definition py_bool (W : world) (v : json) : bool :=
  match v with
  | JNull => false
  | JBool b => b
  | JNum lexeme =>
      match int_digits lexeme with
      | Some digits => negb (all_chars (fun c => Ascii.eqb c "0") digits)
      | None =>
          match w_float_parse W lexeme with
          | Some q => negb (Qeq_bool q 0)
          | None => true
          end
      end
  | JStr s => negb (String.eqb s EmptyString)
  | JArr items => match items with [] => false | _ :: _ => true end
  | JObj members => match members with [] => false | _ :: _ => true end
  end.

(** [type(v).__name__] for a loaded value. *)
Definition py_type_name (v : json) : string :=
  match v with
  | JNull => "NoneType"
  | JBool _ => "bool"
  | JNum lexeme => match int_digits lexeme with Some _ => "int" | None => "float" end
  | JStr _ => "str"
  | JArr _ => "list"
  | JObj _ => "dict"
  end.

Module Routes.

Definition not_found : response :=
  {| r_body := JObj [("error", JStr "Server not found")]; r_status := 404 |}.

(** [GET /results]. *)
Definition get_results : M response :=
  data <- Api.read_results ;;
  ret {| r_body := data; r_status := 200 |}.

(** [GET /results/<server_name>]. *)
Definition get_server_results (server_name : string) : M response :=
  data <- Api.read_results ;;
  match data with
  | JObj members =>
      let server_data :=
        match dict_get server_name members with
        | Some v => v
        | None => JObj []
        end in
      truth <- library (fun W => py_bool W server_data) ;;
      if negb truth then ret not_found
      else ret {| r_body := server_data; r_status := 200 |}
  | _ =>
      raise (Exn AttributeError
               ("'" ++ py_type_name data ++ "' object has no attribute 'get'"))
  end.

End Routes.

(** ** Vocabulary of the further properties *)

(** The services that the service checks of a server name, in the order of
    its checks. *)
Definition service_names (info : ServerConfig) : list string :=
  flat_map (fun check =>
              if String.eqb (c_type check) "service" then
                match c_service check with
                | Some service => [service]
                | None => []
                end
              else [])
    (s_checks info).

(** What only the round controller changes: the list of threads and the
    files. *)
Definition persistent_view (s : state) := (st_threads s, st_files s).

(** No SSH session can be opened to the server in state [s]: a credential
    is missing from its dict, or the connection attempt raises. *)
Definition ssh_unavailable (E : env) (s : state) (info : ServerConfig) : Prop :=
  match s_user info, s_password info with
  | Some user, Some password =>
      exists e, w_ssh_connect (e_world E) (st_tick s) (s_host info) 22 user password = Raise e
  | _, _ => True
  end.

(** The aggregate can be written and read back: its names and time stamp
    are well-encoded strings, its response times print as JSON numbers and
    its keys are distinct. *)
Definition writable (W : world) (agg : list (string * aggval)) : Prop :=
  JsonText.exchangeable (CheckManager.snapshot_json W agg) = true.

(** The records that [manage_service] writes to the console when the
    command [systemctl <action> <service>] was answered with [answer] on a
    session whose peer address is [peer]: the output, when there is one, at
    level INFO; what the command wrote on its error stream, or the
    exception of a command that could not be run, at level ERROR. *)
Definition service_records (peer service action : string)
  (answer : result (string * string)) : list (log_level * string) :=
  match answer with
  | Ok (out, err) =>
      let shown :=
        if String.eqb out EmptyString then []
        else [(INFO, "Output of " ++ action ++ " " ++ service ++ " on " ++ peer ++ ": " ++ out)] in
      let failed :=
        if String.eqb err EmptyString then []
        else [(ERROR, "Error in " ++ action ++ " " ++ service ++ " on " ++ peer
                      ++ ": " ++ err)] in
      (shown ++ failed)%list
  | Raise e =>
      [(ERROR, "Failed to " ++ action ++ " " ++ service ++ " on " ++ peer ++ ": " ++ exn_str e)]
  end.

(** The time that [socket.create_connection] spends on the addresses of a
    host: they are tried one after the other until one accepts; an attempt
    lasts the delay of the peer, and the timeout when the peer takes
    longer or does not answer. *)
Fixpoint attempts_time (timeout : Q) (addresses : list conn_behaviour) : Q :=
  match addresses with
  | [] => 0
  | b :: rest =>
      match b with
      | Accepts d =>
          if Qle_bool d timeout then d else timeout + attempts_time timeout rest
      | Refuses d _ =>
          (if Qle_bool d timeout then d else timeout) + attempts_time timeout rest
      | Silent => timeout + attempts_time timeout rest
      end
  end.

(** The time of the lookup and of the attempts that follow it. *)
Definition connection_time (timeout : Q) (r : resolution) : Q :=
  match r with
  | Resolves after addresses => after + attempts_time timeout addresses
  | Unresolved after _ => after
  end.

(** The key [last-check-time] of the aggregate holds a string: the time
    stamp of a flush. *)
Definition reserved (agg : list (string * aggval)) : Prop :=
  exists stamp, dict_get "last-check-time" agg = Some (AStr stamp).

(** ** Further environments *)

Module Outage.

(** The same world, except that [f] answers the commands run over SSH. *)
Definition with_ssh_exec (f : nat -> session -> string -> result (string * string))
  (W : world) : world :=
  {| w_float_repr := w_float_repr W;
     w_float_parse := w_float_parse W;
     w_float_div := w_float_div W;
     w_float_mul := w_float_mul W;
     w_str_repr := w_str_repr W;
     w_subprocess_run := w_subprocess_run W;
     w_connect := w_connect W;
     w_open_log := w_open_log W;
     w_ssh_connect := w_ssh_connect W;
     w_ssh_exec := f;
     w_peername := w_peername W;
     w_loadavg := w_loadavg W;
     w_cpu_count := w_cpu_count W;
     w_virtual_memory_percent := w_virtual_memory_percent W;
     w_disk_usage_percent := w_disk_usage_percent W;
     w_post := w_post W;
     w_now := w_now W |}.

Definition channel_closed : exn := Exn OSError "SSH session not active".

(** The hosts accept SSH connections but no command can be run. *)
Definition no_commands : world :=
  with_ssh_exec (fun _ _ _ => Raise channel_closed) Fleet.healthy.

(** Every command fails and says so on its error stream. *)
Definition failing_commands : world :=
  with_ssh_exec (fun _ _ _ => Ok (EmptyString, "Failed to stop unit")) Fleet.healthy.

(** A relay that accepts the first post and refuses the following ones. *)
Definition relay_fails_after_one : world :=
  Fleet.with_post
    (fun n _ _ _ => if (n =? 0)%nat then Ok tt else Raise (Exn OSError "Connection refused"))
    Fleet.healthy.

(** A processor check that is not called [CPU]. *)
Definition load_check : CheckConfig :=
  {| c_name := "LOAD"; c_type := "cpu"; c_port := None; c_service := None |}.

(** The first ping is answered and the second is lost. *)
Definition second_ping_lost : world :=
  Fleet.with_ping
    (fun n _ =>
       if (n =? 0)%nat then Ok (0%Z, Fleet.ping_reply)
       else Ok (1%Z, "1 packets transmitted, 0 received"))
    Fleet.healthy.

End Outage.
(** * Properties *)

(** ** Dicts *)

Lemma dict_get_set_same {V : Type} (k : string) (v : V) (d : list (string * V)) :
  dict_get k (dict_set k v d) = Some v.
Proof.
  induction d as [|[k' v'] d IH]; simpl.
  - now rewrite String.eqb_refl.
  - destruct (String.eqb k k') eqn:E; simpl; rewrite ?String.eqb_refl, ?E; auto.
Qed.

Lemma dict_get_set_other {V : Type} (k k' : string) (v : V) (d : list (string * V)) :
  k <> k' -> dict_get k (dict_set k' v d) = dict_get k d.
Proof.
  intros Hne. induction d as [|[k2 v2] d IH]; simpl.
  - apply String.eqb_neq in Hne. now rewrite Hne.
  - destruct (String.eqb k' k2) eqn:E; simpl.
    + apply String.eqb_eq in E. subst k2.
      apply String.eqb_neq in Hne. now rewrite Hne.
    + destruct (String.eqb k k2); auto.
Qed.

Lemma dict_set_set {V : Type} (k : string) (v v' : V) (d : list (string * V)) :
  dict_set k v (dict_set k v' d) = dict_set k v d.
Proof.
  induction d as [|[k2 v2] d IH]; simpl.
  - now rewrite String.eqb_refl.
  - destruct (String.eqb k k2) eqn:E; simpl.
    + now rewrite String.eqb_refl.
    + rewrite E. now rewrite IH.
Qed.

(** ** The logger hierarchy *)

Lemma take_is_prefix (k : nat) (s : string) : PyStr.is_prefix (PyStr.take k s) s = true.
Proof.
  revert k. induction s as [|c s IH]; intros [|k]; simpl; auto.
  now rewrite Ascii.eqb_refl, IH.
Qed.

Lemma take_length (k : nat) (s : string) :
  (k <= String.length s)%nat -> String.length (PyStr.take k s) = k.
Proof.
  revert k. induction s as [|c s IH]; intros [|k]; simpl; intros H; try lia.
  rewrite IH; lia.
Qed.

Lemma is_prefix_trans (a b c : string) :
  PyStr.is_prefix a b = true -> PyStr.is_prefix b c = true -> PyStr.is_prefix a c = true.
Proof.
  revert b c. induction a as [|x a IH]; intros [|y b] [|z c]; simpl; auto; try discriminate.
  intros H1 H2. apply andb_true_iff in H1 as [Hxy Hab]. apply andb_true_iff in H2 as [Hyz Hbc].
  apply Ascii.eqb_eq in Hxy. subst y. rewrite Hyz. simpl. eauto.
Qed.

Lemma proper_prefix_trans (a b c : string) :
  proper_prefix a b -> proper_prefix b c -> proper_prefix a c.
Proof.
  intros [H1 L1] [H2 L2]. split; [eapply is_prefix_trans; eauto|lia].
Qed.

Lemma proper_prefix_neq (p n : string) : proper_prefix p n -> p <> n.
Proof. intros [_ H] ->. lia. Qed.

Lemma rfind_dot_from_bound (name : string) (pos stop : nat) (last : option nat) (i : nat) :
  Manager.rfind_dot_from name pos stop last = Some i ->
  last = Some i \/ (i < stop /\ i < pos + String.length name)%nat.
Proof.
  revert pos last. induction name as [|c r IH]; intros pos last; simpl.
  - auto.
  - destruct (stop <=? pos)%nat eqn:Hs; [auto|].
    apply Nat.leb_gt in Hs. intros H. apply IH in H as [H|H].
    + destruct (Ascii.eqb c "."); [|auto]. injection H as <-. right. lia.
    + right. lia.
Qed.

Lemma rfind_dot_bound (name : string) (stop i : nat) :
  Manager.rfind_dot name stop = Some i -> (i < stop /\ i < String.length name)%nat.
Proof.
  intros H. apply rfind_dot_from_bound in H as [H|H]; [discriminate|lia].
Qed.

Lemma fixup_loop_well_formed (fuel : nat) (name : string) (i : option nat)
  (d d' : Manager.dict) (rv : option string) :
  (forall v, i = Some v -> (v < String.length name)%nat) ->
  Manager.fixup_loop fuel name i d = (d', rv) ->
  well_formed_but name d ->
  well_formed_but name d' /\ (forall p, rv = Some p -> proper_prefix p name).
Proof.
  revert i d. induction fuel as [|fuel IH]; intros i d Hi Hrun Hwf.
  - simpl in Hrun. injection Hrun as <- <-. split; [exact Hwf|discriminate].
  - cbn [Manager.fixup_loop] in Hrun.
    destruct i as [[|j]|]; try (injection Hrun as <- <-; split; [exact Hwf|discriminate]).
    specialize (Hi _ eq_refl).
    assert (Hsub : proper_prefix (PyStr.take (S j) name) name).
    { split; [apply take_is_prefix|rewrite take_length; lia]. }
    assert (Hnext : forall v, Manager.rfind_dot name j = Some v -> (v < String.length name)%nat).
    { intros v Hv. apply rfind_dot_bound in Hv. lia. }
    pose proof (proper_prefix_neq _ _ Hsub) as Hne.
    destruct (dict_get (PyStr.take (S j) name) d) as [[parent|children]|] eqn:Hget.
    + injection Hrun as <- <-. split; [exact Hwf|]. intros p [= <-]. exact Hsub.
    + apply (IH _ _ Hnext Hrun).
      intros n Hn. unfold node_ok.
      destruct (string_dec n (PyStr.take (S j) name)) as [->|Hn'].
      * rewrite dict_get_set_same. intros c Hc. unfold Manager.placeholder_append in Hc.
        destruct (existsb _ children).
        -- specialize (Hwf _ Hne). unfold node_ok in Hwf. rewrite Hget in Hwf. auto.
        -- apply in_app_or in Hc as [Hc|[<-|[]]]; [|exact Hsub].
           specialize (Hwf _ Hne). unfold node_ok in Hwf. rewrite Hget in Hwf. auto.
      * rewrite dict_get_set_other by exact Hn'. apply Hwf. exact Hn.
    + apply (IH _ _ Hnext Hrun).
      intros n Hn. unfold node_ok.
      destruct (string_dec n (PyStr.take (S j) name)) as [->|Hn'].
      * rewrite dict_get_set_same. intros c [<-|[]]. exact Hsub.
      * rewrite dict_get_set_other by exact Hn'. apply Hwf. exact Hn.
Qed.

Lemma fixup_parents_well_formed (name : string) (d : Manager.dict) :
  well_formed_but name d -> well_formed (Manager.fixup_parents name d).
Proof.
  intros Hwf. unfold Manager.fixup_parents.
  destruct (Manager.fixup_loop _ _ _ d) as [d' rv] eqn:Hrun.
  apply fixup_loop_well_formed in Hrun as [Hwf' Hrv]; [|intros v Hv; apply rfind_dot_bound in Hv; lia|exact Hwf].
  intros n. unfold node_ok. destruct (string_dec n name) as [->|Hn].
  - rewrite dict_get_set_same. destruct rv as [p|]; [auto|exact I].
  - rewrite dict_get_set_other by exact Hn. apply Hwf'. exact Hn.
Qed.

Lemma fixup_children_well_formed (name : string) (children : list string) (d : Manager.dict) :
  (forall c, In c children -> proper_prefix name c) ->
  well_formed_but name d ->
  well_formed_but name (Manager.fixup_children name children d).
Proof.
  unfold Manager.fixup_children. revert d.
  induction children as [|c children IH]; intros d Hch Hwf; [exact Hwf|].
  cbn [fold_left]. apply IH; [intros c' Hc'; apply Hch; now right|].
  destruct (dict_get c d) as [[parent|?]|]; try exact Hwf.
  destruct (String.eqb _ name); [exact Hwf|].
  pose proof (Hch c (or_introl eq_refl)) as Hc.
  pose proof (proper_prefix_neq _ _ Hc) as Hne.
  intros n Hn. unfold node_ok. destruct (string_dec n c) as [->|Hn'].
  - rewrite dict_get_set_same. exact Hc.
  - rewrite !dict_get_set_other by assumption. apply Hwf. exact Hn.
Qed.

Lemma well_formed_set_fresh (name : string) (d : Manager.dict) :
  well_formed d -> well_formed_but name (dict_set name (LoggerNode None) d).
Proof.
  intros Hwf n Hn. unfold node_ok. rewrite dict_get_set_other by exact Hn. apply Hwf.
Qed.

Lemma getLogger_well_formed (name : string) (d : Manager.dict) :
  well_formed d -> well_formed (Manager.getLogger name d).
Proof.
  intros Hwf. unfold Manager.getLogger.
  pose proof (Hwf name) as Hname. unfold node_ok in Hname.
  destruct (dict_get name d) as [[parent|children]|]; [exact Hwf| |].
  - apply fixup_parents_well_formed, fixup_children_well_formed; [exact Hname|].
    now apply well_formed_set_fresh.
  - apply fixup_parents_well_formed. now apply well_formed_set_fresh.
Qed.

(** The dict that a history of calls builds is well formed. *)
Lemma logger_dict_well_formed (history : list string) : well_formed (logger_dict history).
Proof.
  unfold logger_dict.
  assert (H : forall d, well_formed d ->
                        well_formed (fold_left (fun d name => Manager.getLogger name d) history d)).
  { induction history as [|n history IH]; intros d Hd; [exact Hd|].
    cbn [fold_left]. apply IH. now apply getLogger_well_formed. }
  apply H. intros n. exact I.
Qed.

Lemma lineage_unfold (d : Manager.dict) (fuel : nat) (name : string) :
  Manager.lineage (S fuel) d name
  = name :: match dict_get name d with
            | Some (LoggerNode (Some parent)) => Manager.lineage fuel d parent
            | _ => []
            end.
Proof. reflexivity. Qed.

(** The ancestors that handle a record of [name] are proper prefixes of
    [name]. *)
Lemma lineage_ancestors (d : Manager.dict) (fuel : nat) (name : string) :
  well_formed d ->
  exists ancestors,
    Manager.lineage (S fuel) d name = name :: ancestors
    /\ Forall (fun k => proper_prefix k name) ancestors.
Proof.
  intros Hwf. revert name. induction fuel as [|fuel IH]; intros name.
  - rewrite lineage_unfold. cbn [Manager.lineage].
    destruct (dict_get name d) as [[[p|]|?]|]; exists []; split;
      try reflexivity; constructor.
  - rewrite lineage_unfold.
    pose proof (Hwf name) as Hn. unfold node_ok in Hn.
    destruct (dict_get name d) as [[[p|]|?]|].
    + destruct (IH p) as (ancestors & Heq & Hall). rewrite Heq.
      eexists. split; [reflexivity|]. constructor; [exact Hn|].
      eapply Forall_impl; [|exact Hall]. intros k Hk.
      exact (proper_prefix_trans _ _ _ Hk Hn).
    + exists []. split; [reflexivity|constructor].
    + exists []. split; [reflexivity|constructor].
    + exists []. split; [reflexivity|constructor].
Qed.

Lemma write_line_get (k name msg : string) (logs : list (string * list string)) :
  dict_get k (write_line name msg logs)
  = if String.eqb k name then option_map (fun lines => lines ++ [msg])%list (dict_get k logs)
    else dict_get k logs.
Proof.
  unfold write_line. destruct (String.eqb k name) eqn:Hk.
  - apply String.eqb_eq in Hk. subst k.
    destruct (dict_get name logs) as [lines|] eqn:Hg; cbn [option_map].
    + apply dict_get_set_same.
    + exact Hg.
  - apply String.eqb_neq in Hk.
    destruct (dict_get name logs); [apply dict_get_set_other; exact Hk|reflexivity].
Qed.

(** A file whose logger is not in the chain is left alone. *)
Lemma record_lines_other (k msg : string) (chain : list string)
  (logs : list (string * list string)) :
  ~ In k chain -> dict_get k (record_lines chain msg logs) = dict_get k logs.
Proof.
  unfold record_lines. revert logs. induction chain as [|n chain IH]; intros logs Hk.
  - reflexivity.
  - cbn [fold_left]. rewrite IH by (intros H; apply Hk; now right).
    rewrite write_line_get.
    destruct (String.eqb k n) eqn:E; [|reflexivity].
    apply String.eqb_eq in E. subst. exfalso. apply Hk. now left.
Qed.

(** The file of the logger at the head of the chain receives the line
    once. *)
Lemma record_lines_own (name msg : string) (ancestors : list string)
  (logs : list (string * list string)) :
  ~ In name ancestors ->
  dict_get name (record_lines (name :: ancestors) msg logs)
  = option_map (fun lines => lines ++ [msg])%list (dict_get name logs).
Proof.
  intros H. unfold record_lines. cbn [fold_left].
  fold (record_lines ancestors msg (write_line name msg logs)).
  rewrite record_lines_other by exact H.
  rewrite write_line_get, String.eqb_refl. reflexivity.
Qed.

Lemma for_each_record (chain : list string) (msg : string) (E : env) (s : state) :
  for_each chain (fun k => modify (set_server_logs (write_line k msg))) E s
  = (Ok tt, set_server_logs (record_lines chain msg) s).
Proof.
  revert s. induction chain as [|k chain IH]; intros s.
  - destruct s; reflexivity.
  - cbn [for_each]. unfold bind at 1, modify at 1. rewrite IH. destruct s; reflexivity.
Qed.

Lemma append_assoc_string (a b c : string) : ((a ++ b) ++ c)%string = (a ++ b ++ c)%string.
Proof. induction a as [|x a IH]; simpl; [reflexivity|now rewrite IH]. Qed.

Lemma new_events_app (s s' : state) (l : list event) :
  st_trace s' = (st_trace s ++ l)%list -> new_events s s' = l.
Proof.
  intros H. unfold new_events. rewrite H.
  rewrite skipn_app, skipn_all, Nat.sub_diag. reflexivity.
Qed.


(** ** Strategy selection *)

Lemma py_eq_str_true (v : json) (s : string) :
  py_eq_str v s = true <-> v = JStr s.
Proof.
  destruct v; simpl; split; intros H; try discriminate.
  - apply String.eqb_eq in H. now subst.
  - injection H as ->. apply String.eqb_refl.
Qed.

Lemma py_eq_str_false (v : json) (s : string) :
  py_eq_str v s = false <-> v <> JStr s.
Proof.
  split.
  - intros H Heq. apply py_eq_str_true in Heq. congruence.
  - intros H. destruct (py_eq_str v s) eqn:E; [|reflexivity].
    apply py_eq_str_true in E. contradiction.
Qed.

(** C5.  [get_strategy] returns the Notify-Warning strategy when its third
    argument is the string [warning], whatever the server; otherwise the
    Migrate-Services strategy when the server name is [TG1]; otherwise the
    Notify-Failure strategy. *)
Theorem get_strategy_selection (server_name check_type : string) (severity : json) :
  (severity = JStr "warning" ->
   StrategyFactory.get_strategy server_name check_type severity = NotifyWarningStrategy) /\
  (severity <> JStr "warning" -> server_name = "TG1" ->
   StrategyFactory.get_strategy server_name check_type severity = MoveServicesStrategy) /\
  (severity <> JStr "warning" -> server_name <> "TG1" ->
   StrategyFactory.get_strategy server_name check_type severity = NotifyFailureStrategy).
Proof.
  unfold StrategyFactory.get_strategy. repeat split.
  - intros H. apply py_eq_str_true in H. now rewrite H.
  - intros H Hs. apply py_eq_str_false in H. rewrite H. subst. reflexivity.
  - intros H Hs. apply py_eq_str_false in H. rewrite H.
    apply String.eqb_neq in Hs. now rewrite Hs.
Qed.

Lemma get_strategy_selection_witness :
  StrategyFactory.get_strategy "TG1" "CPU" (JStr "warning") = NotifyWarningStrategy /\
  StrategyFactory.get_strategy "TG1" "ping" (JObj []) = MoveServicesStrategy /\
  StrategyFactory.get_strategy "WEB1" "ping" (JObj []) = NotifyFailureStrategy.
Proof.
  split; [|split].
  - apply (proj1 (get_strategy_selection "TG1" "CPU" (JStr "warning"))). reflexivity.
  - apply (proj1 (proj2 (get_strategy_selection "TG1" "ping" (JObj [])))).
    + discriminate.
    + reflexivity.
  - apply (proj2 (proj2 (get_strategy_selection "WEB1" "ping" (JObj [])))).
    + discriminate.
    + discriminate.
Defined.

(** ** The snapshot document *)

Lemma loads_object (text : string) (d : json) :
  Json.loads (String "{" text) = Some d -> exists members, d = JObj members.
Proof.
  unfold Json.loads.
  change (Json.skip_ws (String "{" text)) with (String "{" text).
  cbn [Json.parse_value]. 
  change (N_of_ascii "{" =? 34)%N with false.
  change (N_of_ascii "{" =? 123)%N with true.
  cbv iota.
  destruct (Json.parse_members _ _ _ _) as [[kvs rest]|]; [|discriminate].
  destruct (Json.skip_ws rest); [|discriminate].
  intros H. injection H as <-. now exists kvs.
Qed.

Lemma dumps_snapshot_object (W : world) (agg : list (string * aggval)) :
  exists text, Json.dumps (CheckManager.snapshot_json W agg) = String "{" text.
Proof.
  unfold Json.dumps, CheckManager.snapshot_json.
  destruct (map _ agg) as [|[k x] xs]; simpl; eauto.
Qed.

(** ** The round controller *)

Lemma for_each_nil_bodies {A B : Type} (l : list A) (checks : A -> list B)
  (body : A -> B -> M unit) (E : env) (s : state) :
  forallb (fun x => match checks x with [] => true | _ => false end) l = true ->
  for_each l (fun x => for_each (checks x) (body x)) E s = (Ok tt, s).
Proof.
  induction l as [|x l IH]; simpl; intros H; [reflexivity|].
  apply andb_true_iff in H as [Hx Hl].
  destruct (checks x) eqn:Hc; [|discriminate].
  unfold bind at 1. simpl. now apply IH.
Qed.

(** With a name that is not bound in the module, the first pair of the
    fleet stops the round before anything has happened. *)
Lemma fan_out_unbound (constructor : string) (E : env) (s : state) :
  existsb (String.eqb constructor) CheckManager.main_globals = false ->
  existsb (fun server => match s_checks server with [] => false | _ => true end)
    (servers (e_config E)) = true ->
  CheckManager.fan_out constructor E s
  = (Raise (Exn NameError ("name '" ++ constructor ++ "' is not defined")), s).
Proof.
  intros Hname Hpair. unfold CheckManager.fan_out, bind at 1, global.
  induction (servers (e_config E)) as [|server rest IH]; [discriminate|].
  simpl in Hpair. simpl for_each. unfold bind at 1.
  destruct (s_checks server) as [|check checks] eqn:Hc.
  - simpl in *. now apply IH.
  - simpl. unfold bind at 1. unfold bind at 1.
    unfold CheckManager.load_global. rewrite Hname. reflexivity.
Qed.

(** C2.  Whenever the fleet has at least one check, the first iteration
    of the loop of [start] raises [NameError] when it evaluates the name
    written at the place of the thread constructor: no worker is started or
    joined, the snapshot is not flushed and the loop does not sleep.  The
    state is left as it was, and [start] ends with that exception. *)
Theorem start_round_name_error (E : env) (st : state) :
  existsb (fun server => match s_checks server with [] => false | _ => true end)
    (servers (e_config E)) = true ->
  CheckManager.start_round E st
  = (Raise (Exn NameError "name 'Tфhread' is not defined"), st)
  /\ forall rounds,
      CheckManager.start (S rounds) E st
      = (Raise (Exn NameError "name 'Tфhread' is not defined"), st).
Proof.
  intros Hpair.
  assert (H : CheckManager.fan_out CheckManager.thread_constructor E st
              = (Raise (Exn NameError "name 'Tфhread' is not defined"), st)).
  { apply fan_out_unbound; [reflexivity|exact Hpair]. }
  assert (Hround : CheckManager.start_round E st
                   = (Raise (Exn NameError "name 'Tфhread' is not defined"), st)).
  { unfold CheckManager.start_round, CheckManager.round_with.
    unfold bind at 1. now rewrite H. }
  split; [exact Hround|].
  intros rounds. cbn [CheckManager.start]. unfold bind at 1. now rewrite Hround.
Qed.

Lemma start_round_name_error_witness :
  CheckManager.start_round Fleet.healthy_env (initial_state [])
  = (Raise (Exn NameError "name 'Tфhread' is not defined"), initial_state [])
  /\ st_trace (snd (CheckManager.start 3 Fleet.healthy_env (initial_state []))) = [].
Proof.
  destruct (start_round_name_error Fleet.healthy_env (initial_state []) eq_refl)
    as [Hround Hstart].
  split; [exact Hround|]. now rewrite Hstart.
Defined.

(** With the name [Thread], which the module does import, a round over the
    same fleet starts the five workers, joins them, flushes and sleeps. *)
Example round_with_Thread :
  let '(r, s) := CheckManager.round_with "Thread" Fleet.healthy_env (initial_state []) in
  r = Ok tt
  /\ phases_ordered (st_trace s) = true
  /\ filter (fun e => (round_phase e =? 1)%nat) (st_trace s)
     = [EvThreadJoin "TG1" "PING"; EvThreadJoin "TG1" "BOT"; EvThreadJoin "TG2" "PING";
        EvThreadJoin "WEB1" "TELNET"; EvThreadJoin "WEB1" "CPU"]
  /\ is_ok (fst (Api.read_results Fleet.healthy_env s)) = true.
Proof. vm_compute. repeat split. Qed.

(** Only a fleet without any check gets through an iteration of the loop:
    nothing is started or joined, the snapshot is flushed and the loop
    sleeps. *)
Lemma start_round_without_checks (E : env) (st : state) :
  forallb (fun server => match s_checks server with [] => true | _ => false end)
    (servers (e_config E)) = true ->
  st_threads st = [] ->
  fst (CheckManager.start_round E st) = Ok tt
  /\ new_events st (snd (CheckManager.start_round E st)) = [EvFlush; EvSleep 60].
Proof.
  intros Hidle Hthreads.
  assert (Hfan : CheckManager.fan_out CheckManager.thread_constructor E st = (Ok tt, st)).
  { unfold CheckManager.fan_out, bind at 1, global.
    apply (for_each_nil_bodies (servers (e_config E)) s_checks _ E st Hidle). }
  unfold CheckManager.start_round, CheckManager.round_with, bind. rewrite Hfan.
  unfold CheckManager.fan_in, CheckManager.save_aggregate_results, CheckManager.begin_flush,
    CheckManager.finish_flush, CheckManager.open_truncate, CheckManager.write_and_close,
    emit, sleep, external, library, modify, gets, bind.
  cbn [fst snd]. rewrite Hthreads. cbn [for_each ret fst snd].
  split; [reflexivity|].
  apply new_events_app. cbn [st_trace set_trace set_clock set_threads set_files set_aggregate
                               set_tick].
  now rewrite <- app_assoc.
Qed.

Example idle_round :
  fst (CheckManager.start_round {| e_world := Fleet.healthy; e_config := Fleet.idle_fleet |}
         (initial_state [])) = Ok tt.
Proof.
  apply (start_round_without_checks
           {| e_world := Fleet.healthy; e_config := Fleet.idle_fleet |} (initial_state []));
    reflexivity.
Qed.

(** [response_time] of the port monitor always returns the clock
    difference. *)
Lemma telnet_response_time_elapsed (host : string) (port : Z) (E : env) (st : state) :
  exists st',
    TelnetMonitor.response_time host port E st
    = (Ok (PFloat (st_clock st' - st_clock st)), st').
Proof.
  exists (snd (TelnetMonitor.response_time host port E st)).
  unfold TelnetMonitor.response_time, try_except, bind, time_time, gets, logging_error,
    console, modify, ret.
  cbn [fst snd].
  destruct (telnet_open host port 10 E st) as [[[]|e] s2]; reflexivity.
Qed.

(** When no address answers within the timeout, every attempt lasts the
    whole timeout and the connection fails. *)
Lemma connect_each_unanswered (addresses : list conn_behaviour) (last : option exn)
  (E : env) (s : state) :
  forallb (unanswered 10) addresses = true ->
  exists e s',
    connect_each addresses 10 last E s = (Raise e, s')
    /\ st_clock s' == st_clock s + 10 * inject_Z (Z.of_nat (List.length addresses))
    /\ st_tick s' = st_tick s
    /\ st_console s' = st_console s.
Proof.
  revert last s. induction addresses as [|b rest IH]; intros last s Hall.
  - destruct last as [e|]; do 2 eexists; (split; [reflexivity|]);
      (split; [cbn; ring|split; reflexivity]).
  - cbn [forallb] in Hall. apply andb_true_iff in Hall as [Hb Hrest].
    assert (Hstep : exists last',
               connect_each (b :: rest) 10 last E s
               = connect_each rest 10 last' E (set_clock (fun t => t + 10) s)).
    { cbn [connect_each]. destruct b as [d|d e|]; cbn [unanswered] in Hb.
      - apply negb_true_iff in Hb. rewrite Hb. eexists. reflexivity.
      - apply negb_true_iff in Hb. rewrite Hb. eexists. reflexivity.
      - eexists. reflexivity. }
    destruct Hstep as [last' ->].
    destruct (IH last' (set_clock (fun t => t + 10) s) Hrest) as (e & s' & Hrun & Hclock & Ht & Hc).
    exists e, s'. split; [exact Hrun|]. split; [|split; assumption].
    rewrite Hclock. cbn [st_clock set_clock List.length].
    rewrite Nat2Z.inj_succ. unfold Z.succ. rewrite inject_Z_plus.
    change (inject_Z 1) with 1. ring.
Qed.

(** The connection is established exactly when one of the addresses
    answers within the timeout. *)
Lemma connect_each_verdict (addresses : list conn_behaviour) (timeout : Q)
  (last : option exn) (E : env) (s : state) :
  let run := connect_each addresses timeout last E s in
  (fst run = Ok tt
   <-> existsb (fun b => match b with
                         | Accepts d => Qle_bool d timeout
                         | _ => false
                         end) addresses = true)
  /\ st_tick (snd run) = st_tick s
  /\ st_console (snd run) = st_console s.
Proof.
  cbv zeta. revert last s. induction addresses as [|b rest IH]; intros last s.
  - cbn. destruct last; cbn; repeat split; discriminate.
  - cbn [connect_each existsb].
    destruct b as [d|d e|].
    + destruct (Qle_bool d timeout).
      * cbn. repeat split; auto.
      * unfold bind, sleep, modify. cbn [fst snd orb].
        destruct (IH (Some socket_timeout) (set_clock (fun t => t + timeout) s))
          as (H1 & H2 & H3).
        rewrite H2, H3. cbn [st_tick st_console set_clock]. repeat split; apply H1.
    + cbn [orb]. destruct (Qle_bool d timeout); unfold bind, sleep, modify; cbn [fst snd].
      * destruct (IH (Some e) (set_clock (fun t => t + d) s)) as (H1 & H2 & H3).
        rewrite H2, H3. cbn [st_tick st_console set_clock]. repeat split; apply H1.
      * destruct (IH (Some socket_timeout) (set_clock (fun t => t + timeout) s))
          as (H1 & H2 & H3).
        rewrite H2, H3. cbn [st_tick st_console set_clock]. repeat split; apply H1.
    + cbn [orb]. unfold bind, sleep, modify. cbn [fst snd].
      destruct (IH (Some socket_timeout) (set_clock (fun t => t + timeout) s))
        as (H1 & H2 & H3).
      rewrite H2, H3. cbn [st_tick st_console set_clock]. repeat split; apply H1.
Qed.

(** ** The snapshot flush *)

(** C3 (amended).  The flush opens the snapshot path itself for writing,
    which truncates the file, and then writes the serialised aggregate to
    that same path: it always returns, no other path is created or changed,
    and at the end the file holds the serialised aggregate.  Between the
    [open] and the write the file is empty, and [read_results] raises on
    it. *)
Theorem flush_truncates_in_place (E : env) (st : state) :
  let s1 := snd (CheckManager.begin_flush E st) in
  let s2 := snd (CheckManager.save_aggregate_results E st) in
  fst (CheckManager.save_aggregate_results E st) = Ok tt
  /\ dict_get snapshot_path (st_files s1) = Some EmptyString
  /\ fst (Api.read_results E s1) = Raise (Exn JSONDecodeError "Expecting value")
  /\ dict_get snapshot_path (st_files s2)
     = Some (Json.dumps (CheckManager.snapshot_json (e_world E) (st_aggregate s2)))
  /\ (forall path, path <> snapshot_path ->
      dict_get path (st_files s1) = dict_get path (st_files st)
      /\ dict_get path (st_files s2) = dict_get path (st_files st)).
Proof.
  cbv zeta.
  unfold CheckManager.save_aggregate_results, CheckManager.begin_flush,
    CheckManager.finish_flush, CheckManager.open_truncate, CheckManager.write_and_close,
    Api.read_results, load_snapshot, emit, external, library, modify, gets, bind.
  cbn [fst snd st_files st_aggregate set_files set_aggregate set_trace set_tick].
  repeat split.
  - apply dict_get_set_same.
  - rewrite dict_get_set_same. reflexivity.
  - apply dict_get_set_same.
  - apply dict_get_set_other. congruence.
  - rewrite !dict_get_set_other by congruence. reflexivity.
Qed.

(** C3 (the claim as stated fails).  A reader that found a complete
    document before the flush finds an empty file, which is not a JSON
    document, once the flush has opened the snapshot path. *)
Lemma reader_sees_truncated_snapshot :
  let st := initial_state [(snapshot_path, Fleet.old_snapshot)] in
  let during := snd (CheckManager.begin_flush Fleet.healthy_env st) in
  is_ok (fst (Api.read_results Fleet.healthy_env st)) = true
  /\ dict_get snapshot_path (st_files during) = Some EmptyString
  /\ is_ok (fst (Api.read_results Fleet.healthy_env during)) = false.
Proof. vm_compute. repeat split. Qed.

(** ** The port monitor *)

(** A host none of whose addresses answers: the check fails after the
    lookup and ten seconds for each address. *)
Lemma telnet_open_unanswered (host : string) (port : Z) (E : env) (s : state)
  (after : Q) (addresses : list conn_behaviour) :
  w_connect (e_world E) (st_tick s) host port = Resolves after addresses ->
  forallb (unanswered 10) addresses = true ->
  exists e s',
    telnet_open host port 10 E s = (Raise e, s')
    /\ st_clock s'
       == st_clock s + after + 10 * inject_Z (Z.of_nat (List.length addresses))
    /\ st_tick s' = S (st_tick s)
    /\ st_console s' = st_console s.
Proof.
  intros Hres Hall. unfold telnet_open, bind at 1, external. rewrite Hres.
  unfold bind, sleep, modify. cbn [fst snd].
  destruct (connect_each_unanswered addresses None E
              (set_clock (fun t => t + after) (set_tick S s)) Hall)
    as (e & s' & Hrun & Hclock & Htick & Hconsole).
  exists e, s'. split; [exact Hrun|]. split; [|split; assumption].
  rewrite Hclock. cbn [st_clock set_clock set_tick]. ring.
Qed.

(** C7 (amended).  [TelnetMonitor.response_time] returns, whatever the
    connection attempt does, the difference of the clock readings taken
    after and before the attempt.  When the host is looked up and none of
    its addresses answers within ten seconds, [check] returns [False] and
    [response_time] returns the time of the lookup plus ten seconds for each
    address of the host: ten seconds for a host with one address that is
    looked up at once. *)
Theorem telnet_response_time_is_elapsed (E : env) (host : string) (port : Z) :
  (forall st, exists st',
      TelnetMonitor.response_time host port E st
      = (Ok (PFloat (st_clock st' - st_clock st)), st'))
  /\ (forall st after1 addresses1 after2 addresses2,
        w_connect (e_world E) (st_tick st) host port = Resolves after1 addresses1 ->
        w_connect (e_world E) (S (st_tick st)) host port = Resolves after2 addresses2 ->
        forallb (unanswered 10) addresses1 = true ->
        forallb (unanswered 10) addresses2 = true ->
        let '(r1, s1) := TelnetMonitor.check host port E st in
        let '(r2, s2) := TelnetMonitor.response_time host port E s1 in
        r1 = Ok false
        /\ exists t,
            r2 = Ok (PFloat t)
            /\ t == st_clock s2 - st_clock s1
            /\ t == after2 + 10 * inject_Z (Z.of_nat (List.length addresses2))).
Proof.
  split.
  - intros st. apply telnet_response_time_elapsed.
  - intros st after1 addresses1 after2 addresses2 Hres1 Hres2 Hall1 Hall2.
    destruct (telnet_open_unanswered host port E st after1 addresses1 Hres1 Hall1)
      as (e1 & s1 & Hopen1 & _ & Htick1 & _).
    unfold TelnetMonitor.check, try_except, bind at 1. rewrite Hopen1.
    unfold bind, logging_error, console, modify, ret. cbn [fst snd].
    set (s1' := set_console _ s1).
    assert (Hres2' : w_connect (e_world E) (st_tick s1') host port = Resolves after2 addresses2).
    { unfold s1'. cbn [st_tick set_console]. now rewrite Htick1. }
    destruct (telnet_open_unanswered host port E s1' after2 addresses2 Hres2' Hall2)
      as (e2 & s2 & Hopen2 & Hclock2 & _ & _).
    unfold TelnetMonitor.response_time, try_except, bind, time_time, gets, logging_error,
      console, modify, ret.
    cbn [fst snd]. rewrite Hopen2. cbn [fst snd st_clock set_console].
    split; [reflexivity|]. eexists. split; [reflexivity|]. split; [reflexivity|].
    rewrite Hclock2. ring.
Qed.

Lemma telnet_response_time_is_elapsed_witness :
  let E := {| e_world := Fleet.silent_port; e_config := Fleet.fleet |} in
  let '(r1, s1) := TelnetMonitor.check "10.0.0.5" 23 E (initial_state []) in
  let '(r2, s2) := TelnetMonitor.response_time "10.0.0.5" 23 E s1 in
  r1 = Ok false
  /\ exists t, r2 = Ok (PFloat t) /\ t == st_clock s2 - st_clock s1
               /\ t == 0 + 10 * inject_Z (Z.of_nat 1).
Proof.
  exact (proj2 (telnet_response_time_is_elapsed
                  {| e_world := Fleet.silent_port; e_config := Fleet.fleet |}
                  "10.0.0.5" 23) (initial_state []) 0 [Silent] 0 [Silent]
           eq_refl eq_refl eq_refl eq_refl).
Defined.

(** C7 (the claim as stated fails).  For a host with two addresses, at
    neither of which the peer answers, the connection never completes and
    [response_time] returns twenty seconds: the timeout applies to each
    address in turn. *)
Lemma two_silent_addresses_take_twenty_seconds :
  let E := {| e_world := Fleet.two_silent_addresses; e_config := Fleet.fleet |} in
  let '(r1, s1) := TelnetMonitor.check "relay.example.org" 23 E (initial_state []) in
  let '(r2, s2) := TelnetMonitor.response_time "relay.example.org" 23 E s1 in
  r1 = Ok false
  /\ exists t, r2 = Ok (PFloat t) /\ t == 20 /\ ~ t == 10.
Proof.
  vm_compute. split; [reflexivity|]. eexists. split; [reflexivity|].
  split; [reflexivity|]. intros H. discriminate.
Qed.

(** ** Frame rules *)

Section Frames.

Context {T : Type} (view : state -> T).

Lemma frame_ret {A : Type} (a : A) : frame view (ret a).
Proof. intros E s. reflexivity. Qed.

Lemma frame_raise {A : Type} (e : exn) : frame view (@raise A e).
Proof. intros E s. reflexivity. Qed.

Lemma frame_gets {A : Type} (f : state -> A) : frame view (gets f).
Proof. intros E s. reflexivity. Qed.

Lemma frame_lift {A : Type} (r : result A) : frame view (lift r).
Proof. intros E s. reflexivity. Qed.

Lemma frame_global {A : Type} (f : config -> A) : frame view (global f).
Proof. intros E s. reflexivity. Qed.

Lemma frame_library {A : Type} (f : world -> A) : frame view (library f).
Proof. intros E s. reflexivity. Qed.

Lemma frame_modify (f : state -> state) :
  (forall s, view (f s) = view s) -> frame view (modify f).
Proof. intros H E s. apply H. Qed.

Lemma frame_external {A : Type} (f : world -> nat -> result A) :
  (forall s, view (set_tick S s) = view s) -> frame view (external f).
Proof. intros H E s. apply H. Qed.

Lemma frame_bind {A B : Type} (m : M A) (k : A -> M B) :
  frame view m -> (forall a, frame view (k a)) -> frame view (bind m k).
Proof.
  intros Hm Hk E s. unfold bind. specialize (Hm E s).
  destruct (m E s) as [[a|e] s']; simpl in *.
  - now rewrite Hk.
  - exact Hm.
Qed.

Lemma frame_try_except {A : Type} (body : M A) (handler : exn -> M A) :
  frame view body -> (forall e, frame view (handler e)) ->
  frame view (try_except body handler).
Proof.
  intros Hb Hh E s. unfold try_except. specialize (Hb E s).
  destruct (body E s) as [[a|e] s']; simpl in *.
  - exact Hb.
  - now rewrite Hh.
Qed.

Lemma frame_for_each {A : Type} (l : list A) (body : A -> M unit) :
  (forall x, frame view (body x)) -> frame view (for_each l body).
Proof.
  intros H. induction l as [|x l IH]; simpl.
  - apply frame_ret.
  - apply frame_bind; auto.
Qed.

End Frames.

Create HintDb frames.

(** One step of a frame proof: a rule for the head construct, or a case
    split on the scrutinee of a conditional. *)
Ltac frame_step :=
  match goal with
  | |- frame _ (bind _ _) => apply frame_bind; [|intro]
  | |- frame _ (try_except _ _) => apply frame_try_except; [|intro]
  | |- frame _ (ret _) => apply frame_ret
  | |- frame _ (raise _) => apply frame_raise
  | |- frame _ (gets _) => apply frame_gets
  | |- frame _ (lift _) => apply frame_lift
  | |- frame _ (global _) => apply frame_global
  | |- frame _ (library _) => apply frame_library
  | |- frame _ (modify _) => apply frame_modify; intro; reflexivity
  | |- frame _ (external _) => apply frame_external; intro; reflexivity
  | |- frame _ (for_each _ _) => apply frame_for_each; intro
  | |- frame _ (subscript _ ?v) => destruct v; simpl
  | |- frame _ (subscript_opt ?v _) => destruct v; simpl
  | |- frame _ (match ?x with _ => _ end) => destruct x
  | |- frame _ _ => solve [auto with frames]
  end.

Ltac frame_auto := repeat frame_step.

Lemma logging_error_probe_frame (msg : string) : frame probe_view (logging_error msg).
Proof. unfold logging_error, console. frame_auto. Qed.

Lemma logging_info_probe_frame (msg : string) : frame probe_view (logging_info msg).
Proof. unfold logging_info, console. frame_auto. Qed.

Lemma sleep_probe_frame (d : Q) : frame probe_view (sleep d).
Proof. unfold sleep. frame_auto. Qed.

Lemma ssh_connect_probe_frame (h : string) (p : Z) (u pw : string) :
  frame probe_view (ssh_connect h p u pw).
Proof. unfold ssh_connect. frame_auto. Qed.

Lemma ssh_exec_probe_frame (ssh : session) (c : string) : frame probe_view (ssh_exec ssh c).
Proof. unfold ssh_exec. frame_auto. Qed.

Lemma ssh_close_probe_frame (ssh : session) : frame probe_view (ssh_close ssh).
Proof. unfold ssh_close. frame_auto. Qed.

Lemma ssh_peername_probe_frame (ssh : session) : frame probe_view (ssh_peername ssh).
Proof. unfold ssh_peername. frame_auto. Qed.

#[export] Hint Resolve logging_error_probe_frame logging_info_probe_frame sleep_probe_frame
  ssh_connect_probe_frame ssh_exec_probe_frame ssh_close_probe_frame
  ssh_peername_probe_frame : frames.

Lemma connect_each_probe_frame (addresses : list conn_behaviour) (timeout : Q)
  (last : option exn) :
  frame probe_view (connect_each addresses timeout last).
Proof.
  revert last. induction addresses as [|b rest IH]; intros last; cbn [connect_each].
  - destruct last; frame_auto.
  - destruct b as [d|d e|]; frame_auto.
Qed.

#[export] Hint Resolve connect_each_probe_frame : frames.

Lemma telnet_open_probe_frame (host : string) (port : Z) (timeout : Q) :
  frame probe_view (telnet_open host port timeout).
Proof. unfold telnet_open. frame_auto. Qed.

#[export] Hint Resolve telnet_open_probe_frame : frames.

(** Neither probe of a monitor touches the aggregate, the log files, the
    snapshot, the posts or the trace. *)
Lemma monitor_check_frame (m : monitor) : frame probe_view (monitor_check m).
Proof.
  destruct m; simpl;
    unfold ServerPingMonitor.check, TelnetMonitor.check, ServiceMonitor.check,
      CPUMonitor.check, RAMMonitor.check, DiskMonitor.check, subprocess_run;
    frame_auto.
Qed.

Lemma monitor_response_time_frame (m : monitor) : frame probe_view (monitor_response_time m).
Proof.
  destruct m; simpl;
    unfold ServerPingMonitor.response_time, TelnetMonitor.response_time,
      ServiceMonitor.response_time, CPUMonitor.response_time, RAMMonitor.response_time,
      DiskMonitor.response_time, subprocess_run, time_time;
    frame_auto.
Qed.

Lemma probe_frame_handler_body {A : Type} (m : M A) :
  frame probe_view m -> frame handler_body_view m.
Proof.
  intros H E s. specialize (H E s). unfold probe_view, handler_body_view in *.
  injection H as -> -> -> -> _ ->. reflexivity.
Qed.

Lemma frame_trace {A : Type} (m : M A) :
  frame handler_body_view m -> forall E s, st_trace (snd (m E s)) = st_trace s.
Proof.
  intros H E s. specialize (H E s). unfold handler_body_view in H.
  now injection H.
Qed.

#[export] Hint Resolve probe_frame_handler_body : frames.

(** *** Strategy handlers *)

Lemma requests_post_frame (url : string) (id : Z) (msg : string) :
  frame handler_body_view (requests_post url id msg).
Proof. unfold requests_post. frame_auto. Qed.

#[export] Hint Resolve requests_post_frame : frames.

Lemma notify_failure_frame (server_name check_name : string) :
  frame handler_body_view (NotifyFailure.handle server_name check_name).
Proof. unfold NotifyFailure.handle. frame_auto. Qed.

Lemma notify_warning_frame (server_name check_name : string) (value : pynum) :
  frame handler_body_view (NotifyWarning.handle server_name check_name value).
Proof. unfold NotifyWarning.handle, py_str_num. frame_auto. Qed.

Lemma connect_ssh_frame (info : option ServerConfig) :
  frame probe_view (MoveServices.connect_ssh info).
Proof. unfold MoveServices.connect_ssh. frame_auto. Qed.

Lemma manage_service_frame (ssh : session) (service action : string) :
  frame probe_view (MoveServices.manage_service ssh service action).
Proof.
  unfold MoveServices.manage_service. frame_auto.
Qed.

#[export] Hint Resolve connect_ssh_frame manage_service_frame : frames.

Lemma disable_services_frame (ssh : session) (info : option ServerConfig) :
  frame probe_view (MoveServices.disable_services ssh info).
Proof.
  unfold MoveServices.disable_services. frame_auto.
Qed.

Lemma enable_services_frame (ssh : session) (services : list string) :
  frame probe_view (MoveServices.enable_services ssh services).
Proof. unfold MoveServices.enable_services. frame_auto. Qed.

#[export] Hint Resolve disable_services_frame enable_services_frame : frames.

(** The two remote steps change the call count, the console and the SSH
    log only. *)
Lemma connect_and_disable_frame (info : option ServerConfig) :
  frame probe_view (MoveServices.connect_and_disable_services info).
Proof. unfold MoveServices.connect_and_disable_services. frame_auto. Qed.

Lemma connect_and_enable_frame (info : option ServerConfig) (services : list string) :
  frame probe_view (MoveServices.connect_and_enable_services info services).
Proof. unfold MoveServices.connect_and_enable_services. frame_auto. Qed.

#[export] Hint Resolve connect_and_disable_frame connect_and_enable_frame : frames.

Lemma send_message_frame (message : string) :
  frame handler_body_view (MoveServices.send_message message).
Proof. unfold MoveServices.send_message. frame_auto. Qed.

#[export] Hint Resolve send_message_frame : frames.

Lemma move_services_frame (server_name check_name : string) :
  frame handler_body_view (MoveServices.handle server_name check_name).
Proof. unfold MoveServices.handle, MoveServices.find_server. frame_auto. Qed.

#[export] Hint Resolve notify_failure_frame notify_warning_frame move_services_frame : frames.


(** A strategy call adds at most its own entry to the trace and leaves the
    aggregate, the log files and the snapshot alone. *)
Lemma strategy_handle_effect (handler : strategy) (server_name check_name : string)
  (value : option pynum) (E : env) (s : state) :
  let s' := snd (strategy_handle handler server_name check_name value E s) in
  handler_view s' = handler_view s
  /\ (st_trace s' = st_trace s
      \/ st_trace s' = (st_trace s ++ [EvStrategy handler server_name check_name])%list).
Proof.
  assert (Hbody : forall (body : M unit), frame handler_body_view body ->
            let s' := snd ((emit (EvStrategy handler server_name check_name) ;; body) E s) in
            handler_view s' = handler_view s
            /\ (st_trace s' = st_trace s
                \/ st_trace s'
                   = (st_trace s ++ [EvStrategy handler server_name check_name])%list)).
  { intros body Hb. unfold bind, emit, modify. cbn [fst snd].
    pose proof (Hb E (set_trace (fun t => t ++ [EvStrategy handler server_name check_name])%list s))
      as H.
    cbv zeta. unfold handler_body_view, handler_view in *.
    injection H as -> -> -> -> ->. split; [reflexivity|]. right. reflexivity. }
  destruct handler, value; simpl;
    try (split; [reflexivity|left; reflexivity]);
    apply Hbody; auto with frames.
Qed.

(** *** The failure and the warning path *)

Lemma load_snapshot_state (E : env) (s : state) : snd (load_snapshot E s) = s.
Proof.
  unfold load_snapshot, bind, gets. cbn [fst snd].
  destruct (dict_get snapshot_path (st_files s)) as [text|]; [|reflexivity].
  destruct (Json.loads text); reflexivity.
Qed.

Lemma handle_failure_effect (server_name check_name check_type : string)
  (E : env) (s : state) :
  let s' := snd (CheckManager.handle_failure server_name check_name check_type E s) in
  handler_view s' = handler_view s
  /\ exists l,
      st_trace s' = (st_trace s ++ EvHandleFailure server_name check_name check_type :: l)%list
      /\ Forall is_strategy_event l.
Proof.
  unfold CheckManager.handle_failure, bind, emit, modify. cbn [fst snd].
  set (s1 := set_trace _ s).
  pose proof (load_snapshot_state E s1) as Hs.
  destruct (load_snapshot E s1) as [[data|e] s2]; simpl in Hs; subst s2;
    cbv beta iota zeta.
  - pose proof (strategy_handle_effect
                  (StrategyFactory.get_strategy server_name check_type data)
                  server_name check_name None E s1) as [Hv Ht].
    cbv zeta in *. split.
    + rewrite Hv. reflexivity.
    + destruct Ht as [Ht|Ht]; rewrite Ht; unfold s1; cbn [st_trace set_trace].
      * exists []. split; [reflexivity|constructor].
      * eexists [_]. rewrite <- app_assoc. split; [reflexivity|].
        repeat constructor.
  - cbn [snd]. split; [reflexivity|]. exists []. split; [reflexivity|constructor].
Qed.

Lemma handle_warning_effect (server_name check_name : string) (value : pynum)
  (E : env) (s : state) :
  let s' := snd (CheckManager.handle_warning server_name check_name value E s) in
  handler_view s' = handler_view s
  /\ exists l,
      st_trace s' = (st_trace s ++ EvHandleWarning server_name check_name value :: l)%list
      /\ Forall is_strategy_event l.
Proof.
  unfold CheckManager.handle_warning, bind, emit, modify. cbn [fst snd].
  set (s1 := set_trace _ s).
  pose proof (strategy_handle_effect
                (StrategyFactory.get_strategy server_name check_name (JStr "warning"))
                server_name check_name (Some value) E s1) as [Hv Ht].
  cbv zeta in *. split.
  - rewrite Hv. reflexivity.
  - destruct Ht as [Ht|Ht]; rewrite Ht; unfold s1; cbn [st_trace set_trace].
    + exists []. split; [reflexivity|constructor].
    + eexists [_]. rewrite <- app_assoc. split; [reflexivity|].
      repeat constructor.
Qed.

(** *** The failure path and the snapshot *)

Lemma strategy_handle_failure_trace (handler : strategy) (server_name check_name : string)
  (E : env) (s : state) :
  handler <> NotifyWarningStrategy ->
  st_trace (snd (strategy_handle handler server_name check_name None E s))
  = (st_trace s ++ [EvStrategy handler server_name check_name])%list.
Proof.
  intros Hh. destruct handler; [| contradiction |]; unfold strategy_handle, bind, emit, modify;
    cbn [fst snd].
  - rewrite (frame_trace _ (notify_failure_frame server_name check_name)). reflexivity.
  - rewrite (frame_trace _ (move_services_frame server_name check_name)). reflexivity.
Qed.

(** C8.  [get_strategy] is a function of its three arguments.  On the
    failure path the document loaded from a persisted snapshot never equals
    the string [warning], so the strategy that [handle_failure] enters is
    the same whatever the snapshot holds: the Migrate-Services strategy for
    [TG1] and the Notify-Failure strategy for any other server. *)
Theorem failure_strategy_ignores_snapshot (E : env)
  (agg1 agg2 : list (string * aggval)) (d1 d2 : json)
  (server_name check_name check_type : string) (s1 s2 : state) :
  Json.loads (Json.dumps (CheckManager.snapshot_json (e_world E) agg1)) = Some d1 ->
  Json.loads (Json.dumps (CheckManager.snapshot_json (e_world E) agg2)) = Some d2 ->
  dict_get snapshot_path (st_files s1)
  = Some (Json.dumps (CheckManager.snapshot_json (e_world E) agg1)) ->
  dict_get snapshot_path (st_files s2)
  = Some (Json.dumps (CheckManager.snapshot_json (e_world E) agg2)) ->
  let chosen :=
    if String.eqb server_name "TG1" then MoveServicesStrategy else NotifyFailureStrategy in
  StrategyFactory.get_strategy server_name check_type d1 = chosen
  /\ StrategyFactory.get_strategy server_name check_type d2 = chosen
  /\ new_events s1 (snd (CheckManager.handle_failure server_name check_name check_type E s1))
     = [EvHandleFailure server_name check_name check_type;
        EvStrategy chosen server_name check_name]
  /\ new_events s2 (snd (CheckManager.handle_failure server_name check_name check_type E s2))
     = [EvHandleFailure server_name check_name check_type;
        EvStrategy chosen server_name check_name].
Proof.
  intros H1 H2 F1 F2 chosen.
  assert (Hdoc : forall agg d,
             Json.loads (Json.dumps (CheckManager.snapshot_json (e_world E) agg)) = Some d ->
             StrategyFactory.get_strategy server_name check_type d = chosen).
  { intros agg d Hd. destruct (dumps_snapshot_object (e_world E) agg) as [text Htext].
    rewrite Htext in Hd. apply loads_object in Hd as [members ->]. reflexivity. }
  assert (Hrun : forall agg d s,
             Json.loads (Json.dumps (CheckManager.snapshot_json (e_world E) agg)) = Some d ->
             dict_get snapshot_path (st_files s)
             = Some (Json.dumps (CheckManager.snapshot_json (e_world E) agg)) ->
             new_events s
               (snd (CheckManager.handle_failure server_name check_name check_type E s))
             = [EvHandleFailure server_name check_name check_type;
                EvStrategy chosen server_name check_name]).
  { intros agg d s Hd Hf. apply new_events_app.
    unfold CheckManager.handle_failure, load_snapshot, emit, modify, gets, bind.
    cbn [fst snd st_files set_trace]. rewrite Hf, Hd. unfold ret. cbn [fst snd].
    rewrite (Hdoc agg d Hd).
    rewrite strategy_handle_failure_trace by (unfold chosen; destruct (String.eqb _ _); discriminate).
    cbn [st_trace set_trace]. now rewrite <- app_assoc. }
  repeat split; eauto.
Qed.

Lemma failure_strategy_ignores_snapshot_witness :
  let text1 := Json.dumps (CheckManager.snapshot_json Fleet.healthy Fleet.quiet_round) in
  let text2 := Json.dumps (CheckManager.snapshot_json Fleet.healthy Fleet.bad_round) in
  let s1 := initial_state [(snapshot_path, text1)] in
  let s2 := initial_state [(snapshot_path, text2)] in
  new_events s1 (snd (CheckManager.handle_failure "TG1" "PING" "ping" Fleet.healthy_env s1))
  = new_events s2 (snd (CheckManager.handle_failure "TG1" "PING" "ping" Fleet.healthy_env s2))
  /\ new_events s2 (snd (CheckManager.handle_failure "TG1" "PING" "ping" Fleet.healthy_env s2))
     = [EvHandleFailure "TG1" "PING" "ping"; EvStrategy MoveServicesStrategy "TG1" "PING"].
Proof.
  intros text1 text2 s1 s2.
  destruct (Json.loads text1) as [d1|] eqn:H1; [|vm_compute in H1; discriminate].
  destruct (Json.loads text2) as [d2|] eqn:H2; [|vm_compute in H2; discriminate].
  destruct (failure_strategy_ignores_snapshot Fleet.healthy_env Fleet.quiet_round
              Fleet.bad_round d1 d2 "TG1" "PING" "ping" s1 s2 H1 H2 eq_refl eq_refl)
    as (_ & _ & E1 & E2).
  split; [now rewrite E1, E2|exact E2].
Defined.

(** A file that holds the JSON string [warning] is not a snapshot that
    [save_aggregate_results] writes; with it the comparison in
    [get_strategy] succeeds, and the two-argument call of the warning
    handler raises. *)
Example hand_written_warning_file :
  let s := initial_state [(snapshot_path, Json.dq ++ "warning" ++ Json.dq)] in
  let '(r, s') := CheckManager.handle_failure "TG1" "PING" "ping" Fleet.healthy_env s in
  r = Raise (Exn TypeError "handle() missing 1 required positional argument: 'value'")
  /\ new_events s s' = [EvHandleFailure "TG1" "PING" "ping"].
Proof. vm_compute. split; reflexivity. Qed.

(** *** Logging an outcome *)

Lemma log_line_returns (server_name check_name : string) (result : bool)
  (response_time : option pynum) (E : env) :
  exists line,
    forall s, CheckManager.log_line server_name check_name result response_time E s
              = (Ok line, s).
Proof.
  unfold CheckManager.log_line. destruct response_time as [t|].
  - unfold bind, py_str_num. destruct (py_round3 t); unfold ret, library;
      destruct (existsb _ _); eexists; intros s; reflexivity.
  - eexists. intros s. reflexivity.
Qed.

(** What [write_log] does, case by case: the root logger writes to the
    console only; a logger with a file handler writes the line to the files
    of its lineage and to the console; a logger without one opens its file
    first, and the exception of the [open] leaves [write_log]. *)
Lemma write_log_effect (server_name check_name : string) (result : bool)
  (response_time : option pynum) (E : env) (s : state) (line : string) :
  (forall s0, CheckManager.log_line server_name check_name result response_time E s0
              = (Ok line, s0)) ->
  CheckManager.write_log server_name check_name result response_time E s
  = if is_root_name server_name then
      (Ok tt, set_console (fun c => c ++ [(INFO, line)])%list s)
    else
      let sg := set_loggers (fun history => history ++ [server_name])%list s in
      let chain :=
        Manager.lineage (S (String.length server_name))
          (logger_dict (st_loggers s ++ [server_name])%list) server_name in
      if has_handler server_name s then
        (Ok tt,
         set_console (fun c => c ++ [(INFO, line)])%list
           (set_server_logs (record_lines chain line) sg))
      else
        match w_open_log (e_world E) (st_tick s) (CheckManager.log_path server_name) with
        | Ok _ =>
            (Ok tt,
             set_console (fun c => c ++ [(INFO, line)])%list
               (set_server_logs (record_lines chain line)
                  (set_server_logs (dict_set server_name []) (set_tick S sg))))
        | Raise e => (Raise e, set_tick S sg)
        end.
Proof.
  intros Hline. unfold CheckManager.write_log, getLogger.
  destruct (is_root_name server_name).
  - unfold bind, has_handlers, logger_info, console, modify, ret. cbv beta iota.
    rewrite Hline. reflexivity.
  - cbv zeta. unfold bind at 1 2. unfold modify at 1, ret at 1. cbv beta iota.
    unfold bind at 1. unfold has_handlers, gets. cbv beta iota.
    change (has_handler server_name (set_loggers (fun history => history ++ [server_name])%list s))
      with (has_handler server_name s).
    destruct (has_handler server_name s).
    + unfold bind at 1. unfold ret at 1. cbv beta iota.
      unfold bind at 1. rewrite Hline. unfold logger_info, bind at 1 2, gets.
      cbv beta iota. rewrite for_each_record. reflexivity.
    + unfold bind at 1 2. unfold open_log_file, external.
      change (st_tick (set_loggers (fun history => history ++ [server_name])%list s))
        with (st_tick s).
      destruct (w_open_log (e_world E) (st_tick s) (CheckManager.log_path server_name))
        as [[]|e]; [|reflexivity].
      unfold add_file_handler, modify at 1. cbv beta iota.
      unfold bind at 1. rewrite Hline. unfold logger_info, bind at 1 2, gets.
      cbv beta iota. rewrite for_each_record. reflexivity.
Qed.

(** The entry is appended to the list of the server, which is created when
    the server has none; a key that holds a string makes the append raise. *)
Lemma record_outcome_effect (server_name : string) (entry : CheckOutcome)
  (E : env) (s : state) :
  CheckManager.record_outcome server_name entry E s
  = match dict_get server_name (st_aggregate s) with
    | Some (AList outcomes) =>
        (Ok tt, set_aggregate (dict_set server_name (AList (outcomes ++ [entry])%list)) s)
    | Some (AStr _) =>
        (Raise (Exn AttributeError "'str' object has no attribute 'append'"), s)
    | None => (Ok tt, set_aggregate (dict_set server_name (AList [entry])) s)
    end.
Proof.
  unfold CheckManager.record_outcome, CheckManager.append_outcome, gets, modify, ret,
    raise, bind.
  cbn [fst snd].
  destruct (dict_get server_name (st_aggregate s)) as [[outcomes|str]|] eqn:Hd.
  - rewrite ?Hd. reflexivity.
  - rewrite ?Hd. reflexivity.
  - unfold set_aggregate. cbn.
    rewrite dict_get_set_same. cbn. rewrite dict_set_set. reflexivity.
Qed.

Lemma select_monitor_state (server : ServerConfig) (check : CheckConfig)
  (E : env) (s : state) :
  snd (CheckManager.select_monitor server check E s) = s.
Proof.
  unfold CheckManager.select_monitor.
  repeat match goal with
         | |- context [if ?b then _ else _] => destruct b
         end; try reflexivity;
    unfold bind, subscript;
    repeat match goal with
           | |- context [match ?o with Some _ => _ | None => _ end] => destruct o
           end; reflexivity.
Qed.

(** The loggers that a record of [server_name] reaches after its own
    logger are proper prefixes of [server_name]. *)
Lemma lineage_of_history (history : list string) (server_name : string) :
  exists ancestors,
    Manager.lineage (S (String.length server_name)) (logger_dict history) server_name
    = server_name :: ancestors
    /\ Forall (fun k => proper_prefix k server_name) ancestors.
Proof. apply lineage_ancestors, logger_dict_well_formed. Qed.

Lemma not_among_ancestors (name other : string) (ancestors : list string) :
  Forall (fun k => proper_prefix k name) ancestors ->
  ~ proper_prefix other name -> ~ In other ancestors.
Proof.
  intros Hall Hno Hin. rewrite Forall_forall in Hall. exact (Hno (Hall _ Hin)).
Qed.

Lemma proper_prefix_irrefl (name : string) : ~ proper_prefix name name.
Proof. intros [_ H]. lia. Qed.

(** When the logger of the server can take the record, [write_log]
    returns: the line goes to the console and, unless the logger is the root
    logger, once to the file of the server; the only other files that change
    are those of loggers whose name is a proper prefix of the name of the
    server. *)
Lemma write_log_returns (server_name check_name : string) (result : bool)
  (response_time : option pynum) (E : env) (s : state) (line : string) :
  (forall s0, CheckManager.log_line server_name check_name result response_time E s0
              = (Ok line, s0)) ->
  log_ready E server_name s = true ->
  exists s1,
    CheckManager.write_log server_name check_name result response_time E s = (Ok tt, s1)
    /\ st_aggregate s1 = st_aggregate s
    /\ st_console s1 = (st_console s ++ [(INFO, line)])%list
    /\ (is_root_name server_name = false ->
        log_lines_of server_name (st_server_logs s1)
        = (log_lines_of server_name (st_server_logs s) ++ [line])%list)
    /\ (forall other,
          other <> server_name -> ~ proper_prefix other server_name ->
          dict_get other (st_server_logs s1) = dict_get other (st_server_logs s)).
Proof.
  intros Hline Hready.
  rewrite (write_log_effect _ _ _ _ E s line Hline).
  unfold log_ready in Hready.
  destruct (is_root_name server_name) eqn:Hroot.
  - eexists. split; [reflexivity|]. split; [reflexivity|]. split; [reflexivity|].
    split; [discriminate|]. intros other _ _. reflexivity.
  - cbv zeta.
    destruct (lineage_of_history (st_loggers s ++ [server_name])%list server_name)
      as (ancestors & -> & Hanc).
    pose proof (not_among_ancestors _ _ _ Hanc (proper_prefix_irrefl server_name)) as Hown.
    assert (Hother : forall other logs,
               other <> server_name -> ~ proper_prefix other server_name ->
               dict_get other (record_lines (server_name :: ancestors) line logs)
               = dict_get other logs).
    { intros other logs Hne Hno. apply record_lines_other.
      intros [Heq|Hin]; [now apply Hne|].
      exact (not_among_ancestors _ _ _ Hanc Hno Hin). }
    cbn [orb] in Hready. unfold has_handler in *.
    destruct (dict_get server_name (st_server_logs s)) as [lines|] eqn:Hlogs.
    + eexists. split; [reflexivity|]. split; [reflexivity|]. split; [reflexivity|].
      cbn [st_server_logs set_console set_server_logs set_loggers]. split.
      * intros _. unfold log_lines_of.
        rewrite record_lines_own by exact Hown. rewrite Hlogs. reflexivity.
      * intros other Hne Hno. now apply Hother.
    + cbn [orb] in Hready.
      destruct (w_open_log (e_world E) (st_tick s) (CheckManager.log_path server_name))
        as [[]|e]; [|discriminate].
      eexists. split; [reflexivity|]. split; [reflexivity|]. split; [reflexivity|].
      cbn [st_server_logs set_console set_server_logs set_loggers set_tick]. split.
      * intros _. unfold log_lines_of.
        rewrite record_lines_own by exact Hown.
        rewrite dict_get_set_same, Hlogs. reflexivity.
      * intros other Hne Hno. rewrite Hother by assumption.
        now apply dict_get_set_other.
Qed.

(** When the log file of the server cannot be opened, [write_log] raises
    the exception of the [open] before anything is written. *)
Lemma write_log_raises (server_name check_name : string) (result : bool)
  (response_time : option pynum) (E : env) (s : state) :
  log_ready E server_name s = false ->
  exists e,
    w_open_log (e_world E) (st_tick s) (CheckManager.log_path server_name) = Raise e
    /\ CheckManager.write_log server_name check_name result response_time E s
       = (Raise e,
          set_tick S (set_loggers (fun history => history ++ [server_name])%list s)).
Proof.
  intros Hready.
  destruct (log_line_returns server_name check_name result response_time E) as [line Hline].
  rewrite (write_log_effect _ _ _ _ E s line Hline).
  unfold log_ready in Hready.
  apply orb_false_iff in Hready as [Hready Hopen].
  apply orb_false_iff in Hready as [Hroot Hhandler].
  rewrite Hroot, Hhandler. cbv zeta.
  destruct (w_open_log (e_world E) (st_tick s) (CheckManager.log_path server_name))
    as [[]|e]; [discriminate|].
  exists e. split; reflexivity.
Qed.

(** [log_result] either appends the outcome to the list of the server, or
    raises and leaves the aggregate alone: when the log file cannot be
    opened, and when the key of the server holds a string. *)
Lemma log_result_aggregate (server_name check_name : string) (result : bool)
  (response_time : option pynum) (E : env) (s : state) :
  let run := CheckManager.log_result server_name check_name result response_time E s in
  (log_ready E server_name s = true
   /\ holds_no_string server_name (st_aggregate s)
   /\ fst run = Ok tt
   /\ st_aggregate (snd run)
      = dict_set server_name
          (AList (outcomes_of server_name (st_aggregate s)
                  ++ [CheckManager.outcome_of check_name result response_time])%list)
          (st_aggregate s))
  \/ ((log_ready E server_name s = false
       \/ exists text, dict_get server_name (st_aggregate s) = Some (AStr text))
      /\ (exists e, fst run = Raise e)
      /\ st_aggregate (snd run) = st_aggregate s).
Proof.
  cbv zeta. unfold CheckManager.log_result, bind.
  destruct (log_ready E server_name s) eqn:Hready.
  - destruct (log_line_returns server_name check_name result response_time E) as [line Hline].
    destruct (write_log_returns _ _ _ _ E s line Hline Hready) as (s1 & -> & Hagg & _).
    rewrite record_outcome_effect. rewrite Hagg.
    unfold outcomes_of, holds_no_string.
    destruct (dict_get server_name (st_aggregate s)) as [[outcomes|str]|] eqn:Hd;
      cbn [fst snd st_aggregate set_aggregate]; rewrite ?Hagg.
    + left. split; [reflexivity|]. split; [intros text; discriminate|]. split; reflexivity.
    + right. split; [eauto|]. split; [eexists; reflexivity|reflexivity].
    + left. split; [reflexivity|]. split; [intros text; discriminate|]. split; reflexivity.
  - destruct (write_log_raises server_name check_name result response_time E s Hready)
      as (e & _ & ->).
    right. split; [now left|]. split; [eexists; reflexivity|reflexivity].
Qed.

Lemma log_result_frame (server_name check_name : string) (result : bool)
  (response_time : option pynum) :
  frame log_view (CheckManager.log_result server_name check_name result response_time).
Proof.
  unfold CheckManager.log_result, CheckManager.write_log, CheckManager.record_outcome,
    CheckManager.append_outcome, CheckManager.log_line, getLogger, has_handlers,
    open_log_file, add_file_handler, logger_info, console, py_str_num.
  frame_auto.
Qed.

(** ** Classification *)

Lemma escalate_trace (server : ServerConfig) (check : CheckConfig) (result : bool)
  (response_time : pynum) (E : env) (s : state) :
  let s' := snd (CheckManager.escalate server check result response_time E s) in
  handler_view s' = handler_view s
  /\ exists l,
      st_trace s' = (st_trace s ++ l)%list
      /\ if negb (PyStr.py_in (c_type check) CheckManager.resource_types) then
           if negb result then
             exists l', l = EvHandleFailure (s_name server) (c_name check) (c_type check) :: l'
                        /\ Forall is_strategy_event l'
           else if py_ge response_time (response_time_limit (e_config E)) then
             exists l', l = EvHandleWarning (s_name server) (c_name check) response_time :: l'
                        /\ Forall is_strategy_event l'
           else l = []
         else
           match dict_get (c_name check) (resourse_limits (e_config E)) with
           | Some limit =>
               if py_ge response_time limit then
                 exists l', l = EvHandleWarning (s_name server) (c_name check) response_time :: l'
                            /\ Forall is_strategy_event l'
               else l = []
           | None => l = []
           end.
Proof.
  unfold CheckManager.escalate.
  destruct (PyStr.py_in (c_type check) CheckManager.resource_types) eqn:Hin; cbn [negb].
  - unfold bind, global, subscript_value. cbn [fst snd].
    destruct (dict_get (c_name check) (resourse_limits (e_config E))) as [limit|].
    + change (ret limit E s) with (Ok limit, s). cbv beta iota.
      destruct (py_ge response_time limit).
      * destruct (handle_warning_effect (s_name server) (c_name check) response_time E s)
          as [Hv [l [Ht Hl]]].
        split; [exact Hv|]. eexists. split; [exact Ht|]. eauto.
      * split; [reflexivity|]. exists []. rewrite app_nil_r. split; reflexivity.
    + split; [reflexivity|]. exists []. rewrite app_nil_r. split; reflexivity.
  - destruct result; cbn [negb].
    + unfold bind, global. cbn [fst snd].
      destruct (py_ge response_time (response_time_limit (e_config E))).
      * destruct (handle_warning_effect (s_name server) (c_name check) response_time E s)
          as [Hv [l [Ht Hl]]].
        split; [exact Hv|]. eexists. split; [exact Ht|]. eauto.
      * split; [reflexivity|]. exists []. rewrite app_nil_r. split; reflexivity.
    + destruct (handle_failure_effect (s_name server) (c_name check) (c_type check) E s)
        as [Hv [l [Ht Hl]]].
      split; [exact Hv|]. eexists. split; [exact Ht|]. eauto.
Qed.

(** The warning path always enters the Notify-Warning strategy. *)
Lemma handle_warning_events (server_name check_name : string) (value : pynum)
  (E : env) (s : state) :
  st_trace (snd (CheckManager.handle_warning server_name check_name value E s))
  = (st_trace s ++ warning_events server_name check_name value)%list.
Proof.
  unfold CheckManager.handle_warning.
  change (StrategyFactory.get_strategy server_name check_name (JStr "warning"))
    with NotifyWarningStrategy.
  unfold strategy_handle, bind, emit, modify. cbv beta iota.
  rewrite (frame_trace _ (notify_warning_frame server_name check_name value)).
  cbn [st_trace set_trace]. unfold warning_events. now rewrite <- app_assoc.
Qed.

(** The failure path enters a strategy only when the snapshot file holds
    a document. *)
Lemma handle_failure_events (server_name check_name check_type : string)
  (E : env) (s : state) :
  st_trace (snd (CheckManager.handle_failure server_name check_name check_type E s))
  = (st_trace s ++ failure_events (st_files s) server_name check_name check_type)%list.
Proof.
  unfold CheckManager.handle_failure, failure_events, failure_handler, load_snapshot,
    snapshot_path, bind, emit, modify, gets.
  cbv beta iota. cbn [st_files set_trace].
  destruct (dict_get "./aggregate_results.json" (st_files s)) as [text|]; [|reflexivity].
  destruct (Json.loads text) as [data|]; [|reflexivity].
  unfold ret. cbv beta iota. unfold StrategyFactory.get_strategy.
  destruct (py_eq_str data "warning"); [reflexivity|].
  rewrite strategy_handle_failure_trace by (destruct (String.eqb _ _); discriminate).
  cbn [st_trace set_trace]. now rewrite <- app_assoc.
Qed.

(** What the escalation decision adds to the trace. *)
Lemma escalate_events (server : ServerConfig) (check : CheckConfig) (result : bool)
  (response_time : pynum) (E : env) (s : state) :
  st_trace (snd (CheckManager.escalate server check result response_time E s))
  = (st_trace s
     ++ if negb (PyStr.py_in (c_type check) CheckManager.resource_types) then
          if negb result then
            failure_events (st_files s) (s_name server) (c_name check) (c_type check)
          else if py_ge response_time (response_time_limit (e_config E)) then
            warning_events (s_name server) (c_name check) response_time
          else []
        else
          match dict_get (c_name check) (resourse_limits (e_config E)) with
          | Some limit =>
              if py_ge response_time limit
              then warning_events (s_name server) (c_name check) response_time
              else []
          | None => []
          end)%list.
Proof.
  unfold CheckManager.escalate.
  destruct (PyStr.py_in (c_type check) CheckManager.resource_types) eqn:Hin; cbn [negb].
  - unfold bind, global, subscript_value. cbn [fst snd].
    destruct (dict_get (c_name check) (resourse_limits (e_config E))) as [limit|].
    + change (ret limit E s) with (Ok limit, s). cbv beta iota.
      destruct (py_ge response_time limit).
      * apply handle_warning_events.
      * cbn [snd]. now rewrite app_nil_r.
    + unfold bind, library, raise. cbn [snd]. now rewrite app_nil_r.
  - destruct result; cbn [negb].
    + unfold bind, global. cbn [fst snd].
      destruct (py_ge response_time (response_time_limit (e_config E))).
      * apply handle_warning_events.
      * cbn [snd]. now rewrite app_nil_r.
    + apply handle_failure_events.
Qed.

Lemma strategy_events_no_failure (l : list event) :
  Forall is_strategy_event l -> ~ failure_dispatched l.
Proof.
  intros H (s & c & t & Hin). rewrite Forall_forall in H. apply (H _ Hin).
Qed.

Lemma strategy_events_no_warning (l : list event) :
  Forall is_strategy_event l -> ~ warning_dispatched l.
Proof.
  intros H (s & c & v & Hin). rewrite Forall_forall in H. apply (H _ Hin).
Qed.

Lemma failure_events_dispatch (files : list (string * string))
  (server_name check_name check_type : string) :
  failure_dispatched (failure_events files server_name check_name check_type)
  /\ ~ warning_dispatched (failure_events files server_name check_name check_type).
Proof.
  unfold failure_events. split.
  - do 3 eexists. left. reflexivity.
  - intros (a & b & c & [H|H]); [discriminate|].
    destruct (failure_handler files server_name); [destruct H as [H|[]]; discriminate|destruct H].
Qed.

Lemma warning_events_dispatch (server_name check_name : string) (value : pynum) :
  warning_dispatched (warning_events server_name check_name value)
  /\ ~ failure_dispatched (warning_events server_name check_name value).
Proof.
  unfold warning_events. split.
  - do 3 eexists. left. reflexivity.
  - intros (a & b & c & [H|[H|[]]]); discriminate.
Qed.

Lemma no_events_dispatch : ~ failure_dispatched [] /\ ~ warning_dispatched [].
Proof. split; intros (a & b & c & []). Qed.

(** When the monitor is built, both probes return and the outcome is
    logged, [run_check] goes on with the escalation decision, and an
    exception raised there is logged. *)
Lemma run_check_classified (E : env) (st s1 s2 s3 : state) (server : ServerConfig)
  (check : CheckConfig) (monitor : monitor) (result : bool) (response_time : pynum) :
  CheckManager.select_monitor server check E st = (Ok (Some monitor), st) ->
  monitor_check monitor E st = (Ok result, s1) ->
  monitor_response_time monitor E s1 = (Ok response_time, s2) ->
  CheckManager.log_result (s_name server) (c_name check) result (Some response_time) E s2
  = (Ok tt, s3) ->
  CheckManager.run_check server check E st
  = try_except (CheckManager.escalate server check result response_time)
      (fun e => logging_error (exn_str e)) E s3.
Proof.
  intros Hsel Hchk Hrt Hlog.
  unfold CheckManager.run_check, try_except, bind. rewrite Hsel.
  unfold CheckManager.classify, bind. rewrite Hchk, Hrt, Hlog. reflexivity.
Qed.

Lemma classified_trace (E : env) (st s1 s2 s3 : state) (monitor : monitor)
  (server_name check_name : string) (result : bool) (response_time : pynum) :
  monitor_check monitor E st = (Ok result, s1) ->
  monitor_response_time monitor E s1 = (Ok response_time, s2) ->
  CheckManager.log_result server_name check_name result (Some response_time) E s2
  = (Ok tt, s3) ->
  st_trace s3 = st_trace st /\ st_posts s3 = st_posts st /\ st_files s3 = st_files st.
Proof.
  intros Hchk Hrt Hlog.
  pose proof (monitor_check_frame monitor E st) as F1. rewrite Hchk in F1.
  pose proof (monitor_response_time_frame monitor E s1) as F2. rewrite Hrt in F2.
  pose proof (log_result_frame server_name check_name result (Some response_time) E s2) as F3.
  rewrite Hlog in F3. unfold probe_view, log_view in *. cbn [snd] in *.
  injection F1 as _ _ _ A1 B1 C1. injection F2 as _ _ _ A2 B2 C2.
  injection F3 as _ A3 B3 _ C3.
  repeat split; congruence.
Qed.

Lemma try_logging_trace (body : M unit) (E : env) (s : state) :
  st_trace (snd (try_except body (fun e => logging_error (exn_str e)) E s))
  = st_trace (snd (body E s))
  /\ handler_view (snd (try_except body (fun e => logging_error (exn_str e)) E s))
     = handler_view (snd (body E s))
  /\ st_posts (snd (try_except body (fun e => logging_error (exn_str e)) E s))
     = st_posts (snd (body E s))
  /\ fst (try_except body (fun e => logging_error (exn_str e)) E s) = Ok tt.
Proof.
  unfold try_except. destruct (body E s) as [[[]|e] s']; repeat split; reflexivity.
Qed.

(** [log_result] returns when the logger of the server can take the
    record and the key of the server does not hold a string. *)
Lemma log_result_returns (server_name check_name : string) (result : bool)
  (response_time : option pynum) (E : env) (s : state) :
  log_ready E server_name s = true ->
  holds_no_string server_name (st_aggregate s) ->
  exists s',
    CheckManager.log_result server_name check_name result response_time E s = (Ok tt, s').
Proof.
  intros Hready Hns.
  destruct (log_result_aggregate server_name check_name result response_time E s)
    as [(_ & _ & Hok & _)|([Hno|(text & Htext)] & _)].
  - destruct (CheckManager.log_result server_name check_name result response_time E s)
      as [r s'].
    cbn [fst] in Hok. subst r. now exists s'.
  - congruence.
  - exfalso. exact (Hns text Htext).
Qed.

Lemma probes_keep_aggregate (E : env) (st s1 s2 : state) (monitor : monitor) (result : bool)
  (response_time : pynum) :
  monitor_check monitor E st = (Ok result, s1) ->
  monitor_response_time monitor E s1 = (Ok response_time, s2) ->
  st_aggregate s2 = st_aggregate st /\ st_server_logs s2 = st_server_logs st.
Proof.
  intros Hchk Hrt.
  pose proof (monitor_check_frame monitor E st) as F1. rewrite Hchk in F1.
  pose proof (monitor_response_time_frame monitor E s1) as F2. rewrite Hrt in F2.
  unfold probe_view in F1, F2. cbn [snd] in F1, F2.
  injection F1 as A1 _ L1 _ _ _. injection F2 as A2 _ L2 _ _ _.
  split; congruence.
Qed.

(** The events of an execution whose outcome was logged. *)
Lemma classified_events (E : env) (st s1 s2 s3 : state) (server : ServerConfig)
  (check : CheckConfig) (monitor : monitor) (result : bool) (response_time : pynum) :
  CheckManager.select_monitor server check E st = (Ok (Some monitor), st) ->
  monitor_check monitor E st = (Ok result, s1) ->
  monitor_response_time monitor E s1 = (Ok response_time, s2) ->
  CheckManager.log_result (s_name server) (c_name check) result (Some response_time) E s2
  = (Ok tt, s3) ->
  new_events st (snd (CheckManager.run_check server check E st))
  = if negb (PyStr.py_in (c_type check) CheckManager.resource_types) then
      if negb result then
        failure_events (st_files st) (s_name server) (c_name check) (c_type check)
      else if py_ge response_time (response_time_limit (e_config E)) then
        warning_events (s_name server) (c_name check) response_time
      else []
    else
      match dict_get (c_name check) (resourse_limits (e_config E)) with
      | Some limit =>
          if py_ge response_time limit
          then warning_events (s_name server) (c_name check) response_time
          else []
      | None => []
      end.
Proof.
  intros Hsel Hchk Hrt Hlog.
  destruct (classified_trace E st s1 s2 s3 monitor _ _ result response_time Hchk Hrt Hlog)
    as (Htr & _ & Hfiles).
  apply new_events_app.
  rewrite (run_check_classified E st s1 s2 s3 server check monitor result response_time)
    by assumption.
  rewrite (proj1 (try_logging_trace _ E s3)).
  rewrite escalate_events, Htr, Hfiles. reflexivity.
Qed.




(** ** A failure while the snapshot file is missing *)

(** The line that [log_result] writes for a measured value. *)
Lemma log_line_text (server_name check_name : string) (result : bool) (value : pynum)
  (E : env) (s : state) :
  let shown := match py_round3 value with
               | PInt z => PyStr.of_Z z
               | PFloat q => w_float_repr (e_world E) q
               end in
  CheckManager.log_line server_name check_name result (Some value) E s
  = (Ok ((server_name ++ " --- " ++ check_name ++ " --- "
          ++ (if result then "Success" else "Failure") ++ " | ")
         ++ (if existsb (String.eqb check_name) ["CPU"; "RAM"; "DISK SPACE"]
             then "Usage: " ++ shown ++ "%"
             else " Response Time: " ++ shown ++ " seconds"))%string, s).
Proof.
  cbv zeta. unfold CheckManager.log_line, CheckManager.status_text, bind, py_str_num.
  destruct (py_round3 value); unfold ret, library; destruct (existsb _ _); reflexivity.
Qed.

(** What a call of [log_result] that returned has done. *)
Lemma log_result_recorded (server_name check_name : string) (result : bool)
  (response_time : option pynum) (E : env) (s s' : state) (line : string) :
  (forall s0, CheckManager.log_line server_name check_name result response_time E s0
              = (Ok line, s0)) ->
  CheckManager.log_result server_name check_name result response_time E s = (Ok tt, s') ->
  outcomes_of server_name (st_aggregate s')
  = (outcomes_of server_name (st_aggregate s)
     ++ [CheckManager.outcome_of check_name result response_time])%list
  /\ st_console s' = (st_console s ++ [(INFO, line)])%list
  /\ (is_root_name server_name = false ->
      log_lines_of server_name (st_server_logs s')
      = (log_lines_of server_name (st_server_logs s) ++ [line])%list)
  /\ st_ssh s' = st_ssh s /\ st_posts s' = st_posts s /\ st_files s' = st_files s
  /\ st_trace s' = st_trace s.
Proof.
  intros Hline Hlog.
  pose proof (log_result_frame server_name check_name result response_time E s) as F.
  rewrite Hlog in F. unfold log_view in F. cbn [snd] in F. injection F as _ Ffiles Fposts Fssh Ftrace.
  assert (Hready : log_ready E server_name s = true).
  { destruct (log_ready E server_name s) eqn:Hr; [reflexivity|].
    destruct (write_log_raises server_name check_name result response_time E s Hr)
      as (e & _ & Hw).
    unfold CheckManager.log_result, bind in Hlog. rewrite Hw in Hlog. discriminate. }
  destruct (write_log_returns _ _ _ _ E s line Hline Hready)
    as (s1 & Hw & Hagg & Hconsole & Hown & _).
  unfold CheckManager.log_result, bind in Hlog. rewrite Hw in Hlog.
  rewrite record_outcome_effect in Hlog. rewrite Hagg in Hlog.
  unfold outcomes_of.
  destruct (dict_get server_name (st_aggregate s)) as [[outcomes|str]|] eqn:Hd;
    try discriminate; injection Hlog as <-;
    cbn [st_aggregate st_server_logs st_console set_aggregate];
    rewrite dict_get_set_same;
    (split; [reflexivity|]); (split; [exact Hconsole|]); (split; [exact Hown|]);
    repeat split; assumption.
Qed.

(** A failure whose outcome was logged while the snapshot file is
    missing. *)
Lemma failure_without_snapshot_logged (E : env) (st s1 s2 s3 : state) (server : ServerConfig)
  (check : CheckConfig) (monitor : monitor) (response_time : pynum) :
  dict_get snapshot_path (st_files st) = None ->
  In (c_type check) non_resource_types ->
  CheckManager.select_monitor server check E st = (Ok (Some monitor), st) ->
  monitor_check monitor E st = (Ok false, s1) ->
  monitor_response_time monitor E s1 = (Ok response_time, s2) ->
  CheckManager.log_result (s_name server) (c_name check) false (Some response_time) E s2
  = (Ok tt, s3) ->
  CheckManager.run_check server check E st
  = (Ok tt,
     set_console (fun c => c ++ [(ERROR, exn_str snapshot_missing)])%list
       (set_trace
          (fun t => t ++ [EvHandleFailure (s_name server) (c_name check) (c_type check)])%list
          s3)).
Proof.
  intros Hfile Hty Hsel Hchk Hrt Hlog.
  rewrite (run_check_classified E st s1 s2 s3 server check monitor false response_time)
    by assumption.
  destruct (classified_trace E st s1 s2 s3 monitor _ _ false response_time Hchk Hrt Hlog)
    as [_ [_ Hfiles]].
  assert (Hin : PyStr.py_in (c_type check) CheckManager.resource_types = false).
  { destruct Hty as [<-|[<-|[<-|[]]]]; reflexivity. }
  unfold try_except, CheckManager.escalate. rewrite Hin. cbn [negb].
  unfold CheckManager.handle_failure, load_snapshot, emit, modify, gets, bind.
  cbn [fst snd st_files set_trace]. rewrite Hfiles, Hfile.
  reflexivity.
Qed.




(** ** The Migrate-Services handler *)

(** With a configured server, the stop step returns [True] or [False] and
    never raises. *)
Lemma connect_and_disable_returns (info : ServerConfig) (E : env) (s : state) :
  exists stopped s',
    MoveServices.connect_and_disable_services (Some info) E s = (Ok stopped, s').
Proof.
  unfold MoveServices.connect_and_disable_services, try_except.
  match goal with |- context [match ?b E s with _ => _ end] => destruct (b E s) as [[r|e] s'] end.
  - do 2 eexists. reflexivity.
  - do 2 eexists. reflexivity.
Qed.

(** With a configured server, the start step returns [True], [False] or
    [None] and never raises. *)
Lemma connect_and_enable_returns (info : ServerConfig) (services : list string)
  (E : env) (s : state) :
  exists started s',
    MoveServices.connect_and_enable_services (Some info) services E s = (Ok started, s').
Proof.
  unfold MoveServices.connect_and_enable_services, try_except.
  match goal with |- context [match ?b E s with _ => _ end] => destruct (b E s) as [[r|e] s'] end.
  - do 2 eexists. reflexivity.
  - do 2 eexists. reflexivity.
Qed.

(** When the relay accepts every post, a broadcast sends the message once
    to every chat, in order. *)
Lemma broadcast_posts (E : env) (message : string) (ids : list Z) (s : state) :
  (forall n id text, w_post (e_world E) n alert_url id text = Ok tt) ->
  exists s',
    for_each ids (fun id => requests_post alert_url id message) E s = (Ok tt, s')
    /\ st_posts s' = (st_posts s ++ map (fun id => (id, message)) ids)%list.
Proof.
  intros Hpost. revert s. induction ids as [|id ids IH]; intros s.
  - exists s. split; [reflexivity|]. simpl. now rewrite app_nil_r.
  - simpl for_each. unfold bind at 1, requests_post, bind at 1, external, modify.
    rewrite Hpost. cbn [fst snd].
    destruct (IH (set_posts (fun l => l ++ [(id, message)])%list (set_tick S s)))
      as [s' [Hrun Hposts]].
    exists s'. split; [exact Hrun|]. rewrite Hposts. cbn [st_posts set_posts set_tick map].
    now rewrite <- app_assoc.
Qed.

(** C4 (amended).  In a configuration that has the servers [TG1] and [TG2],
    and while the alert relay accepts the posts, [MoveServices.handle]
    returns normally whatever the two remote steps do, and posts to every
    chat one and the same message: the failure header, the note of the stop
    step and the note of the start step, each chosen by the result of its
    own step. *)
Theorem migrate_services_broadcast (E : env) (st : state) (server_name check_name : string)
  (tg1 tg2 : ServerConfig) :
  List.find (fun server => String.eqb (s_name server) "TG1") (servers (e_config E)) = Some tg1 ->
  List.find (fun server => String.eqb (s_name server) "TG2") (servers (e_config E)) = Some tg2 ->
  (forall n id text, w_post (e_world E) n alert_url id text = Ok tt) ->
  exists stopped started s1 s2,
    MoveServices.connect_and_disable_services (Some tg1) E st = (Ok stopped, s1)
    /\ MoveServices.connect_and_enable_services (Some tg2) MoveServices.failover_services E s1
       = (Ok started, s2)
    /\ let '(r, st') := MoveServices.handle server_name check_name E st in
       r = Ok tt
       /\ st_posts st'
          = (st_posts st
             ++ map (fun id =>
                       (id, (MoveServices.header server_name check_name
                             ++ MoveServices.primary_note stopped
                             ++ MoveServices.secondary_note (MoveServices.truthy started))%string))
                 (chats (e_config E)))%list.
Proof.
  intros H1 H2 Hpost.
  destruct (connect_and_disable_returns tg1 E st) as [stopped [s1 Hd]].
  destruct (connect_and_enable_returns tg2 MoveServices.failover_services E s1)
    as [started [s2 He]].
  exists stopped, started, s1, s2. split; [exact Hd|]. split; [exact He|].
  unfold MoveServices.handle, MoveServices.find_server, MoveServices.send_message,
    global, ret, bind.
  cbn [fst snd]. rewrite H1, H2, Hd, He.
  pose proof (connect_and_disable_frame (Some tg1) E st) as F1. rewrite Hd in F1.
  pose proof (connect_and_enable_frame (Some tg2) MoveServices.failover_services E s1) as F2.
  rewrite He in F2. unfold probe_view in F1, F2. cbn [snd] in F1, F2.
  injection F1 as _ _ _ _ P1 _. injection F2 as _ _ _ _ P2 _.
  match goal with
  | |- context [for_each ?ids (fun id => requests_post alert_url id ?msg) E s2] =>
      destruct (broadcast_posts E msg ids s2 Hpost) as [s' [Hrun Hposts]]
  end.
  rewrite Hrun. split; [reflexivity|].
  rewrite Hposts, P2, P1. rewrite <- !append_assoc_string. reflexivity.
Qed.

Lemma migrate_services_broadcast_witness :
  let '(r, st') := MoveServices.handle "TG1" "PING" Fleet.healthy_env (initial_state []) in
  r = Ok tt
  /\ exists stopped started,
      st_posts st'
      = map (fun id => (id, (MoveServices.header "TG1" "PING"
                             ++ MoveServices.primary_note stopped
                             ++ MoveServices.secondary_note started)%string))
          [1001%Z; 1002%Z].
Proof.
  destruct (migrate_services_broadcast Fleet.healthy_env (initial_state []) "TG1" "PING"
              Fleet.tg1 Fleet.tg2 eq_refl eq_refl (fun _ _ _ => eq_refl))
    as (stopped & started & s1 & s2 & _ & _ & H).
  destruct (MoveServices.handle "TG1" "PING" Fleet.healthy_env (initial_state []))
    as [r st'].
  destruct H as [Hr Hposts]. split; [exact Hr|].
  exists stopped, (MoveServices.truthy started). exact Hposts.
Defined.

(** The four combinations of the two steps, obtained by cutting the SSH
    access to the primary, to the standby, to both or to neither. *)
Example migrate_four_outcomes :
  let message (down : list string) :=
    map snd (st_posts (snd (MoveServices.handle "TG1" "PING"
                              {| e_world := Fleet.ssh_down down; e_config := Fleet.fleet |}
                              (initial_state [])))) in
  let expected (stopped started : bool) :=
    (MoveServices.header "TG1" "PING" ++ MoveServices.primary_note stopped
     ++ MoveServices.secondary_note started)%string in
  message [] = [expected true true; expected true true]
  /\ message ["10.0.0.1"] = [expected false true; expected false true]
  /\ message ["10.0.0.2"] = [expected true false; expected true false]
  /\ message ["10.0.0.1"; "10.0.0.2"] = [expected false false; expected false false].
Proof. vm_compute. repeat split. Qed.

(** C4 (the claim as stated fails).  The handler raises past its boundary
    and posts nothing when the alert relay refuses the connection, and also
    when the configuration has no server called [TG2]. *)
Lemma migrate_services_can_raise :
  (let '(r, st') := MoveServices.handle "TG1" "PING"
                      {| e_world := Fleet.relay_down; e_config := Fleet.fleet |}
                      (initial_state []) in
   r = Raise (Exn OSError "Connection refused") /\ st_posts st' = [])
  /\ (let '(r, st') := MoveServices.handle "TG1" "PING"
                         {| e_world := Fleet.healthy; e_config := Fleet.fleet_without_tg2 |}
                         (initial_state []) in
      r = Raise (Exn TypeError "'NoneType' object is not subscriptable")
      /\ st_posts st' = []).
Proof. vm_compute. repeat split. Qed.

(** ** Outcomes appended in a round *)

Lemma select_monitor_unrecognized (server : ServerConfig) (check : CheckConfig)
  (E : env) (s : state) :
  recognized (c_type check) = false ->
  CheckManager.select_monitor server check E s = (Ok None, s).
Proof.
  unfold recognized. cbn [existsb app non_resource_types resource_type_names].
  intros H. repeat (apply orb_false_iff in H as [? H]).
  unfold CheckManager.select_monitor.
  repeat match goal with
         | Heq : String.eqb _ _ = false |- _ => rewrite Heq; clear Heq
         end.
  reflexivity.
Qed.

Lemma select_monitor_recognized (server : ServerConfig) (check : CheckConfig)
  (E : env) (s s' : state) (m : monitor) :
  CheckManager.select_monitor server check E s = (Ok (Some m), s') ->
  recognized (c_type check) = true.
Proof.
  intros H. destruct (recognized (c_type check)) eqn:Hr; [reflexivity|].
  rewrite (select_monitor_unrecognized server check E s Hr) in H. discriminate.
Qed.

Lemma select_monitor_buildable (server : ServerConfig) (check : CheckConfig)
  (E : env) (s : state) :
  recognized (c_type check) = true ->
  buildable server check = true ->
  exists m, CheckManager.select_monitor server check E s = (Ok (Some m), s).
Proof.
  unfold recognized, buildable, CheckManager.select_monitor.
  cbn [existsb app non_resource_types resource_type_names].
  destruct (String.eqb (c_type check) "ping"); [intros; eexists; reflexivity|].
  destruct (String.eqb (c_type check) "telnet").
  { intros _ Hb. destruct (c_port check); [|discriminate]. eexists. reflexivity. }
  destruct (String.eqb (c_type check) "service").
  { intros _ Hb.
    destruct (s_user server); [|discriminate].
    destruct (s_password server); [|discriminate].
    destruct (c_service check); [|discriminate]. eexists. reflexivity. }
  destruct (String.eqb (c_type check) "cpu"); [intros; eexists; reflexivity|].
  destruct (String.eqb (c_type check) "ram"); [intros; eexists; reflexivity|].
  destruct (String.eqb (c_type check) "disk_space"); [intros; eexists; reflexivity|].
  discriminate.
Qed.

Lemma outcome_count_append (key : string) (entry : CheckOutcome)
  (agg : list (string * aggval)) :
  holds_no_string key agg ->
  outcome_count (dict_set key (AList (outcomes_of key agg ++ [entry])%list) agg)
  = S (outcome_count agg).
Proof.
  unfold holds_no_string, outcomes_of.
  induction agg as [|[k v] agg IH]; intros H.
  - reflexivity.
  - cbn [dict_get dict_set] in *. destruct (String.eqb key k) eqn:Hk.
    + destruct v as [outcomes|text].
      * cbn [outcome_count]. rewrite length_app. cbn [List.length]. lia.
      * exfalso. apply (H text). reflexivity.
    + cbn [outcome_count]. rewrite (IH H). destruct v; lia.
Qed.

Lemma holds_no_string_set (key key' : string) (outcomes : list CheckOutcome)
  (agg : list (string * aggval)) :
  holds_no_string key agg ->
  holds_no_string key (dict_set key' (AList outcomes) agg).
Proof.
  unfold holds_no_string. intros H text.
  destruct (String.eqb key key') eqn:Hk.
  - apply String.eqb_eq in Hk. subst. rewrite dict_get_set_same. discriminate.
  - apply String.eqb_neq in Hk. rewrite dict_get_set_other by assumption. apply H.
Qed.

(** What one execution of [run_check] does to the aggregate: nothing, or
    one outcome appended to the list of its server; nothing at all happens
    for a type that is not recognized. *)
Lemma run_check_aggregate (server : ServerConfig) (check : CheckConfig)
  (E : env) (s : state) :
  let run := CheckManager.run_check server check E s in
  fst run = Ok tt
  /\ (st_aggregate (snd run) = st_aggregate s
      \/ (recognized (c_type check) = true
          /\ holds_no_string (s_name server) (st_aggregate s)
          /\ exists entry,
              st_aggregate (snd run)
              = dict_set (s_name server)
                  (AList (outcomes_of (s_name server) (st_aggregate s) ++ [entry])%list)
                  (st_aggregate s)))
  /\ (pair_answers E server check s ->
      outcome_count (st_aggregate (snd run)) = S (outcome_count (st_aggregate s))).
Proof.
  cbv zeta.
  destruct (try_logging_trace
              (selected <- CheckManager.select_monitor server check ;;
               match selected with
               | None => ret tt
               | Some monitor => CheckManager.classify server check monitor
               end) E s) as [_ [Hview [_ Hret]]].
  fold (CheckManager.run_check server check) in Hview, Hret.
  split; [exact Hret|].
  assert (Hagg : st_aggregate (snd (CheckManager.run_check server check E s))
                 = st_aggregate
                     (snd ((selected <- CheckManager.select_monitor server check ;;
                            match selected with
                            | None => ret tt
                            | Some monitor => CheckManager.classify server check monitor
                            end) E s))).
  { unfold handler_view in Hview. now injection Hview. }
  rewrite Hagg. clear Hagg Hview Hret.
  unfold bind.
  pose proof (select_monitor_state server check E s) as Hs.
  destruct (CheckManager.select_monitor server check E s) as [[[m|]|e] s0] eqn:Hsel;
    cbn [snd] in Hs; subst s0; cbn [fst snd].
  2:{ split; [left; reflexivity|].
      intros (m & b & t1 & t & t2 & Hm & _). congruence. }
  2:{ split; [left; reflexivity|].
      intros (m & b & t1 & t & t2 & Hm & _). congruence. }
  pose proof (select_monitor_recognized server check E s s m Hsel) as Hrec.
  unfold CheckManager.classify, bind.
  pose proof (monitor_check_frame m E s) as F1.
  destruct (monitor_check m E s) as [[result|e1] s1] eqn:Hchk; cbn [snd] in F1;
    unfold probe_view in F1; injection F1 as A1 _ _ _ _ _.
  2:{ cbn [fst snd]. split; [left; exact A1|].
      intros (m' & b & t1 & t & t2 & Hm & Hc & _).
      rewrite Hsel in Hm. injection Hm as <-.
      rewrite Hc in Hchk. discriminate. }
  pose proof (monitor_response_time_frame m E s1) as F2.
  destruct (monitor_response_time m E s1) as [[response_time|e2] s2] eqn:Hrt; cbn [snd] in F2;
    unfold probe_view in F2; injection F2 as A2 _ _ _ _ _.
  2:{ cbn [fst snd]. split; [left; congruence|].
      intros (m' & b & t1 & t & t2 & Hm & Hc & Hr & _).
      rewrite Hsel in Hm. injection Hm as <-.
      rewrite Hc in Hchk. injection Hchk as <- <-. rewrite Hr in Hrt. discriminate. }
  assert (A : st_aggregate s2 = st_aggregate s) by congruence.
  pose proof (log_result_aggregate (s_name server) (c_name check) result
                (Some response_time) E s2) as Hlog.
  cbv zeta in Hlog.
  destruct (CheckManager.log_result (s_name server) (c_name check) result
              (Some response_time) E s2) as [[[]|e3] s3] eqn:Hl; cbn [fst snd] in Hlog.
  - destruct Hlog as [(_ & Hns & _ & Hset)|(_ & [e He] & _)]; [|discriminate].
    destruct (escalate_trace server check result response_time E s3) as [Hv _].
    unfold handler_view in Hv. injection Hv as Hv _ _ _.
    rewrite A in Hns, Hset.
    split.
    + right. split; [exact Hrec|]. split; [exact Hns|].
      eexists. rewrite Hv. exact Hset.
    + intros _. rewrite Hv, Hset. now apply outcome_count_append.
  - cbn [fst snd].
    destruct Hlog as [(_ & _ & Hok & _)|(Hwhy & _ & Hsame)]; [discriminate|].
    split; [left; congruence|].
    intros (m' & b & t1 & t & t2 & Hm & Hc & Hr & Hready & Hns). exfalso.
    rewrite Hsel in Hm. injection Hm as <-. rewrite Hc in Hchk. injection Hchk as <- <-.
    rewrite Hr in Hrt. injection Hrt as <- <-.
    destruct Hwhy as [Hno|(text & Htext)]; [congruence|exact (Hns text Htext)].
Qed.

Lemma run_check_unrecognized (server : ServerConfig) (check : CheckConfig)
  (E : env) (s : state) :
  recognized (c_type check) = false ->
  CheckManager.run_check server check E s = (Ok tt, s).
Proof.
  intros H. unfold CheckManager.run_check, try_except, bind.
  rewrite (select_monitor_unrecognized server check E s H). reflexivity.
Qed.

Lemma run_pairs_count (E : env) (pairs : list (ServerConfig * CheckConfig)) (s : state) :
  let run := run_pairs pairs E s in
  fst run = Ok tt
  /\ (outcome_count (st_aggregate (snd run))
      <= outcome_count (st_aggregate s) + count_recognized pairs)%nat
  /\ (round_answers E pairs s ->
      outcome_count (st_aggregate (snd run))
      = (outcome_count (st_aggregate s) + count_recognized pairs)%nat).
Proof.
  cbv zeta. revert s. induction pairs as [|[server check] pairs IH]; intros s.
  - cbn. repeat split; lia.
  - unfold run_pairs. cbn [for_each fst snd]. unfold bind.
    destruct (run_check_aggregate server check E s) as (Hret & Hagg & Hfull).
    cbv zeta in *. cbn [round_answers fst snd].
    destruct (CheckManager.run_check server check E s) as [r s1]. cbn [fst snd] in *.
    subst r. fold (run_pairs pairs).
    destruct (IH s1) as (IHret & IHle & IHeq).
    unfold count_recognized in *. cbn [filter snd].
    split; [exact IHret|]. split.
    + destruct Hagg as [Hsame|(Hrec & Hns & entry & Hset)].
      * rewrite Hsame in IHle. destruct (recognized (c_type check)); cbn [List.length]; lia.
      * rewrite Hrec. cbn [List.length].
        assert (Hone : outcome_count (st_aggregate s1) = S (outcome_count (st_aggregate s))).
        { rewrite Hset. now apply outcome_count_append. }
        lia.
    + intros [Hfirst Hrest].
      rewrite (IHeq Hrest).
      destruct (recognized (c_type check)) eqn:Hrec; cbn [List.length].
      * rewrite (Hfull (Hfirst eq_refl)). lia.
      * destruct Hagg as [Hsame|(Habs & _)]; [|discriminate]. rewrite Hsame. lia.
Qed.


(** A pair answers in a given state of a given environment: the witnesses
    are computed. *)
Ltac pair_answers_by_computation :=
  match goal with
  | |- pair_answers ?E ?server ?check ?s =>
      let sel := eval vm_compute in (CheckManager.select_monitor server check E s) in
      match sel with
      | (Ok (Some ?m), _) =>
          let c := eval vm_compute in (monitor_check m E s) in
          match c with
          | (Ok ?b, ?s1) =>
              let r := eval vm_compute in (monitor_response_time m E s1) in
              match r with
              | (Ok ?t, ?s2) =>
                  exists m, b, s1, t, s2;
                  (split; [vm_compute; reflexivity|]);
                  (split; [vm_compute; reflexivity|]);
                  (split; [vm_compute; reflexivity|]);
                  (split; [vm_compute; reflexivity|]);
                  intros text Htext; vm_compute in Htext; discriminate Htext
              end
          end
      end
  end.



(** ** Concurrent appends *)

(** Without interleaving, the two workers leave in the list of the server
    what two calls of [record_outcome] in a row leave in the aggregate. *)
Example serial_schedule_keeps_both :
  let c := Interleaving.run Interleaving.serial_schedule Interleaving.two_workers in
  let s := snd ((CheckManager.record_outcome "TG1" (Interleaving.outcome "PING") ;;
                 CheckManager.record_outcome "TG1" (Interleaving.outcome "BOT"))%py
                  Fleet.healthy_env (initial_state [])) in
  forallb Interleaving.finished (fst c) = true
  /\ Interleaving.visible (snd c) "TG1" = outcomes_of "TG1" (st_aggregate s)
  /\ Interleaving.visible (snd c) "TG1"
     = [Interleaving.outcome "PING"; Interleaving.outcome "BOT"].
Proof. vm_compute. repeat split. Qed.

(** C9 (the claim as stated fails).  Two workers of one server whose
    membership tests both run before either stores its list: both finish,
    and the list of the server holds only the outcome of the second; the
    outcome of the first went to a list that the dict no longer holds. *)
Lemma racy_append_is_lost :
  let c := Interleaving.run Interleaving.racy_schedule Interleaving.two_workers in
  forallb Interleaving.finished (fst c) = true
  /\ Interleaving.visible (snd c) "TG1" = [Interleaving.outcome "BOT"]
  /\ ~ In (Interleaving.outcome "PING") (Interleaving.visible (snd c) "TG1").
Proof.
  vm_compute. repeat split. intros [H|[]]. discriminate.
Qed.

Lemma in_set_nth {A : Type} (i : nat) (x y : A) (l : list A) :
  In y (Interleaving.set_nth i x l) -> y = x \/ In y l.
Proof.
  revert i. induction l as [|z l IH]; intros [|i]; simpl; try tauto.
  - intros [H|H]; auto.
  - intros [H|H]; auto. destruct (IH i H); auto.
Qed.

Lemma map_set_nth {A B : Type} (f : A -> B) (i : nat) (x w : A) (l : list A) :
  nth_error l i = Some w -> f x = f w ->
  map f (Interleaving.set_nth i x l) = map f l.
Proof.
  revert i. induction l as [|z l IH]; intros [|i]; simpl; try discriminate.
  - intros [= ->] ->. reflexivity.
  - intros Hn Hf. now rewrite (IH i Hn Hf).
Qed.

Lemma set_nth_split {A : Type} (i : nat) (x w : A) (l : list A) :
  nth_error l i = Some w ->
  exists l1 l2, l = (l1 ++ w :: l2)%list /\ Interleaving.set_nth i x l = (l1 ++ x :: l2)%list.
Proof.
  revert i. induction l as [|z l IH]; intros [|i]; simpl; try discriminate.
  - intros [= ->]. exists [], l. split; reflexivity.
  - intros Hn. destruct (IH i Hn) as (l1 & l2 & -> & ->).
    exists (z :: l1), l2. split; reflexivity.
Qed.

Lemma finished_at_app (dict : list (string * nat)) (a : nat)
  (l1 l2 : list Interleaving.worker) :
  Interleaving.finished_at dict a (l1 ++ l2)
  = (Interleaving.finished_at dict a l1 ++ Interleaving.finished_at dict a l2)%list.
Proof. unfold Interleaving.finished_at. now rewrite filter_app, map_app. Qed.

(** A step that does not finish the worker on the list at [a] leaves the
    outcomes of the finished workers of that list as they are. *)
Lemma finished_at_same (dict : list (string * nat)) (a i : nat)
  (w w' : Interleaving.worker) (ws : list Interleaving.worker) :
  nth_error ws i = Some w ->
  Interleaving.wk_entry w' = Interleaving.wk_entry w ->
  Interleaving.finished w' && Interleaving.appends_to dict a w'
  = Interleaving.finished w && Interleaving.appends_to dict a w ->
  Interleaving.finished_at dict a (Interleaving.set_nth i w' ws)
  = Interleaving.finished_at dict a ws.
Proof.
  intros Hn He Hp. destruct (set_nth_split i w' w ws Hn) as (l1 & l2 & -> & ->).
  rewrite !finished_at_app. f_equal.
  unfold Interleaving.finished_at. cbn [filter]. cbv beta. rewrite Hp.
  destruct (Interleaving.finished w && Interleaving.appends_to dict a w);
    cbn [map]; now rewrite ?He.
Qed.

(** A step that finishes the worker on the list at [a] adds its outcome,
    once. *)
Lemma finished_at_one_more (dict : list (string * nat)) (a i : nat)
  (w w' : Interleaving.worker) (ws : list Interleaving.worker)
  (appended : list CheckOutcome) :
  nth_error ws i = Some w ->
  Interleaving.finished w = false ->
  Interleaving.finished w' && Interleaving.appends_to dict a w' = true ->
  Permutation appended (Interleaving.finished_at dict a ws) ->
  Permutation (appended ++ [Interleaving.wk_entry w'])%list
    (Interleaving.finished_at dict a (Interleaving.set_nth i w' ws)).
Proof.
  intros Hn Hw Hw' Hperm. destruct (set_nth_split i w' w ws Hn) as (l1 & l2 & -> & ->).
  rewrite !finished_at_app in *.
  unfold Interleaving.finished_at at 2 in Hperm. unfold Interleaving.finished_at at 2.
  cbn [filter] in *. rewrite Hw in Hperm. rewrite Hw'. cbn [andb map] in *.
  fold (Interleaving.finished_at dict a l2) in *.
  eapply Permutation_trans; [apply Permutation_app_comm|]. cbn [app].
  apply Permutation_cons_app. exact Hperm.
Qed.

Lemma set_nth_same {A : Type} (i : nat) (w : A) (l : list A) :
  nth_error l i = Some w -> Interleaving.set_nth i w l = l.
Proof.
  revert i. induction l as [|z l IH]; intros [|i]; simpl; try discriminate.
  - now intros [= ->].
  - intros Hn. now rewrite IH.
Qed.

(** One scheduling step keeps the invariant. *)
Lemma step_invariant (start c : Interleaving.system) (i : nat) :
  Interleaving.invariant start c -> Interleaving.invariant start (Interleaving.step i c).
Proof.
  destruct c as [ws m]. intros (Hdict & Hid & Hset & Hheap). cbn [fst snd] in *.
  unfold Interleaving.step. cbn [fst snd].
  destruct (nth_error ws i) as [w|] eqn:Hn; [|repeat split; assumption].
  pose proof (Hset w (nth_error_In _ _ Hn)) as (a & Ha & Hpc).
  (* a step that neither finishes the worker nor touches the shared state *)
  assert (Hquiet : forall p,
             Interleaving.wk_pc w <> Interleaving.Done ->
             match p with
             | Interleaving.AtLoad => True
             | Interleaving.AtAppend a' => a' = a
             | _ => False
             end ->
             Interleaving.invariant start
               (Interleaving.set_nth i (Interleaving.at_pc w p) ws, m)).
  { intros p Hnot Hp. split; [exact Hdict|]. split; [|split]; cbn [fst snd].
    - rewrite (map_set_nth Interleaving.identity i _ w ws Hn) by reflexivity. exact Hid.
    - intros y Hy. apply in_set_nth in Hy as [->|Hy]; [|auto].
      exists a. split; [exact Ha|]. cbn. destruct p; auto; contradiction.
    - intros b. destruct (Hheap b) as (appended & Hb & Hperm).
      exists appended. split; [exact Hb|].
      rewrite (finished_at_same _ b i w _ ws Hn); [exact Hperm|reflexivity|].
      unfold Interleaving.finished. cbn [Interleaving.at_pc Interleaving.wk_pc].
      destruct p; try contradiction; destruct (Interleaving.wk_pc w); try reflexivity;
        now destruct Hnot. }
  unfold Interleaving.step_worker.
  destruct (Interleaving.wk_pc w) eqn:Hw; try contradiction.
  - (* the membership test finds the key *)
    rewrite Hdict, Ha. apply Hquiet; [discriminate|exact I].
  - (* the list object is loaded *)
    rewrite Hdict, Ha. apply Hquiet; [discriminate|reflexivity].
  - (* the append *)
    subst addr. split; [exact Hdict|]. split; [|split]; cbn [fst snd].
    + rewrite (map_set_nth Interleaving.identity i _ w ws Hn) by reflexivity. exact Hid.
    + intros y Hy. apply in_set_nth in Hy as [->|Hy]; [|auto].
      exists a. split; [exact Ha|]. exact I.
    + intros b. destruct (Hheap b) as (appended & Hb & Hperm).
      cbn [Interleaving.sh_heap]. unfold Interleaving.store.
      destruct (Nat.eqb b a) eqn:Hba.
      * apply Nat.eqb_eq in Hba. subst b.
        exists (appended ++ [Interleaving.wk_entry w])%list. split.
        -- rewrite Hb. now rewrite <- app_assoc.
        -- apply (finished_at_one_more _ a i w (Interleaving.at_pc w Interleaving.Done) ws);
             try assumption.
           ++ unfold Interleaving.finished. now rewrite Hw.
           ++ unfold Interleaving.finished, Interleaving.appends_to.
              cbn [Interleaving.at_pc Interleaving.wk_pc Interleaving.wk_server].
              rewrite Ha. apply Nat.eqb_refl.
      * exists appended. split; [exact Hb|].
        rewrite (finished_at_same _ b i w _ ws Hn); [exact Hperm|reflexivity|].
        unfold Interleaving.finished, Interleaving.appends_to.
        cbn [Interleaving.at_pc Interleaving.wk_pc Interleaving.wk_server].
        rewrite Hw, Ha. rewrite Nat.eqb_sym, Hba. reflexivity.
  - (* a finished worker does nothing *)
    rewrite (set_nth_same i w ws Hn). repeat split; assumption.
Qed.

Lemma run_invariant (start c : Interleaving.system) (schedule : list nat) :
  Interleaving.invariant start c ->
  Interleaving.invariant start (Interleaving.run schedule c).
Proof.
  revert c. induction schedule as [|i schedule IH]; intros c H; [exact H|].
  apply IH. now apply step_invariant.
Qed.

(** C9 (amended).  The appends are not guarded by a lock.  When the dict
    already holds a list for the server of every worker, then under every
    schedule the dict and the workers stay the same, and the list of every
    server holds what it held before, followed by the outcomes of the
    workers that have finished on that list, each of them once: no append is
    lost and none is made twice. *)
Theorem appends_kept_once_list_exists (workers : list Interleaving.worker)
  (m : Interleaving.shared) (schedule : list nat) :
  (forall w, In w workers ->
             Interleaving.wk_pc w = Interleaving.AtTest
             /\ exists a, dict_get (Interleaving.wk_server w) (Interleaving.sh_dict m) = Some a) ->
  let c := Interleaving.run schedule (workers, m) in
  map Interleaving.identity (fst c) = map Interleaving.identity workers
  /\ Interleaving.sh_dict (snd c) = Interleaving.sh_dict m
  /\ (forall server a,
        dict_get server (Interleaving.sh_dict m) = Some a ->
        exists appended,
          Interleaving.visible (snd c) server
          = (Interleaving.visible m server ++ appended)%list
          /\ Permutation appended
               (Interleaving.finished_at (Interleaving.sh_dict m) a (fst c))).
Proof.
  intros Hstart c.
  assert (Hinv : Interleaving.invariant (workers, m) c).
  { apply run_invariant. split; [reflexivity|]. split; [reflexivity|]. split.
    - intros w Hw. destruct (Hstart w Hw) as [Hpc [a Ha]].
      exists a. split; [exact Ha|]. cbn [snd]. now rewrite Hpc.
    - intros a. exists []. cbn [fst snd]. split; [now rewrite app_nil_r|].
      unfold Interleaving.finished_at.
      assert (Hnone : filter (fun w => Interleaving.finished w
                                       && Interleaving.appends_to (Interleaving.sh_dict m) a w)
                        workers = []).
      { clear -Hstart. induction workers as [|w ws IH]; [reflexivity|].
        cbn [filter]. unfold Interleaving.finished at 1.
        rewrite (proj1 (Hstart w (or_introl eq_refl))). cbn [andb].
        apply IH. intros w' Hw'. apply Hstart. now right. }
      rewrite Hnone. constructor. }
  destruct Hinv as (Hdict & Hid & Hset & Hheap). cbn [fst snd] in *.
  split; [exact Hid|]. split; [exact Hdict|].
  intros server a Ha. unfold Interleaving.visible. rewrite Hdict, Ha. apply Hheap.
Qed.

Lemma appends_kept_once_list_exists_witness :
  let c := Interleaving.run Interleaving.racy_schedule Interleaving.later_round in
  forallb Interleaving.finished (fst c) = true
  /\ exists appended,
      Interleaving.visible (snd c) "TG1" = (Interleaving.outcome "PING" :: appended)
      /\ Permutation appended [Interleaving.outcome "PING"; Interleaving.outcome "BOT"]
      /\ List.length (Interleaving.visible (snd c) "TG1") = 3%nat.
Proof.
  intros c.
  assert (Hstart : forall w, In w (fst Interleaving.later_round) ->
            Interleaving.wk_pc w = Interleaving.AtTest
            /\ exists a, dict_get (Interleaving.wk_server w)
                           (Interleaving.sh_dict (snd Interleaving.later_round)) = Some a).
  { intros w [<-|[<-|[]]]; (split; [reflexivity|exists 0%nat; reflexivity]). }
  destruct (appends_kept_once_list_exists (fst Interleaving.later_round)
              (snd Interleaving.later_round) Interleaving.racy_schedule Hstart)
    as (_ & _ & Hkept).
  destruct (Hkept "TG1" 0%nat eq_refl) as (appended & Hvisible & Hperm).
  split; [reflexivity|]. exists appended.
  split; [exact Hvisible|]. split; [exact Hperm|].
  change (Interleaving.visible (snd c) "TG1")
    with (Interleaving.visible
            (snd (Interleaving.run Interleaving.racy_schedule
                    (fst Interleaving.later_round, snd Interleaving.later_round))) "TG1").
  rewrite Hvisible. cbn [List.length app Interleaving.visible].
  rewrite length_app, (Permutation_length Hperm). reflexivity.
Defined.

(** ** The scenarios of the specification *)

(** Scenario 1: the ping of [TG1] fails while a snapshot exists.  The
    Failure outcome is recorded, the Migrate-Services strategy is entered
    and every chat receives the composite alert. *)
Example scenario_tg1_ping_fails :
  let st := initial_state [(snapshot_path, Fleet.old_snapshot)] in
  let '(r, st') := CheckManager.run_check Fleet.tg1 Fleet.ping_check Fleet.ping_lost_env st in
  r = Ok tt
  /\ map o_result (outcomes_of "TG1" (st_aggregate st')) = ["Failure"]
  /\ new_events st st'
     = [EvHandleFailure "TG1" "PING" "ping"; EvStrategy MoveServicesStrategy "TG1" "PING"]
  /\ st_posts st'
     = map (fun id => (id, (MoveServices.header "TG1" "PING"
                            ++ MoveServices.primary_note true
                            ++ MoveServices.secondary_note true)%string))
         [1001%Z; 1002%Z].
Proof. vm_compute. repeat split. Qed.

(** Scenario 2: a CPU load of 92 percent against a limit of 80.  The
    outcome is a Success and the Notify-Warning strategy is entered. *)
Example scenario_cpu_warning :
  let st := initial_state [] in
  let '(r, st') := CheckManager.run_check Fleet.web1 Fleet.cpu_check Fleet.healthy_env st in
  r = Ok tt
  /\ map o_result (outcomes_of "WEB1" (st_aggregate st')) = ["Success"]
  /\ map round_phase (new_events st st') = [0; 0]%nat
  /\ handler_invoked (new_events st st')
  /\ log_lines_of "WEB1" (st_server_logs st') = ["WEB1 --- CPU --- Success | Usage: 92.0%"].
Proof.
  vm_compute. repeat split.
  exists NotifyWarningStrategy, "WEB1", "CPU". right. left. reflexivity.
Qed.

(** Scenario 3: a port check against a peer that never answers.  The
    outcome is a Failure with a response time of ten seconds. *)
Example scenario_silent_port :
  let st := initial_state [] in
  let '(r, st') := CheckManager.run_check Fleet.web1 Fleet.port_check Fleet.silent_port_env st in
  r = Ok tt
  /\ outcomes_of "WEB1" (st_aggregate st')
     = [{| o_check_name := "TELNET"; o_result := "Failure";
           o_response_time := Some (PFloat 10) |}]
  /\ log_lines_of "WEB1" (st_server_logs st')
     = ["WEB1 --- TELNET --- Failure |  Response Time: 10.0 seconds"]
  /\ (st_clock st' == 20)%Q.
Proof. vm_compute. repeat split. Qed.

(** ** A round with a bound constructor name *)

(** A worker adds to the trace only escalation events, and leaves the list
    of threads alone. *)
Lemma run_check_trace (server : ServerConfig) (check : CheckConfig) (E : env) (s : state) :
  let s' := snd (CheckManager.run_check server check E s) in
  st_threads s' = st_threads s
  /\ exists l, st_trace s' = (st_trace s ++ l)%list /\ Forall worker_event l.
Proof.
  cbv zeta.
  destruct (try_logging_trace
              (selected <- CheckManager.select_monitor server check ;;
               match selected with
               | None => ret tt
               | Some monitor => CheckManager.classify server check monitor
               end) E s) as [Htr [Hview _]].
  fold (CheckManager.run_check server check) in Hview, Htr.
  unfold handler_view in Hview. injection Hview as _ Hth _ _.
  rewrite Htr, Hth. clear Htr Hth.
  assert (Hnil : forall s0 : state,
             st_threads s0 = st_threads s /\ st_trace s0 = st_trace s ->
             st_threads s0 = st_threads s
             /\ exists l, st_trace s0 = (st_trace s ++ l)%list /\ Forall worker_event l).
  { intros s0 [H1 H2]. split; [exact H1|]. exists []. rewrite app_nil_r. now split. }
  unfold bind.
  pose proof (select_monitor_state server check E s) as Hs.
  destruct (CheckManager.select_monitor server check E s) as [[[m|]|e] s0];
    cbn [snd] in Hs; subst s0; cbn [fst snd]; try (apply Hnil; now split).
  unfold CheckManager.classify, bind.
  pose proof (monitor_check_frame m E s) as F1.
  destruct (monitor_check m E s) as [[result|e1] s1]; cbn [snd] in F1;
    unfold probe_view in F1; injection F1 as _ T1 _ _ _ R1; cbn [fst snd];
    [|apply Hnil; now split].
  pose proof (monitor_response_time_frame m E s1) as F2.
  destruct (monitor_response_time m E s1) as [[response_time|e2] s2]; cbn [snd] in F2;
    unfold probe_view in F2; injection F2 as _ T2 _ _ _ R2; cbn [fst snd];
    [|apply Hnil; split; congruence].
  pose proof (log_result_frame (s_name server) (c_name check) result (Some response_time)
                E s2) as F3.
  destruct (CheckManager.log_result (s_name server) (c_name check) result
              (Some response_time) E s2) as [[[]|e3] s3]; cbn [snd] in F3;
    unfold log_view in F3; injection F3 as T3 _ _ _ R3; cbn [fst snd];
    [|apply Hnil; split; congruence].
  destruct (escalate_trace server check result response_time E s3) as [Hv [l [Hl Hcase]]].
  unfold handler_view in Hv. injection Hv as _ Hth _ _.
  split; [congruence|].
  exists l. split; [rewrite Hl; congruence|].
  assert (Hstrat : forall l', Forall is_strategy_event l' -> Forall worker_event l').
  { intros l' H. eapply Forall_impl; [|exact H].
    intros [] Hx; try contradiction. now split. }
  destruct (negb (PyStr.py_in (c_type check) CheckManager.resource_types)).
  - destruct (negb result).
    + destruct Hcase as [l' [-> Hs']]. constructor; [now split|auto].
    + destruct (py_ge response_time (response_time_limit (e_config E))).
      * destruct Hcase as [l' [-> Hs']]. constructor; [now split|auto].
      * subst l. constructor.
  - destruct (dict_get (c_name check) (resourse_limits (e_config E))) as [limit|].
    + destruct (py_ge response_time limit).
      * destruct Hcase as [l' [-> Hs']]. constructor; [now split|auto].
      * subst l. constructor.
    + subst l. constructor.
Qed.

Lemma for_each_flat_map {A B : Type} (l : list A) (f : A -> list B)
  (body : A -> B -> M unit) (E : env) (s : state) :
  for_each l (fun x => for_each (f x) (body x)) E s
  = for_each (flat_map (fun x => map (pair x) (f x)) l) (fun p => body (fst p) (snd p)) E s.
Proof.
  revert s. induction l as [|x l IH]; intros s; [reflexivity|].
  cbn [for_each flat_map]. unfold bind at 1.
  assert (Happ : forall (l1 : list B) (rest : list (A * B)) s0,
             for_each (map (pair x) l1 ++ rest)%list (fun p => body (fst p) (snd p)) E s0
             = match for_each l1 (body x) E s0 with
               | (Ok _, s1) => for_each rest (fun p => body (fst p) (snd p)) E s1
               | (Raise e, s1) => (Raise e, s1)
               end).
  { induction l1 as [|y l1 IH1]; intros rest s0; [reflexivity|].
    cbn [map app for_each fst snd]. unfold bind.
    destruct (body x y E s0) as [[[]|e] s1]; [apply IH1|reflexivity]. }
  rewrite Happ. destruct (for_each (f x) (body x) E s) as [[[]|e] s1]; [apply IH|reflexivity].
Qed.

(** The fan-out with a bound name: every pair gets its thread, in order, and
    the trace gains the thread starts and the events of the workers. *)
Lemma fan_out_bound (constructor : string) (E : env) :
  existsb (String.eqb constructor) CheckManager.main_globals = true ->
  forall (pairs : list (ServerConfig * CheckConfig)) (s : state),
  exists s' work,
    for_each pairs
      (fun p =>
         CheckManager.load_global constructor ;;
         modify (set_threads (fun l => l ++ [(fst p, snd p)])%list) ;;
         CheckManager.thread_start (fst p) (snd p)) E s = (Ok tt, s')
    /\ st_threads s' = (st_threads s ++ pairs)%list
    /\ st_trace s' = (st_trace s ++ work)%list
    /\ Forall (fun e => round_phase e = 0%nat) work
    /\ filter is_start work = map start_event pairs.
Proof.
  intros Hname pairs. induction pairs as [|[server check] pairs IH]; intros s.
  - exists s, []. cbn. rewrite !app_nil_r. repeat split. constructor.
  - set (s0 := set_trace (fun t => t ++ [EvThreadStart (s_name server) (c_name check)])%list
                 (set_threads (fun l => l ++ [(server, check)])%list s)).
    destruct (run_check_trace server check E s0) as [Hth [l [Hl Hw]]].
    destruct (run_check_aggregate server check E s0) as [Hret _]. cbv zeta in *.
    destruct (CheckManager.run_check server check E s0) as [r s1] eqn:Hrun.
    cbn [fst snd] in *. subst r.
    destruct (IH s1) as (s' & work & IHrun & IHt & IHw & IHp & IHf).
    exists s', (EvThreadStart (s_name server) (c_name check) :: l ++ work)%list.
    split; [|split; [|split; [|split]]].
    + set (body := fun p : ServerConfig * CheckConfig =>
                     CheckManager.load_global constructor ;;
                     modify (set_threads (fun l => l ++ [(fst p, snd p)])%list) ;;
                     CheckManager.thread_start (fst p) (snd p)) in *.
      assert (Hbody : body (server, check) E s = (Ok tt, s1)).
      { unfold body, CheckManager.load_global. rewrite Hname.
        unfold CheckManager.thread_start, ret, emit, modify, bind. cbn [fst snd].
        fold s0. exact Hrun. }
      cbn [for_each]. unfold bind at 1. rewrite Hbody. exact IHrun.
    + rewrite IHt, Hth. unfold s0. cbn [st_threads set_trace set_threads].
      now rewrite <- app_assoc.
    + rewrite IHw, Hl. unfold s0. cbn [st_trace set_trace set_threads].
      rewrite <- !app_assoc. reflexivity.
    + constructor; [reflexivity|]. apply Forall_app. split; [|exact IHp].
      eapply Forall_impl; [|exact Hw]. now intros e [He _].
    + cbn [filter is_start map]. rewrite filter_app, IHf.
      assert (Hnone : filter is_start l = []).
      { clear -Hw. induction Hw as [|e l [_ He] _ IHl]; [reflexivity|].
        cbn [filter]. now rewrite He. }
      rewrite Hnone. reflexivity.
Qed.

Lemma fan_in_joins (E : env) (threads : list (ServerConfig * CheckConfig)) (s : state) :
  for_each threads CheckManager.thread_join E s
  = (Ok tt, set_trace (fun t => t ++ map join_event threads)%list s).
Proof.
  revert s. induction threads as [|p threads IH]; intros s.
  - cbn. unfold ret, set_trace. destruct s; cbn. now rewrite app_nil_r.
  - cbn [for_each map]. unfold bind, CheckManager.thread_join at 1, emit, modify.
    rewrite IH. f_equal. unfold set_trace. cbn. f_equal.
    now rewrite <- app_assoc.
Qed.

(** If the loop called a name that the module binds (as [Thread] is), a
    round would start one worker per pair, join every worker, then flush and
    then sleep. *)
Lemma round_with_bound_name (constructor : string) (E : env) (st : state) :
  existsb (String.eqb constructor) CheckManager.main_globals = true ->
  st_threads st = [] ->
  let run := CheckManager.round_with constructor E st in
  fst run = Ok tt
  /\ exists work,
      new_events st (snd run)
      = (work ++ map join_event (pairs_of (e_config E)) ++ [EvFlush; EvSleep 60])%list
      /\ Forall (fun e => round_phase e = 0%nat) work
      /\ filter is_start work = map start_event (pairs_of (e_config E)).
Proof.
  intros Hname Hthreads. cbv zeta.
  unfold CheckManager.round_with, bind.
  assert (Hfan : CheckManager.fan_out constructor E st
                 = for_each (pairs_of (e_config E))
                     (fun p =>
                        CheckManager.load_global constructor ;;
                        modify (set_threads (fun l => l ++ [(fst p, snd p)])%list) ;;
                        CheckManager.thread_start (fst p) (snd p)) E st).
  { unfold CheckManager.fan_out, bind at 1, global.
    apply (for_each_flat_map (servers (e_config E)) s_checks
             (fun server check =>
                CheckManager.load_global constructor ;;
                modify (set_threads (fun l => l ++ [(server, check)])%list) ;;
                CheckManager.thread_start server check) E st). }
  rewrite Hfan.
  destruct (fan_out_bound constructor E Hname (pairs_of (e_config E)) st)
    as (s1 & work & Hrun & Ht & Hw & Hp & Hf).
  rewrite Hrun. rewrite Hthreads in Ht. cbn [app] in Ht.
  unfold CheckManager.fan_in, bind, gets. cbn [fst snd].
  rewrite fan_in_joins, Ht.
  unfold CheckManager.save_aggregate_results, CheckManager.begin_flush,
    CheckManager.finish_flush, CheckManager.open_truncate, CheckManager.write_and_close,
    emit, sleep, external, library, modify, gets, bind.
  cbn [fst snd]. split; [reflexivity|].
  exists work. split; [|split; assumption].
  apply new_events_app.
  cbn [st_trace set_trace set_clock set_threads set_files set_aggregate set_tick].
  rewrite Hw. rewrite <- !app_assoc. reflexivity.
Qed.

(** * Further properties of the code *)

From Stdlib Require Import Lqa.

(** ** The monitors *)

(** X1.  [TelnetMonitor.check] never raises.  It returns [True] exactly
    when the host is looked up and one of its addresses accepts the
    connection within the ten seconds of the timeout; in that case nothing
    is logged, and otherwise one error record is written to the console. *)
Theorem telnet_check_verdict (host : string) (port : Z) (E : env) (s : state) :
  exists result s',
    TelnetMonitor.check host port E s = (Ok result, s')
    /\ (result = true <->
        exists after addresses d,
          w_connect (e_world E) (st_tick s) host port = Resolves after addresses
          /\ In (Accepts d) addresses
          /\ Qle_bool d 10 = true)
    /\ (if result then st_console s' = st_console s
        else exists msg, st_console s' = (st_console s ++ [(ERROR, msg)])%list).
Proof.
  assert (Haccept : forall addresses,
             existsb (fun b => match b with
                               | Accepts d => Qle_bool d 10
                               | _ => false
                               end) addresses = true
             <-> exists d, In (Accepts d) addresses /\ Qle_bool d 10 = true).
  { intros addresses. rewrite existsb_exists. split.
    - intros [[d|d e|] [Hin Hd]]; try discriminate. eauto.
    - intros [d [Hin Hd]]. exists (Accepts d). split; assumption. }
  unfold TelnetMonitor.check, telnet_open, try_except, bind at 1 2, external.
  cbn [fst snd].
  destruct (w_connect (e_world E) (st_tick s) host port) as [after addresses|after e] eqn:Hc.
  - unfold bind at 1, sleep, modify. cbn [fst snd].
    pose proof (connect_each_verdict addresses 10 None E
                  (set_clock (fun t => t + after) (set_tick S s))) as Hv.
    cbv zeta in Hv. destruct Hv as (Hok & _ & Hconsole).
    destruct (connect_each addresses 10 None E (set_clock (fun t => t + after) (set_tick S s)))
      as [[[]|e] s1] eqn:Hrun; cbn [fst snd] in *.
    + do 2 eexists. split; [reflexivity|]. split; [|exact Hconsole].
      split; [intros _|reflexivity].
      destruct (proj1 (Haccept addresses) (proj1 Hok eq_refl)) as [d [Hin Hd]].
      exists after, addresses, d. auto.
    + unfold logging_error, console, bind, modify, ret. cbn [fst snd].
      do 2 eexists. split; [reflexivity|]. split.
      * split; [discriminate|]. intros (after' & addresses' & d & [= <- <-] & Hin & Hd).
        assert (Raise e = Ok tt) by (apply Hok, Haccept; eauto). discriminate.
      * cbn [st_console set_console]. rewrite Hconsole. eexists. reflexivity.
  - unfold bind, sleep, modify, raise, logging_error, console, ret. cbn [fst snd].
    do 2 eexists. split; [reflexivity|]. split.
    + split; [discriminate|]. intros (after' & addresses' & d & Hres & _). discriminate.
    + eexists. reflexivity.
Qed.

(** X2.  [ServiceMonitor.check] never raises.  It returns [True] exactly
    when the SSH connection is opened, the command
    [systemctl is-active <service>] runs, and its output, stripped of white
    space, is the word [active]. *)
Theorem service_check_verdict (hostname : string) (port : Z)
  (username password service : string) (E : env) (s : state) :
  let ssh := {| ss_id := st_tick s; ss_host := hostname |} in
  let command := ("systemctl is-active " ++ service)%string in
  exists result s',
    ServiceMonitor.check hostname port username password service E s = (Ok result, s')
    /\ (result = true <->
        w_ssh_connect (e_world E) (st_tick s) hostname port username password = Ok tt
        /\ exists out err,
            w_ssh_exec (e_world E) (S (st_tick s)) ssh command = Ok (out, err)
            /\ PyStr.strip out = "active").
Proof.
  cbv zeta.
  unfold ServiceMonitor.check, ssh_connect, ssh_exec, ssh_close, logging_error, console,
    try_except, external, modify, gets, raise, ret, bind.
  cbn [fst snd st_tick set_tick set_ssh].
  destruct (w_ssh_connect (e_world E) (st_tick s) hostname port username password)
    as [[]|e] eqn:Hc; cbn [fst snd st_tick set_tick set_ssh].
  - destruct (w_ssh_exec (e_world E) (S (st_tick s)) _ _) as [[out err]|e] eqn:Hx.
    + do 2 eexists. split; [reflexivity|]. cbn [fst]. split.
      * intros H. apply String.eqb_eq in H. split; [reflexivity|]. eauto.
      * intros [_ [out' [err' [H1 H2]]]]. injection H1 as <- <-.
        now apply String.eqb_eq.
    + do 2 eexists. split; [reflexivity|]. split; [discriminate|].
      intros [_ [out' [err' [H1 _]]]]. discriminate.
  - do 2 eexists. split; [reflexivity|]. split; [discriminate|].
    intros [H _]. discriminate.
Qed.

(** X3.  [ServiceMonitor.check] closes the SSH session only after the
    command has run: when the connection is open and [exec_command] raises,
    the check returns [False], logs the error, and the session that it
    opened stays open. *)
Theorem service_check_session_left_open (hostname : string) (port : Z)
  (username password service : string) (E : env) (s : state) (e : exn) :
  let ssh := {| ss_id := st_tick s; ss_host := hostname |} in
  let command := ("systemctl is-active " ++ service)%string in
  w_ssh_connect (e_world E) (st_tick s) hostname port username password = Ok tt ->
  w_ssh_exec (e_world E) (S (st_tick s)) ssh command = Raise e ->
  let run := ServiceMonitor.check hostname port username password service E s in
  fst run = Ok false
  /\ st_ssh (snd run) = (st_ssh s ++ [SshOpen ssh; SshExec ssh command])%list
  /\ st_console (snd run)
     = (st_console s
        ++ [(ERROR, ("Ошибка при подключении или выполнении команды на сервере: "
                     ++ exn_str e)%string)])%list.
Proof.
  cbv zeta. intros Hc Hx.
  unfold ServiceMonitor.check, ssh_connect, ssh_exec, ssh_close, logging_error, console,
    try_except, external, modify, gets, raise, ret, bind.
  cbn [fst snd st_tick set_tick set_ssh]. rewrite Hc. cbn [fst snd st_tick set_tick set_ssh].
  rewrite Hx. cbn [fst snd st_ssh st_console set_console set_tick set_ssh].
  rewrite <- app_assoc. repeat split.
Qed.

Lemma service_check_session_left_open_witness :
  let E := {| e_world := Outage.no_commands; e_config := Fleet.fleet |} in
  let ssh := {| ss_id := 0; ss_host := "10.0.0.1" |} in
  let run := ServiceMonitor.check "10.0.0.1" 22 "root" "secret" "adp-client-bot.service" E
               (initial_state []) in
  fst run = Ok false
  /\ st_ssh (snd run)
     = [SshOpen ssh; SshExec ssh "systemctl is-active adp-client-bot.service"]
  /\ st_console (snd run)
     = [(ERROR, ("Ошибка при подключении или выполнении команды на сервере: "
                 ++ exn_str Outage.channel_closed)%string)].
Proof.
  exact (service_check_session_left_open "10.0.0.1" 22 "root" "secret"
           "adp-client-bot.service"
           {| e_world := Outage.no_commands; e_config := Fleet.fleet |}
           (initial_state []) Outage.channel_closed eq_refl eq_refl).
Defined.

(** ** Reading the output of [ping] *)

Lemma text_find_from_none (sub s : list N) (pos : nat) :
  Text.find_from sub s pos = None <-> Text.py_in sub s = false.
Proof.
  revert pos. induction s as [|c s IH]; intros pos; simpl.
  - destruct (Text.is_prefix sub []); simpl; split; congruence.
  - destruct (Text.is_prefix sub (c :: s)); simpl; [split; congruence|].
    apply IH.
Qed.

Lemma skipn_add_app {A : Type} (a b : list A) (n : nat) :
  skipn (List.length a + n) (a ++ b)%list = skipn n b.
Proof. induction a as [|c a IH]; simpl; auto. Qed.

Lemma firstn_length_app {A : Type} (a b : list A) : firstn (List.length a) (a ++ b)%list = a.
Proof. induction a as [|c a IH]; simpl; [reflexivity|now rewrite IH]. Qed.

(** The marker [time=] has no proper prefix that is also a suffix, so an
    occurrence cannot begin in a text that does not contain it and end in
    the marker that follows. *)
Lemma marker_not_at_head (c : N) (pre rest : list N) :
  Text.is_prefix (Text.of_string "time=") (c :: pre) = false ->
  Text.is_prefix (Text.of_string "time=") ((c :: pre) ++ Text.of_string "time=" ++ rest)%list
  = false.
Proof.
  change (Text.of_string "time=") with [116; 105; 109; 101; 61]%N.
  cbn [Text.is_prefix app].
  destruct (116 =? c)%N; cbn [andb]; [|reflexivity].
  destruct pre as [|c2 pre]; [reflexivity|cbn [Text.is_prefix app]].
  destruct (105 =? c2)%N; cbn [andb]; [|reflexivity].
  destruct pre as [|c3 pre]; [reflexivity|cbn [Text.is_prefix app]].
  destruct (109 =? c3)%N; cbn [andb]; [|reflexivity].
  destruct pre as [|c4 pre]; [reflexivity|cbn [Text.is_prefix app]].
  destruct (101 =? c4)%N; cbn [andb]; [|reflexivity].
  destruct pre as [|c5 pre]; [reflexivity|cbn [Text.is_prefix app]].
  destruct (61 =? c5)%N; cbn [andb]; [discriminate|reflexivity].
Qed.

Lemma find_marker (pre rest : list N) (pos : nat) :
  Text.py_in (Text.of_string "time=") pre = false ->
  Text.find_from (Text.of_string "time=") (pre ++ Text.of_string "time=" ++ rest)%list pos
  = Some (pos + List.length pre)%nat.
Proof.
  revert pos. induction pre as [|c pre IH]; intros pos H.
  - cbn [app List.length]. replace (pos + 0)%nat with pos by lia. reflexivity.
  - cbn [Text.py_in] in H. apply orb_false_iff in H as [Hhead Htail].
    pose proof (marker_not_at_head c pre rest Hhead) as Hm.
    change ((c :: pre) ++ Text.of_string "time=" ++ rest)%list
      with (c :: (pre ++ Text.of_string "time=" ++ rest))%list in *.
    cbn [Text.find_from]. rewrite Hm.
    rewrite IH by exact Htail. cbn [List.length]. f_equal. lia.
Qed.

Lemma find_space (num rest : list N) (pos : nat) :
  Text.py_in (Text.of_string " ") num = false ->
  Text.find_from (Text.of_string " ") (num ++ Text.of_string " " ++ rest)%list pos
  = Some (pos + List.length num)%nat.
Proof.
  change (Text.of_string " ") with [32%N].
  revert pos. induction num as [|c num IH]; intros pos H.
  - cbn [app List.length]. replace (pos + 0)%nat with pos by lia. reflexivity.
  - cbn [Text.py_in] in H. apply orb_false_iff in H as [Hhead Htail].
    change ((c :: num) ++ [32%N] ++ rest)%list with (c :: (num ++ [32%N] ++ rest))%list.
    cbn [Text.find_from].
    assert (Hh : Text.is_prefix [32%N] (c :: (num ++ [32%N] ++ rest))%list = false).
    { cbn [Text.is_prefix] in *. destruct (32 =? c)%N; [discriminate|reflexivity]. }
    rewrite Hh, IH by exact Htail. cbn [List.length]. f_equal. lia.
Qed.

Lemma find_at_start (s sub : list N) : Text.find s sub 0 = Text.find_from sub s 0.
Proof. unfold Text.find. destruct s; reflexivity. Qed.

Lemma find_after_marker (pre tail sub : list N) :
  Text.find (pre ++ Text.of_string "time=" ++ tail)%list sub (List.length pre + 5)
  = Text.find_from sub tail (List.length pre + 5).
Proof.
  unfold Text.find.
  assert (Hlen : (List.length (pre ++ Text.of_string "time=" ++ tail)%list
                  <? List.length pre + 5)%nat = false).
  { apply Nat.ltb_ge. rewrite !length_app. cbn [List.length]. 
    change (List.length (Text.of_string "time=")) with 5%nat. lia. }
  rewrite Hlen, skipn_add_app. reflexivity.
Qed.

(** What [response_time] does with the decoded output. *)
Lemma ping_response_time_decoded (host : string) (E : env) (s : state) (code : Z)
  (output : string) (text : list N) :
  w_subprocess_run (e_world E) (st_tick s) ["ping"; "-c"; "1"; host] = Ok (code, output) ->
  Cp1251.decode output = Ok text ->
  ServerPingMonitor.response_time host E s
  = match Text.find text (Text.of_string "time=") 0 with
    | Some time_pos =>
        let start := (time_pos + 5)%nat in
        let end_ :=
          match Text.find text (Text.of_string " ") start with
          | Some e => Z.of_nat e
          | None => (-1)%Z
          end in
        let number := Text.to_string (Text.slice text start end_) in
        (match w_float_parse (e_world E) number with
         | Some q => Ok (PFloat q)
         | None =>
             Raise (Exn ValueError
                      ("could not convert string to float: "
                       ++ w_str_repr (e_world E) number))
         end, set_tick S s)
    | None => (Ok (PFloat (-1)), set_tick S s)
    end.
Proof.
  intros Hrun Hdec.
  unfold ServerPingMonitor.response_time, subprocess_run, external, bind at 1.
  rewrite Hrun. cbn [fst snd]. unfold bind at 1, lift. rewrite Hdec. cbn [fst snd].
  destruct (Text.find text (Text.of_string "time=") 0) as [time_pos|]; [|reflexivity].
  cbv zeta. unfold bind, library, ret, raise. cbn [fst snd].
  destruct (w_float_parse (e_world E) _); reflexivity.
Qed.

(** X4.  [ServerPingMonitor.response_time] returns the sentinel [-1.0]
    whenever the output of [ping] can be decoded as cp1251 and the decoded
    text does not contain [time=], whatever the return code of the command;
    an output that cannot be decoded makes it raise the
    [UnicodeDecodeError] of [decode]. *)
Theorem ping_time_sentinel (host : string) (E : env) (s : state) (code : Z)
  (output : string) :
  w_subprocess_run (e_world E) (st_tick s) ["ping"; "-c"; "1"; host] = Ok (code, output) ->
  match Cp1251.decode output with
  | Ok text =>
      Text.py_in (Text.of_string "time=") text = false ->
      ServerPingMonitor.response_time host E s = (Ok (PFloat (-1)), set_tick S s)
  | Raise e =>
      ServerPingMonitor.response_time host E s = (Raise e, set_tick S s)
  end.
Proof.
  intros Hrun. destruct (Cp1251.decode output) as [text|e] eqn:Hdec.
  - intros Habsent. rewrite (ping_response_time_decoded _ _ _ _ _ _ Hrun Hdec).
    rewrite find_at_start.
    apply (text_find_from_none (Text.of_string "time=") text 0) in Habsent.
    now rewrite Habsent.
  - unfold ServerPingMonitor.response_time, subprocess_run, external, bind at 1.
    rewrite Hrun. cbn [fst snd]. unfold bind, lift. now rewrite Hdec.
Qed.

Lemma ping_time_sentinel_witness :
  ServerPingMonitor.response_time "10.0.0.1"
    {| e_world := Fleet.ping_lost; e_config := Fleet.fleet |} (initial_state [])
  = (Ok (PFloat (-1)), set_tick S (initial_state []))
  /\ ServerPingMonitor.response_time "10.0.0.1"
       {| e_world := Fleet.ping_lost_undecodable; e_config := Fleet.fleet |} (initial_state [])
     = (Raise (Cp1251.undefined 6), set_tick S (initial_state [])).
Proof.
  split.
  - exact (ping_time_sentinel "10.0.0.1"
             {| e_world := Fleet.ping_lost; e_config := Fleet.fleet |} (initial_state [])
             1%Z "1 packets transmitted, 0 received" eq_refl eq_refl).
  - exact (ping_time_sentinel "10.0.0.1"
             {| e_world := Fleet.ping_lost_undecodable; e_config := Fleet.fleet |}
             (initial_state []) 1%Z _ eq_refl).
Defined.

(** X5.  When the decoded output of [ping] contains [time=], the text
    between its first occurrence and the next space is what
    [response_time] converts with [float()]: the number is returned, and a
    text that is not a number makes [response_time] raise [ValueError]. *)
Theorem ping_time_parsed (host : string) (E : env) (s : state) (code : Z)
  (output : string) (pre num post : list N) :
  w_subprocess_run (e_world E) (st_tick s) ["ping"; "-c"; "1"; host] = Ok (code, output) ->
  Cp1251.decode output
  = Ok (pre ++ Text.of_string "time=" ++ num ++ Text.of_string " " ++ post)%list ->
  Text.py_in (Text.of_string "time=") pre = false ->
  Text.py_in (Text.of_string " ") num = false ->
  ServerPingMonitor.response_time host E s
  = (match w_float_parse (e_world E) (Text.to_string num) with
     | Some q => Ok (PFloat q)
     | None =>
         Raise (Exn ValueError ("could not convert string to float: "
                                ++ w_str_repr (e_world E) (Text.to_string num)))
     end, set_tick S s).
Proof.
  intros Hrun Hdec Hpre Hnum.
  rewrite (ping_response_time_decoded _ _ _ _ _ _ Hrun Hdec).
  rewrite find_at_start, find_marker by exact Hpre.
  cbn [Nat.add]. cbv zeta. rewrite find_after_marker, find_space by exact Hnum.
  assert (Htext : Text.slice
                    (pre ++ Text.of_string "time=" ++ num ++ Text.of_string " " ++ post)%list
                    (List.length pre + 5)
                    (Z.of_nat (List.length pre + 5 + List.length num)) = num).
  { unfold Text.slice. rewrite skipn_add_app.
    change (skipn 5 (Text.of_string "time=" ++ num ++ Text.of_string " " ++ post)%list)
      with (num ++ Text.of_string " " ++ post)%list.
    assert (Hneg : (Z.of_nat (List.length pre + 5 + List.length num) <? 0)%Z = false)
      by (apply Z.ltb_ge; lia).
    rewrite Hneg. rewrite !length_app.
    change (List.length (Text.of_string "time=")) with 5%nat.
    replace (Z.to_nat _ - (List.length pre + 5))%nat with (List.length num) by lia.
    apply firstn_length_app. }
  rewrite Htext. reflexivity.
Qed.

Lemma ping_time_parsed_witness :
  ServerPingMonitor.response_time "10.0.0.1" Fleet.healthy_env (initial_state [])
  = (match w_float_parse Fleet.healthy "0.042" with
     | Some q => Ok (PFloat q)
     | None => Raise (Exn ValueError "could not convert string to float: '0.042'")
     end, set_tick S (initial_state [])).
Proof.
  exact (ping_time_parsed "10.0.0.1" Fleet.healthy_env (initial_state []) 0%Z
           Fleet.ping_reply
           (Text.of_string "64 bytes from 10.0.0.1: icmp_seq=1 ttl=64 ")
           (Text.of_string "0.042") (Text.of_string "ms")
           eq_refl eq_refl eq_refl eq_refl).
Defined.

(** X6.  When no space follows the number, [find] answers [-1] and the
    slice [output[start:-1]] loses the last character of the output: the
    text that [response_time] converts is the number without its last
    character. *)
Theorem ping_time_unterminated (host : string) (E : env) (s : state) (code : Z)
  (output : string) (pre num : list N) :
  w_subprocess_run (e_world E) (st_tick s) ["ping"; "-c"; "1"; host] = Ok (code, output) ->
  Cp1251.decode output = Ok (pre ++ Text.of_string "time=" ++ num)%list ->
  Text.py_in (Text.of_string "time=") pre = false ->
  Text.py_in (Text.of_string " ") num = false ->
  let text := Text.to_string (removelast num) in
  ServerPingMonitor.response_time host E s
  = (match w_float_parse (e_world E) text with
     | Some q => Ok (PFloat q)
     | None =>
         Raise (Exn ValueError ("could not convert string to float: "
                                ++ w_str_repr (e_world E) text))
     end, set_tick S s).
Proof.
  intros Hrun Hdec Hpre Hnum. cbv zeta.
  rewrite (ping_response_time_decoded _ _ _ _ _ _ Hrun Hdec).
  rewrite find_at_start, find_marker by exact Hpre.
  cbn [Nat.add]. cbv zeta. rewrite find_after_marker.
  apply (text_find_from_none (Text.of_string " ") num (List.length pre + 5)) in Hnum.
  rewrite Hnum.
  assert (Htext : Text.slice (pre ++ Text.of_string "time=" ++ num)%list
                    (List.length pre + 5) (-1)
                  = removelast num).
  { unfold Text.slice. rewrite skipn_add_app.
    change (skipn 5 (Text.of_string "time=" ++ num)%list) with num.
    change (-1 <? 0)%Z with true. cbv iota.
    rewrite !length_app. change (List.length (Text.of_string "time=")) with 5%nat.
    rewrite removelast_firstn_len. f_equal. lia. }
  rewrite Htext. reflexivity.
Qed.

Lemma ping_time_unterminated_witness :
  ServerPingMonitor.response_time "10.0.0.1"
    {| e_world := Fleet.with_ping (fun _ _ => Ok (0%Z, "rtt time=0.042")) Fleet.healthy;
       e_config := Fleet.fleet |} (initial_state [])
  = (match Fleet.float_parse "0.04" with
     | Some q => Ok (PFloat q)
     | None => Raise (Exn ValueError "could not convert string to float: '0.04'")
     end, set_tick S (initial_state [])).
Proof.
  exact (ping_time_unterminated "10.0.0.1"
           {| e_world := Fleet.with_ping (fun _ _ => Ok (0%Z, "rtt time=0.042")) Fleet.healthy;
              e_config := Fleet.fleet |} (initial_state []) 0%Z
           "rtt time=0.042" (Text.of_string "rtt ") (Text.of_string "0.042")
           eq_refl eq_refl eq_refl eq_refl).
Defined.

(** X7.  The two probes of a ping check run [ping] twice, and the
    verdict and the measure come from different runs: when the first run
    ends with return code 0 and the output of the second run, decoded as
    cp1251, has no [time=], the check is a success whose response time is
    the sentinel [-1.0]. *)
Theorem ping_success_with_sentinel (host : string) (E : env) (s : state)
  (first_output second_output : string) (second_code : Z) (text : list N) :
  w_subprocess_run (e_world E) (st_tick s) ["ping"; "-c"; "1"; host]
  = Ok (0%Z, first_output) ->
  w_subprocess_run (e_world E) (S (st_tick s)) ["ping"; "-c"; "1"; host]
  = Ok (second_code, second_output) ->
  Cp1251.decode second_output = Ok text ->
  Text.py_in (Text.of_string "time=") text = false ->
  (result <- monitor_check (PingObj host) ;;
   response_time <- monitor_response_time (PingObj host) ;;
   ret (result, response_time)) E s
  = (Ok (true, PFloat (-1)), set_tick S (set_tick S s)).
Proof.
  intros H1 H2 Hdec Habsent.
  unfold bind at 1. cbn [monitor_check monitor_response_time].
  unfold ServerPingMonitor.check, subprocess_run, external, bind at 1. rewrite H1.
  cbn [fst ret]. unfold bind at 1.
  rewrite (ping_response_time_decoded host E (set_tick S s) second_code second_output text
             H2 Hdec).
  rewrite find_at_start.
  apply (text_find_from_none (Text.of_string "time=") text 0) in Habsent.
  rewrite Habsent. reflexivity.
Qed.

Lemma ping_success_with_sentinel_witness :
  (result <- monitor_check (PingObj "10.0.0.1") ;;
   response_time <- monitor_response_time (PingObj "10.0.0.1") ;;
   ret (result, response_time))
    {| e_world := Outage.second_ping_lost; e_config := Fleet.fleet |} (initial_state [])
  = (Ok (true, PFloat (-1)), set_tick S (set_tick S (initial_state []))).
Proof.
  exact (ping_success_with_sentinel "10.0.0.1"
           {| e_world := Outage.second_ping_lost; e_config := Fleet.fleet |} (initial_state [])
           Fleet.ping_reply "1 packets transmitted, 0 received" 1%Z
           (Text.of_string "1 packets transmitted, 0 received")
           eq_refl eq_refl eq_refl eq_refl).
Defined.

(** ** Logging and the aggregate *)

(** X8.  When the logger of the server can take the record (it has its
    file handler, or the log file can be opened) and the key of the server
    does not hold a string, [log_result] returns and appends the outcome at
    the end of the list of that server (creating the list on first use).
    The lists of all other servers stay as they were, and so do the log
    files of all other names, except the names that are a proper prefix of
    the server's name: the record is also handed to the loggers of the
    ancestors. *)
Theorem log_result_appends (server_name check_name : string) (result : bool)
  (response_time : option pynum) (E : env) (s : state) :
  log_ready E server_name s = true ->
  holds_no_string server_name (st_aggregate s) ->
  let run := CheckManager.log_result server_name check_name result response_time E s in
  fst run = Ok tt
  /\ outcomes_of server_name (st_aggregate (snd run))
     = (outcomes_of server_name (st_aggregate s)
        ++ [CheckManager.outcome_of check_name result response_time])%list
  /\ (forall other, other <> server_name ->
        dict_get other (st_aggregate (snd run)) = dict_get other (st_aggregate s)
        /\ (~ proper_prefix other server_name ->
            dict_get other (st_server_logs (snd run)) = dict_get other (st_server_logs s))).
Proof.
  intros Hready Hns. cbv zeta. unfold CheckManager.log_result, bind.
  destruct (log_line_returns server_name check_name result response_time E) as [line Hline].
  destruct (write_log_returns _ _ _ _ E s line Hline Hready)
    as (s1 & -> & Hagg & _ & _ & Hother).
  rewrite record_outcome_effect. rewrite Hagg. unfold outcomes_of.
  destruct (dict_get server_name (st_aggregate s)) as [[outcomes|text]|] eqn:Hd;
    [| exfalso; exact (Hns text Hd) |];
    cbn [fst snd st_aggregate st_server_logs set_aggregate];
    rewrite Hagg, dict_get_set_same;
    (split; [reflexivity|]); (split; [reflexivity|]);
    intros other Hne; rewrite !dict_get_set_other by exact Hne;
    (split; [reflexivity|]); intros Hprefix; exact (Hother other Hne Hprefix).
Qed.

Lemma log_result_appends_witness :
  let run := CheckManager.log_result "TG1" "PING" true (Some (PFloat (21 # 500)))
               Fleet.healthy_env (initial_state []) in
  fst run = Ok tt
  /\ outcomes_of "TG1" (st_aggregate (snd run))
     = [CheckManager.outcome_of "PING" true (Some (PFloat (21 # 500)))]
  /\ (forall other, other <> "TG1" ->
        dict_get other (st_aggregate (snd run)) = None
        /\ (~ proper_prefix other "TG1" ->
            dict_get other (st_server_logs (snd run)) = None)).
Proof.
  exact (log_result_appends "TG1" "PING" true (Some (PFloat (21 # 500)))
           Fleet.healthy_env (initial_state []) eq_refl
           (fun text H => eq_ind None (fun v => match v with None => True | Some _ => False end)
                            I _ H)).
Defined.

Lemma flush_reserved (E : env) (s : state) :
  dict_get "last-check-time" (st_aggregate (snd (CheckManager.save_aggregate_results E s)))
  = Some (AStr (w_now (e_world E) (st_tick s) CheckManager.last_check_time_format)).
Proof.
  unfold CheckManager.save_aggregate_results, CheckManager.begin_flush,
    CheckManager.finish_flush, CheckManager.open_truncate, CheckManager.write_and_close,
    emit, external, library, modify, gets, bind.
  cbn [fst snd st_aggregate st_tick set_files set_aggregate set_trace set_tick].
  apply dict_get_set_same.
Qed.

(** X9.  The flush stores the time stamp in the aggregate itself, under
    the key [last-check-time]: after a flush the outcomes that a server of
    that name had are gone and the key holds a string.  It holds a string
    from then on, since [log_result], [run_check] and the later flushes keep
    it so; and while it does, every [log_result] for that name leaves the
    aggregate as it is and raises: [AttributeError] when the logger of that
    name can take the record, and the error of opening the log file
    otherwise. *)
Theorem flush_reserves_last_check_time :
  (forall E s,
     let s1 := snd (CheckManager.save_aggregate_results E s) in
     reserved (st_aggregate s1) /\ outcomes_of "last-check-time" (st_aggregate s1) = [])
  /\ (forall server_name check_name result response_time E s,
        reserved (st_aggregate s) ->
        reserved (st_aggregate
                    (snd (CheckManager.log_result server_name check_name result
                            response_time E s))))
  /\ (forall server check E s,
        reserved (st_aggregate s) ->
        reserved (st_aggregate (snd (CheckManager.run_check server check E s))))
  /\ (forall check_name result response_time E s,
        reserved (st_aggregate s) ->
        let run := CheckManager.log_result "last-check-time" check_name result
                     response_time E s in
        st_aggregate (snd run) = st_aggregate s
        /\ (log_ready E "last-check-time" s = true ->
            fst run = Raise (Exn AttributeError "'str' object has no attribute 'append'"))
        /\ (log_ready E "last-check-time" s = false ->
            exists e,
              w_open_log (e_world E) (st_tick s) (CheckManager.log_path "last-check-time")
              = Raise e
              /\ fst run = Raise e)).
Proof.
  assert (Hkeep : forall name entry agg,
             reserved agg -> holds_no_string name agg ->
             reserved (dict_set name (AList entry) agg)).
  { intros name entry agg [stamp Hstamp] Hns. exists stamp.
    rewrite dict_get_set_other; [exact Hstamp|].
    intros Heq. subst name. exact (Hns stamp Hstamp). }
  split; [|split; [|split]].
  - intros E s. cbv zeta. unfold reserved, outcomes_of. rewrite flush_reserved.
    split; [eexists; reflexivity|reflexivity].
  - intros server_name check_name result response_time E s Hres.
    destruct (log_result_aggregate server_name check_name result response_time E s)
      as [(_ & Hns & _ & ->)|(_ & _ & ->)]; [|exact Hres].
    apply Hkeep; assumption.
  - intros server check E s Hres.
    destruct (run_check_aggregate server check E s) as (_ & [->|(_ & Hns & entry & ->)] & _);
      [exact Hres|]. apply Hkeep; assumption.
  - intros check_name result response_time E s [stamp Hstamp]. cbv zeta.
    unfold CheckManager.log_result, bind.
    destruct (log_line_returns "last-check-time" check_name result response_time E)
      as [line Hline].
    destruct (log_ready E "last-check-time" s) eqn:Hready.
    + destruct (write_log_returns _ _ _ _ E s line Hline Hready) as (s1 & -> & Hagg & _).
      rewrite record_outcome_effect, Hagg, Hstamp. cbn [fst snd].
      split; [exact Hagg|]. split; [reflexivity|discriminate].
    + destruct (write_log_raises "last-check-time" check_name result response_time E s Hready)
        as (e & Hopen & ->).
      cbn [fst snd st_aggregate set_tick set_loggers].
      split; [reflexivity|]. split; [discriminate|]. intros _. exists e. split; [exact Hopen|reflexivity].
Qed.

Lemma flush_reserves_last_check_time_witness :
  let s1 := snd (CheckManager.save_aggregate_results Fleet.healthy_env (initial_state [])) in
  let run := CheckManager.log_result "last-check-time" "PING" true None Fleet.healthy_env s1 in
  reserved (st_aggregate s1)
  /\ fst run = Raise (Exn AttributeError "'str' object has no attribute 'append'")
  /\ st_aggregate (snd run) = st_aggregate s1.
Proof.
  cbv zeta.
  destruct flush_reserves_last_check_time as (Hflush & _ & _ & Hlater).
  destruct (Hflush Fleet.healthy_env (initial_state [])) as [Hreserved _].
  destruct (Hlater "PING" true None Fleet.healthy_env _ Hreserved) as (Hagg & Hraise & _).
  split; [exact Hreserved|]. split; [exact (Hraise eq_refl)|exact Hagg].
Defined.

(** X10.  The flush never clears the aggregate: apart from the key
    [last-check-time], which receives the time stamp of the clock, every key
    holds after the flush what it held before, so the outcomes of a server
    accumulate from round to round. *)
Theorem flush_keeps_outcomes (E : env) (s : state) :
  let s' := snd (CheckManager.save_aggregate_results E s) in
  dict_get "last-check-time" (st_aggregate s')
  = Some (AStr (w_now (e_world E) (st_tick s) CheckManager.last_check_time_format))
  /\ (forall name, name <> "last-check-time" ->
        dict_get name (st_aggregate s') = dict_get name (st_aggregate s)
        /\ outcomes_of name (st_aggregate s') = outcomes_of name (st_aggregate s))
  /\ (outcome_count (st_aggregate s') <= outcome_count (st_aggregate s))%nat.
Proof.
  cbv zeta.
  unfold CheckManager.save_aggregate_results, CheckManager.begin_flush,
    CheckManager.finish_flush, CheckManager.open_truncate, CheckManager.write_and_close,
    emit, external, library, modify, gets, bind.
  cbn [fst snd st_aggregate st_tick set_files set_aggregate set_trace set_tick].
  split; [apply dict_get_set_same|]. split.
  - intros name Hne. unfold outcomes_of. rewrite dict_get_set_other by exact Hne.
    split; reflexivity.
  - induction (st_aggregate s) as [|[k v] agg IH]; [simpl; lia|].
    cbn [dict_set]. destruct (String.eqb "last-check-time" k).
    + destruct v; simpl; lia.
    + destruct v; simpl; lia.
Qed.

(** *** Rounding *)

Lemma round_half_even_close (x : Q) :
  (x - (1 # 2) <= inject_Z (round_half_even x) /\ inject_Z (round_half_even x) <= x + (1 # 2))%Q.
Proof.
  unfold round_half_even.
  pose proof (Qfloor_le x) as Hlo.
  pose proof (Qlt_floor x) as Hhi.
  rewrite inject_Z_plus in Hhi. change (inject_Z 1) with 1%Q in Hhi.
  set (f := Qfloor x) in *.
  destruct (Qcompare (x - inject_Z f) (1 # 2)) eqn:Hc.
  - apply Qeq_alt in Hc.
    destruct (Z.even f); rewrite ?inject_Z_plus; change (inject_Z 1) with 1%Q; lra.
  - apply Qlt_alt in Hc. lra.
  - apply Qgt_alt in Hc. rewrite inject_Z_plus. change (inject_Z 1) with 1%Q. lra.
Qed.

(** X11.  The response time that [log_result] records for a float is the
    measured value rounded to three decimals: it is a whole number of
    thousandths and differs from the measured value by at most half a
    thousandth.  An [int] is recorded unchanged. *)
Theorem recorded_time_is_rounded (check_name : string) (result : bool) :
  (forall q : Q,
     exists r k,
       o_response_time (CheckManager.outcome_of check_name result (Some (PFloat q)))
       = Some (PFloat r)
       /\ (r == inject_Z k / 1000)%Q
       /\ (q - (1 # 2000) <= r)%Q /\ (r <= q + (1 # 2000))%Q)
  /\ (forall z : Z,
        o_response_time (CheckManager.outcome_of check_name result (Some (PInt z)))
        = Some (PInt z)).
Proof.
  split; [|reflexivity].
  intros q. eexists. exists (round_half_even (q * 1000)).
  split; [reflexivity|].
  destruct (round_half_even_close (q * 1000)) as [Hlo Hhi].
  set (m := inject_Z (round_half_even (q * 1000))) in *.
  assert (Hred : (Qred (m / 1000) == m / 1000)%Q) by apply Qred_correct.
  split; [exact Hred|].
  rewrite Hred. split.
  - apply Qle_shift_div_l; [reflexivity|]. lra.
  - apply Qle_shift_div_r; [reflexivity|]. lra.
Qed.

(** ** What a worker leaves alone *)

Lemma probe_frame_persistent {A : Type} (m : M A) :
  frame probe_view m -> frame persistent_view m.
Proof.
  intros H E s. specialize (H E s). unfold probe_view, persistent_view in *.
  injection H as _ -> _ -> _ _. reflexivity.
Qed.

Lemma log_frame_persistent {A : Type} (m : M A) :
  frame log_view m -> frame persistent_view m.
Proof.
  intros H E s. specialize (H E s). unfold log_view, persistent_view in *.
  injection H as -> -> _ _ _. reflexivity.
Qed.

Lemma handle_failure_persistent (server_name check_name check_type : string) :
  frame persistent_view (CheckManager.handle_failure server_name check_name check_type).
Proof.
  intros E s.
  destruct (handle_failure_effect server_name check_name check_type E s) as [H _].
  unfold handler_view, persistent_view in *. injection H as _ -> _ ->. reflexivity.
Qed.

Lemma handle_warning_persistent (server_name check_name : string) (value : pynum) :
  frame persistent_view (CheckManager.handle_warning server_name check_name value).
Proof.
  intros E s.
  destruct (handle_warning_effect server_name check_name value E s) as [H _].
  unfold handler_view, persistent_view in *. injection H as _ -> _ ->. reflexivity.
Qed.

Lemma select_monitor_persistent (server : ServerConfig) (check : CheckConfig) :
  frame persistent_view (CheckManager.select_monitor server check).
Proof. intros E s. now rewrite select_monitor_state. Qed.

Lemma run_check_persistent (server : ServerConfig) (check : CheckConfig) :
  frame persistent_view (CheckManager.run_check server check).
Proof.
  pose proof (fun m => probe_frame_persistent _ (monitor_check_frame m)) as Hc.
  pose proof (fun m => probe_frame_persistent _ (monitor_response_time_frame m)) as Hr.
  pose proof (fun a b c d => log_frame_persistent _ (log_result_frame a b c d)) as Hl.
  pose proof handle_failure_persistent as Hf.
  pose proof handle_warning_persistent as Hw.
  pose proof (select_monitor_persistent server check) as Hs.
  unfold CheckManager.run_check, CheckManager.classify, CheckManager.escalate, logging_error,
    console.
  apply frame_try_except; [|intro; frame_auto].
  apply frame_bind; [exact Hs|]. intros [monitor|]; [|apply frame_ret].
  apply frame_bind; [apply Hc|]. intros result.
  apply frame_bind; [apply Hr|]. intros response_time.
  apply frame_bind; [apply Hl|]. intros _.
  repeat match goal with
         | |- frame _ (if ?b then _ else _) => destruct b
         | |- frame _ (bind _ _) => apply frame_bind; [|intro]
         | |- frame _ (ret _) => apply frame_ret
         | |- frame _ (global _) => apply frame_global
         | |- frame _ (subscript_value _ ?v) =>
             destruct v;
             [apply frame_ret
             |apply frame_bind; [apply frame_library|intro; apply frame_raise]]
         | |- frame _ (CheckManager.handle_failure _ _ _) => apply Hf
         | |- frame _ (CheckManager.handle_warning _ _ _) => apply Hw
         end.
Qed.

(** X12.  A worker is contained: [run_check] never raises, whatever the
    probes and the handlers do, and it changes neither the files (the
    snapshot is written by the flush alone) nor the list of threads. *)
Theorem run_check_contained (server : ServerConfig) (check : CheckConfig)
  (E : env) (s : state) :
  let run := CheckManager.run_check server check E s in
  fst run = Ok tt
  /\ st_files (snd run) = st_files s
  /\ st_threads (snd run) = st_threads s.
Proof.
  cbv zeta. split.
  - unfold CheckManager.run_check, try_except, logging_error, console, modify.
    match goal with |- context [match ?b E s with _ => _ end] => destruct (b E s) as [[[]|e] s1] end;
      reflexivity.
  - pose proof (run_check_persistent server check E s) as H.
    unfold persistent_view in H. injection H as -> ->. split; reflexivity.
Qed.

(** ** The alert broadcasts *)

(** A broadcast stops at the first post that raises: the chats before it
    have received the message, the chats after it have not. *)
Lemma broadcast_interrupted (E : env) (message : string) (before after : list Z) (id : Z)
  (e : exn) (s : state) :
  (forall i, (i < List.length before)%nat ->
             w_post (e_world E) (st_tick s + i) alert_url (nth i before 0%Z) message = Ok tt) ->
  w_post (e_world E) (st_tick s + List.length before) alert_url id message = Raise e ->
  exists s',
    for_each (before ++ id :: after)%list (fun id => requests_post alert_url id message) E s
    = (Raise e, s')
    /\ st_posts s' = (st_posts s ++ map (fun id => (id, message)) before)%list.
Proof.
  revert s. induction before as [|b before IH]; intros s Hok Hfail.
  - cbn [app for_each List.length] in *. rewrite Nat.add_0_r in Hfail.
    unfold bind at 1, requests_post, bind at 1, external. rewrite Hfail.
    eexists. split; [reflexivity|]. cbn [st_posts set_tick map]. now rewrite app_nil_r.
  - cbn [app for_each]. unfold bind at 1, requests_post, bind at 1, external, modify.
    pose proof (Hok 0%nat ltac:(simpl; lia)) as H0. rewrite Nat.add_0_r in H0.
    cbn [nth] in H0. rewrite H0. cbn [fst snd].
    destruct (IH (set_posts (fun l => l ++ [(b, message)])%list (set_tick S s)))
      as [s' [Hrun Hposts]].
    + intros i Hi. cbn [st_tick set_posts set_tick].
      specialize (Hok (S i) ltac:(simpl; lia)). cbn [nth] in Hok.
      now rewrite Nat.add_succ_r in Hok.
    + cbn [st_tick set_posts set_tick]. cbn [List.length] in Hfail.
      now rewrite Nat.add_succ_r in Hfail.
    + exists s'. split; [exact Hrun|]. rewrite Hposts.
      cbn [st_posts set_posts set_tick map]. now rewrite <- app_assoc.
Qed.

(** X13.  [NotifyFailureStrategy.handle] does not catch the exception of
    a post: it sends the alert to the chats in their configured order, and
    when the post for one chat raises, the exception leaves [handle]; the
    chats before that one have been notified and the chats after it are
    not. *)
Theorem notify_failure_stops_at_failed_post (server_name check_name : string) (E : env)
  (s : state) (before after : list Z) (id : Z) (e : exn) :
  let message :=
    ("❗❗❗ТРИВОГА" ++ PyStr.nl ++ PyStr.nl ++ server_name ++ ": " ++ check_name
     ++ " НЕ ВІДПОВІДАЄ")%string in
  chats (e_config E) = (before ++ id :: after)%list ->
  (forall i, (i < List.length before)%nat ->
             w_post (e_world E) (st_tick s + i) alert_url (nth i before 0%Z) message = Ok tt) ->
  w_post (e_world E) (st_tick s + List.length before) alert_url id message = Raise e ->
  let run := NotifyFailure.handle server_name check_name E s in
  fst run = Raise e
  /\ st_posts (snd run) = (st_posts s ++ map (fun id => (id, message)) before)%list.
Proof.
  cbv zeta. intros Hchats Hok Hfail.
  unfold NotifyFailure.handle, global, bind. cbv beta iota. rewrite Hchats.
  destruct (broadcast_interrupted E _ before after id e s Hok Hfail) as [s' [-> Hposts]].
  split; [reflexivity|exact Hposts].
Qed.

Lemma notify_failure_stops_at_failed_post_witness :
  let run := NotifyFailure.handle "WEB1" "TELNET"
               {| e_world := Outage.relay_fails_after_one; e_config := Fleet.fleet |}
               (initial_state []) in
  fst run = Raise (Exn OSError "Connection refused")
  /\ st_posts (snd run)
     = [(1001%Z, ("❗❗❗ТРИВОГА" ++ PyStr.nl ++ PyStr.nl ++ "WEB1" ++ ": " ++ "TELNET"
                  ++ " НЕ ВІДПОВІДАЄ")%string)].
Proof.
  refine (notify_failure_stops_at_failed_post "WEB1" "TELNET"
            {| e_world := Outage.relay_fails_after_one; e_config := Fleet.fleet |}
            (initial_state []) [1001%Z] [] 1002%Z (Exn OSError "Connection refused")
            eq_refl _ eq_refl).
  intros [|i] Hi; [reflexivity|simpl in Hi; lia].
Defined.

Lemma warning_broadcast_posts (E : env) (value : pynum) (text : string -> string)
  (ids : list Z) (s : state) :
  (forall n id message, w_post (e_world E) n alert_url id message = Ok tt) ->
  let shown := match value with
               | PInt z => PyStr.of_Z z
               | PFloat q => w_float_repr (e_world E) q
               end in
  exists s',
    for_each ids (fun id => shown <- py_str_num value ;; requests_post alert_url id (text shown))
      E s = (Ok tt, s')
    /\ st_posts s' = (st_posts s ++ map (fun id => (id, text shown)) ids)%list
    /\ st_ssh s' = st_ssh s /\ st_trace s' = st_trace s.
Proof.
  intros Hpost shown. revert s. induction ids as [|id ids IH]; intros s.
  - exists s. split; [reflexivity|]. simpl. rewrite app_nil_r. auto.
  - cbn [for_each]. unfold bind at 1, bind at 1.
    assert (Hshown : py_str_num value E s = (Ok shown, s)) by (destruct value; reflexivity).
    rewrite Hshown. unfold requests_post, bind at 1, external, modify.
    rewrite Hpost. cbn [fst snd].
    destruct (IH (set_posts (fun l => l ++ [(id, text shown)])%list (set_tick S s)))
      as (s' & Hrun & Hposts & Hssh & Htrace).
    exists s'. split; [exact Hrun|]. rewrite Hposts, Hssh, Htrace.
    cbn [st_posts st_ssh st_trace set_posts set_tick map].
    rewrite <- app_assoc. auto.
Qed.

(** The warning path while the relay accepts the posts. *)
Lemma handle_warning_runs (server_name check_name : string) (value : pynum)
  (E : env) (s : state) :
  (forall n id message, w_post (e_world E) n alert_url id message = Ok tt) ->
  let shown := match value with
               | PInt z => PyStr.of_Z z
               | PFloat q => w_float_repr (e_world E) q
               end in
  let message :=
    ("⚠️УВАГА" ++ PyStr.nl ++ PyStr.nl ++ server_name ++ ": " ++ check_name
     ++ " = " ++ shown)%string in
  exists s',
    CheckManager.handle_warning server_name check_name value E s = (Ok tt, s')
    /\ st_posts s' = (st_posts s ++ map (fun id => (id, message)) (chats (e_config E)))%list
    /\ st_ssh s' = st_ssh s
    /\ st_trace s'
       = (st_trace s
          ++ [EvHandleWarning server_name check_name value;
              EvStrategy NotifyWarningStrategy server_name check_name])%list.
Proof.
  intros Hpost shown message.
  unfold CheckManager.handle_warning.
  change (StrategyFactory.get_strategy server_name check_name (JStr "warning"))
    with NotifyWarningStrategy.
  unfold strategy_handle, NotifyWarning.handle, bind at 1 2 3, emit, modify, global.
  cbv beta iota.
  set (s1 := set_trace _ (set_trace _ s)).
  destruct (warning_broadcast_posts E value
              (fun shown => ("⚠️УВАГА" ++ PyStr.nl ++ PyStr.nl ++ server_name ++ ": "
                             ++ check_name ++ " = " ++ shown)%string)
              (chats (e_config E)) s1 Hpost) as (s' & Hrun & Hposts & Hssh & Htrace).
  exists s'. split; [exact Hrun|]. split; [exact Hposts|]. split; [exact Hssh|].
  rewrite Htrace. unfold s1. cbn [st_trace set_trace]. now rewrite <- app_assoc.
Qed.

(** X14.  A warning needs neither the snapshot file nor SSH.  While the
    relay accepts the posts, [handle_warning] enters the Notify-Warning
    strategy for every server, [TG1] included, and sends every chat one
    message that shows the value it was given; no SSH session is opened. *)
Theorem handle_warning_broadcasts (server_name check_name : string) (value : pynum)
  (E : env) (s : state) :
  (forall n id message, w_post (e_world E) n alert_url id message = Ok tt) ->
  let shown := match value with
               | PInt z => PyStr.of_Z z
               | PFloat q => w_float_repr (e_world E) q
               end in
  let message :=
    ("⚠️УВАГА" ++ PyStr.nl ++ PyStr.nl ++ server_name ++ ": " ++ check_name
     ++ " = " ++ shown)%string in
  let run := CheckManager.handle_warning server_name check_name value E s in
  fst run = Ok tt
  /\ st_posts (snd run) = (st_posts s ++ map (fun id => (id, message)) (chats (e_config E)))%list
  /\ st_ssh (snd run) = st_ssh s
  /\ new_events s (snd run)
     = [EvHandleWarning server_name check_name value;
        EvStrategy NotifyWarningStrategy server_name check_name].
Proof.
  intros Hpost shown message.
  destruct (handle_warning_runs server_name check_name value E s Hpost)
    as (s' & Hrun & Hposts & Hssh & Htrace).
  intros run. subst run. rewrite Hrun. cbn [fst snd].
  split; [reflexivity|]. split; [exact Hposts|]. split; [exact Hssh|].
  apply new_events_app. exact Htrace.
Qed.

Lemma handle_warning_broadcasts_witness :
  let run := CheckManager.handle_warning "TG1" "PING" (PInt 7) Fleet.healthy_env
               (initial_state []) in
  fst run = Ok tt
  /\ st_posts (snd run)
     = map (fun id => (id, ("⚠️УВАГА" ++ PyStr.nl ++ PyStr.nl ++ "TG1" ++ ": " ++ "PING"
                            ++ " = " ++ PyStr.of_Z 7)%string)) [1001%Z; 1002%Z]
  /\ st_ssh (snd run) = []
  /\ new_events (initial_state []) (snd run)
     = [EvHandleWarning "TG1" "PING" (PInt 7);
        EvStrategy NotifyWarningStrategy "TG1" "PING"].
Proof.
  exact (handle_warning_broadcasts "TG1" "PING" (PInt 7) Fleet.healthy_env
           (initial_state []) (fun _ _ _ => eq_refl)).
Defined.

(** ** The Migrate-Services steps *)

(** While the address of the peer can be read, [manage_service] returns
    whatever the command does, and it issues exactly one command. *)
Lemma manage_service_runs (ssh : session) (service action : string) (E : env) (s : state) :
  (forall n, exists peer, w_peername (e_world E) n ssh = Ok peer) ->
  exists s',
    MoveServices.manage_service ssh service action E s = (Ok tt, s')
    /\ st_ssh s'
       = (st_ssh s ++ [SshExec ssh ("systemctl " ++ action ++ " " ++ service)%string])%list.
Proof.
  intros Hpeer.
  unfold MoveServices.manage_service, ssh_exec, ssh_peername, logging_info, logging_error,
    console, try_except, external, modify, ret, bind.
  cbn [fst snd].
  match goal with
  | |- context [w_ssh_exec ?W ?n ?h ?c] => destruct (w_ssh_exec W n h c) as [[out err]|e]
  end; cbn [fst snd].
  - destruct (String.eqb out EmptyString); destruct (String.eqb err EmptyString);
      repeat match goal with
             | |- context [w_peername ?W ?n ?h] =>
                 let peer := fresh "peer" in
                 let H := fresh "H" in
                 destruct (Hpeer n) as [peer H]; rewrite H; clear H; cbn [fst snd]
             end;
      eexists; (split; [reflexivity|]);
      cbn [st_ssh set_ssh set_tick set_console]; reflexivity.
  - destruct (Hpeer (st_tick (set_tick S (set_ssh
                (fun l => l ++ [SshExec ssh ("systemctl " ++ action ++ " " ++ service)%string])%list
                s)))) as [peer H].
    cbn [st_tick set_tick set_ssh] in *. rewrite H.
    eexists. split; [reflexivity|]. reflexivity.
Qed.

(** The stop loop, step by step. *)
Lemma disable_services_runs (ssh : session) (info : ServerConfig) (E : env) (s : state) :
  (forall n, exists peer, w_peername (e_world E) n ssh = Ok peer) ->
  (forall check, In check (s_checks info) -> c_type check = "service" ->
                 c_service check <> None) ->
  exists s',
    MoveServices.disable_services ssh (Some info) E s = (Ok tt, s')
    /\ st_ssh s'
       = (st_ssh s
          ++ map (fun service => SshExec ssh ("systemctl stop " ++ service)%string)
               (service_names info))%list.
Proof.
  intros Hpeer. unfold MoveServices.disable_services, service_names.
  revert s. induction (s_checks info) as [|check checks IH]; intros s Hkeys.
  - exists s. split; [reflexivity|]. simpl. now rewrite app_nil_r.
  - cbn [for_each flat_map]. unfold bind at 1.
    destruct (String.eqb (c_type check) "service") eqn:Htype.
    + apply String.eqb_eq in Htype.
      destruct (c_service check) as [service|] eqn:Hsvc;
        [|exfalso; exact (Hkeys check (or_introl eq_refl) Htype Hsvc)].
      unfold bind at 1. cbn [subscript ret].
      destruct (manage_service_runs ssh service "stop" E s Hpeer) as [s1 [-> Hssh1]].
      destruct (IH s1 (fun c Hc => Hkeys c (or_intror Hc))) as [s' [Hrun Hssh]].
      exists s'. split; [exact Hrun|]. rewrite Hssh, Hssh1. cbn [map app].
      now rewrite <- app_assoc.
    + cbn [ret app].
      destruct (IH s (fun c Hc => Hkeys c (or_intror Hc))) as [s' [Hrun Hssh]].
      exists s'. split; [exact Hrun|exact Hssh].
Qed.

(** What [manage_service] writes to the console, when the answers of the
    server do not depend on the moment of the call. *)
Lemma manage_service_console (ssh : session) (service action : string) (E : env) (s : state)
  (answer : string -> result (string * string)) (peer : string) :
  (forall n command, w_ssh_exec (e_world E) n ssh command = answer command) ->
  (forall n, w_peername (e_world E) n ssh = Ok peer) ->
  st_console (snd (MoveServices.manage_service ssh service action E s))
  = (st_console s
     ++ service_records peer service action
          (answer ("systemctl " ++ action ++ " " ++ service)%string))%list.
Proof.
  intros Hanswer Hpeer.
  unfold MoveServices.manage_service, ssh_exec, ssh_peername, logging_info, logging_error,
    console, try_except, external, modify, ret, bind.
  cbn [fst snd]. rewrite Hanswer. unfold service_records.
  destruct (answer ("systemctl " ++ action ++ " " ++ service)%string) as [[out err]|e];
    cbn [fst snd].
  - destruct (String.eqb out EmptyString); destruct (String.eqb err EmptyString);
      rewrite ?Hpeer; cbn [fst snd st_console set_console set_tick set_ssh app];
      rewrite ?Hpeer; cbn [fst snd st_console set_console set_tick set_ssh app];
      rewrite <- ?app_assoc, ?app_nil_r; reflexivity.
  - rewrite Hpeer. reflexivity.
Qed.

Lemma disable_services_console (ssh : session) (info : ServerConfig) (E : env) (s : state)
  (answer : string -> result (string * string)) (peer : string) :
  (forall n command, w_ssh_exec (e_world E) n ssh command = answer command) ->
  (forall n, w_peername (e_world E) n ssh = Ok peer) ->
  (forall check, In check (s_checks info) -> c_type check = "service" ->
                 c_service check <> None) ->
  st_console (snd (MoveServices.disable_services ssh (Some info) E s))
  = (st_console s
     ++ flat_map (fun service =>
                    service_records peer service "stop"
                      (answer ("systemctl stop " ++ service)%string))
          (service_names info))%list.
Proof.
  intros Hanswer Hpeer. unfold MoveServices.disable_services, service_names.
  revert s. induction (s_checks info) as [|check checks IH]; intros s Hkeys.
  - simpl. now rewrite app_nil_r.
  - cbn [for_each flat_map]. unfold bind at 1.
    destruct (String.eqb (c_type check) "service") eqn:Htype.
    + apply String.eqb_eq in Htype.
      destruct (c_service check) as [service|] eqn:Hsvc;
        [|exfalso; exact (Hkeys check (or_introl eq_refl) Htype Hsvc)].
      unfold bind at 1. cbn [subscript ret].
      pose proof (manage_service_console ssh service "stop" E s answer peer Hanswer Hpeer)
        as Hconsole.
      destruct (manage_service_runs ssh service "stop" E s
                  (fun n => ex_intro _ peer (Hpeer n))) as [s1 [Hrun _]].
      rewrite Hrun in *. cbn [fst snd] in *.
      rewrite (IH s1 (fun c Hc => Hkeys c (or_intror Hc))), Hconsole.
      cbn [app flat_map]. rewrite <- app_assoc. reflexivity.
    + cbn [ret app fst snd]. exact (IH s (fun c Hc => Hkeys c (or_intror Hc))).
Qed.

(** X15.  [disable_services] stops exactly the services named by the
    checks of type [service], in the order of the checks, and skips every
    other check.  A stop command that fails is logged by [manage_service]
    and does not stop the loop: when the answers of the server do not
    depend on the moment of the call, the console receives, service after
    service, the output of the command at level INFO and its error output,
    or the exception that it raised, at level ERROR. *)
Theorem disable_services_stops_each_service (ssh : session) (info : ServerConfig)
  (E : env) (s : state) :
  (forall n, exists peer, w_peername (e_world E) n ssh = Ok peer) ->
  (forall check, In check (s_checks info) -> c_type check = "service" ->
                 c_service check <> None) ->
  let run := MoveServices.disable_services ssh (Some info) E s in
  fst run = Ok tt
  /\ st_ssh (snd run)
     = (st_ssh s
        ++ map (fun service => SshExec ssh ("systemctl stop " ++ service)%string)
             (service_names info))%list
  /\ (forall (answer : string -> result (string * string)) (peer : string),
        (forall n command, w_ssh_exec (e_world E) n ssh command = answer command) ->
        (forall n, w_peername (e_world E) n ssh = Ok peer) ->
        st_console (snd run)
        = (st_console s
           ++ flat_map (fun service =>
                          service_records peer service "stop"
                            (answer ("systemctl stop " ++ service)%string))
                (service_names info))%list).
Proof.
  intros Hpeer Hkeys.
  destruct (disable_services_runs ssh info E s Hpeer Hkeys) as (s' & Hrun & Hssh).
  intros run. subst run. split; [now rewrite Hrun|]. split; [now rewrite Hrun|].
  intros answer peer Hanswer Hpeer'.
  exact (disable_services_console ssh info E s answer peer Hanswer Hpeer' Hkeys).
Qed.

Lemma disable_services_stops_each_service_witness :
  let ssh := {| ss_id := 0; ss_host := "10.0.0.1" |} in
  let run := MoveServices.disable_services ssh (Some Fleet.tg1)
               {| e_world := Outage.failing_commands; e_config := Fleet.fleet |}
               (initial_state []) in
  fst run = Ok tt
  /\ st_ssh (snd run) = [SshExec ssh "systemctl stop adp-client-bot.service"]
  /\ st_console (snd run)
     = [(ERROR, "Error in stop adp-client-bot.service on 10.0.0.1: Failed to stop unit")].
Proof.
  assert (Hkeys : forall check, In check (s_checks Fleet.tg1) -> c_type check = "service" ->
                                c_service check <> None).
  { intros check [<-|[<-|[]]] Htype; simpl; discriminate. }
  destruct (disable_services_stops_each_service {| ss_id := 0; ss_host := "10.0.0.1" |}
              Fleet.tg1
              {| e_world := Outage.failing_commands; e_config := Fleet.fleet |}
              (initial_state []) (fun n => ex_intro _ "10.0.0.1" eq_refl) Hkeys)
    as (Hok & Hssh & Hconsole).
  split; [exact Hok|]. split; [exact Hssh|].
  exact (Hconsole (fun _ => Ok (EmptyString, "Failed to stop unit")) "10.0.0.1"
           (fun _ _ => eq_refl) (fun _ => eq_refl)).
Defined.

Lemma connect_ssh_opens (info : ServerConfig) (user password : string) (E : env) (s : state) :
  s_user info = Some user ->
  s_password info = Some password ->
  w_ssh_connect (e_world E) (st_tick s) (s_host info) 22 user password = Ok tt ->
  let ssh := {| ss_id := st_tick s; ss_host := s_host info |} in
  MoveServices.connect_ssh (Some info) E s
  = (Ok (Some ssh), set_ssh (fun l => l ++ [SshOpen ssh])%list (set_tick S s)).
Proof.
  intros Hu Hp Hc. cbv zeta.
  unfold MoveServices.connect_ssh, ssh_connect, subscript_opt, try_except, external, modify,
    gets, bind.
  rewrite Hu, Hp. cbn [subscript ret fst snd]. rewrite Hc. reflexivity.
Qed.

Lemma connect_ssh_fails (info : ServerConfig) (E : env) (s : state) :
  ssh_unavailable E s info ->
  exists s' message,
    MoveServices.connect_ssh (Some info) E s = (Ok None, s')
    /\ st_ssh s' = st_ssh s
    /\ st_console s' = (st_console s ++ [(ERROR, message)])%list.
Proof.
  unfold ssh_unavailable.
  unfold MoveServices.connect_ssh, ssh_connect, subscript_opt, logging_error, console,
    try_except, external, modify, gets, bind.
  destruct (s_user info) as [user|]; [destruct (s_password info) as [password|]|];
    cbn [subscript ret raise fst snd].
  - intros [e He]. rewrite He. do 2 eexists. split; [reflexivity|]. split; reflexivity.
  - intros _. do 2 eexists. split; [reflexivity|]. split; reflexivity.
  - intros _. do 2 eexists. split; [reflexivity|]. split; reflexivity.
Qed.

(** The stop step on a server that can be reached. *)
Lemma connect_and_disable_runs (info : ServerConfig) (user password : string)
  (E : env) (s : state) :
  let ssh := {| ss_id := st_tick s; ss_host := s_host info |} in
  s_user info = Some user ->
  s_password info = Some password ->
  w_ssh_connect (e_world E) (st_tick s) (s_host info) 22 user password = Ok tt ->
  (forall n, exists peer, w_peername (e_world E) n ssh = Ok peer) ->
  (forall check, In check (s_checks info) -> c_type check = "service" ->
                 c_service check <> None) ->
  exists s',
    MoveServices.connect_and_disable_services (Some info) E s = (Ok true, s')
    /\ st_ssh s'
       = (st_ssh s
          ++ SshOpen ssh
             :: map (fun service => SshExec ssh ("systemctl stop " ++ service)%string)
                  (service_names info)
          ++ [SshClose ssh])%list.
Proof.
  intros ssh Hu Hp Hc Hpeer Hkeys.
  unfold MoveServices.connect_and_disable_services, try_except, bind at 1.
  rewrite (connect_ssh_opens info user password E s Hu Hp Hc). cbv zeta. fold ssh.
  set (s1 := set_ssh _ (set_tick S s)).
  destruct (disable_services_runs ssh info E s1 Hpeer Hkeys) as (s2 & Hok & Hssh).
  unfold bind. rewrite Hok.
  unfold ssh_close, modify, ret. eexists. split; [reflexivity|].
  cbn [st_ssh set_ssh]. rewrite Hssh. unfold s1. cbn [st_ssh set_ssh set_tick].
  rewrite <- !app_assoc. reflexivity.
Qed.

Lemma enable_services_runs (ssh : session) (services : list string) (E : env) (s : state) :
  (forall n, exists peer, w_peername (e_world E) n ssh = Ok peer) ->
  exists s',
    MoveServices.enable_services ssh services E s = (Ok tt, s')
    /\ st_ssh s'
       = (st_ssh s
          ++ map (fun service => SshExec ssh ("systemctl start " ++ service)%string)
               services)%list.
Proof.
  intros Hpeer. unfold MoveServices.enable_services.
  revert s. induction services as [|service services IH]; intros s.
  - exists s. split; [reflexivity|]. simpl. now rewrite app_nil_r.
  - cbn [for_each]. unfold bind at 1.
    destruct (manage_service_runs ssh service "start" E s Hpeer) as [s1 [-> Hssh1]].
    destruct (IH s1) as [s' [Hrun Hssh]].
    exists s'. split; [exact Hrun|]. rewrite Hssh, Hssh1. cbn [map].
    now rewrite <- app_assoc.
Qed.

(** The start step on a server that can be reached. *)
Lemma connect_and_enable_runs (info : ServerConfig) (user password : string)
  (services : list string) (E : env) (s : state) :
  let ssh := {| ss_id := st_tick s; ss_host := s_host info |} in
  s_user info = Some user ->
  s_password info = Some password ->
  w_ssh_connect (e_world E) (st_tick s) (s_host info) 22 user password = Ok tt ->
  (forall n, exists peer, w_peername (e_world E) n ssh = Ok peer) ->
  exists s',
    MoveServices.connect_and_enable_services (Some info) services E s = (Ok (Some true), s')
    /\ st_ssh s'
       = (st_ssh s
          ++ SshOpen ssh
             :: map (fun service => SshExec ssh ("systemctl start " ++ service)%string)
                  services
          ++ [SshClose ssh])%list.
Proof.
  intros ssh Hu Hp Hc Hpeer.
  unfold MoveServices.connect_and_enable_services, try_except, bind at 1.
  rewrite (connect_ssh_opens info user password E s Hu Hp Hc). cbv zeta. fold ssh.
  set (s1 := set_ssh _ (set_tick S s)).
  destruct (enable_services_runs ssh services E s1 Hpeer) as (s2 & Hok & Hssh).
  unfold bind. rewrite Hok.
  unfold ssh_close, modify, ret. eexists. split; [reflexivity|].
  cbn [st_ssh set_ssh]. rewrite Hssh. unfold s1. cbn [st_ssh set_ssh set_tick].
  rewrite <- !app_assoc. reflexivity.
Qed.

(** X16.  When the SSH session can be opened, [connect_and_disable_services]
    returns [True], and what it does on the server is bracketed by the
    session: it connects, issues one [systemctl stop] per service check and
    closes the session. *)
Theorem connect_and_disable_brackets (info : ServerConfig) (user password : string)
  (E : env) (s : state) :
  let ssh := {| ss_id := st_tick s; ss_host := s_host info |} in
  s_user info = Some user ->
  s_password info = Some password ->
  w_ssh_connect (e_world E) (st_tick s) (s_host info) 22 user password = Ok tt ->
  (forall n, exists peer, w_peername (e_world E) n ssh = Ok peer) ->
  (forall check, In check (s_checks info) -> c_type check = "service" ->
                 c_service check <> None) ->
  let run := MoveServices.connect_and_disable_services (Some info) E s in
  fst run = Ok true
  /\ st_ssh (snd run)
     = (st_ssh s
        ++ SshOpen ssh
           :: map (fun service => SshExec ssh ("systemctl stop " ++ service)%string)
                (service_names info)
        ++ [SshClose ssh])%list.
Proof.
  intros ssh Hu Hp Hc Hpeer Hkeys.
  destruct (connect_and_disable_runs info user password E s Hu Hp Hc Hpeer Hkeys)
    as (s' & Hrun & Hssh).
  intros run. subst run. rewrite Hrun.
  split; [reflexivity|exact Hssh].
Qed.

Lemma connect_and_disable_brackets_witness :
  let ssh := {| ss_id := 0; ss_host := "10.0.0.1" |} in
  let run := MoveServices.connect_and_disable_services (Some Fleet.tg1) Fleet.healthy_env
               (initial_state []) in
  fst run = Ok true
  /\ st_ssh (snd run)
     = [SshOpen ssh; SshExec ssh "systemctl stop adp-client-bot.service"; SshClose ssh].
Proof.
  refine (connect_and_disable_brackets Fleet.tg1 "root" "secret" Fleet.healthy_env
            (initial_state []) eq_refl eq_refl eq_refl
            (fun n => ex_intro _ "10.0.0.1" eq_refl) _).
  intros check [<-|[<-|[]]] Htype; simpl; discriminate.
Defined.

(** X17.  When the SSH session cannot be opened (a credential is missing
    or the connection attempt raises), neither step raises and neither runs
    a command: [connect_and_disable_services] returns [False], while
    [connect_and_enable_services] reaches the end of its [try] block without
    a [return] and yields [None]. *)
Theorem ssh_failure_yields_false_and_none (info : ServerConfig) (services : list string)
  (E : env) (s : state) :
  ssh_unavailable E s info ->
  let stop := MoveServices.connect_and_disable_services (Some info) E s in
  let start := MoveServices.connect_and_enable_services (Some info) services E s in
  fst stop = Ok false
  /\ fst start = Ok None
  /\ st_ssh (snd stop) = st_ssh s
  /\ st_ssh (snd start) = st_ssh s.
Proof.
  intros H. cbv zeta.
  destruct (connect_ssh_fails info E s H) as (s' & message & Hrun & Hssh & _).
  unfold MoveServices.connect_and_disable_services, MoveServices.connect_and_enable_services,
    try_except, bind.
  rewrite Hrun. cbn [ret fst snd]. auto.
Qed.

Lemma ssh_failure_yields_false_and_none_witness :
  let E := {| e_world := Fleet.ssh_down ["10.0.0.2"]; e_config := Fleet.fleet |} in
  let stop := MoveServices.connect_and_disable_services (Some Fleet.tg2) E (initial_state []) in
  let start := MoveServices.connect_and_enable_services (Some Fleet.tg2)
                 MoveServices.failover_services E (initial_state []) in
  fst stop = Ok false
  /\ fst start = Ok None
  /\ st_ssh (snd stop) = []
  /\ st_ssh (snd start) = [].
Proof.
  exact (ssh_failure_yields_false_and_none Fleet.tg2 MoveServices.failover_services
           {| e_world := Fleet.ssh_down ["10.0.0.2"]; e_config := Fleet.fleet |}
           (initial_state []) (ex_intro _ Fleet.unreachable eq_refl)).
Defined.

(** X18.  [MoveServicesStrategy.handle] looks up [TG1] and [TG2] by name
    and uses what it finds without a test.  When the configuration lacks one
    of the two servers, [handle] raises [TypeError] and no chat is
    notified; when only [TG2] is missing, the stop step on [TG1] has
    already been carried out by then. *)
Theorem move_services_needs_both_servers (server_name check_name : string)
  (E : env) (s : state) :
  let tg1 := List.find (fun server => String.eqb (s_name server) "TG1") (servers (e_config E)) in
  let tg2 := List.find (fun server => String.eqb (s_name server) "TG2") (servers (e_config E)) in
  tg1 = None \/ tg2 = None ->
  let run := MoveServices.handle server_name check_name E s in
  fst run = Raise (Exn TypeError "'NoneType' object is not subscriptable")
  /\ st_posts (snd run) = st_posts s
  /\ (forall info, tg1 = Some info ->
        exists stopped,
          MoveServices.connect_and_disable_services (Some info) E s = (Ok stopped, snd run)).
Proof.
  intros tg1 tg2 Hmissing run. subst run.
  assert (Hnone : forall st,
             MoveServices.connect_ssh None E st
             = (Raise (Exn TypeError "'NoneType' object is not subscriptable"), st))
    by reflexivity.
  unfold MoveServices.handle, MoveServices.find_server, global, ret, bind. cbv beta iota.
  fold tg1 tg2.
  destruct tg1 as [info1|] eqn:H1.
  - destruct Hmissing as [Hm|Hm]; [discriminate|]. rewrite Hm.
    destruct (connect_and_disable_returns info1 E s) as [stopped [s1 Hd]]. rewrite Hd.
    pose proof (connect_and_disable_frame (Some info1) E s) as F. rewrite Hd in F.
    unfold probe_view in F. cbn [snd] in F. injection F as _ _ _ _ P _.
    unfold MoveServices.connect_and_enable_services, try_except, bind.
    rewrite Hnone. cbn [subscript_opt raise fst snd].
    split; [reflexivity|]. split; [exact P|].
    intros info Hinfo. injection Hinfo as <-. exists stopped. exact Hd.
  - unfold MoveServices.connect_and_disable_services, try_except, bind.
    rewrite Hnone. cbn [subscript_opt raise fst snd].
    split; [reflexivity|]. split; [reflexivity|]. intros info Hinfo. discriminate.
Qed.

Lemma move_services_needs_both_servers_witness :
  let run := MoveServices.handle "TG1" "PING"
               {| e_world := Fleet.healthy; e_config := Fleet.fleet_without_tg2 |}
               (initial_state []) in
  fst run = Raise (Exn TypeError "'NoneType' object is not subscriptable")
  /\ st_posts (snd run) = []
  /\ (forall info, Some Fleet.tg1 = Some info ->
        exists stopped,
          MoveServices.connect_and_disable_services (Some info)
            {| e_world := Fleet.healthy; e_config := Fleet.fleet_without_tg2 |}
            (initial_state []) = (Ok stopped, snd run)).
Proof.
  exact (move_services_needs_both_servers "TG1" "PING"
           {| e_world := Fleet.healthy; e_config := Fleet.fleet_without_tg2 |}
           (initial_state []) (or_intror eq_refl)).
Defined.

(** The failover when both servers can be reached. *)
Lemma move_services_runs (server_name check_name : string) (E : env) (s : state)
  (tg1 tg2 : ServerConfig) (user1 password1 user2 password2 : string) :
  List.find (fun server => String.eqb (s_name server) "TG1") (servers (e_config E)) = Some tg1 ->
  List.find (fun server => String.eqb (s_name server) "TG2") (servers (e_config E)) = Some tg2 ->
  s_user tg1 = Some user1 -> s_password tg1 = Some password1 ->
  s_user tg2 = Some user2 -> s_password tg2 = Some password2 ->
  (forall n host user password, w_ssh_connect (e_world E) n host 22 user password = Ok tt) ->
  (forall n ssh, exists peer, w_peername (e_world E) n ssh = Ok peer) ->
  (forall check, In check (s_checks tg1) -> c_type check = "service" ->
                 c_service check <> None) ->
  (forall n id text, w_post (e_world E) n alert_url id text = Ok tt) ->
  exists s3 ssh1 ssh2,
    MoveServices.handle server_name check_name E s = (Ok tt, s3)
    /\ ss_host ssh1 = s_host tg1 /\ ss_host ssh2 = s_host tg2
    /\ st_ssh s3
       = (st_ssh s
          ++ (SshOpen ssh1
              :: map (fun service => SshExec ssh1 ("systemctl stop " ++ service)%string)
                   (service_names tg1)
              ++ [SshClose ssh1])
          ++ [SshOpen ssh2;
              SshExec ssh2 "systemctl start adp-client-bot.service";
              SshExec ssh2 "systemctl start adp-shop-bot.service";
              SshClose ssh2])%list
    /\ st_posts s3
       = (st_posts s
          ++ map (fun id =>
                    (id, (MoveServices.header server_name check_name
                          ++ MoveServices.primary_note true
                          ++ MoveServices.secondary_note true)%string))
              (chats (e_config E)))%list.
Proof.
  intros H1 H2 Hu1 Hp1 Hu2 Hp2 Hconn Hpeer Hkeys Hpost.
  destruct (connect_and_disable_runs tg1 user1 password1 E s Hu1 Hp1 (Hconn _ _ _ _)
              (fun n => Hpeer n _) Hkeys) as (s1 & Hd & Hssh1).
  destruct (connect_and_enable_runs tg2 user2 password2 MoveServices.failover_services E s1
              Hu2 Hp2 (Hconn _ _ _ _) (fun n => Hpeer n _)) as (s2 & He & Hssh2).
  pose proof (connect_and_disable_frame (Some tg1) E s) as F1. rewrite Hd in F1.
  pose proof (connect_and_enable_frame (Some tg2) MoveServices.failover_services E s1) as F2.
  rewrite He in F2. unfold probe_view in F1, F2. cbn [snd] in F1, F2.
  injection F1 as _ _ _ _ P1 _. injection F2 as _ _ _ _ P2 _.
  unfold MoveServices.handle, MoveServices.find_server, MoveServices.send_message,
    global, ret, bind.
  cbn [fst snd]. rewrite H1, H2, Hd, He. cbn [MoveServices.truthy].
  match goal with
  | |- context [for_each ?ids (fun id => requests_post alert_url id ?msg) E s2] =>
      destruct (broadcast_posts E msg ids s2 Hpost) as [s3 [Hrun Hposts]];
      assert (F3 : frame st_ssh (for_each ids (fun id => requests_post alert_url id msg)))
        by (unfold requests_post; frame_auto);
      specialize (F3 E s2)
  end.
  rewrite Hrun in *. cbn [snd] in F3.
  exists s3, {| ss_id := st_tick s; ss_host := s_host tg1 |},
         {| ss_id := st_tick s1; ss_host := s_host tg2 |}.
  split; [reflexivity|]. split; [reflexivity|]. split; [reflexivity|]. split.
  - rewrite F3, Hssh2, Hssh1. rewrite <- app_assoc. reflexivity.
  - rewrite Hposts, P2, P1. rewrite <- !append_assoc_string. reflexivity.
Qed.

(** The two SSH steps are over, and no chat has been told, when the
    message is sent. *)
Lemma move_services_steps (server_name check_name : string) (E : env) (s : state)
  (tg1 tg2 : ServerConfig) (user1 password1 user2 password2 : string) :
  List.find (fun server => String.eqb (s_name server) "TG1") (servers (e_config E)) = Some tg1 ->
  List.find (fun server => String.eqb (s_name server) "TG2") (servers (e_config E)) = Some tg2 ->
  s_user tg1 = Some user1 -> s_password tg1 = Some password1 ->
  s_user tg2 = Some user2 -> s_password tg2 = Some password2 ->
  (forall n host user password, w_ssh_connect (e_world E) n host 22 user password = Ok tt) ->
  (forall n ssh, exists peer, w_peername (e_world E) n ssh = Ok peer) ->
  (forall check, In check (s_checks tg1) -> c_type check = "service" ->
                 c_service check <> None) ->
  (forall n id text, w_post (e_world E) n alert_url id text = Ok tt) ->
  exists s2 s3,
    (stopped <- MoveServices.connect_and_disable_services (Some tg1) ;;
     started <- MoveServices.connect_and_enable_services (Some tg2)
                  MoveServices.failover_services ;;
     ret (stopped, started)) E s = (Ok (true, Some true), s2)
    /\ st_posts s2 = st_posts s
    /\ MoveServices.send_message
         (MoveServices.header server_name check_name ++ MoveServices.primary_note true
          ++ MoveServices.secondary_note true) E s2 = (Ok tt, s3)
    /\ st_ssh s3 = st_ssh s2
    /\ MoveServices.handle server_name check_name E s = (Ok tt, s3).
Proof.
  intros H1 H2 Hu1 Hp1 Hu2 Hp2 Hconn Hpeer Hkeys Hpost.
  destruct (connect_and_disable_runs tg1 user1 password1 E s Hu1 Hp1 (Hconn _ _ _ _)
              (fun n => Hpeer n _) Hkeys) as (s1 & Hd & Hssh1).
  destruct (connect_and_enable_runs tg2 user2 password2 MoveServices.failover_services E s1
              Hu2 Hp2 (Hconn _ _ _ _) (fun n => Hpeer n _)) as (s2 & He & Hssh2).
  pose proof (connect_and_disable_frame (Some tg1) E s) as F1. rewrite Hd in F1.
  pose proof (connect_and_enable_frame (Some tg2) MoveServices.failover_services E s1) as F2.
  rewrite He in F2. unfold probe_view in F1, F2. cbn [snd] in F1, F2.
  injection F1 as _ _ _ _ P1 _. injection F2 as _ _ _ _ P2 _.
  destruct (broadcast_posts E
              (MoveServices.header server_name check_name ++ MoveServices.primary_note true
               ++ MoveServices.secondary_note true)
              (chats (e_config E)) s2 Hpost) as [s3 [Hrun _]].
  assert (F3 : frame st_ssh
                 (for_each (chats (e_config E))
                    (fun id => requests_post alert_url id
                                 (MoveServices.header server_name check_name
                                  ++ MoveServices.primary_note true
                                  ++ MoveServices.secondary_note true))))
    by (unfold requests_post; frame_auto).
  specialize (F3 E s2). rewrite Hrun in F3. cbn [snd] in F3.
  exists s2, s3. split; [|split; [|split; [|split]]].
  - unfold bind. rewrite Hd. cbn [fst snd]. rewrite He. reflexivity.
  - now rewrite P2, P1.
  - unfold MoveServices.send_message, global, bind. cbn [fst snd]. exact Hrun.
  - exact F3.
  - unfold MoveServices.handle, MoveServices.find_server, MoveServices.send_message,
      global, ret, bind.
    cbn [fst snd]. rewrite H1, H2, Hd, He. cbn [MoveServices.truthy fst snd].
    rewrite <- Hrun. rewrite <- !append_assoc_string. reflexivity.
Qed.

(** X19.  The failover in order.  When [TG1] and [TG2] are configured
    with their credentials, both accept SSH connections, the peer address
    of a session can be read, every service check of [TG1] names its
    service and the relay accepts the posts, [MoveServicesStrategy.handle]
    first stops the services of the service checks of [TG1] within one SSH
    session, then starts [adp-client-bot.service] and [adp-shop-bot.service]
    on [TG2] within a second session, and only then sends every chat the
    message that reports both steps as done: in the state in which the
    posts begin, both sessions are over and no chat has been told.  The
    commands themselves may fail: their results are logged and do not
    change the message. *)
Theorem failover_sequence (server_name check_name : string) (E : env) (s : state)
  (tg1 tg2 : ServerConfig) (user1 password1 user2 password2 : string) :
  List.find (fun server => String.eqb (s_name server) "TG1") (servers (e_config E)) = Some tg1 ->
  List.find (fun server => String.eqb (s_name server) "TG2") (servers (e_config E)) = Some tg2 ->
  s_user tg1 = Some user1 -> s_password tg1 = Some password1 ->
  s_user tg2 = Some user2 -> s_password tg2 = Some password2 ->
  (forall n host user password, w_ssh_connect (e_world E) n host 22 user password = Ok tt) ->
  (forall n ssh, exists peer, w_peername (e_world E) n ssh = Ok peer) ->
  (forall check, In check (s_checks tg1) -> c_type check = "service" ->
                 c_service check <> None) ->
  (forall n id text, w_post (e_world E) n alert_url id text = Ok tt) ->
  let run := MoveServices.handle server_name check_name E s in
  let message :=
    (MoveServices.header server_name check_name ++ MoveServices.primary_note true
     ++ MoveServices.secondary_note true)%string in
  fst run = Ok tt
  /\ (exists ssh1 ssh2,
        ss_host ssh1 = s_host tg1 /\ ss_host ssh2 = s_host tg2
        /\ st_ssh (snd run)
           = (st_ssh s
              ++ (SshOpen ssh1
                  :: map (fun service => SshExec ssh1 ("systemctl stop " ++ service)%string)
                       (service_names tg1)
                  ++ [SshClose ssh1])
              ++ [SshOpen ssh2;
                  SshExec ssh2 "systemctl start adp-client-bot.service";
                  SshExec ssh2 "systemctl start adp-shop-bot.service";
                  SshClose ssh2])%list)
  /\ st_posts (snd run)
     = (st_posts s ++ map (fun id => (id, message)) (chats (e_config E)))%list
  /\ (exists s2,
        (stopped <- MoveServices.connect_and_disable_services (Some tg1) ;;
         started <- MoveServices.connect_and_enable_services (Some tg2)
                      MoveServices.failover_services ;;
         ret (stopped, started)) E s = (Ok (true, Some true), s2)
        /\ st_ssh s2 = st_ssh (snd run)
        /\ st_posts s2 = st_posts s
        /\ MoveServices.send_message message E s2 = (Ok tt, snd run)).
Proof.
  intros H1 H2 Hu1 Hp1 Hu2 Hp2 Hconn Hpeer Hkeys Hpost.
  destruct (move_services_runs server_name check_name E s tg1 tg2 user1 password1
              user2 password2 H1 H2 Hu1 Hp1 Hu2 Hp2 Hconn Hpeer Hkeys Hpost)
    as (s3 & ssh1 & ssh2 & Hrun & Hh1 & Hh2 & Hssh & Hposts).
  destruct (move_services_steps server_name check_name E s tg1 tg2 user1 password1
              user2 password2 H1 H2 Hu1 Hp1 Hu2 Hp2 Hconn Hpeer Hkeys Hpost)
    as (s2 & s3' & Hsteps & Hquiet & Hsend & Hsame & Hrun').
  assert (s3' = s3) by congruence. subst s3'.
  intros run message. subst run. rewrite Hrun. cbn [fst snd].
  split; [reflexivity|]. split; [|split; [exact Hposts|]].
  - exists ssh1, ssh2. auto.
  - exists s2. auto.
Qed.

Lemma failover_sequence_witness :
  let run := MoveServices.handle "TG1" "PING" Fleet.healthy_env (initial_state []) in
  let message :=
    (MoveServices.header "TG1" "PING" ++ MoveServices.primary_note true
     ++ MoveServices.secondary_note true)%string in
  fst run = Ok tt
  /\ (exists ssh1 ssh2,
        ss_host ssh1 = "10.0.0.1" /\ ss_host ssh2 = "10.0.0.2"
        /\ st_ssh (snd run)
           = [SshOpen ssh1; SshExec ssh1 "systemctl stop adp-client-bot.service";
              SshClose ssh1;
              SshOpen ssh2; SshExec ssh2 "systemctl start adp-client-bot.service";
              SshExec ssh2 "systemctl start adp-shop-bot.service"; SshClose ssh2])
  /\ st_posts (snd run) = map (fun id => (id, message)) [1001%Z; 1002%Z]
  /\ (exists s2,
        (stopped <- MoveServices.connect_and_disable_services (Some Fleet.tg1) ;;
         started <- MoveServices.connect_and_enable_services (Some Fleet.tg2)
                      MoveServices.failover_services ;;
         ret (stopped, started)) Fleet.healthy_env (initial_state [])
        = (Ok (true, Some true), s2)
        /\ st_ssh s2 = st_ssh (snd run)
        /\ st_posts s2 = []
        /\ MoveServices.send_message message Fleet.healthy_env s2 = (Ok tt, snd run)).
Proof.
  refine (failover_sequence "TG1" "PING" Fleet.healthy_env (initial_state [])
            Fleet.tg1 Fleet.tg2 "root" "secret" "root" "secret"
            eq_refl eq_refl eq_refl eq_refl eq_refl eq_refl
            (fun _ _ _ _ => eq_refl) (fun n ssh => ex_intro _ (ss_host ssh) eq_refl) _
            (fun _ _ _ => eq_refl)).
  intros check [<-|[<-|[]]] Htype; simpl; discriminate.
Defined.

(** ** The port monitor's measure *)

Lemma connect_each_clock (addresses : list conn_behaviour) (last : option exn)
  (E : env) (s : state) :
  (st_clock (snd (connect_each addresses 10 last E s))
   == st_clock s + attempts_time 10 addresses)%Q.
Proof.
  revert last s. induction addresses as [|b rest IH]; intros last s.
  - destruct last; cbn; ring.
  - cbn [connect_each attempts_time]. destruct b as [d|d e|].
    + destruct (Qle_bool d 10).
      * cbn. reflexivity.
      * unfold bind, sleep, modify. cbn [fst snd]. rewrite IH. cbn [st_clock set_clock]. ring.
    + destruct (Qle_bool d 10); unfold bind, sleep, modify; cbn [fst snd]; rewrite IH;
        cbn [st_clock set_clock]; ring.
    + unfold bind, sleep, modify. cbn [fst snd]. rewrite IH. cbn [st_clock set_clock]. ring.
Qed.

Lemma attempts_time_capped (addresses : list conn_behaviour) :
  (attempts_time 10 addresses <= 10 * inject_Z (Z.of_nat (List.length addresses)))%Q.
Proof.
  induction addresses as [|b rest IH].
  - cbn. apply Qle_refl.
  - assert (Hlen : (inject_Z (Z.of_nat (List.length (b :: rest)))
                    == 1 + inject_Z (Z.of_nat (List.length rest)))%Q).
    { cbn [List.length]. rewrite Nat2Z.inj_succ, <- Z.add_1_l, inject_Z_plus. reflexivity. }
    rewrite Hlen. cbn [attempts_time].
    assert (Hpos : (0 <= 10 * inject_Z (Z.of_nat (List.length rest)))%Q).
    { apply Qmult_le_0_compat; [discriminate|].
      change 0%Q with (inject_Z 0). rewrite <- Zle_Qle. lia. }
    destruct b as [d|d e|].
    + destruct (Qle_bool d 10) eqn:Hd; [apply Qle_bool_iff in Hd|]; lra.
    + destruct (Qle_bool d 10) eqn:Hd; [apply Qle_bool_iff in Hd|]; lra.
    + lra.
Qed.

(** X20.  [TelnetMonitor.response_time] never raises, and the value it
    returns is the time that the connection attempt took: the time of the
    lookup and then, for each address that is tried until one accepts, the
    delay of the peer, or the ten seconds of the timeout when the peer takes
    longer or does not answer.  The attempts thus take at most ten seconds
    for each address, and a refused connection is measured like an accepted
    one. *)
Theorem telnet_response_time_capped (host : string) (port : Z) (E : env) (s : state) :
  exists t s',
    TelnetMonitor.response_time host port E s = (Ok (PFloat t), s')
    /\ (t == connection_time 10 (w_connect (e_world E) (st_tick s) host port))%Q
    /\ match w_connect (e_world E) (st_tick s) host port with
       | Resolves after addresses =>
           (t <= after + 10 * inject_Z (Z.of_nat (List.length addresses)))%Q
           /\ match addresses with
              | [Accepts d] | [Refuses d _] => (t == after + if Qle_bool d 10 then d else 10)%Q
              | [Silent] => (t == after + 10)%Q
              | _ => True
              end
       | Unresolved after _ => (t == after)%Q
       end.
Proof.
  assert (Hclock : (st_clock (snd (telnet_open host port 10 E s))
                    == st_clock s
                       + connection_time 10 (w_connect (e_world E) (st_tick s) host port))%Q).
  { unfold telnet_open, bind at 1, external. cbn [fst snd].
    destruct (w_connect (e_world E) (st_tick s) host port) as [after addresses|after e].
    - unfold bind, sleep, modify. cbn [fst snd connection_time].
      rewrite connect_each_clock. cbn [st_clock set_clock set_tick]. ring.
    - unfold bind, sleep, modify, raise. cbn [fst snd connection_time st_clock set_clock set_tick].
      reflexivity. }
  assert (Hrun : exists s',
             TelnetMonitor.response_time host port E s
             = (Ok (PFloat (st_clock (snd (telnet_open host port 10 E s)) - st_clock s)), s')).
  { unfold TelnetMonitor.response_time, try_except, bind, time_time, gets, logging_error,
      console, modify, ret.
    cbn [fst snd].
    destruct (telnet_open host port 10 E s) as [[[]|e] s2]; eexists; reflexivity. }
  destruct Hrun as [s' Hrun].
  exists (st_clock (snd (telnet_open host port 10 E s)) - st_clock s)%Q, s'.
  split; [exact Hrun|].
  assert (Ht : (st_clock (snd (telnet_open host port 10 E s)) - st_clock s
                == connection_time 10 (w_connect (e_world E) (st_tick s) host port))%Q)
    by (rewrite Hclock; ring).
  split; [exact Ht|].
  destruct (w_connect (e_world E) (st_tick s) host port) as [after addresses|after e];
    cbn [connection_time] in Ht; [|exact Ht].
  split.
  - rewrite Ht. pose proof (attempts_time_capped addresses). lra.
  - destruct addresses as [|[d|d e|] [|b rest]]; try exact I; cbn [attempts_time] in Ht;
      rewrite Ht.
    + destruct (Qle_bool d 10); reflexivity.
    + destruct (Qle_bool d 10); ring.
    + ring.
Qed.

(** ** The loop of [start] *)

Lemma idle_round_state (E : env) (s : state) :
  forallb (fun server => match s_checks server with [] => true | _ => false end)
    (servers (e_config E)) = true ->
  st_threads s = [] ->
  exists s',
    CheckManager.start_round E s = (Ok tt, s')
    /\ st_threads s' = []
    /\ st_trace s' = (st_trace s ++ [EvFlush; EvSleep 60])%list
    /\ st_clock s' = (st_clock s + 60)%Q
    /\ st_tick s' = S (st_tick s)
    /\ dict_get snapshot_path (st_files s')
       = Some (Json.dumps (CheckManager.snapshot_json (e_world E) (st_aggregate s'))).
Proof.
  intros Hidle Hthreads.
  assert (Hfan : CheckManager.fan_out CheckManager.thread_constructor E s = (Ok tt, s)).
  { unfold CheckManager.fan_out, bind at 1, global.
    apply (for_each_nil_bodies (servers (e_config E)) s_checks _ E s Hidle). }
  unfold CheckManager.start_round, CheckManager.round_with, bind. rewrite Hfan.
  unfold CheckManager.fan_in, CheckManager.save_aggregate_results, CheckManager.begin_flush,
    CheckManager.finish_flush, CheckManager.open_truncate, CheckManager.write_and_close,
    emit, sleep, external, library, modify, gets, bind.
  cbn [fst snd]. rewrite Hthreads. cbn [for_each ret fst snd].
  eexists. split; [reflexivity|].
  cbn [st_trace st_threads st_clock st_tick st_files st_aggregate
         set_trace set_clock set_threads set_files set_aggregate set_tick].
  rewrite <- app_assoc, dict_get_set_same. repeat split.
Qed.



(** ** Checks that are not configured as the code expects *)

(** X22.  A check whose dict lacks a key that the constructor of its
    monitor needs ([port] for a port check; [user], [password] or [service]
    for a service check) is skipped: [run_check]
    logs the [KeyError] as one error record on the console and returns,
    before any probe runs and without recording an outcome. *)
Theorem unbuildable_check_is_skipped (server : ServerConfig) (check : CheckConfig)
  (E : env) (s : state) :
  buildable server check = false ->
  exists key,
    In key ["port"; "user"; "password"; "service"]
    /\ CheckManager.run_check server check E s
       = (Ok tt, set_console (fun c => c ++ [(ERROR, ("'" ++ key ++ "'")%string)])%list s).
Proof.
  intros Hb. unfold buildable in Hb.
  unfold CheckManager.run_check, CheckManager.select_monitor, try_except, bind.
  destruct (String.eqb (c_type check) "telnet") eqn:Htelnet.
  - apply String.eqb_eq in Htelnet. rewrite Htelnet. cbn [String.eqb Ascii.eqb Bool.eqb].
    cbv iota. destruct (c_port check); [discriminate|].
    exists "port". split; [simpl; auto|]. reflexivity.
  - destruct (String.eqb (c_type check) "service") eqn:Hservice; [|discriminate].
    apply String.eqb_eq in Hservice. rewrite Hservice.
    cbn [String.eqb Ascii.eqb Bool.eqb]. cbv iota.
    destruct (s_user server).
    + destruct (s_password server).
      * destruct (c_service check); [discriminate|].
        exists "service". split; [simpl; auto|]. reflexivity.
      * exists "password". split; [simpl; auto|]. reflexivity.
    + exists "user". split; [simpl; auto|]. reflexivity.
Qed.

Lemma unbuildable_check_is_skipped_witness :
  exists key,
    In key ["port"; "user"; "password"; "service"]
    /\ CheckManager.run_check Fleet.web1 Fleet.portless_check Fleet.healthy_env
         (initial_state [])
       = (Ok tt,
          set_console (fun c => c ++ [(ERROR, ("'" ++ key ++ "'")%string)])%list
            (initial_state [])).
Proof.
  exact (unbuildable_check_is_skipped Fleet.web1 Fleet.portless_check Fleet.healthy_env
           (initial_state []) eq_refl).
Defined.

Lemma escalate_without_limit (server : ServerConfig) (check : CheckConfig)
  (result : bool) (value : pynum) (E : env) (s : state) :
  In (c_type check) resource_type_names ->
  dict_get (c_name check) (resourse_limits (e_config E)) = None ->
  CheckManager.escalate server check result value E s
  = (Raise (Exn KeyError (w_str_repr (e_world E) (c_name check))), s).
Proof.
  intros Htype Hlimit. unfold CheckManager.escalate.
  assert (Hin : PyStr.py_in (c_type check) CheckManager.resource_types = true).
  { destruct Htype as [<-|[<-|[<-|[]]]]; reflexivity. }
  rewrite Hin. cbn [negb]. unfold bind at 1, global. cbv beta iota. rewrite Hlimit.
  reflexivity.
Qed.

(** X23.  The limit of a resource check is looked up by the name of the
    check, not by its type.  For a check of type [cpu], [ram] or
    [disk_space] whose name is not a key of [resourse_limits]: when the
    measure returns, the logger of the server can take the record and the
    key of the server does not hold a string, [run_check] measures and
    records the outcome, and then the lookup raises [KeyError] whatever the
    measured value is: the error is logged on the console and no warning is
    dispatched. *)
Theorem resource_check_without_limit (server : ServerConfig) (check : CheckConfig)
  (E : env) (st : state) :
  In (c_type check) resource_type_names ->
  dict_get (c_name check) (resourse_limits (e_config E)) = None ->
  holds_no_string (s_name server) (st_aggregate st) ->
  exists monitor,
    CheckManager.select_monitor server check E st = (Ok (Some monitor), st)
    /\ monitor_check monitor E st = (Ok true, st)
    /\ forall value s2,
        monitor_response_time monitor E st = (Ok value, s2) ->
        log_ready E (s_name server) s2 = true ->
        exists s3,
          CheckManager.log_result (s_name server) (c_name check) true (Some value) E s2
          = (Ok tt, s3)
          /\ outcomes_of (s_name server) (st_aggregate s3)
             = (outcomes_of (s_name server) (st_aggregate st)
                ++ [CheckManager.outcome_of (c_name check) true (Some value)])%list
          /\ CheckManager.run_check server check E st
             = (Ok tt,
                set_console
                  (fun c => c ++ [(ERROR, w_str_repr (e_world E) (c_name check))])%list s3)
          /\ st_trace s3 = st_trace st.
Proof.
  intros Htype Hlimit Hns.
  assert (Hsel : exists monitor,
             CheckManager.select_monitor server check E st = (Ok (Some monitor), st)
             /\ monitor_check monitor E st = (Ok true, st)).
  { unfold CheckManager.select_monitor.
    destruct Htype as [<-|[<-|[<-|[]]]]; eexists; split; reflexivity. }
  destruct Hsel as (monitor & Hsel & Hchk). exists monitor.
  split; [exact Hsel|]. split; [exact Hchk|].
  intros value s2 Hrt Hready.
  destruct (probes_keep_aggregate E st st s2 monitor true value Hchk Hrt) as [Hagg _].
  destruct (log_result_returns (s_name server) (c_name check) true (Some value) E s2 Hready)
    as [s3 Hlog]; [now rewrite Hagg|].
  destruct (log_line_returns (s_name server) (c_name check) true (Some value) E)
    as [line Hline].
  destruct (log_result_recorded _ _ _ _ E s2 s3 line Hline Hlog) as (Hout & _).
  rewrite Hagg in Hout.
  exists s3. split; [exact Hlog|]. split; [exact Hout|]. split.
  - rewrite (run_check_classified E st st s2 s3 server check monitor true value
               Hsel Hchk Hrt Hlog).
    unfold try_except. rewrite escalate_without_limit by assumption. reflexivity.
  - now destruct (classified_trace E st st s2 s3 monitor (s_name server) (c_name check)
                    true value Hchk Hrt Hlog) as [? _].
Qed.

Lemma resource_check_without_limit_witness :
  exists monitor,
    CheckManager.select_monitor Fleet.web1 Outage.load_check Fleet.healthy_env (initial_state [])
    = (Ok (Some monitor), initial_state [])
    /\ monitor_check monitor Fleet.healthy_env (initial_state []) = (Ok true, initial_state [])
    /\ forall value s2,
        monitor_response_time monitor Fleet.healthy_env (initial_state []) = (Ok value, s2) ->
        exists s3,
          CheckManager.log_result "WEB1" "LOAD" true (Some value) Fleet.healthy_env s2
          = (Ok tt, s3)
          /\ outcomes_of "WEB1" (st_aggregate s3)
             = [CheckManager.outcome_of "LOAD" true (Some value)]
          /\ CheckManager.run_check Fleet.web1 Outage.load_check Fleet.healthy_env (initial_state [])
             = (Ok tt, set_console (fun c => c ++ [(ERROR, "'LOAD'")])%list s3)
          /\ st_trace s3 = [].
Proof.
  assert (Hns : holds_no_string "WEB1" (st_aggregate (initial_state [])))
    by (intros text H; discriminate).
  destruct (resource_check_without_limit Fleet.web1 Outage.load_check Fleet.healthy_env
              (initial_state []) (or_introl eq_refl) eq_refl Hns)
    as (monitor & Hsel & Hchk & Hrun).
  exists monitor. split; [exact Hsel|]. split; [exact Hchk|].
  intros value s2 Hrt. apply (Hrun value s2 Hrt).
  unfold log_ready. apply orb_true_r.
Defined.

(** ** A resource over its limit *)

(** X24.  From the measure to the warning.  For a check of type [cpu],
    [ram] or [disk_space] whose name has a limit in [resourse_limits], while
    the relay accepts the posts, and provided the measure returns, the
    logger of the server can take the record and the key of the server does
    not hold a string: when the measured value reaches the limit,
    [run_check] records a successful outcome with the value rounded to three
    decimals and sends every chat one warning that shows the value as it
    was measured; when the value is below the limit, nothing is sent and
    nothing is escalated. *)
Theorem resource_over_limit_warns (server : ServerConfig) (check : CheckConfig)
  (limit : pynum) (E : env) (st : state) :
  In (c_type check) resource_type_names ->
  dict_get (c_name check) (resourse_limits (e_config E)) = Some limit ->
  holds_no_string (s_name server) (st_aggregate st) ->
  (forall n id message, w_post (e_world E) n alert_url id message = Ok tt) ->
  exists monitor,
    CheckManager.select_monitor server check E st = (Ok (Some monitor), st)
    /\ forall value s2,
        monitor_response_time monitor E st = (Ok value, s2) ->
        log_ready E (s_name server) s2 = true ->
        let run := CheckManager.run_check server check E st in
        let shown := match value with
                     | PInt z => PyStr.of_Z z
                     | PFloat q => w_float_repr (e_world E) q
                     end in
        let message :=
          ("⚠️УВАГА" ++ PyStr.nl ++ PyStr.nl ++ s_name server ++ ": " ++ c_name check
           ++ " = " ++ shown)%string in
        fst run = Ok tt
        /\ outcomes_of (s_name server) (st_aggregate (snd run))
           = (outcomes_of (s_name server) (st_aggregate st)
              ++ [CheckManager.outcome_of (c_name check) true (Some value)])%list
        /\ (if py_ge value limit
            then st_posts (snd run)
                 = (st_posts st ++ map (fun id => (id, message)) (chats (e_config E)))%list
                 /\ new_events st (snd run)
                    = [EvHandleWarning (s_name server) (c_name check) value;
                       EvStrategy NotifyWarningStrategy (s_name server) (c_name check)]
            else st_posts (snd run) = st_posts st /\ new_events st (snd run) = []).
Proof.
  intros Htype Hlimit Hns Hpost.
  assert (Hsel : exists monitor,
             CheckManager.select_monitor server check E st = (Ok (Some monitor), st)
             /\ monitor_check monitor E st = (Ok true, st)).
  { unfold CheckManager.select_monitor.
    destruct Htype as [<-|[<-|[<-|[]]]]; eexists; split; reflexivity. }
  destruct Hsel as (monitor & Hsel & Hchk). exists monitor.
  split; [exact Hsel|].
  intros value s2 Hrt Hready.
  destruct (probes_keep_aggregate E st st s2 monitor true value Hchk Hrt) as [Hagg _].
  destruct (log_result_returns (s_name server) (c_name check) true (Some value) E s2 Hready)
    as [s3 Hlog]; [now rewrite Hagg|].
  destruct (log_line_returns (s_name server) (c_name check) true (Some value) E)
    as [line Hline].
  destruct (log_result_recorded _ _ _ _ E s2 s3 line Hline Hlog) as (Hout & _).
  rewrite Hagg in Hout.
  destruct (classified_trace E st st s2 s3 monitor (s_name server) (c_name check)
              true value Hchk Hrt Hlog) as (Htrace3 & Hposts3 & _).
  assert (Hin : PyStr.py_in (c_type check) CheckManager.resource_types = true).
  { destruct Htype as [<-|[<-|[<-|[]]]]; reflexivity. }
  assert (Hesc : CheckManager.escalate server check true value E s3
                 = if py_ge value limit
                   then CheckManager.handle_warning (s_name server) (c_name check) value E s3
                   else (Ok tt, s3)).
  { unfold CheckManager.escalate. rewrite Hin. cbn [negb].
    unfold bind, global. cbv beta iota. rewrite Hlimit. cbn [subscript_value ret].
    destruct (py_ge value limit); reflexivity. }
  assert (Hall : CheckManager.run_check server check E st
                 = try_except (CheckManager.escalate server check true value)
                     (fun e => logging_error (exn_str e)) E s3)
    by exact (run_check_classified E st st s2 s3 server check monitor true value
                Hsel Hchk Hrt Hlog).
  cbv zeta. rewrite Hall. unfold try_except. rewrite Hesc.
  destruct (py_ge value limit).
  - destruct (handle_warning_runs (s_name server) (c_name check) value E s3 Hpost)
      as (s4 & Hrun & Hposts & _ & Htrace).
    cbv zeta in Hposts. rewrite Hrun. cbn [fst snd].
    pose proof (handle_warning_effect (s_name server) (c_name check) value E s3) as [Hv _].
    rewrite Hrun in Hv. cbn [snd] in Hv. unfold handler_view in Hv.
    injection Hv as Hagg4 _ _ _.
    split; [reflexivity|]. split; [now rewrite Hagg4|]. split.
    + now rewrite Hposts, Hposts3.
    + apply new_events_app. now rewrite Htrace, Htrace3.
  - cbn [fst snd]. split; [reflexivity|]. split; [exact Hout|]. split; [exact Hposts3|].
    unfold new_events. rewrite Htrace3. apply skipn_all.
Qed.

Lemma resource_over_limit_warns_witness :
  exists monitor,
    CheckManager.select_monitor Fleet.web1 Fleet.cpu_check Fleet.healthy_env (initial_state [])
    = (Ok (Some monitor), initial_state [])
    /\ forall value s2,
        monitor_response_time monitor Fleet.healthy_env (initial_state []) = (Ok value, s2) ->
        let run := CheckManager.run_check Fleet.web1 Fleet.cpu_check Fleet.healthy_env
                     (initial_state []) in
        let shown := match value with
                     | PInt z => PyStr.of_Z z
                     | PFloat q => Fleet.float_repr q
                     end in
        let message :=
          ("⚠️УВАГА" ++ PyStr.nl ++ PyStr.nl ++ "WEB1" ++ ": " ++ "CPU"
           ++ " = " ++ shown)%string in
        fst run = Ok tt
        /\ outcomes_of "WEB1" (st_aggregate (snd run))
           = [CheckManager.outcome_of "CPU" true (Some value)]
        /\ (if py_ge value (PInt 80)
            then st_posts (snd run) = map (fun id => (id, message)) [1001%Z; 1002%Z]
                 /\ new_events (initial_state []) (snd run)
                    = [EvHandleWarning "WEB1" "CPU" value;
                       EvStrategy NotifyWarningStrategy "WEB1" "CPU"]
            else st_posts (snd run) = [] /\ new_events (initial_state []) (snd run) = []).
Proof.
  assert (Hns : holds_no_string "WEB1" (st_aggregate (initial_state [])))
    by (intros text H; discriminate).
  destruct (resource_over_limit_warns Fleet.web1 Fleet.cpu_check (PInt 80) Fleet.healthy_env
              (initial_state []) (or_introl eq_refl) eq_refl Hns (fun _ _ _ => eq_refl))
    as (monitor & Hsel & Hrun).
  exists monitor. split; [exact Hsel|].
  intros value s2 Hrt. apply (Hrun value s2 Hrt).
  unfold log_ready. apply orb_true_r.
Defined.

(** ** Reading back what [json.dumps] wrote *)

Lemma length_append (a b : string) :
  String.length (a ++ b) = (String.length a + String.length b)%nat.
Proof. induction a as [|c a IH]; simpl; [reflexivity|now rewrite IH]. Qed.

Lemma arr_text (level : nat) (x : json) (xs : list json) :
  Json.encode level (JArr (x :: xs))
  = "[" ++ Json.newline_indent (S level) ++ Json.encode (S level) x
    ++ JsonText.items_tail level xs ++ Json.newline_indent level ++ "]".
Proof. reflexivity. Qed.

Lemma obj_text (level : nat) (k : string) (x : json) (xs : list (string * json)) :
  Json.encode level (JObj ((k, x) :: xs))
  = "{" ++ Json.newline_indent (S level) ++ Json.encode_string k ++ ": "
    ++ Json.encode (S level) x
    ++ JsonText.members_tail level xs ++ Json.newline_indent level ++ "}".
Proof. reflexivity. Qed.

Lemma parse_number_stages (s : string) :
  Json.parse_number s
  = let (sign, s1) := JsonText.number_sign s in
    match s1 with
    | String c r =>
        if Json.is_digit c then
          let (int_part, s2) :=
            if Ascii.eqb c "0" then ("0", r) else Json.span_digits s1 in
          let (frac, s3) := JsonText.number_fraction s2 in
          let (expo, s4) := JsonText.number_exponent s3 in
          Some (sign ++ int_part ++ frac ++ expo, s4)
        else None
    | EmptyString => None
    end.
Proof. reflexivity. Qed.

(** *** String literals *)

Lemma append_nil_r (s : string) : s ++ EmptyString = s.
Proof. induction s as [|c s IH]; simpl; [reflexivity|now rewrite IH]. Qed.

Lemma concat_cons (x : string) (l : list string) :
  String.concat EmptyString (x :: l) = x ++ String.concat EmptyString l.
Proof. destruct l; simpl; [now rewrite append_nil_r|reflexivity]. Qed.

Lemma hex_value_digit (d : N) :
  (d < 16)%N -> Json.hex_value (Json.hex_digit d) = Some d.
Proof.
  intros H. destruct d as [|p]; [reflexivity|].
  do 4 (try destruct p as [p|p|]); try (exfalso; lia); reflexivity.
Qed.

Lemma nibble_small (n : N) : (N.land n 15 < 16)%N.
Proof.
  change 15%N with (N.ones 4). rewrite N.land_ones.
  apply N.mod_lt. discriminate.
Qed.

Lemma nibbles (n : N) :
  (n < 65536)%N ->
  (N.land (N.shiftr n 12) 15 * 4096 + N.land (N.shiftr n 8) 15 * 256
   + N.land (N.shiftr n 4) 15 * 16 + N.land n 15 = n)%N.
Proof.
  intros H. change 15%N with (N.ones 4). rewrite !N.land_ones, !N.shiftr_div_pow2.
  change (2 ^ 12)%N with 4096%N. change (2 ^ 8)%N with 256%N. change (2 ^ 4)%N with 16%N.
  zify. Z.to_euclidean_division_equations. lia.
Qed.

Lemma read_hex4_hex4 (n : N) (r : string) :
  (n < 65536)%N -> Json.read_hex4 (Json.hex4 n ++ r) = Some (n, r).
Proof.
  intros H. unfold Json.hex4. cbn [append]. unfold Json.read_hex4.
  rewrite !hex_value_digit by apply nibble_small.
  now rewrite nibbles.
Qed.
(** Evaluates the tests that the scanner makes on a character of the
    text that is known. *)
Ltac known_char c :=
  lazymatch c with
  | Ascii _ _ _ _ _ _ _ _ => idtac
  | ascii_of_nat _ => idtac
  end.

Ltac scan_tests :=
  repeat match goal with
         | |- context [(N_of_ascii ?c =? ?k)%N] =>
             known_char c;
             let b := eval vm_compute in (N_of_ascii c =? k)%N in
             change (N_of_ascii c =? k)%N with b
         | |- context [(N_of_ascii ?c <? ?k)%N] =>
             known_char c;
             let b := eval vm_compute in (N_of_ascii c <? k)%N in
             change (N_of_ascii c <? k)%N with b
         end;
  cbv iota.

Lemma parse_string_bmp (fuel : nat) (u : N) (tail t rest : string) :
  (u < 65536)%N ->
  Json.is_high_surrogate u = false ->
  Json.parse_string fuel tail = Some (t, rest) ->
  Json.parse_string (S fuel) ("\u" ++ Json.hex4 u ++ tail) = Some (Utf8.encode1 u ++ t, rest).
Proof.
  intros Hu Hhigh H.
  change ("\u" ++ Json.hex4 u ++ tail)
    with (String (ascii_of_nat 92) (String "u" (Json.hex4 u ++ tail))).
  cbn [Json.parse_string]. scan_tests.
  rewrite read_hex4_hex4 by exact Hu. rewrite Hhigh. cbn [andb].
  destruct tail as [|b1 [|b2 r3]]; rewrite H; reflexivity.
Qed.

Lemma parse_string_pair (fuel : nat) (hi lo : N) (tail t rest : string) :
  Json.is_high_surrogate hi = true ->
  Json.is_low_surrogate lo = true ->
  Json.parse_string fuel tail = Some (t, rest) ->
  Json.parse_string (S fuel) ("\u" ++ Json.hex4 hi ++ "\u" ++ Json.hex4 lo ++ tail)
  = Some (Utf8.encode1 (65536 + (hi - 55296) * 1024 + (lo - 56320)) ++ t, rest).
Proof.
  intros Hhi Hlo H.
  assert (Hhi' : (hi < 65536)%N).
  { unfold Json.is_high_surrogate in Hhi. apply andb_true_iff in Hhi as [_ Hhi].
    apply N.leb_le in Hhi. lia. }
  assert (Hlo' : (lo < 65536)%N).
  { unfold Json.is_low_surrogate in Hlo. apply andb_true_iff in Hlo as [_ Hlo].
    apply N.leb_le in Hlo. lia. }
  change ("\u" ++ Json.hex4 hi ++ "\u" ++ Json.hex4 lo ++ tail)
    with (String (ascii_of_nat 92)
            (String "u" (Json.hex4 hi
                         ++ String (ascii_of_nat 92) (String "u" (Json.hex4 lo ++ tail))))).
  cbn [Json.parse_string]. scan_tests.
  rewrite read_hex4_hex4 by exact Hhi'. rewrite Hhi. scan_tests. cbn [andb].
  rewrite read_hex4_hex4 by exact Hlo'. rewrite Hlo, H. reflexivity.
Qed.

Lemma scalar_not_high (cp : N) :
  JsonText.scalar cp = true -> Json.is_high_surrogate cp = false.
Proof.
  unfold JsonText.scalar, Json.is_high_surrogate. intros H.
  apply orb_true_iff in H as [H|H].
  - apply N.ltb_lt in H. apply andb_false_iff. left. apply N.leb_gt. exact H.
  - apply andb_true_iff in H as [H _]. apply N.leb_le in H.
    apply andb_false_iff. right. apply N.leb_gt. lia.
Qed.

Lemma surrogate_pair (cp : N) :
  (65536 <= cp)%N -> (cp < 1114112)%N ->
  let v := (cp - 65536)%N in
  Json.is_high_surrogate (55296 + N.shiftr v 10) = true
  /\ Json.is_low_surrogate (56320 + N.land v 1023) = true
  /\ (65536 + (55296 + N.shiftr v 10 - 55296) * 1024 + (56320 + N.land v 1023 - 56320) = cp)%N.
Proof.
  intros Hlo Hhi v.
  assert (Hv : (v < 1048576)%N) by (unfold v; lia).
  assert (Hs : (N.shiftr v 10 = v / 1024)%N)
    by (rewrite N.shiftr_div_pow2; reflexivity).
  assert (Hl : (N.land v 1023 = v mod 1024)%N)
    by (change 1023%N with (N.ones 10); rewrite N.land_ones; reflexivity).
  rewrite Hs, Hl.
  assert (Hq : (v / 1024 < 1024)%N) by (apply N.Div0.div_lt_upper_bound; lia).
  assert (Hr : (v mod 1024 < 1024)%N) by (apply N.mod_lt; discriminate).
  pose proof (N.div_mod v 1024 ltac:(discriminate)) as Hdm.
  unfold Json.is_high_surrogate, Json.is_low_surrogate.
  repeat split.
  - apply andb_true_iff. split; apply N.leb_le; lia.
  - apply andb_true_iff. split; apply N.leb_le; lia.
  - unfold v in *. lia.
Qed.

(** One code point of a string literal, written by [json.dumps], is read
    back by the scanner as the bytes of that code point. *)
Lemma parse_string_cp (fuel : nat) (cp : N) (tail t rest : string) :
  JsonText.scalar cp = true ->
  Json.parse_string fuel tail = Some (t, rest) ->
  Json.parse_string (S fuel) (Json.escape_cp cp ++ tail) = Some (Utf8.encode1 cp ++ t, rest).
Proof.
  intros Hsc H. unfold Json.escape_cp.
  destruct (cp =? 34)%N eqn:E34.
  { apply N.eqb_eq in E34. subst cp. simpl. rewrite H. reflexivity. }
  destruct (cp =? 92)%N eqn:E92.
  { apply N.eqb_eq in E92. subst cp. simpl. rewrite H. reflexivity. }
  destruct (cp =? 10)%N eqn:E10.
  { apply N.eqb_eq in E10. subst cp. simpl. rewrite H. reflexivity. }
  destruct (cp =? 13)%N eqn:E13.
  { apply N.eqb_eq in E13. subst cp. simpl. rewrite H. reflexivity. }
  destruct (cp =? 9)%N eqn:E9.
  { apply N.eqb_eq in E9. subst cp. simpl. rewrite H. reflexivity. }
  destruct (cp =? 8)%N eqn:E8.
  { apply N.eqb_eq in E8. subst cp. simpl. rewrite H. reflexivity. }
  destruct (cp =? 12)%N eqn:E12.
  { apply N.eqb_eq in E12. subst cp. simpl. rewrite H. reflexivity. }
  destruct ((32 <=? cp)%N && (cp <=? 126)%N) eqn:Eprint.
  { apply andb_true_iff in Eprint as [Elo Ehi].
    apply N.leb_le in Elo, Ehi.
    cbn [append Json.parse_string].
    rewrite N_ascii_embedding by lia.
    rewrite E34, E92.
    assert (Hlt : (cp <? 32)%N = false) by (apply N.ltb_ge; lia).
    rewrite Hlt, H. unfold Utf8.encode1.
    assert (H128 : (cp <? 128)%N = true) by (apply N.ltb_lt; lia).
    rewrite H128. reflexivity. }
  destruct (cp <? 65536)%N eqn:Ebmp.
  - apply N.ltb_lt in Ebmp. rewrite append_assoc_string.
    apply parse_string_bmp; [exact Ebmp|apply scalar_not_high; exact Hsc|exact H].
  - apply N.ltb_ge in Ebmp.
    assert (Hmax : (cp < 1114112)%N).
    { unfold JsonText.scalar in Hsc. apply orb_true_iff in Hsc as [Hsc|Hsc].
      - apply N.ltb_lt in Hsc. lia.
      - apply andb_true_iff in Hsc as [_ Hsc]. now apply N.ltb_lt in Hsc. }
    destruct (surrogate_pair cp Ebmp Hmax) as (Hhi & Hlo & Hcp).
    rewrite !append_assoc_string.
    rewrite (parse_string_pair fuel _ _ tail t rest Hhi Hlo H).
    cbv zeta in Hcp. rewrite Hcp. reflexivity.
Qed.

Lemma escape_cp_length (cp : N) : (1 <= String.length (Json.escape_cp cp))%nat.
Proof.
  unfold Json.escape_cp.
  repeat match goal with
         | |- context [if ?b then _ else _] => destruct b
         end; simpl; lia.
Qed.

Lemma escaped_length (cps : list N) :
  (List.length cps
   <= String.length (String.concat EmptyString (map Json.escape_cp cps)))%nat.
Proof.
  induction cps as [|cp cps IH]; [simpl; lia|].
  cbn [map]. rewrite concat_cons, length_append. cbn [List.length].
  pose proof (escape_cp_length cp). lia.
Qed.

(** The body of a string literal and its closing quote. *)
Lemma parse_string_escaped (cps : list N) (rest : string) (fuel : nat) :
  forallb JsonText.scalar cps = true ->
  (List.length cps < fuel)%nat ->
  Json.parse_string fuel
    (String.concat EmptyString (map Json.escape_cp cps) ++ Json.dq ++ rest)
  = Some (String.concat EmptyString (map Utf8.encode1 cps), rest).
Proof.
  revert fuel. induction cps as [|cp cps IH]; intros fuel Hsc Hfuel.
  - destruct fuel as [|fuel]; [simpl in Hfuel; lia|]. reflexivity.
  - destruct fuel as [|fuel]; [simpl in Hfuel; lia|].
    cbn [forallb] in Hsc. apply andb_true_iff in Hsc as [Hcp Hsc].
    cbn [map]. rewrite !concat_cons, append_assoc_string.
    apply parse_string_cp; [exact Hcp|].
    apply IH; [exact Hsc|]. cbn [List.length] in Hfuel. lia.
Qed.

Lemma encode_string_text (s : string) (rest : string) :
  Json.encode_string s ++ rest
  = String (ascii_of_nat 34)
      (String.concat EmptyString (map Json.escape_cp (Utf8.decode s)) ++ Json.dq ++ rest).
Proof.
  unfold Json.encode_string. rewrite !append_assoc_string. reflexivity.
Qed.

(** A string literal at the head of a text is read back as the string. *)
Lemma parse_literal (s rest : string) :
  JsonText.well_encoded s = true ->
  let r := String.concat EmptyString (map Json.escape_cp (Utf8.decode s))
           ++ Json.dq ++ rest in
  Json.parse_string (S (String.length r)) r = Some (s, rest).
Proof.
  intros H. cbv zeta. unfold JsonText.well_encoded in H.
  apply andb_true_iff in H as [Hsc Heq]. apply String.eqb_eq in Heq.
  rewrite parse_string_escaped; [now rewrite Heq|exact Hsc|].
  rewrite length_append. pose proof (escaped_length (Utf8.decode s)). lia.
Qed.

(** *** Numbers *)

Lemma ends_value_cases (rest : string) :
  JsonText.ends_value rest = true ->
  rest = EmptyString
  \/ exists r, rest = String "," r \/ rest = String (ascii_of_nat 10) r.
Proof.
  destruct rest as [|c r]; [now left|]. cbn [JsonText.ends_value]. intros H.
  right. exists r. apply orb_true_iff in H as [H|H]; apply Ascii.eqb_eq in H; subst c; auto.
Qed.

Ltac split_rest H :=
  apply ends_value_cases in H; destruct H as [->|[? [->| ->]]].

Lemma number_sign_eqb (s : string) :
  JsonText.number_sign s
  = match s with
    | String c r => if Ascii.eqb c "-" then ("-", r) else (EmptyString, s)
    | EmptyString => (EmptyString, s)
    end.
Proof.
  destruct s as [|c r]; [reflexivity|].
  destruct c as [[] [] [] [] [] [] [] []]; reflexivity.
Qed.

Lemma exponent_sign_eqb (s : string) :
  JsonText.exponent_sign s
  = match s with
    | String c r =>
        if Ascii.eqb c "+" then ("+", r)
        else if Ascii.eqb c "-" then ("-", r) else (EmptyString, s)
    | EmptyString => (EmptyString, s)
    end.
Proof.
  destruct s as [|c r]; [reflexivity|].
  destruct c as [[] [] [] [] [] [] [] []]; reflexivity.
Qed.

Lemma number_fraction_eqb (s : string) :
  JsonText.number_fraction s
  = match s with
    | String c r2 =>
        if Ascii.eqb c "." then
          let (d, rest) := Json.span_digits r2 in
          match d with
          | EmptyString => (EmptyString, s)
          | _ => ("." ++ d, rest)
          end
        else (EmptyString, s)
    | EmptyString => (EmptyString, s)
    end.
Proof.
  destruct s as [|c r]; [reflexivity|].
  destruct c as [[] [] [] [] [] [] [] []]; reflexivity.
Qed.

Lemma span_digits_app (s rest : string) :
  JsonText.ends_value rest = true ->
  Json.span_digits (s ++ rest)
  = (fst (Json.span_digits s), snd (Json.span_digits s) ++ rest).
Proof.
  intros H. induction s as [|c s IH].
  - split_rest H; reflexivity.
  - cbn [append Json.span_digits]. destruct (Json.is_digit c); [|reflexivity].
    rewrite IH. destruct (Json.span_digits s); reflexivity.
Qed.

Lemma number_sign_app (s rest : string) :
  JsonText.ends_value rest = true ->
  JsonText.number_sign (s ++ rest)
  = (fst (JsonText.number_sign s), snd (JsonText.number_sign s) ++ rest).
Proof.
  intros H. rewrite !number_sign_eqb. destruct s as [|c s].
  - split_rest H; reflexivity.
  - cbn [append]. destruct (Ascii.eqb c "-"); reflexivity.
Qed.

Lemma exponent_sign_app (s rest : string) :
  JsonText.ends_value rest = true ->
  JsonText.exponent_sign (s ++ rest)
  = (fst (JsonText.exponent_sign s), snd (JsonText.exponent_sign s) ++ rest).
Proof.
  intros H. rewrite !exponent_sign_eqb. destruct s as [|c s].
  - split_rest H; reflexivity.
  - cbn [append]. destruct (Ascii.eqb c "+"); [reflexivity|].
    destruct (Ascii.eqb c "-"); reflexivity.
Qed.

Lemma number_fraction_app (s rest : string) :
  JsonText.ends_value rest = true ->
  JsonText.number_fraction (s ++ rest)
  = (fst (JsonText.number_fraction s), snd (JsonText.number_fraction s) ++ rest).
Proof.
  intros H. rewrite !number_fraction_eqb. destruct s as [|c s].
  - split_rest H; reflexivity.
  - cbn [append]. destruct (Ascii.eqb c "."); [|reflexivity].
    rewrite span_digits_app by exact H.
    destruct (Json.span_digits s) as [d r]. cbn [fst snd]. destruct d; reflexivity.
Qed.

Lemma number_exponent_app (s rest : string) :
  JsonText.ends_value rest = true ->
  JsonText.number_exponent (s ++ rest)
  = (fst (JsonText.number_exponent s), snd (JsonText.number_exponent s) ++ rest).
Proof.
  intros H. destruct s as [|c s].
  - split_rest H; reflexivity.
  - cbn [append JsonText.number_exponent].
    destruct (Ascii.eqb c "e" || Ascii.eqb c "E"); [|reflexivity].
    rewrite exponent_sign_app by exact H.
    destruct (JsonText.exponent_sign s) as [sg r4]. cbn [fst snd].
    rewrite span_digits_app by exact H.
    destruct (Json.span_digits r4) as [d r]. cbn [fst snd]. destruct d; reflexivity.
Qed.

(** What follows a number in the text does not change the number that
    the scanner reads. *)
Lemma parse_number_app (s rest l r : string) :
  JsonText.ends_value rest = true ->
  Json.parse_number s = Some (l, r) ->
  Json.parse_number (s ++ rest) = Some (l, r ++ rest).
Proof.
  intros H. rewrite !parse_number_stages.
  rewrite number_sign_app by exact H.
  destruct (JsonText.number_sign s) as [sign s1]. cbn [fst snd].
  destruct s1 as [|c r0]; [discriminate|]. cbn [append].
  destruct (Json.is_digit c); [|discriminate].
  assert (Hint : (if Ascii.eqb c "0" then ("0", r0 ++ rest)
                  else Json.span_digits (String c (r0 ++ rest)))
                 = (fst (if Ascii.eqb c "0" then ("0", r0) else Json.span_digits (String c r0)),
                    snd (if Ascii.eqb c "0" then ("0", r0) else Json.span_digits (String c r0))
                    ++ rest)).
  { destruct (Ascii.eqb c "0"); [reflexivity|].
    apply (span_digits_app (String c r0) rest H). }
  rewrite Hint.
  destruct (if Ascii.eqb c "0" then ("0", r0) else Json.span_digits (String c r0))
    as [int_part s2].
  cbn [fst snd]. rewrite number_fraction_app by exact H.
  destruct (JsonText.number_fraction s2) as [frac s3]. cbn [fst snd].
  rewrite number_exponent_app by exact H.
  destruct (JsonText.number_exponent s3) as [expo s4]. cbn [fst snd].
  intros Heq. injection Heq as <- <-. reflexivity.
Qed.

Lemma number_head (c : ascii) (r : string) (x : string * string) :
  Json.parse_number (String c r) = Some x ->
  N_of_ascii c = 45%N \/ (48 <= N_of_ascii c <= 57)%N.
Proof.
  rewrite parse_number_stages, number_sign_eqb.
  destruct (Ascii.eqb c "-") eqn:E.
  - apply Ascii.eqb_eq in E. subst c. now left.
  - destruct (Json.is_digit c) eqn:Hd; [|discriminate]. intros _. right.
    unfold Json.is_digit in Hd. apply andb_true_iff in Hd as [H1 H2].
    apply Nat.leb_le in H1, H2. unfold nat_of_ascii in *. lia.
Qed.

(** A number lexeme at the head of a text is read back as that number. *)
Lemma parse_value_number (lexeme rest : string) (fuel : nat) :
  JsonText.is_number lexeme = true ->
  JsonText.ends_value rest = true ->
  Json.parse_value (S fuel) (lexeme ++ rest) = Some (JNum lexeme, rest).
Proof.
  intros Hnum Hrest. unfold JsonText.is_number in Hnum.
  destruct (Json.parse_number lexeme) as [[l r]|] eqn:Hp; [|discriminate].
  destruct r; [|discriminate]. apply String.eqb_eq in Hnum. subst l.
  pose proof (parse_number_app lexeme rest lexeme EmptyString Hrest Hp) as Happ.
  cbn [append] in Happ.
  destruct lexeme as [|c lexeme']; [discriminate|].
  pose proof (number_head c lexeme' _ Hp) as Hc.
  cbn [append] in *. cbn [Json.parse_value].
  assert (T : forall k, (k <> 45)%N -> (k < 48 \/ 57 < k)%N -> (N_of_ascii c =? k)%N = false).
  { intros k H1 H2. apply N.eqb_neq. lia. }
  rewrite !T by lia. rewrite Happ. reflexivity.
Qed.

(** *** Arrays and objects *)

Lemma json_nested_ind (P : json -> Prop) :
  P JNull ->
  (forall b, P (JBool b)) ->
  (forall lexeme, P (JNum lexeme)) ->
  (forall s, P (JStr s)) ->
  (forall items, Forall P items -> P (JArr items)) ->
  (forall members, Forall (fun kv => P (snd kv)) members -> P (JObj members)) ->
  forall v, P v.
Proof.
  intros Hnull Hbool Hnum Hstr Harr Hobj.
  fix IH 1. intros [| b | lexeme | s | items | members].
  - exact Hnull.
  - apply Hbool.
  - apply Hnum.
  - apply Hstr.
  - apply Harr. revert items. fix IHl 1. intros [|x items].
    + constructor.
    + constructor; [apply IH|apply IHl].
  - apply Hobj. revert members. fix IHl 1. intros [|[k x] members].
    + constructor.
    + constructor; [apply IH|apply IHl].
Qed.

Lemma skip_ws_spaces (n : nat) (t : string) :
  Json.skip_ws (Json.spaces n ++ t) = Json.skip_ws t.
Proof. induction n as [|n IH]; [reflexivity|exact IH]. Qed.

Lemma skip_ws_indent (level : nat) (t : string) :
  Json.skip_ws (Json.newline_indent level ++ t) = Json.skip_ws t.
Proof.
  unfold Json.newline_indent. rewrite append_assoc_string.
  change (PyStr.nl ++ Json.spaces (4 * level) ++ t)
    with (String (ascii_of_nat 10) (Json.spaces (4 * level) ++ t)).
  cbn [Json.skip_ws]. change (Json.is_ws (ascii_of_nat 10)) with true. cbv iota.
  apply skip_ws_spaces.
Qed.

Lemma skip_ws_head (s : string) : JsonText.head_ok s = true -> Json.skip_ws s = s.
Proof.
  destruct s as [|c r]; [discriminate|]. cbn [JsonText.head_ok Json.skip_ws].
  destruct (Json.is_ws c); [discriminate|reflexivity].
Qed.

Lemma encode_head_ok (level : nat) (v : json) (t : string) :
  JsonText.exchangeable v = true -> JsonText.head_ok (Json.encode level v ++ t) = true.
Proof.
  destruct v as [| [|] | lexeme | s | [|x items] | [|[k x] members]]; try reflexivity.
  cbn [JsonText.exchangeable Json.encode]. unfold JsonText.is_number.
  destruct (Json.parse_number lexeme) as [[l r]|] eqn:Hp; [|discriminate]. intros _.
  destruct lexeme as [|c lexeme']; [discriminate|].
  pose proof (number_head c lexeme' _ Hp) as Hc.
  cbn [append JsonText.head_ok].
  assert (Hws : Json.is_ws c = false).
  { unfold Json.is_ws, nat_of_ascii.
    repeat (apply orb_false_iff; split); apply Nat.eqb_neq; lia. }
  assert (Hb : Ascii.eqb c "]" = false).
  { apply Ascii.eqb_neq. intros ->. change (N_of_ascii "]") with 93%N in Hc. lia. }
  now rewrite Hws, Hb.
Qed.

Lemma encode_nonempty (level : nat) (v : json) :
  JsonText.exchangeable v = true -> (1 <= String.length (Json.encode level v))%nat.
Proof.
  intros H. pose proof (encode_head_ok level v EmptyString H) as Hh.
  rewrite append_nil_r in Hh. destruct (Json.encode level v); [discriminate|simpl; lia].
Qed.

Lemma parse_items_default (c : ascii) (r : string) (fuel : nat) (first : bool) :
  Ascii.eqb c "]" = false ->
  Json.parse_items (S fuel) (String c r) first
  = match Json.parse_value fuel (String c r) with
    | None => None
    | Some (v, r1) =>
        match Json.skip_ws r1 with
        | String "]" r2 => Some ([v], r2)
        | String "," r2 =>
            match Json.parse_items fuel (Json.skip_ws r2) false with
            | Some (vs, r3) => Some (v :: vs, r3)
            | None => None
            end
        | _ => None
        end
    end.
Proof.
  intros H. cbn [Json.parse_items].
  destruct c as [[] [] [] [] [] [] [] []]; try reflexivity. discriminate.
Qed.

Lemma dict_set_fresh {V : Type} (k : string) (v : V) (acc : list (string * V)) :
  existsb (String.eqb k) (map fst acc) = false ->
  dict_set k v acc = (acc ++ [(k, v)])%list.
Proof.
  induction acc as [|[k' v'] acc IH]; [reflexivity|].
  cbn [map fst existsb dict_set app]. intros H. apply orb_false_iff in H as [H1 H2].
  rewrite H1, IH by exact H2. reflexivity.
Qed.

Lemma distinct_fresh (l1 l2 : list string) (k : string) :
  JsonText.distinct (l1 ++ k :: l2)%list = true ->
  existsb (String.eqb k) l1 = false /\ JsonText.distinct (k :: l2) = true.
Proof.
  induction l1 as [|a l1 IH]; intros H.
  - split; [reflexivity|exact H].
  - cbn [app JsonText.distinct] in H. apply andb_true_iff in H as [Ha H].
    destruct (IH H) as [H1 H2]. split; [|exact H2].
    cbn [existsb]. rewrite H1. rewrite orb_false_r.
    apply negb_true_iff in Ha. rewrite existsb_app in Ha.
    apply orb_false_iff in Ha as [_ Ha]. cbn [existsb] in Ha.
    apply orb_false_iff in Ha as [Ha _]. now rewrite String.eqb_sym.
Qed.

(** The items of an array, from the first item to the closing bracket. *)
Lemma parse_items_encoded (level : nat) (xs : list json) :
  forall (x : json) (rest : string) (fuel : nat) (first : bool),
    Forall JsonText.reads_back (x :: xs) ->
    forallb JsonText.exchangeable (x :: xs) = true ->
    (String.length (Json.encode (S level) x ++ JsonText.items_tail level xs) < fuel)%nat ->
    Json.parse_items fuel
      (Json.encode (S level) x ++ JsonText.items_tail level xs
       ++ Json.newline_indent level ++ "]" ++ rest) first
    = Some (x :: xs, rest).
Proof.
  induction xs as [|y ys IH]; intros x rest fuel first Hback Hex Hfuel.
  - apply Forall_inv in Hback. cbn [forallb] in Hex. rewrite andb_true_r in Hex.
    change (JsonText.items_tail level []) with EmptyString in *.
    rewrite append_nil_r in Hfuel.
    destruct fuel as [|fuel]; [lia|].
    change (EmptyString ++ Json.newline_indent level ++ "]" ++ rest)
      with (Json.newline_indent level ++ "]" ++ rest).
    set (tail := Json.newline_indent level ++ "]" ++ rest).
    pose proof (encode_head_ok (S level) x tail Hex) as Hhead.
    destruct (Json.encode (S level) x ++ tail) as [|c r] eqn:Htext; [discriminate|].
    cbn [JsonText.head_ok] in Hhead. apply andb_true_iff in Hhead as [_ Hc].
    apply negb_true_iff in Hc. rewrite (parse_items_default c r fuel first Hc).
    rewrite <- Htext.
    rewrite (Hback (S level) tail fuel); [|reflexivity|lia].
    unfold tail. rewrite skip_ws_indent. reflexivity.
  - pose proof (Forall_inv Hback) as Hx. apply Forall_inv_tail in Hback.
    cbn [forallb] in Hex. apply andb_true_iff in Hex as [Hex Hexs].
    destruct fuel as [|fuel]; [lia|].
    change (JsonText.items_tail level (y :: ys))
      with ("," ++ Json.newline_indent (S level) ++ Json.encode (S level) y
            ++ JsonText.items_tail level ys) in *.
    set (tail := ("," ++ Json.newline_indent (S level) ++ Json.encode (S level) y
                  ++ JsonText.items_tail level ys)
                 ++ Json.newline_indent level ++ "]" ++ rest).
    pose proof (encode_head_ok (S level) x tail Hex) as Hhead.
    destruct (Json.encode (S level) x ++ tail) as [|c r] eqn:Htext; [discriminate|].
    cbn [JsonText.head_ok] in Hhead. apply andb_true_iff in Hhead as [_ Hc].
    apply negb_true_iff in Hc. rewrite (parse_items_default c r fuel first Hc).
    rewrite <- Htext.
    rewrite length_append in Hfuel.
    rewrite (Hx (S level) tail fuel); [|reflexivity|lia].
    unfold tail. rewrite !append_assoc_string.
    change ("," ++ Json.newline_indent (S level) ++ Json.encode (S level) y
            ++ JsonText.items_tail level ys ++ Json.newline_indent level ++ "]" ++ rest)
      with (String ","
              (Json.newline_indent (S level) ++ Json.encode (S level) y
               ++ JsonText.items_tail level ys ++ Json.newline_indent level ++ "]" ++ rest)).
    cbn [Json.skip_ws]. change (Json.is_ws ",") with false. cbv iota.
    rewrite skip_ws_indent, skip_ws_head
      by (apply encode_head_ok; cbn [forallb] in Hexs;
          now apply andb_true_iff in Hexs as [? _]).
    rewrite (IH y rest fuel false Hback Hexs); [reflexivity|].
    repeat (rewrite length_append in Hfuel; cbn [String.length] in Hfuel).
    rewrite length_append. lia.
Qed.

(** The members of an object, from the first key to the closing brace. *)
Lemma parse_members_encoded (level : nat) (ms : list (string * json)) :
  forall (k : string) (x : json) (rest : string) (fuel : nat) (first : bool)
         (acc : list (string * json)),
    Forall (fun kv => JsonText.reads_back (snd kv)) ((k, x) :: ms) ->
    forallb (fun kv : string * json =>
               let (k, x) := kv in JsonText.well_encoded k && JsonText.exchangeable x)
      ((k, x) :: ms) = true ->
    JsonText.distinct (map fst acc ++ k :: map fst ms)%list = true ->
    (String.length (Json.encode_string k ++ ": " ++ Json.encode (S level) x
                    ++ JsonText.members_tail level ms) < fuel)%nat ->
    Json.parse_members fuel
      (Json.encode_string k ++ ": " ++ Json.encode (S level) x
       ++ JsonText.members_tail level ms ++ Json.newline_indent level ++ "}" ++ rest)
      first acc
    = Some ((acc ++ (k, x) :: ms)%list, rest).
Proof.
  induction ms as [|[k' y] ms IH]; intros k x rest fuel first acc Hback Hex Hkeys Hfuel.
  - apply Forall_inv in Hback. cbn [snd] in Hback.
    cbn [forallb] in Hex. rewrite andb_true_r in Hex.
    apply andb_true_iff in Hex as [Hk Hx].
    destruct (distinct_fresh _ _ _ Hkeys) as [Hfresh _].
    change (JsonText.members_tail level []) with EmptyString in *.
    change (EmptyString ++ Json.newline_indent level ++ "}" ++ rest)
      with (Json.newline_indent level ++ "}" ++ rest).
    destruct fuel as [|fuel]; [lia|].
    set (tail := Json.newline_indent level ++ "}" ++ rest).
    rewrite encode_string_text. cbn [Json.parse_members]. scan_tests.
    rewrite andb_false_r.
    rewrite (parse_literal k (": " ++ Json.encode (S level) x ++ tail) Hk).
    change (": " ++ Json.encode (S level) x ++ tail)
      with (String ":" (String " " (Json.encode (S level) x ++ tail))).
    cbn [Json.skip_ws]. change (Json.is_ws ":") with false. cbv iota.
    cbn [Json.skip_ws]. change (Json.is_ws " ") with true. cbv iota.
    rewrite skip_ws_head by (apply encode_head_ok; exact Hx).
    repeat (rewrite length_append in Hfuel; cbn [String.length] in Hfuel).
    rewrite (Hback (S level) tail fuel); [|reflexivity|lia].
    unfold tail. rewrite skip_ws_indent.
    rewrite dict_set_fresh by exact Hfresh. reflexivity.
  - pose proof (Forall_inv Hback) as Hbx. cbn [snd] in Hbx. apply Forall_inv_tail in Hback.
    cbn [forallb] in Hex. apply andb_true_iff in Hex as [Hex Hexs].
    apply andb_true_iff in Hex as [Hk Hx].
    destruct (distinct_fresh _ _ _ Hkeys) as [Hfresh _].
    destruct fuel as [|fuel]; [lia|].
    change (JsonText.members_tail level ((k', y) :: ms))
      with ("," ++ Json.newline_indent (S level) ++ Json.encode_string k' ++ ": "
            ++ Json.encode (S level) y ++ JsonText.members_tail level ms) in *.
    set (next := Json.encode_string k' ++ ": " ++ Json.encode (S level) y
                 ++ JsonText.members_tail level ms) in *.
    set (tail := ("," ++ Json.newline_indent (S level) ++ next)
                 ++ Json.newline_indent level ++ "}" ++ rest).
    rewrite encode_string_text. cbn [Json.parse_members]. scan_tests.
    rewrite andb_false_r.
    rewrite (parse_literal k (": " ++ Json.encode (S level) x ++ tail) Hk).
    change (": " ++ Json.encode (S level) x ++ tail)
      with (String ":" (String " " (Json.encode (S level) x ++ tail))).
    cbn [Json.skip_ws]. change (Json.is_ws ":") with false. cbv iota.
    cbn [Json.skip_ws]. change (Json.is_ws " ") with true. cbv iota.
    rewrite skip_ws_head by (apply encode_head_ok; exact Hx).
    repeat (rewrite length_append in Hfuel; cbn [String.length] in Hfuel).
    rewrite (Hbx (S level) tail fuel); [|reflexivity|lia].
    unfold tail. rewrite !append_assoc_string.
    change ("," ++ Json.newline_indent (S level) ++ next
            ++ Json.newline_indent level ++ "}" ++ rest)
      with (String "," (Json.newline_indent (S level) ++ next
                        ++ Json.newline_indent level ++ "}" ++ rest)).
    cbn [Json.skip_ws]. change (Json.is_ws ",") with false. cbv iota.
    rewrite skip_ws_indent.
    assert (Hnext : Json.skip_ws (next ++ Json.newline_indent level ++ "}" ++ rest)
                    = next ++ Json.newline_indent level ++ "}" ++ rest).
    { unfold next. rewrite encode_string_text. reflexivity. }
    rewrite Hnext. rewrite dict_set_fresh by exact Hfresh.
    unfold next. rewrite !append_assoc_string.
    rewrite (IH k' y rest fuel false (acc ++ [(k, x)])%list Hback Hexs).
    + rewrite <- app_assoc. reflexivity.
    + rewrite map_app, <- app_assoc. exact Hkeys.
    + fold next. lia.
Qed.

Lemma forallb_Forall {A : Type} (f : A -> bool) (P : A -> Prop) (l : list A) :
  Forall (fun x => f x = true -> P x) l -> forallb f l = true -> Forall P l.
Proof.
  induction 1 as [|x l Hx Hl IH]; cbn [forallb]; intros H; constructor;
    apply andb_true_iff in H as [H1 H2]; auto.
Qed.

(** Every exchangeable document is read back from its text. *)
Lemma exchangeable_reads_back (v : json) :
  JsonText.exchangeable v = true -> JsonText.reads_back v.
Proof.
  induction v as [| b | lexeme | s | items IH | members IH] using json_nested_ind;
    intros Hex level rest fuel Hrest Hfuel.
  - destruct fuel as [|fuel]; [simpl in Hfuel; lia|]. reflexivity.
  - destruct fuel as [|fuel]; [destruct b; simpl in Hfuel; lia|]. destruct b; reflexivity.
  - cbn [Json.encode] in *.
    destruct fuel as [|fuel].
    + pose proof (encode_nonempty level (JNum lexeme) Hex) as Hn.
      cbn [Json.encode] in Hn. lia.
    + apply parse_value_number; assumption.
  - cbn [Json.encode JsonText.exchangeable] in *.
    destruct fuel as [|fuel]; [unfold Json.encode_string in Hfuel; simpl in Hfuel; lia|].
    rewrite encode_string_text. cbn [Json.parse_value]. scan_tests.
    rewrite (parse_literal s rest Hex). reflexivity.
  - cbn [JsonText.exchangeable] in Hex.
    pose proof (forallb_Forall _ _ items IH Hex) as Hback.
    destruct items as [|x xs].
    + destruct fuel as [|[|fuel]]; [simpl in Hfuel; lia|simpl in Hfuel; lia|]. reflexivity.
    + rewrite arr_text in *. destruct fuel as [|fuel]; [simpl in Hfuel; lia|].
      rewrite !append_assoc_string.
      change ("[" ++ Json.newline_indent (S level) ++ Json.encode (S level) x
              ++ JsonText.items_tail level xs ++ Json.newline_indent level ++ "]" ++ rest)
        with (String "["
                (Json.newline_indent (S level) ++ Json.encode (S level) x
                 ++ JsonText.items_tail level xs ++ Json.newline_indent level ++ "]" ++ rest)).
      cbn [Json.parse_value]. scan_tests. rewrite skip_ws_indent.
      rewrite skip_ws_head
        by (apply encode_head_ok; cbn [forallb] in Hex; now apply andb_true_iff in Hex as [? _]).
      rewrite (parse_items_encoded level xs x rest fuel true Hback Hex); [reflexivity|].
      repeat (rewrite length_append in Hfuel; cbn [String.length] in Hfuel).
      rewrite length_append. lia.
  - cbn [JsonText.exchangeable] in Hex. apply andb_true_iff in Hex as [Hkeys Hex].
    assert (Hback : Forall (fun kv => JsonText.reads_back (snd kv)) members).
    { clear Hkeys Hfuel. induction IH as [|[k x] ms Hx Hms IHms]; constructor.
      - cbn [forallb] in Hex. apply andb_true_iff in Hex as [Hkx _].
        apply andb_true_iff in Hkx as [_ Hxx]. exact (Hx Hxx).
      - apply IHms. cbn [forallb] in Hex. now apply andb_true_iff in Hex as [_ ?]. }
    destruct members as [|[k x] ms].
    + destruct fuel as [|[|fuel]]; [simpl in Hfuel; lia|simpl in Hfuel; lia|]. reflexivity.
    + rewrite obj_text in *. destruct fuel as [|fuel]; [simpl in Hfuel; lia|].
      rewrite !append_assoc_string.
      set (text := Json.encode_string k ++ ": " ++ Json.encode (S level) x
                   ++ JsonText.members_tail level ms
                   ++ Json.newline_indent level ++ "}" ++ rest).
      change ("{" ++ Json.newline_indent (S level) ++ text)
        with (String "{" (Json.newline_indent (S level) ++ text)).
      cbn [Json.parse_value]. scan_tests. rewrite skip_ws_indent.
      assert (Hbody : Json.skip_ws text = text).
      { unfold text. rewrite encode_string_text. reflexivity. }
      rewrite Hbody. unfold text.
      rewrite (parse_members_encoded level ms k x rest fuel true [] Hback Hex Hkeys);
        [reflexivity|].
      repeat (rewrite length_append in Hfuel; cbn [String.length] in Hfuel).
      repeat (rewrite length_append; cbn [String.length]). lia.
Qed.

(** [json.loads] reads back what [json.dumps] wrote with [indent=4]. *)
Lemma loads_dumps (v : json) :
  JsonText.exchangeable v = true -> Json.loads (Json.dumps v) = Some v.
Proof.
  intros Hex. unfold Json.loads, Json.dumps.
  pose proof (encode_head_ok 0 v EmptyString Hex) as Hhead.
  rewrite append_nil_r in Hhead. rewrite (skip_ws_head _ Hhead).
  pose proof (exchangeable_reads_back v Hex 0%nat EmptyString
                (S (String.length (Json.encode 0 v))) eq_refl ltac:(lia)) as H.
  rewrite append_nil_r in H. rewrite H. reflexivity.
Qed.

(** ** The snapshot, written and read back *)

Lemma flush_state (E : env) (s : state) :
  let s' := snd (CheckManager.save_aggregate_results E s) in
  fst (CheckManager.save_aggregate_results E s) = Ok tt
  /\ dict_get snapshot_path (st_files s')
     = Some (Json.dumps (CheckManager.snapshot_json (e_world E) (st_aggregate s')))
  /\ st_posts s' = st_posts s /\ st_ssh s' = st_ssh s
  /\ st_trace s' = (st_trace s ++ [EvFlush])%list.
Proof.
  cbv zeta.
  unfold CheckManager.save_aggregate_results, CheckManager.begin_flush,
    CheckManager.finish_flush, CheckManager.open_truncate, CheckManager.write_and_close,
    emit, external, library, modify, gets, bind.
  cbn [fst snd st_files st_aggregate st_posts st_ssh st_trace
         set_files set_aggregate set_trace set_tick].
  rewrite dict_get_set_same. repeat split.
Qed.

Lemma read_written (E : env) (s : state) (agg : list (string * aggval)) :
  dict_get snapshot_path (st_files s)
  = Some (Json.dumps (CheckManager.snapshot_json (e_world E) agg)) ->
  writable (e_world E) agg ->
  load_snapshot E s = (Ok (CheckManager.snapshot_json (e_world E) agg), s).
Proof.
  intros Hfile Hw. unfold load_snapshot, gets, bind. cbn [fst snd]. rewrite Hfile.
  rewrite (loads_dumps _ Hw). reflexivity.
Qed.

(** X25.  What the flush writes, [read_results] reads back: after
    [save_aggregate_results], and provided the aggregate is made of
    well-encoded strings, of numbers that print as JSON numbers and of
    distinct keys, [read_results] returns the document of the aggregate, key
    by key in insertion order, and [GET /results] answers it with status
    200. *)
Theorem read_results_after_flush (E : env) (s : state) :
  let s' := snd (CheckManager.save_aggregate_results E s) in
  let document := CheckManager.snapshot_json (e_world E) (st_aggregate s') in
  writable (e_world E) (st_aggregate s') ->
  Api.read_results E s' = (Ok document, s')
  /\ Routes.get_results E s' = (Ok {| r_body := document; r_status := 200 |}, s').
Proof.
  intros s' document Hw.
  destruct (flush_state E s) as (_ & Hfile & _).
  pose proof (read_written E s' (st_aggregate s') Hfile Hw) as Hread.
  unfold Routes.get_results, Api.read_results, bind. rewrite Hread.
  split; reflexivity.
Qed.

Lemma read_results_after_flush_witness :
  let s := set_aggregate (fun _ => Fleet.quiet_round) (initial_state []) in
  let s' := snd (CheckManager.save_aggregate_results Fleet.healthy_env s) in
  let document := CheckManager.snapshot_json Fleet.healthy (st_aggregate s') in
  Api.read_results Fleet.healthy_env s' = (Ok document, s')
  /\ Routes.get_results Fleet.healthy_env s' = (Ok {| r_body := document; r_status := 200 |}, s').
Proof.
  apply (read_results_after_flush Fleet.healthy_env
           (set_aggregate (fun _ => Fleet.quiet_round) (initial_state []))).
  vm_compute. reflexivity.
Defined.

Lemma snapshot_member (W : world) (name : string) (agg : list (string * aggval)) :
  dict_get name
    (map (fun kv : string * aggval =>
            (fst kv,
             match snd kv with
             | AList outcomes => JArr (map (CheckManager.outcome_json W) outcomes)
             | AStr s => JStr s
             end)) agg)
  = option_map (fun v => match v with
                         | AList outcomes => JArr (map (CheckManager.outcome_json W) outcomes)
                         | AStr s => JStr s
                         end) (dict_get name agg).
Proof.
  induction agg as [|[k v] agg IH]; [reflexivity|].
  cbn [map fst snd dict_get]. destruct (String.eqb name k); [reflexivity|exact IH].
Qed.

Lemma flush_aggregate (E : env) (s : state) :
  st_aggregate (snd (CheckManager.save_aggregate_results E s))
  = dict_set "last-check-time"
      (AStr (w_now (e_world E) (st_tick s) CheckManager.last_check_time_format))
      (st_aggregate s).
Proof. reflexivity. Qed.

(** The answer of [get_server_results] when the snapshot file holds the
    text of a writable aggregate. *)
Lemma server_results_read (E : env) (s : state) (agg : list (string * aggval))
  (server_name : string) :
  dict_get snapshot_path (st_files s)
  = Some (Json.dumps (CheckManager.snapshot_json (e_world E) agg)) ->
  writable (e_world E) agg ->
  Routes.get_server_results server_name E s
  = (Ok match dict_get server_name agg with
        | Some (AList (o :: outcomes)) =>
            {| r_body := JArr (map (CheckManager.outcome_json (e_world E)) (o :: outcomes));
               r_status := 200 |}
        | Some (AStr stamp) =>
            if String.eqb stamp EmptyString then Routes.not_found
            else {| r_body := JStr stamp; r_status := 200 |}
        | Some (AList []) | None => Routes.not_found
        end, s).
Proof.
  intros Hfile Hw.
  pose proof (read_written E s agg Hfile Hw) as Hread.
  unfold Routes.get_server_results, Api.read_results, bind. rewrite Hread.
  unfold CheckManager.snapshot_json at 1. cbv beta iota.
  rewrite snapshot_member. unfold library, ret.
  destruct (dict_get server_name agg) as [[[|o outcomes]|stamp]|];
    cbn [option_map py_bool map negb]; try reflexivity.
  destruct (String.eqb stamp EmptyString); reflexivity.
Qed.

(** X26.  After a flush of a writable aggregate, [GET /results/<name>]
    answers with the outcomes of the server, in the order they were
    logged, when the aggregate holds at least one outcome for that name.
    It answers 404 with the body [{"error": "Server not found"}] when the
    name is not a key and also when the list of the server is empty.  The
    key [last-check-time] is served like a server: the answer is the time
    stamp. *)
Theorem server_results_after_flush (E : env) (s : state) (server_name : string) :
  let s' := snd (CheckManager.save_aggregate_results E s) in
  writable (e_world E) (st_aggregate s') ->
  Routes.get_server_results server_name E s'
  = (Ok match dict_get server_name (st_aggregate s') with
        | Some (AList (o :: outcomes)) =>
            {| r_body := JArr (map (CheckManager.outcome_json (e_world E)) (o :: outcomes));
               r_status := 200 |}
        | Some (AStr stamp) =>
            if String.eqb stamp EmptyString then Routes.not_found
            else {| r_body := JStr stamp; r_status := 200 |}
        | Some (AList []) | None => Routes.not_found
        end, s').
Proof.
  intros s' Hw.
  destruct (flush_state E s) as (_ & Hfile & _).
  exact (server_results_read E s' (st_aggregate s') server_name Hfile Hw).
Qed.

Lemma server_results_after_flush_witness :
  let s := set_aggregate (fun _ => Fleet.quiet_round) (initial_state []) in
  let s' := snd (CheckManager.save_aggregate_results Fleet.healthy_env s) in
  Routes.get_server_results "TG1" Fleet.healthy_env s'
  = (Ok {| r_body := JArr [CheckManager.outcome_json Fleet.healthy
                           {| o_check_name := "PING"; o_result := "Success";
                              o_response_time := Some (PFloat (21 # 500)) |}];
           r_status := 200 |}, s').
Proof.
  apply (server_results_after_flush Fleet.healthy_env
           (set_aggregate (fun _ => Fleet.quiet_round) (initial_state [])) "TG1").
  vm_compute. reflexivity.
Defined.

(** X27.  Once a flush has written a writable aggregate, the failure path
    works: for a server other than [TG1], and while the relay accepts the
    posts, [handle_failure] reads the snapshot, enters the Notify-Failure
    strategy and sends the alert once to every chat, in their configured
    order. *)
Theorem failure_alert_after_flush (E : env) (s : state)
  (server_name check_name check_type : string) :
  let s' := snd (CheckManager.save_aggregate_results E s) in
  let message :=
    ("❗❗❗ТРИВОГА" ++ PyStr.nl ++ PyStr.nl ++ server_name ++ ": " ++ check_name
     ++ " НЕ ВІДПОВІДАЄ")%string in
  writable (e_world E) (st_aggregate s') ->
  server_name <> "TG1" ->
  (forall n id text, w_post (e_world E) n alert_url id text = Ok tt) ->
  let run := CheckManager.handle_failure server_name check_name check_type E s' in
  fst run = Ok tt
  /\ st_posts (snd run)
     = (st_posts s ++ map (fun id => (id, message)) (chats (e_config E)))%list
  /\ new_events s' (snd run)
     = [EvHandleFailure server_name check_name check_type;
        EvStrategy NotifyFailureStrategy server_name check_name].
Proof.
  intros s' message Hw Hname Hpost.
  destruct (flush_state E s) as (_ & Hfile & Hposts & _).
  fold s' in Hfile, Hposts.
  assert (Hrun : exists s2,
             CheckManager.handle_failure server_name check_name check_type E s' = (Ok tt, s2)
             /\ st_posts s2
                = (st_posts s ++ map (fun id => (id, message)) (chats (e_config E)))%list
             /\ st_trace s2
                = (st_trace s'
                   ++ [EvHandleFailure server_name check_name check_type;
                       EvStrategy NotifyFailureStrategy server_name check_name])%list).
  { unfold CheckManager.handle_failure, bind at 1 2, emit, modify.
    set (s1 := set_trace _ s').
    assert (Hfile1 : dict_get snapshot_path (st_files s1)
                     = Some (Json.dumps
                               (CheckManager.snapshot_json (e_world E) (st_aggregate s'))))
      by exact Hfile.
    rewrite (read_written E s1 (st_aggregate s') Hfile1 Hw).
    assert (Hstrategy : StrategyFactory.get_strategy server_name check_type
                          (CheckManager.snapshot_json (e_world E) (st_aggregate s'))
                        = NotifyFailureStrategy).
    { unfold StrategyFactory.get_strategy, CheckManager.snapshot_json. cbn [py_eq_str].
      apply String.eqb_neq in Hname. now rewrite Hname. }
    rewrite Hstrategy. unfold strategy_handle, NotifyFailure.handle, bind at 1 2, emit,
      modify, global.
    cbv beta iota.
    destruct (broadcast_posts E message (chats (e_config E))
                (set_trace (fun t => t ++ [EvStrategy NotifyFailureStrategy server_name
                                              check_name])%list s1) Hpost)
      as (s2 & Hrun & Hp).
    exists s2. split; [exact Hrun|]. split.
    - rewrite Hp. unfold s1. cbn [st_posts set_trace]. now rewrite Hposts.
    - pose proof (frame_trace _ (notify_failure_frame server_name check_name) E
                    (set_trace (fun t => t ++ [EvStrategy NotifyFailureStrategy server_name
                                                  check_name])%list s1)) as Htr.
      unfold NotifyFailure.handle, bind at 1, global in Htr. cbv beta iota in Htr.
      fold message in Htr. rewrite Hrun in Htr. cbn [snd] in Htr.
      rewrite Htr. unfold s1. cbn [st_trace set_trace]. now rewrite <- app_assoc. }
  destruct Hrun as (s2 & Hrun & Hp & Htr).
  intros run. subst run. rewrite Hrun. cbn [fst snd].
  split; [reflexivity|]. split; [exact Hp|]. apply new_events_app. exact Htr.
Qed.

Lemma failure_alert_after_flush_witness :
  let s := set_aggregate (fun _ => Fleet.quiet_round) (initial_state []) in
  let s' := snd (CheckManager.save_aggregate_results Fleet.healthy_env s) in
  let run := CheckManager.handle_failure "WEB1" "TELNET" "telnet" Fleet.healthy_env s' in
  fst run = Ok tt
  /\ st_posts (snd run)
     = map (fun id => (id, ("❗❗❗ТРИВОГА" ++ PyStr.nl ++ PyStr.nl ++ "WEB1" ++ ": "
                            ++ "TELNET" ++ " НЕ ВІДПОВІДАЄ")%string)) [1001%Z; 1002%Z]
  /\ new_events s' (snd run)
     = [EvHandleFailure "WEB1" "TELNET" "telnet";
        EvStrategy NotifyFailureStrategy "WEB1" "TELNET"].
Proof.
  apply (failure_alert_after_flush Fleet.healthy_env
           (set_aggregate (fun _ => Fleet.quiet_round) (initial_state []))
           "WEB1" "TELNET" "telnet").
  - vm_compute. reflexivity.
  - discriminate.
  - reflexivity.
Defined.

(** X28.  From the worker to the API.  An outcome that [log_result]
    records for a server, that is, when the call returns, is served by
    [GET /results/<server>] after the next flush, as the last item of the
    list of that server and after the outcomes recorded before. *)
Theorem logged_outcome_is_served (E : env) (s : state) (server_name check_name : string)
  (result : bool) (response_time : option pynum) :
  let logged := CheckManager.log_result server_name check_name result response_time E s in
  let s1 := snd logged in
  let s2 := snd (CheckManager.save_aggregate_results E s1) in
  fst logged = Ok tt ->
  server_name <> "last-check-time" ->
  writable (e_world E) (st_aggregate s2) ->
  Routes.get_server_results server_name E s2
  = (Ok {| r_body :=
             JArr (map (CheckManager.outcome_json (e_world E))
                     (outcomes_of server_name (st_aggregate s)
                      ++ [CheckManager.outcome_of check_name result response_time])%list);
           r_status := 200 |}, s2).
Proof.
  intros logged s1 s2 Hlogged Hname Hw.
  destruct (flush_state E s1) as (_ & Hfile & _). fold s2 in Hfile.
  rewrite (server_results_read E s2 (st_aggregate s2) server_name Hfile Hw).
  unfold s2 at 1. rewrite flush_aggregate, dict_get_set_other by exact Hname.
  destruct (log_result_aggregate server_name check_name result response_time E s)
    as [(_ & _ & _ & Hagg)|(_ & (e & Hraise) & _)];
    [|exfalso; fold logged in Hraise; congruence].
  cbv zeta in Hagg. fold logged in Hagg. fold s1 in Hagg. rewrite Hagg, dict_get_set_same.
  destruct (outcomes_of server_name (st_aggregate s)
            ++ [CheckManager.outcome_of check_name result response_time])%list
    as [|o outcomes] eqn:Hlist; [|reflexivity].
  apply app_eq_nil in Hlist as [_ Hlist]. discriminate.
Qed.

Lemma logged_outcome_is_served_witness :
  let E := Fleet.healthy_env in
  let s := set_aggregate (fun _ => Fleet.quiet_round) (initial_state []) in
  let s1 := snd (CheckManager.log_result "TG1" "BOT" false (Some (PInt 0)) E s) in
  let s2 := snd (CheckManager.save_aggregate_results E s1) in
  Routes.get_server_results "TG1" E s2
  = (Ok {| r_body :=
             JArr (map (CheckManager.outcome_json Fleet.healthy)
                     [{| o_check_name := "PING"; o_result := "Success";
                         o_response_time := Some (PFloat (21 # 500)) |};
                      {| o_check_name := "BOT"; o_result := "Failure";
                         o_response_time := Some (PInt 0) |}]);
           r_status := 200 |}, s2).
Proof.
  apply (logged_outcome_is_served Fleet.healthy_env
           (set_aggregate (fun _ => Fleet.quiet_round) (initial_state []))
           "TG1" "BOT" false (Some (PInt 0))).
  - reflexivity.
  - discriminate.
  - vm_compute. reflexivity.
Defined.

(** X29.  The routes answer only when the snapshot file is a complete
    document.  While the flush is between the [open] that truncates the file
    and the write, [GET /results] and [GET /results/<name>] both raise the
    [JSONDecodeError] of [read_results]; while the file does not exist, they
    both raise its [FileNotFoundError].  In neither case is a body
    returned. *)
Theorem routes_need_complete_snapshot (E : env) (s : state) (server_name : string) :
  let during := snd (CheckManager.begin_flush E s) in
  Routes.get_results E during = (Raise (Exn JSONDecodeError "Expecting value"), during)
  /\ Routes.get_server_results server_name E during
     = (Raise (Exn JSONDecodeError "Expecting value"), during)
  /\ (dict_get snapshot_path (st_files s) = None ->
      Routes.get_results E s = (Raise snapshot_missing, s)
      /\ Routes.get_server_results server_name E s = (Raise snapshot_missing, s)).
Proof.
  cbv zeta.
  assert (Hduring : load_snapshot E (snd (CheckManager.begin_flush E s))
                    = (Raise (Exn JSONDecodeError "Expecting value"),
                       snd (CheckManager.begin_flush E s))).
  { unfold CheckManager.begin_flush, CheckManager.open_truncate, load_snapshot, emit,
      external, modify, gets, bind.
    cbn [fst snd st_files set_files set_aggregate set_trace set_tick].
    rewrite dict_get_set_same. reflexivity. }
  unfold Routes.get_results, Routes.get_server_results, Api.read_results, bind.
  rewrite Hduring. split; [reflexivity|]. split; [reflexivity|].
  intros Hmissing.
  assert (Hload : load_snapshot E s = (Raise snapshot_missing, s)).
  { unfold load_snapshot, gets, bind. cbn [fst snd]. rewrite Hmissing. reflexivity. }
  rewrite Hload. split; reflexivity.
Qed.

(** X30.  The failover, from the probe to the alert.  After a flush of a
    writable aggregate, a ping check of the server [TG1] whose first [ping]
    ends with a return code other than 0, and whose second [ping] writes an
    output that can be decoded as cp1251 and shows no [time=], is recorded
    as a failure with the response time [-1.0], provided the logger of
    [TG1] can take the record after the two pings and the key [TG1] of the
    aggregate does not hold a string; [run_check] then reads the snapshot,
    enters the Migrate-Services strategy, stops the services of [TG1],
    starts the two bots on [TG2] and sends every chat the message that
    reports both steps, provided both servers are configured with
    credentials and accept SSH connections, the peer address of a session
    can be read, every service check of [TG1] names its service and the
    relay accepts the posts. *)
Theorem failed_ping_on_primary_migrates (E : env) (s0 : state)
  (server : ServerConfig) (check : CheckConfig) (tg1 tg2 : ServerConfig)
  (user1 password1 user2 password2 : string) (code code' : Z) (output output' : string)
  (text' : list N) :
  let st := snd (CheckManager.save_aggregate_results E s0) in
  let ping := ["ping"; "-c"; "1"; s_host server] in
  writable (e_world E) (st_aggregate st) ->
  holds_no_string "TG1" (st_aggregate st) ->
  s_name server = "TG1" ->
  c_type check = "ping" ->
  w_subprocess_run (e_world E) (st_tick st) ping = Ok (code, output) ->
  code <> 0%Z ->
  w_subprocess_run (e_world E) (S (st_tick st)) ping = Ok (code', output') ->
  Cp1251.decode output' = Ok text' ->
  Text.py_in (Text.of_string "time=") text' = false ->
  log_ready E "TG1" (set_tick S (set_tick S st)) = true ->
  List.find (fun server => String.eqb (s_name server) "TG1") (servers (e_config E)) = Some tg1 ->
  List.find (fun server => String.eqb (s_name server) "TG2") (servers (e_config E)) = Some tg2 ->
  s_user tg1 = Some user1 -> s_password tg1 = Some password1 ->
  s_user tg2 = Some user2 -> s_password tg2 = Some password2 ->
  (forall n host user password, w_ssh_connect (e_world E) n host 22 user password = Ok tt) ->
  (forall n ssh, exists peer, w_peername (e_world E) n ssh = Ok peer) ->
  (forall check, In check (s_checks tg1) -> c_type check = "service" ->
                 c_service check <> None) ->
  (forall n id text, w_post (e_world E) n alert_url id text = Ok tt) ->
  let run := CheckManager.run_check server check E st in
  let message :=
    (MoveServices.header "TG1" (c_name check) ++ MoveServices.primary_note true
     ++ MoveServices.secondary_note true)%string in
  fst run = Ok tt
  /\ outcomes_of "TG1" (st_aggregate (snd run))
     = (outcomes_of "TG1" (st_aggregate st)
        ++ [CheckManager.outcome_of (c_name check) false (Some (PFloat (-1)))])%list
  /\ (exists ssh1 ssh2,
        ss_host ssh1 = s_host tg1 /\ ss_host ssh2 = s_host tg2
        /\ st_ssh (snd run)
           = (st_ssh st
              ++ (SshOpen ssh1
                  :: map (fun service => SshExec ssh1 ("systemctl stop " ++ service)%string)
                       (service_names tg1)
                  ++ [SshClose ssh1])
              ++ [SshOpen ssh2;
                  SshExec ssh2 "systemctl start adp-client-bot.service";
                  SshExec ssh2 "systemctl start adp-shop-bot.service";
                  SshClose ssh2])%list)
  /\ st_posts (snd run)
     = (st_posts st ++ map (fun id => (id, message)) (chats (e_config E)))%list
  /\ new_events st (snd run)
     = [EvHandleFailure "TG1" (c_name check) "ping";
        EvStrategy MoveServicesStrategy "TG1" (c_name check)].
Proof.
  intros st ping Hw Hns Hname Htype Hrun1 Hcode Hrun2 Hdec Habsent Hready
    H1 H2 Hu1 Hp1 Hu2 Hp2 Hconn Hpeer Hkeys Hpost.
  destruct (flush_state E s0) as (_ & Hfile & _). fold st in Hfile.
  set (monitor := PingObj (s_host server)).
  set (s1 := set_tick S st). set (s2 := set_tick S s1).
  assert (Hsel : CheckManager.select_monitor server check E st = (Ok (Some monitor), st)).
  { unfold CheckManager.select_monitor. rewrite Htype. reflexivity. }
  assert (Hchk : monitor_check monitor E st = (Ok false, s1)).
  { cbn [monitor monitor_check].
    unfold ServerPingMonitor.check, subprocess_run, external, bind.
    fold ping. rewrite Hrun1. cbn [fst ret].
    apply Z.eqb_neq in Hcode. now rewrite Hcode. }
  assert (Hrt : monitor_response_time monitor E s1 = (Ok (PFloat (-1)), s2)).
  { cbn [monitor monitor_response_time].
    rewrite (ping_response_time_decoded (s_host server) E s1 code' output' text' Hrun2 Hdec).
    rewrite find_at_start.
    apply (text_find_from_none (Text.of_string "time=") text' 0) in Habsent.
    rewrite Habsent. reflexivity. }
  destruct (log_result_returns (s_name server) (c_name check) false (Some (PFloat (-1))) E s2)
    as [s3 Hlog]; [rewrite Hname; exact Hready|rewrite Hname; exact Hns|].
  destruct (log_line_returns (s_name server) (c_name check) false (Some (PFloat (-1))) E)
    as [line Hline].
  destruct (log_result_recorded _ _ _ _ E s2 s3 line Hline Hlog)
    as (Hout & _ & _ & Hssh3 & Hposts3 & Hfiles3 & Htrace3).
  rewrite Hname in Hout.
  set (s4 := set_trace
               (fun t => t ++ [EvStrategy MoveServicesStrategy "TG1" (c_name check)])%list
               (set_trace
                  (fun t => t ++ [EvHandleFailure "TG1" (c_name check) "ping"])%list s3)).
  destruct (move_services_runs "TG1" (c_name check) E s4 tg1 tg2 user1 password1
              user2 password2 H1 H2 Hu1 Hp1 Hu2 Hp2 Hconn Hpeer Hkeys Hpost)
    as (s5 & ssh1 & ssh2 & Hmove & Hh1 & Hh2 & Hssh5 & Hposts5).
  pose proof (move_services_frame "TG1" (c_name check) E s4) as F.
  rewrite Hmove in F. unfold handler_body_view in F. cbn [snd] in F.
  injection F as Fagg _ _ _ Ftrace.
  assert (Hall : CheckManager.run_check server check E st = (Ok tt, s5)).
  { rewrite (run_check_classified E st s1 s2 s3 server check monitor false (PFloat (-1))
               Hsel Hchk Hrt Hlog).
    unfold try_except, CheckManager.escalate. rewrite Htype, Hname.
    change (negb (PyStr.py_in "ping" CheckManager.resource_types)) with true.
    cbn [negb]. cbv iota.
    unfold CheckManager.handle_failure, bind at 1 2, emit, modify.
    assert (Hfile3 : dict_get snapshot_path
                       (st_files (set_trace
                                    (fun t => t ++ [EvHandleFailure "TG1" (c_name check)
                                                      "ping"])%list s3))
                     = Some (Json.dumps
                               (CheckManager.snapshot_json (e_world E) (st_aggregate st)))).
    { cbn [st_files set_trace]. rewrite Hfiles3. exact Hfile. }
    rewrite (read_written E _ (st_aggregate st) Hfile3 Hw).
    assert (Hstrategy : StrategyFactory.get_strategy "TG1" "ping"
                          (CheckManager.snapshot_json (e_world E) (st_aggregate st))
                        = MoveServicesStrategy) by reflexivity.
    rewrite Hstrategy. unfold strategy_handle, bind at 1, emit, modify.
    fold s4. rewrite Hmove. reflexivity. }
  intros run message. subst run. rewrite Hall. cbn [fst snd].
  split; [reflexivity|]. split; [now rewrite Fagg|]. split.
  - exists ssh1, ssh2. split; [exact Hh1|]. split; [exact Hh2|].
    rewrite Hssh5. unfold s4. cbn [st_ssh set_trace]. rewrite Hssh3. reflexivity.
  - split.
    + rewrite Hposts5. unfold s4. cbn [st_posts set_trace]. rewrite Hposts3. reflexivity.
    + apply new_events_app. rewrite Ftrace. unfold s4. cbn [st_trace set_trace].
      rewrite Htrace3. rewrite <- app_assoc. reflexivity.
Qed.

Lemma failed_ping_on_primary_migrates_witness :
  let E := Fleet.ping_lost_env in
  let st := snd (CheckManager.save_aggregate_results E (initial_state [])) in
  let run := CheckManager.run_check Fleet.tg1 Fleet.ping_check E st in
  let message :=
    (MoveServices.header "TG1" "PING" ++ MoveServices.primary_note true
     ++ MoveServices.secondary_note true)%string in
  fst run = Ok tt
  /\ outcomes_of "TG1" (st_aggregate (snd run))
     = [CheckManager.outcome_of "PING" false (Some (PFloat (-1)))]
  /\ (exists ssh1 ssh2,
        ss_host ssh1 = "10.0.0.1" /\ ss_host ssh2 = "10.0.0.2"
        /\ st_ssh (snd run)
           = [SshOpen ssh1; SshExec ssh1 "systemctl stop adp-client-bot.service";
              SshClose ssh1;
              SshOpen ssh2; SshExec ssh2 "systemctl start adp-client-bot.service";
              SshExec ssh2 "systemctl start adp-shop-bot.service"; SshClose ssh2])
  /\ st_posts (snd run) = map (fun id => (id, message)) [1001%Z; 1002%Z]
  /\ new_events st (snd run)
     = [EvHandleFailure "TG1" "PING" "ping"; EvStrategy MoveServicesStrategy "TG1" "PING"].
Proof.
  apply (failed_ping_on_primary_migrates Fleet.ping_lost_env (initial_state [])
           Fleet.tg1 Fleet.ping_check Fleet.tg1 Fleet.tg2 "root" "secret" "root" "secret"
           1%Z 1%Z "1 packets transmitted, 0 received" "1 packets transmitted, 0 received"
           (Text.of_string "1 packets transmitted, 0 received"));
    try reflexivity.
  - intros text H. discriminate.
  - discriminate.
  - intros n ssh. exists (ss_host ssh). reflexivity.
  - intros check [<-|[<-|[]]] Htype; simpl; discriminate.
Defined.
